(* ===== verification/_CoqProject ===== *)
-Q . S2P
Prelude.v
Float64.v
JsonLib.v
Interfaces.v
DataPacket.v
PacketTests.v
DuplicateTest.v
Broadcast.v
Sanitizer.v
Authentication.v
Proxy.v
SeedLink.v
SeedLinkPublisher.v
WebServer.v
WebSessions.v
Schedules.v
Lines.v
Ownership.v
SanitizerThreads.v
SanitizerProgress.v
SubscriberThreads.v
BroadcasterThreads.v
BroadcasterProgress.v
ServiceThreads.v
ProxyThreads.v
ProxyStop.v
Pipeline.v
OatServer.v
