(* ===== verification/Prelude.v ===== *)
(** * us8: a verification development

    us8 moves seismic waveform packets between processes.  A broadcaster
    reads miniSEED from a SEEDLink server and publishes data packets; a proxy
    fans them out; a sanitizer subscribes, drops packets from the future,
    packets that are too old and duplicates, and publishes the rest.  The
    processes talk over ZeroMQ with ZAP authentication.  A small HTTP and
    WebSocket server is part of the sources but not of the build.

    ** The files, in dependency order

    - Prelude (this file): outcomes of C++ calls, integers of fixed width,
      durations, byte strings, lists, the tactics and hints all files share.
    - Float64: IEEE binary64 and binary32 with the conversions and roundings
      of C++, on [spec_float].
    - JsonLib: nlohmann::json as a class [JsonLib] with laws [JsonLaws], and
      the instance [TinyJson] that satisfies them.
    - Interfaces: log lines; boost::circular_buffer, the reader-writer queue
      and the property tree as classes with laws and list instances; the
      draining of overfull queues ([drainTo]); the flag that signals raise
      ([pollFlag]); the interface [RateLimited] of the packet tests that
      write reports.
    - DataPacket: messageFormats/broadcasts/dataPacket.cpp,
      messageFormats/message.cpp and private/isEmpty.hpp.  [DataPacketImpl] is
      the record of that name; every setter and getter has a definition of
      its name; [serialize] and [deserialize] go through [toJSONObject] and
      [objectToDataPacket] as in the code.
    - PacketTests: sanitizer/toName.hpp, testFutureDataPacket.cpp (Module
      [Future]) and testExpiredDataPacket.cpp (Module [Expired]).
    - DuplicateTest: sanitizer/testDuplicateDataPacket.cpp, with an abstract
      specification [spec] over a map from channels to lists of headers.
    - Broadcast: publisherOptions.cpp, publisher.cpp, subscriberOptions.cpp,
      subscriber.cpp, importClient.cpp of broadcasts/dataPacket (one Module
      per class) and version.cpp.
    - Sanitizer: sanitizer/sanitizer.cpp: options, ini file, command line,
      the [Process], one pass of each of its loops ([checkStep],
      [publishStep]), the subscriber's callback, and [worldRun], which
      interleaves them.
    - Authentication: messaging/authentication and
      messaging/zeromq/authentication (Modules [Credential], [Grasslands], the
      five socket option classes, [Service]).
    - Proxy: broadcasts/dataPacket/proxy.cpp with its command states.
    - SeedLink: streamSelector.cpp, clientOptions.cpp and client.cpp of
      broadcasts/dataPacket/seedLink.
    - SeedLinkPublisher: seedLink/publisher.cpp, the broadcaster.
    - WebServer: services/webServer: requests and answers, connections and
      WebSocket sessions as operations that start and complete, the listener.
    - WebSessions: the objects of a connection in server.hpp, and what the
      detector hands to the session it launches.
    - Schedules: infinite runs, fair schedulers, [leads_to] and the rule of
      progress by a well-founded measure; runs of one thread on its own.
    - Lines: two threads with a queue between them, and the argument that what
      is in such a line leaves it.
    - Ownership: the objects of the copyable classes, the implementations they
      own through [pImpl], and the heap; [libraryClass] lists the classes.
    - SanitizerThreads: [checkPackets] and [publishGoodPackets] of
      sanitizer.cpp by program counter ([checkerStep], [publisherStep]), and
      the abstract [relay].
    - SanitizerProgress: what is inside a running sanitizer leaves it.
    - SubscriberThreads: [listen] of subscriber.cpp against those who call
      [start], [stop] and the destructor, by program counter.
    - BroadcasterThreads: the publishing thread of publisher.cpp, the reader
      of client.cpp and the main thread with the destructors, by program
      counter.
    - BroadcasterProgress: what is inside a running broadcaster leaves it.
    - ServiceThreads: [start], [stop] and the destructor of the ZAP service
      against [runZAPThread], by program counter.
    - ProxyThreads: the main thread of proxy.cpp from the signal to the last
      destructor, the steerable proxy, and two services of ServiceThreads.
    - ProxyStop: [stop] of proxy.cpp as one step, refined by that of
      ProxyThreads; [pause] and [resume] before it.
    - Pipeline: a broadcaster, a sanitizer and a client of it, composed over
      two wires.
    - OatServer: src/webServer, the prototype of the server on oatpp, with
      its [run] and [main].

    ** How the code is modelled

    A fallible call is an [outcome]: a value, an exception, or undefined
    behaviour, which nothing catches.  A method takes the state of its object
    and returns the new one.  A signed sum that may overflow goes through
    [to_i64] or [to_i32]; unsigned arithmetic and narrowing wrap.  The clock
    is an argument of each call that reads it.  Log lines at level info and
    above are part of the result.  A ZeroMQ socket is the list of the calls
    made on it, and the parameter [env] says how the library answers the next
    call given those before it, so a theorem about every [env] holds whatever
    the library does.

    Threads are modelled twice where it matters.  In the file of a component
    a thread is one pass of its loop, and threads that share state are
    interleaved by a list of events, each one pass.  The files whose names
    end in Threads go down to single accesses of the flags, queues and
    sockets the threads share, in any order; [passes_are_runs] says that the
    passes of Sanitizer are runs of its threads at that grain, and
    BroadcasterThreads has the same for its own ([sendStep_runs],
    [pollStep_runs]).  What must happen in the end is stated of schedules
    that never end and give every thread its turns ([fair]).  In the same
    way the other files treat an object as the value of its implementation,
    which Ownership justifies by a heap with pointers.

    ** What the theorems show

    - The packet: serialization is a round trip up to the sample type
      ([serialize_deserialize]), reachable packets are well formed
      ([reachable_wf]), what is decoded is well typed
      ([deserialize_sound]), the setters and the end time are characterised;
      packets without samples and wide integers are the exceptions
      ([header_only_undefined], [integer64_samples_change]).
    - The future and expired tests: the exact window ([window_test]), no
      rejected packet is lost from the reports ([rejected_reported]).
    - The duplicate test: refinement of its specification, which leaves one
      verdict for each header ([allowHeader_refines]), the order of its buffers, rejection of
      retransmissions, totality ([allow_answers]), and the inputs on which it
      does not decide or is undefined.  The reports of the three tests are
      spaced over runs that go on after an exception ([report_spacing],
      through the interface [RateLimited]).
    - Publisher and subscriber: what is published is received
      ([published_is_received]), every message is accounted for, how sockets
      are configured; stopping a subscriber starts it, which loses no message
      ([restarts_lose_nothing]), and returns when the time-out is finite or
      messages keep coming ([subscriber_calls_return]).
    - The sanitizer: its threads refine the abstract relay at every
      interleaving of single accesses ([threads_refine_relay]), so only
      packets that passed the tests are sent, in order and once; whatever is
      inside leaves it ([sanitizer_makes_progress]); its threads end
      after [stop] ([stop_ends_threads]); what a pass of the publishing thread
      does to its queue; the configuration; and what the destruction of the
      process meets when a packet still arrives
      ([shutdown_uses_dead_queue]).
    - Authentication: which requests are answered, and how
      ([zap_reply_complete]); that credentials do not matter
      ([credentials_not_consulted]); when the loop ends; which keys reach the
      library ([stonehouse_client_keys]); and under every interleaving, when [stop] returns ([service_stop]) and
      when the second one, of the destructor, does ([destructor_stop]).
    - The proxy: its command states and when [stop] returns
      ([stop_after_pause_blocks]); and whether the program ends, which the
      moment of the signal decides ([proxy_ends_or_never]); its [stop],
      interleaved with three other threads, does what the one step does
      ([stop_is_one_step]), and after a pause never returns
      ([paused_never_ends]).
    - The SEEDLink client: unpacking, and what of a record is in its packet
      ([miniSEED_unpacks]), the life of the connection ([client_lifecycle]),
      selectors, the state file.
    - The broadcaster: its three threads refine the relay, with its gauges
      ([broadcaster_refines_relay]); while it runs, what is inside leaves it
      ([broadcaster_makes_progress]); it goes down without using what it has
      destroyed ([broadcaster_goes_down_in_order]) and gets to the end
      ([broadcaster_shuts_down]).  That its metrics may end the program
      ([main_uncaught]) and which selectors it accepts are lemmas.
    - The server: the life of an HTTP connection ([connection_serves]) and the
      write queue of a WebSocket session ([replies_in_order]) under every
      order of completions.  WebSessions and the prototype have lemmas only
      ([bytes_handed_over], [main_balanced]).
    - The whole: what a client of the sanitizer receives, from what the
      broadcaster unpacked, with the threads of both one access at a time
      ([end_to_end]); objects with pointers are
      values ([objects_are_values]).

    ** Bounds and fuel

    Three recursions of the code are not structural.  [unpackRecords] has
    one unit of fuel per byte of the buffer, and a record takes at least one
    byte, so it never runs out ([miniSEED_unpacks]).  [drainTo] has one unit
    per element of the queue, of which each turn removes one
    ([drainTo_spec]).  The selectors of an ini file are read from the 32768
    names the code's loop counts through; [readSelectors] takes the range as
    arguments, and examples use a shorter one.

    The runs by program counter have no fuel of their own: they are lists of
    steps of any length.  [threadRun] takes a number of steps, and
    [service_stop] shows that eight are enough for the ZAP thread to end.

    ** What is not modelled

    The libraries themselves (ZeroMQ, nlohmann::json, boost, spdlog,
    OpenTelemetry, libmseed, libslink, oatpp), which are parameters with the
    laws the code relies on ([Blocking] has those of the sockets of the ZAP
    service, which may fail to open, and [Link] the socket that libslink has
    open when a client is destroyed); debug log lines; the TLS handshake of the server
    and the bytes on its sockets, but for those the detector hands on.
    src/webServer/dataBroadcast.cpp uses a class that nothing declares: to
    make one is a call of the library to the model.  Memory is sequentially
    consistent, as the defaults of [std::atomic] have it.  A scheduler is
    fair to threads, and time passes only as the clock readings say.  A wire
    between two processes may lose any packet, as ZeroMQ's publishers do, so
    that progress is shown of each process and not across them.  The headers
    under src/include declare and document what the sources define; what is
    left of the sources that no definition covers is declarations, comments
    and debug output. *)
From Stdlib Require Import ZArith Ascii String Lia.
From stdpp Require Import base tactics list gmap strings sorting numbers pretty.

Open Scope Z_scope.

(** ** Outcomes of a C++ call

    A call returns a value, throws an exception, or runs into undefined
    behaviour.  [try ... catch] intercepts [Throw] only: [Undef] is never
    recovered from. *)
Inductive exn :=
  | InvalidArgument (what : string)
  | RuntimeError (what : string)
  | OutOfRange (what : string)
  | BadRequest (what : string)
  | Unauthorized (what : string)
  | Forbidden (what : string)
  | InternalServerError (what : string)
  | LibraryError (what : string).

Definition what (e : exn) : string :=
  match e with
  | InvalidArgument w | RuntimeError w | OutOfRange w | BadRequest w
  | Unauthorized w | Forbidden w | InternalServerError w | LibraryError w => w
  end.

Inductive outcome (A : Type) :=
  | Ok (a : A)
  | Throw (e : exn)
  | Undef.
Arguments Ok {A} a.
Arguments Throw {A} e.
Arguments Undef {A}.

#[export] Instance outcome_ret : MRet outcome := @Ok.
#[export] Instance outcome_bind : MBind outcome := fun A B f m =>
  match m with
  | Ok a => f a
  | Throw e => Throw e
  | Undef => Undef
  end.
#[export] Instance outcome_fmap : FMap outcome := fun A B f m =>
  match m with
  | Ok a => Ok (f a)
  | Throw e => Throw e
  | Undef => Undef
  end.

#[export] Instance exn_eq_dec : EqDecision exn.
Proof. solve_decision. Defined.
#[export] Instance outcome_eq_dec {A} `{EqDecision A} : EqDecision (outcome A).
Proof. solve_decision. Defined.

(** [try { m } catch (const std::exception &e) { h e }] *)
Definition try_catch {A} (m : outcome A) (h : exn -> outcome A) : outcome A :=
  match m with
  | Throw e => h e
  | _ => m
  end.

Declare Scope us8_scope.
Delimit Scope us8_scope with us8.
Notation "'TRY' m 'CATCH' e => h" := (try_catch m (fun e => h))
  (at level 100, m at level 99, e name, h at level 99,
   format "'[hv' 'TRY'  m '/'  'CATCH'  e  =>  h ']'") : us8_scope.
Open Scope us8_scope.

(** [if (b) { throw e; }] *)
Definition throw_if (b : bool) (e : exn) : outcome unit :=
  if b then Throw e else Ok tt.

(** [assert(b);] of a build without [NDEBUG]: a failure aborts. *)
Definition assert_ (b : bool) : outcome unit := if b then Ok tt else Undef.

Definition of_option {A} (m : option A) : outcome A :=
  match m with Some a => Ok a | None => Undef end.

Definition is_ok {A} (m : outcome A) : bool :=
  match m with Ok _ => true | _ => false end.

(** The hint database of the development; the lemmas are declared where
    they are proved. *)
Create HintDb us8.
Create Rewrite HintDb us8.

Lemma bind_ok {A B} (m : outcome A) (f : A -> outcome B) b :
  m ≫= f = Ok b <-> exists a, m = Ok a /\ f a = Ok b.
Proof.
  destruct m; simpl; split; try (intros (? & ? & ?)); try intros; simplify_eq; eauto.
Qed.

Lemma bind_throw {A B} (m : outcome A) (f : A -> outcome B) e :
  m ≫= f = Throw e <-> m = Throw e \/ exists a, m = Ok a /\ f a = Throw e.
Proof.
  destruct m; simpl; split; try intros [?|(? & ? & ?)]; try intros; simplify_eq; eauto.
Qed.

Lemma assert_ok b u : assert_ b = Ok u <-> b = true.
Proof. destruct b, u; simpl; split; congruence. Qed.

Lemma of_option_ok {A} (m : option A) a : of_option m = Ok a <-> m = Some a.
Proof. destruct m; simpl; split; congruence. Qed.

Lemma throw_if_ok b e u : throw_if b e = Ok u <-> b = false.
Proof. destruct b, u; simpl; split; congruence. Qed.

(** Decompose hypotheses [_ ≫= _ = Ok _] into the successes of the parts. *)
Ltac ok_inv :=
  repeat match goal with
  | H : _ ≫= _ = Ok _ |- _ => apply bind_ok in H as (? & ? & ?)
  | H : throw_if _ _ = Ok _ |- _ => apply throw_if_ok in H
  | H : Ok _ = Ok _ |- _ => injection H as H
  | H : Throw _ = Ok _ |- _ => discriminate H
  | H : Undef = Ok _ |- _ => discriminate H
  | H : mret _ = Ok _ |- _ => injection H as H
  end.

(** ** Machine integers

    Signed overflow and out of range conversions from floating point are
    undefined behaviour; unsigned arithmetic and narrowing between integer
    types wrap. *)
Definition in_i32 (z : Z) : bool := (- 2 ^ 31 <=? z) && (z <? 2 ^ 31).
Definition in_i64 (z : Z) : bool := (- 2 ^ 63 <=? z) && (z <? 2 ^ 63).
Definition to_i32 (z : Z) : outcome Z := if in_i32 z then Ok z else Undef.
Definition to_i64 (z : Z) : outcome Z := if in_i64 z then Ok z else Undef.
Definition wrap_i32 (z : Z) : Z := (z + 2 ^ 31) mod 2 ^ 32 - 2 ^ 31.
Definition wrap_u16 (z : Z) : Z := z mod 2 ^ 16.
Definition wrap_u64 (z : Z) : Z := z mod 2 ^ 64.

Lemma in_i32_spec z : in_i32 z = true <-> - 2147483648 <= z < 2147483648.
Proof. unfold in_i32. change (2 ^ 31) with 2147483648. lia. Qed.

Lemma in_i64_spec z :
  in_i64 z = true <-> - 9223372036854775808 <= z < 9223372036854775808.
Proof. unfold in_i64. change (2 ^ 63) with 9223372036854775808. lia. Qed.

Lemma to_i64_ok z v : to_i64 z = Ok v <-> v = z /\ in_i64 z = true.
Proof.
  unfold to_i64. destruct (in_i64 z); split; [|intros [-> _]; done| |intros [_ ?]; done];
  intros; simplify_eq; done.
Qed.

Lemma to_i32_ok z v : to_i32 z = Ok v <-> v = z /\ in_i32 z = true.
Proof.
  unfold to_i32. destruct (in_i32 z); split; [|intros [-> _]; done| |intros [_ ?]; done];
  intros; simplify_eq; done.
Qed.

Lemma wrap_i32_in_range z : in_i32 (wrap_i32 z) = true.
Proof.
  apply in_i32_spec. unfold wrap_i32. change (2 ^ 31) with 2147483648.
  change (2 ^ 32) with 4294967296. pose proof (Z.mod_pos_bound (z + 2147483648) 4294967296). lia.
Qed.

Lemma wrap_i32_small z : in_i32 z = true -> wrap_i32 z = z.
Proof.
  intros H%in_i32_spec. unfold wrap_i32.
  change (2 ^ 31) with 2147483648. change (2 ^ 32) with 4294967296.
  rewrite Z.mod_small; lia.
Qed.

(** ** Durations

    A [std::chrono] duration is its signed 64 bit count. *)
Definition us_per_s : Z := 1000000.

(** [duration_cast<seconds>] of a count of microseconds truncates. *)
Definition us_to_s (us : Z) : Z := Z.quot us us_per_s.
(** Implicit conversions to the finer unit multiply, in 64 bits. *)
Definition s_to_us (s : Z) : outcome Z := to_i64 (s * us_per_s).
Definition ms_to_us (ms : Z) : outcome Z := to_i64 (ms * 1000).

(** ** Byte strings *)
Definition space : ascii := " "%char.

(** [::toupper] and [std::isspace] in the "C" locale. *)
Definition toupper (c : ascii) : ascii :=
  let n := nat_of_ascii c in
  if ((97 <=? n) && (n <=? 122))%nat then ascii_of_nat (n - 32) else c.

Definition isspace (c : ascii) : bool :=
  let n := nat_of_ascii c in
  ((n =? 32) || ((9 <=? n) && (n <=? 13)))%nat.

Fixpoint str_map (f : ascii -> ascii) (s : string) : string :=
  match s with
  | EmptyString => EmptyString
  | String c s' => String (f c) (str_map f s')
  end.

(** [s.erase(std::remove_if(s.begin(), s.end(), p), s.end())] *)
Fixpoint str_remove_if (p : ascii -> bool) (s : string) : string :=
  match s with
  | EmptyString => EmptyString
  | String c s' =>
      if p c then str_remove_if p s' else String c (str_remove_if p s')
  end.

Fixpoint str_all (p : ascii -> bool) (s : string) : bool :=
  match s with
  | EmptyString => true
  | String c s' => p c && str_all p s'
  end.

Definition str_empty (s : string) : bool :=
  match s with EmptyString => true | String _ _ => false end.

(** [s.starts_with(p)] *)
Definition starts_with (p s : string) : bool := String.prefix p s.

Lemma str_empty_true s : str_empty s = true <-> s = EmptyString.
Proof. by destruct s. Qed.
Lemma str_empty_false s : str_empty s = false <-> s <> EmptyString.
Proof. by destruct s. Qed.

Lemma str_remove_if_all p s :
  str_all (fun c => negb (p c)) (str_remove_if p s) = true.
Proof. induction s as [|c s IH]; simpl; [done|]. destruct (p c) eqn:E; simpl; [done|]. by rewrite E. Qed.

Lemma str_remove_if_id p s :
  str_all (fun c => negb (p c)) s = true -> str_remove_if p s = s.
Proof.
  induction s as [|c s IH]; simpl; [done|]. destruct (p c); simpl; [done|].
  intros H. by rewrite IH.
Qed.

Lemma str_remove_if_empty p s :
  str_remove_if p s = EmptyString <-> str_all p s = true.
Proof.
  induction s as [|c s IH]; simpl; [done|]. destruct (p c); simpl; [done|].
  split; discriminate.
Qed.

Lemma str_all_map p f s : str_all p (str_map f s) = str_all (fun c => p (f c)) s.
Proof. induction s as [|c s IH]; simpl; [done|]. by rewrite IH. Qed.

Lemma str_all_ext p q s :
  (forall c, p c = q c) -> str_all p s = str_all q s.
Proof. intros H. induction s as [|c s IH]; simpl; [done|]. by rewrite H, IH. Qed.

Lemma str_all_weaken p q s :
  (forall c, p c = true -> q c = true) -> str_all p s = true -> str_all q s = true.
Proof.
  intros H. induction s as [|c s IH]; simpl; [done|].
  rewrite !andb_true_iff. intros [??]. auto.
Qed.

Lemma str_map_id f s :
  str_all (fun c => bool_decide (f c = c)) s = true -> str_map f s = s.
Proof.
  induction s as [|c s IH]; simpl; [done|].
  rewrite andb_true_iff, bool_decide_eq_true. intros [-> ?]. by rewrite IH.
Qed.

Lemma str_map_empty f s : str_map f s = EmptyString <-> s = EmptyString.
Proof. by destruct s. Qed.

Lemma toupper_idemp c : toupper (toupper c) = toupper c.
Proof. destruct c as [[] [] [] [] [] [] [] []]; reflexivity. Qed.

Lemma toupper_space c : bool_decide (toupper c = space) = bool_decide (c = space).
Proof. destruct c as [[] [] [] [] [] [] [] []]; reflexivity. Qed.

Lemma space_isspace c : bool_decide (c = space) = true -> isspace c = true.
Proof. rewrite bool_decide_eq_true. by intros ->. Qed.

Lemma starts_with_app p s :
  starts_with p s = true <-> exists r, s = (p +:+ r)%string.
Proof.
  unfold starts_with. revert s. induction p as [|c p IH]; intros s; simpl.
  - split; [by exists s|by destruct s].
  - destruct s as [|c' s].
    + split; [done|]. intros [r E]. discriminate E.
    + cbn [String.prefix]. destruct (ascii_dec c c') as [->|N].
      * split.
        -- intros E. apply IH in E as [r ->]. by exists r.
        -- intros [r E]. apply IH. exists r. by injection E.
      * split; [done|]. intros [r E]. injection E. congruence.
Qed.

(** A prefix without characters to remove survives [str_remove_if]. *)
Lemma str_remove_if_app p a b :
  str_remove_if p (a +:+ b)%string = (str_remove_if p a +:+ str_remove_if p b)%string.
Proof. induction a as [|c a IH]; simpl; [done|]. destruct (p c); simpl; by rewrite IH. Qed.

Lemma starts_with_remove_if p f s :
  str_remove_if f p = p -> starts_with p s = true -> starts_with p (str_remove_if f s) = true.
Proof.
  intros E [r ->]%starts_with_app. apply starts_with_app.
  exists (str_remove_if f r). by rewrite str_remove_if_app, E.
Qed.

Lemma str_app_assoc (a b c : string) : ((a +:+ b) +:+ c = a +:+ (b +:+ c))%string.
Proof.
  induction a as [|x a IH]; [done|].
  change (String x ((a +:+ b) +:+ c) = String x (a +:+ (b +:+ c)))%string. by rewrite IH.
Qed.

Lemma str_length_app (a b : string) :
  String.length (a +:+ b) = (String.length a + String.length b)%nat.
Proof.
  induction a as [|x a IH]; [done|].
  change (S (String.length (a +:+ b)) = S (String.length a + String.length b)).
  by rewrite IH.
Qed.

(** ** Lists *)
Lemma elem_of_drop {A} n (l : list A) x : x ∈ drop n l -> x ∈ l.
Proof. intros I. rewrite <- (take_drop n l). apply elem_of_app. by right. Qed.

Lemma elem_of_take_inv {A} n (l : list A) x : x ∈ take n l -> x ∈ l.
Proof. intros I. rewrite <- (take_drop n l). apply elem_of_app. by left. Qed.

Lemma NoDup_drop {A} n (l : list A) : NoDup l -> NoDup (drop n l).
Proof. rewrite <- (take_drop n l) at 1. intros (_ & _ & ?)%NoDup_app. done. Qed.

(** ** Automation

    The lemmas the components use to take a list or a string apart. *)
#[export] Hint Resolve elem_of_drop elem_of_take_inv NoDup_drop wrap_i32_small
  str_remove_if_all : us8.
#[export] Hint Rewrite toupper_idemp toupper_space str_length_app str_remove_if_app : us8.
