(* ===== verification/Float64.v ===== *)
(** * Binary floating point as the code uses it

    [double] and [float] are IEEE 754 binary64 and binary32, on the axiom
    free [spec_float] of the standard library, with the conversions between
    integers and floating point that C++ performs, [std::round] and
    [std::to_string(double)].  Conversions to integers that do not fit are
    undefined behaviour. *)
From Stdlib Require Import ZArith SpecFloat Lia.
From stdpp Require Import base tactics list strings pretty.
From S2P Require Import Prelude.

Open Scope Z_scope.

Definition double := spec_float.
Definition d_prec : Z := 53.
Definition d_emax : Z := 1024.
Definition f_prec : Z := 24.
Definition f_emax : Z := 128.

#[export] Instance spec_float_eq_dec : EqDecision spec_float.
Proof. solve_decision. Defined.

(** Integer to [double]: round to nearest, ties to even. *)
Definition d_of_Z (z : Z) : double := binary_normalize d_prec d_emax z 0 false.
Definition d_mul : double -> double -> double := SFmul d_prec d_emax.
Definition d_div : double -> double -> double := SFdiv d_prec d_emax.
Definition d_sub : double -> double -> double := SFsub d_prec d_emax.
Definition d_zero : double := S754_zero false.

(** [float] to [double] is exact; [double] to [float] rounds. *)
Definition renormalize (prec emax : Z) (x : spec_float) : spec_float :=
  match x with
  | S754_finite s m e => binary_round prec emax s m e
  | _ => x
  end.
Definition d_of_f (x : spec_float) : double := renormalize d_prec d_emax x.
Definition f_of_d (x : double) : spec_float := renormalize f_prec f_emax x.
Definition f_of_Z (z : Z) : spec_float := binary_normalize f_prec f_emax z 0 false.

(** The quotient [m / 2^k] rounded to nearest, halves away from zero. *)
Definition round_half_up (m k : Z) : Z :=
  Z.shiftr (m + 2 ^ (k - 1)) k.

(** [std::round]: halves away from zero. *)
Definition std_round (x : double) : double :=
  match x with
  | S754_finite s m e =>
      if 0 <=? e then x
      else
        binary_normalize d_prec d_emax
          (cond_Zopp s (round_half_up (Zpos m) (- e))) 0 s
  | _ => x
  end.

(** The integer a finite [double] truncates to. *)
Definition d_trunc (x : double) : option Z :=
  match x with
  | S754_zero _ => Some 0
  | S754_finite s m e =>
      Some (cond_Zopp s (if 0 <=? e then Zpos m * 2 ^ e else Z.shiftr (Zpos m) (- e)))
  | S754_infinity _ | S754_nan => None
  end.

(** [static_cast<int64_t>(x)] and [static_cast<int>(x)] *)
Definition d_to_i64 (x : double) : outcome Z :=
  match d_trunc x with Some z => to_i64 z | None => Undef end.
Definition d_to_i32 (x : double) : outcome Z :=
  match d_trunc x with Some z => to_i32 z | None => Undef end.

Definition d_ltb : double -> double -> bool := SFltb.
Definition d_leb : double -> double -> bool := SFleb.

(** [std::max(a, b)] on [double] *)
Definition d_max (a b : double) : double := if d_ltb a b then b else a.

(** [std::to_string(double)], that is [printf("%f")]: six decimals. *)
Definition pad6 (s : string) : string :=
  String.append (String.substring 0 (6 - String.length s) "000000") s.
Definition div_half_even (a b : Z) : Z :=
  let q := a / b in
  let r := a mod b in
  if 2 * r <? b then q else if b <? 2 * r then q + 1
  else if Z.even q then q else q + 1.
Definition d_to_string (x : double) : string :=
  let sign (s : bool) := if s then "-"%string else ""%string in
  let decimals (n : Z) :=
    String.append (pretty (n / 1000000))
      (String.append "." (pad6 (pretty (n mod 1000000)))) in
  match x with
  | S754_zero s => String.append (sign s) (decimals 0)
  | S754_infinity s => String.append (sign s) "inf"
  | S754_nan => "nan"
  | S754_finite s m e =>
      String.append (sign s)
        (decimals (if 0 <=? e then Zpos m * 2 ^ e * 1000000
                   else div_half_even (Zpos m * 1000000) (2 ^ (- e))))
  end.

(** ** Signs

    [d_isneg] is false on zeros, on NaN and on values whose sign bit is
    clear; the operations the code uses never turn such operands into a
    negative result, so a truncation of the result is at least zero. *)
Definition d_isneg (x : double) : bool :=
  match x with
  | S754_finite s _ _ | S754_infinity s => s
  | S754_zero _ | S754_nan => false
  end.

(** [x > 0]: what the comparison [mSamplingRate > 0] tests. *)
Definition d_positive (x : double) : bool := d_ltb d_zero x.

Lemma d_positive_cases x :
  d_positive x = true ->
  x = S754_infinity false \/ exists m e, x = S754_finite false m e.
Proof. destruct x as [[]|[]| |[] m e]; try discriminate; eauto. Qed.

Lemma binary_round_aux_sign prec emax m e l :
  d_isneg (binary_round_aux prec emax false m e l) = false.
Proof.
  unfold binary_round_aux.
  destruct (shr_fexp _ _ _ _ _) as [r e'], (shr_fexp _ _ (round_nearest_even _ _) _ _) as [r' e''].
  destruct (shr_m r'); [done| |done]. by destruct (_ <=? _).
Qed.

Lemma binary_normalize_sign prec emax z e s :
  0 <= z -> d_isneg (binary_normalize prec emax z e s) = false.
Proof.
  intros Hz. destruct z as [|p|p]; simpl; [done| |lia].
  unfold binary_round. destruct (shl_align _ _ _). apply binary_round_aux_sign.
Qed.

Lemma d_of_Z_sign z : 0 <= z -> d_isneg (d_of_Z z) = false.
Proof. apply binary_normalize_sign. Qed.

Lemma d_mul_sign x y :
  d_isneg x = false -> d_isneg y = false -> d_isneg (d_mul x y) = false.
Proof.
  destruct x as [[]|[]| |[] mx ex], y as [[]|[]| |[] my ey]; simpl; try done;
  intros; apply binary_round_aux_sign.
Qed.

Lemma d_div_sign x y :
  d_isneg x = false -> d_positive y = true -> d_isneg (d_div x y) = false.
Proof.
  intros Hx [->|(my & ey & ->)]%d_positive_cases;
  destruct x as [[]|[]| |[] mx ex]; try done; simpl.
  unfold d_div, SFdiv.
  destruct (SFdiv_core_binary _ _ _ _ _ _) as [[??]?]. apply binary_round_aux_sign.
Qed.

Lemma round_half_up_nonneg m k : 0 <= m -> 0 <= round_half_up m k.
Proof.
  intros. unfold round_half_up. apply Z.shiftr_nonneg.
  pose proof (Z.pow_nonneg 2 (k - 1)). lia.
Qed.

Lemma std_round_sign x : d_isneg x = false -> d_isneg (std_round x) = false.
Proof.
  destruct x as [| | |[] m e]; simpl; try done. intros _.
  destruct (0 <=? e); [done|].
  apply binary_normalize_sign, round_half_up_nonneg. lia.
Qed.

Lemma d_trunc_nonneg x z : d_isneg x = false -> d_trunc x = Some z -> 0 <= z.
Proof.
  destruct x as [|[]| |[] m e]; simpl; intros; simplify_eq; try lia.
  destruct (0 <=? e) eqn:E.
  - pose proof (Z.pow_nonneg 2 e). lia.
  - apply Z.shiftr_nonneg. lia.
Qed.

Lemma d_to_i64_ok x z :
  d_to_i64 x = Ok z <-> d_trunc x = Some z /\ in_i64 z = true.
Proof.
  unfold d_to_i64. destruct (d_trunc x) as [v|].
  - rewrite to_i64_ok. split; [intros [-> ?]; done | intros [[= ->] ?]; done].
  - split; [discriminate | intros [? ?]; discriminate].
Qed.

Lemma d_to_i64_nonneg x z : d_isneg x = false -> d_to_i64 x = Ok z -> 0 <= z.
Proof. intros Hx [? _]%d_to_i64_ok. eauto using d_trunc_nonneg. Qed.

(** Sanity checks against IEEE 754 binary64. *)
Example d_of_Z_one : d_of_Z 1 = S754_finite false 4503599627370496 (-52).
Proof. reflexivity. Qed.
Example std_round_half : d_trunc (std_round (d_div (d_of_Z 5) (d_of_Z 2))) = Some 3.
Proof. reflexivity. Qed.
Example std_round_neg_half :
  d_trunc (std_round (d_div (d_of_Z (-5)) (d_of_Z 2))) = Some (-3).
Proof. reflexivity. Qed.
Example d_to_string_third : d_to_string (d_div (d_of_Z (-1)) (d_of_Z 3)) = "-0.333333"%string.
Proof. reflexivity. Qed.

(** Integers of at most 53 bits are represented exactly. *)
Lemma d_of_Z_large : d_trunc (d_of_Z (2 ^ 53 + 1)) = Some (2 ^ 53).
Proof. reflexivity. Qed.
