(* ===== verification/JsonLib.v ===== *)
(** * The interface of the JSON library

    nlohmann::json is not part of this repository.  [JsonLib] names the calls
    the code makes on it and [JsonLaws] the documented behaviour the code
    relies on: assigning to a key and reading it back, the conversions of
    numbers and arrays, and that decoding an encoded CBOR document gives a
    document with the same contents.  [J] is a document, [V] a value stored
    under a key. *)
From Stdlib Require Import ZArith Ascii String SpecFloat Lia.
From stdpp Require Import base tactics list gmap strings countable.
From S2P Require Import Prelude Float64.

Class JsonLib (J V : Type) := {
  j_null_doc : J;                         (* nlohmann::json obj; *)
  j_set : J -> string -> V -> J;          (* obj[key] = value *)
  j_at : J -> string -> outcome V;        (* operator[] const *)
  j_null : V;
  j_bool : bool -> V;
  j_string : string -> V;
  j_int : Z -> V;
  j_float : double -> V;
  j_ints : list Z -> V;
  j_floats : list double -> V;
  get_string : V -> outcome string;       (* get<std::string> *)
  get_i64 : V -> outcome Z;               (* get<int64_t> *)
  get_double : V -> outcome double;       (* get<double> *)
  get_doubles : V -> outcome (list double);
  to_cbor : J -> string;
  from_cbor : string -> outcome J;
  dump : Z -> J -> string                 (* dump(indent) *)
}.

(** Two values, or two documents, that no reader of the code can tell apart. *)
Definition v_same {J V} `{JsonLib J V} (a b : V) : Prop :=
  get_string a = get_string b /\ get_i64 a = get_i64 b /\
  get_double a = get_double b /\ get_doubles a = get_doubles b.

Definition at_same {J V} `{JsonLib J V} (a b : outcome V) : Prop :=
  match a, b with
  | Ok x, Ok y => v_same x y
  | Throw e, Throw e' => e = e'
  | Undef, Undef => True
  | _, _ => False
  end.

Definition j_same {J V} `{JsonLib J V} (a b : J) : Prop :=
  forall k, at_same (j_at a k) (j_at b k).

Class JsonLaws (J V : Type) `{JsonLib J V} := {
  at_set_eq o k v : j_at (j_set o k v) k = Ok v;
  at_set_ne o k1 v1 k v k' :
    k <> k' -> j_at (j_set (j_set o k1 v1) k v) k' = j_at (j_set o k1 v1) k';
  (* reading a key the object does not hold is undefined *)
  at_absent k v k' : k <> k' -> j_at (j_set j_null_doc k v) k' = Undef;
  get_string_string s : get_string (j_string s) = Ok s;
  get_i64_int z : get_i64 (j_int z) = Ok z;
  get_double_float x : get_double (j_float x) = Ok x;
  get_doubles_ints l : get_doubles (j_ints l) = Ok (d_of_Z <$> l);
  get_doubles_floats l : get_doubles (j_floats l) = Ok l;
  to_cbor_nonempty o : str_empty (to_cbor o) = false;
  from_to_cbor o : exists o', from_cbor (to_cbor o) = Ok o' /\ j_same o' o
}.

Lemma at_same_refl {J V} `{JsonLib J V} (a : outcome V) : at_same a a.
Proof. by destruct a. Qed.

(** Reading a string, a number or an array cannot tell [j_same] documents
    apart. *)
Section same.
Context {J V : Type} `{JsonLib J V}.

Lemma at_same_bind {A} (a b : outcome V) (f : V -> outcome A) :
  at_same a b -> (forall x y, v_same x y -> f x = f y) -> a ≫= f = b ≫= f.
Proof. destruct a, b; simpl; intros; try done; naive_solver. Qed.

Lemma at_string_same (a b : J) k :
  j_same a b -> j_at a k ≫= get_string = j_at b k ≫= get_string.
Proof. intros S. apply (at_same_bind _ _ _ (S k)). by intros x y (? & ? & ? & ?). Qed.
Lemma at_i64_same (a b : J) k :
  j_same a b -> j_at a k ≫= get_i64 = j_at b k ≫= get_i64.
Proof. intros S. apply (at_same_bind _ _ _ (S k)). by intros x y (? & ? & ? & ?). Qed.
Lemma at_double_same (a b : J) k :
  j_same a b -> j_at a k ≫= get_double = j_at b k ≫= get_double.
Proof. intros S. apply (at_same_bind _ _ _ (S k)). by intros x y (? & ? & ? & ?). Qed.
Lemma at_doubles_same (a b : J) k :
  j_same a b -> j_at a k ≫= get_doubles = j_at b k ≫= get_doubles.
Proof. intros S. apply (at_same_bind _ _ _ (S k)). by intros x y (? & ? & ? & ?). Qed.
End same.

(** ** A small document store that satisfies the laws

    It shows the laws can hold, and lets the components be run on concrete
    inputs.  A document is null or a map; its encoding is the bit string of
    its index in the enumeration of documents. *)
Module TinyJson.

Inductive value :=
  | VNull
  | VBool (b : bool)
  | VString (s : string)
  | VInt (z : Z)
  | VFloat (x : double)
  | VInts (l : list Z)
  | VFloats (l : list double).

#[global] Instance value_eq_dec : EqDecision value.
Proof. solve_decision. Defined.

Definition float_code : Type := (bool + (bool + (unit + (bool * positive * Z)))).
Definition float_to_code (x : spec_float) : float_code :=
  match x with
  | S754_zero s => inl s
  | S754_infinity s => inr (inl s)
  | S754_nan => inr (inr (inl tt))
  | S754_finite s m e => inr (inr (inr (s, m, e)))
  end.
Definition float_of_code (c : float_code) : spec_float :=
  match c with
  | inl s => S754_zero s
  | inr (inl s) => S754_infinity s
  | inr (inr (inl _)) => S754_nan
  | inr (inr (inr (s, m, e))) => S754_finite s m e
  end.
#[global] Instance float_countable : Countable spec_float.
Proof. apply (inj_countable' float_to_code float_of_code). by intros []. Defined.

Definition value_code : Type :=
  (unit + (bool + (string + (Z + (spec_float + (list Z + list spec_float)))))).
Definition value_to_code (v : value) : value_code :=
  match v with
  | VNull => inl tt
  | VBool b => inr (inl b)
  | VString s => inr (inr (inl s))
  | VInt z => inr (inr (inr (inl z)))
  | VFloat x => inr (inr (inr (inr (inl x))))
  | VInts l => inr (inr (inr (inr (inr (inl l)))))
  | VFloats l => inr (inr (inr (inr (inr (inr l)))))
  end.
Definition value_of_code (c : value_code) : value :=
  match c with
  | inl _ => VNull
  | inr (inl b) => VBool b
  | inr (inr (inl s)) => VString s
  | inr (inr (inr (inl z))) => VInt z
  | inr (inr (inr (inr (inl x)))) => VFloat x
  | inr (inr (inr (inr (inr (inl l))))) => VInts l
  | inr (inr (inr (inr (inr (inr l))))) => VFloats l
  end.
#[global] Instance value_countable : Countable value.
Proof. apply (inj_countable' value_to_code value_of_code). by intros []. Defined.

Definition doc : Type := option (list (string * value)).

Fixpoint assoc (l : list (string * value)) (k : string) : option value :=
  match l with
  | [] => None
  | (k', v) :: l' => if decide (k' = k) then Some v else assoc l' k
  end.

Fixpoint bits (p : positive) : string :=
  match p with
  | xH => "1"%string
  | xO p' => String "0"%char (bits p')
  | xI p' => String "1"%char (bits p')
  end.
Fixpoint of_bits (s : string) : option positive :=
  match s with
  | EmptyString => None
  | String c EmptyString => if decide (c = "1"%char) then Some xH else None
  | String c s' =>
      p ← of_bits s';
      if decide (c = "1"%char) then Some (xI p)
      else if decide (c = "0"%char) then Some (xO p) else None
  end.

Lemma bits_not_empty p : exists c s, bits p = String c s.
Proof. destruct p; simpl; eauto. Qed.

Lemma of_bits_bits p : of_bits (bits p) = Some p.
Proof.
  induction p as [p IH|p IH|]; [| |done];
  destruct (bits_not_empty p) as (c & s & E);
  cbn [bits]; rewrite E in *; cbn [of_bits]; cbn [of_bits] in IH; by rewrite IH.
Qed.

#[global] Instance tiny_json : JsonLib doc value := {|
  j_null_doc := None;
  j_set o k v := Some ((k, v) :: default [] o);
  j_at o k :=
    match o with
    | None => Throw (LibraryError "type_error.305")
    | Some l => match assoc l k with Some v => Ok v | None => Undef end
    end;
  j_null := VNull;
  j_bool := VBool;
  j_string := VString;
  j_int := VInt;
  j_float := VFloat;
  j_ints := VInts;
  j_floats := VFloats;
  get_string v :=
    match v with VString s => Ok s | _ => Throw (LibraryError "type_error.302") end;
  get_i64 v :=
    match v with
    | VInt z => Ok z
    | VFloat x => d_to_i64 x
    | _ => Throw (LibraryError "type_error.302")
    end;
  get_double v :=
    match v with
    | VInt z => Ok (d_of_Z z)
    | VFloat x => Ok x
    | _ => Throw (LibraryError "type_error.302")
    end;
  get_doubles v :=
    match v with
    | VInts l => Ok (d_of_Z <$> l)
    | VFloats l => Ok l
    | _ => Throw (LibraryError "type_error.302")
    end;
  to_cbor o := bits (encode o);
  from_cbor s :=
    match of_bits s ≫= decode with
    | Some o => Ok o
    | None => Throw (LibraryError "parse_error.110")
    end;
  dump _ o := bits (encode o)
|}.

#[global] Instance tiny_json_laws : JsonLaws doc value.
Proof.
  constructor; try done; intros.
  - simpl. by rewrite decide_True.
  - simpl. by rewrite decide_False.
  - simpl. by rewrite decide_False.
  - change (str_empty (bits (encode o)) = false).
    by destruct (bits_not_empty (encode o)) as (c & s & ->).
  - exists o. split.
    + change (match of_bits (bits (encode o)) ≫= decode with
              | Some o => Ok o
              | None => Throw (LibraryError "parse_error.110")
              end = Ok o).
      rewrite of_bits_bits. change (Some (encode o) ≫= decode) with (decode (A:=doc) (encode o)).
      by rewrite decode_encode.
    + intros k. apply at_same_refl.
Qed.
End TinyJson.
