(* ===== verification/Interfaces.v ===== *)
(** * Interfaces of the libraries and of the components

    Interfaces of third party code ([CircularBuffer]: boost::circular_buffer,
    [ReaderWriterQueue]: moodycamel::ReaderWriterQueue, [PropertyTree]:
    boost::property_tree), each with the documented laws the code relies on
    and a concrete instance; log lines; and the interface [RateLimited] that
    the future and the expired test promise: at most one report per interval. *)
From Stdlib Require Import ZArith Ascii String Lia.
From stdpp Require Import base tactics list gmap strings sorting.
From S2P Require Import Prelude.

Open Scope string_scope.
Open Scope Z_scope.

(** ** Log lines

    A call to [spdlog] is a line of output.  Debug lines are left out. *)
Inductive line :=
  | Info (s : string)
  | Warn (s : string)
  | Error (s : string)
  | Critical (s : string).

#[export] Instance line_eq_dec : EqDecision line.
Proof. solve_decision. Defined.

Definition is_info (l : line) : bool := match l with Info _ => true | _ => false end.

(** The order in which [std::set<std::string>] is iterated. *)
Definition str_le (a b : string) : Prop := String.leb a b = true.
#[export] Instance str_le_dec : RelDecision str_le.
Proof. intros a b. unfold str_le. apply _. Defined.

Definition set_iteration (X : gset string) : list string :=
  merge_sort str_le (elements X).

Lemma elem_of_set_iteration x X : x ∈ set_iteration X <-> x ∈ X.
Proof. unfold set_iteration. by rewrite (merge_sort_Permutation str_le), elem_of_elements. Qed.

(** [for (const auto &channel : channels) { message = message + " " + channel; }] *)
Definition join_channels (message : string) (channels : list string) : string :=
  foldl (fun m c => m +:+ " " +:+ c) message channels.

(** ** boost::circular_buffer *)
Class CircularBuffer (C A : Type) := {
  cb_new : Z -> C;                 (* circular_buffer(capacity) *)
  cb_push_back : A -> C -> C;
  cb_push_front : A -> C -> C;
  cb_assign : (list A -> list A) -> C -> C;  (* an algorithm on [begin(), end()) *)
  cb_elems : C -> list A;          (* from begin() to end() *)
  cb_capacity : C -> Z
}.

Definition cb_full {C A} `{CircularBuffer C A} (b : C) : bool :=
  Z.of_nat (length (cb_elems b)) =? cb_capacity b.

Class CircularBufferLaws (C A : Type) `{CircularBuffer C A} := {
  cb_new_elems n : cb_elems (cb_new n) = [];
  cb_new_capacity n : 0 < n -> cb_capacity (cb_new n) = n;
  (* a push on a full buffer overwrites the element at the other end *)
  cb_push_back_elems x b :
    0 < cb_capacity b ->
    cb_elems (cb_push_back x b) =
      ((if cb_full b then drop 1 (cb_elems b) else cb_elems b) ++ [x])%list;
  cb_push_front_elems x b :
    0 < cb_capacity b ->
    cb_elems (cb_push_front x b) =
      (x :: if cb_full b then take (length (cb_elems b) - 1) (cb_elems b)
            else cb_elems b)%list;
  cb_push_back_capacity x b : cb_capacity (cb_push_back x b) = cb_capacity b;
  cb_push_front_capacity x b : cb_capacity (cb_push_front x b) = cb_capacity b;
  (* permuting the elements in place *)
  cb_assign_elems f b : f (cb_elems b) ≡ₚ cb_elems b ->
    cb_elems (cb_assign f b) = f (cb_elems b);
  cb_assign_capacity f b : cb_capacity (cb_assign f b) = cb_capacity b
}.

(** A capacity and the elements in order. *)
Module ListBuffer.
Record buffer (A : Type) := mk { cap : Z; elems : list A }.
Arguments mk {A}.
Arguments cap {A}.
Arguments elems {A}.

Definition push_back {A} (x : A) (b : buffer A) : buffer A :=
  mk (cap b)
    ((if Z.of_nat (length (elems b)) =? cap b then drop 1 (elems b) else elems b)
       ++ [x])%list.
Definition push_front {A} (x : A) (b : buffer A) : buffer A :=
  mk (cap b)
    (x :: if Z.of_nat (length (elems b)) =? cap b
          then take (length (elems b) - 1) (elems b) else elems b).

#[global] Instance list_buffer {A} : CircularBuffer (buffer A) A := {|
  cb_new n := mk n [];
  cb_push_back := push_back;
  cb_push_front := push_front;
  cb_assign f b := mk (cap b) (f (elems b));
  cb_elems := elems;
  cb_capacity := cap
|}.
#[global] Instance list_buffer_laws {A} : CircularBufferLaws (buffer A) A.
Proof. by split. Qed.
End ListBuffer.

(** ** moodycamel::ReaderWriterQueue

    [try_enqueue] fails when there is no room; how much room there is beyond
    the requested capacity is the library's business. *)
Class ReaderWriterQueue (Q A : Type) := {
  rq_new : Z -> Q;
  try_enqueue : A -> Q -> bool * Q;
  try_dequeue : Q -> option (A * Q);
  rq_elems : Q -> list A     (* oldest first *)
}.

Definition rq_peek {Q A} `{ReaderWriterQueue Q A} (q : Q) : option A :=
  head (rq_elems q).
Definition size_approx {Q A} `{ReaderWriterQueue Q A} (q : Q) : Z :=
  Z.of_nat (length (rq_elems q)).
Definition rq_pop {Q A} `{ReaderWriterQueue Q A} (q : Q) : bool * Q :=
  match try_dequeue q with Some (_, q') => (true, q') | None => (false, q) end.

Class ReaderWriterQueueLaws (Q A : Type) `{ReaderWriterQueue Q A} := {
  rq_new_elems n : rq_elems (rq_new n) = [];
  try_enqueue_elems x q ok q' :
    try_enqueue x q = (ok, q') ->
    rq_elems q' = if ok then (rq_elems q ++ [x])%list else rq_elems q;
  try_dequeue_nil q : rq_elems q = [] -> try_dequeue q = None;
  try_dequeue_cons x l q :
    rq_elems q = x :: l -> exists q', try_dequeue q = Some (x, q') /\ rq_elems q' = l
}.

Lemma rq_pop_elems {Q A} `{ReaderWriterQueueLaws Q A} (q : Q) :
  rq_elems (rq_pop q).2 = drop 1 (rq_elems q) /\
  (rq_pop q).1 = negb (bool_decide (rq_elems q = [])).
Proof.
  unfold rq_pop. destruct (rq_elems q) as [|x l] eqn:E.
  - rewrite (try_dequeue_nil q E). simpl. by rewrite E.
  - destruct (try_dequeue_cons x l q E) as (q' & -> & E'). simpl.
    split; [by rewrite drop_0|]. done.
Qed.

(** The loop both broadcasters have over an overfull queue:
    [while (size_approx() > limit) { if (!pop()) break; nDeleted++; }] *)
Fixpoint drainTo {Q A} `{ReaderWriterQueue Q A} (limit : Z) (fuel : nat) (q : Q)
    (nDeleted : Z) : Q * Z :=
  match fuel with
  | O => (q, nDeleted)
  | S fuel =>
      if limit <? size_approx q then
        let '(popped, q) := rq_pop q in
        if (popped : bool) then drainTo limit fuel q (nDeleted + 1) else (q, nDeleted)
      else (q, nDeleted)
  end.

(** What a queue holds beyond the limit. *)
Definition excessOver {Q A} `{ReaderWriterQueue Q A} (limit : Z) (q : Q) : nat :=
  length (rq_elems q) - Z.to_nat limit.

(** A queue within the limit keeps its elements, a longer one loses its
    oldest; as much fuel as there are elements is enough. *)
Lemma drainTo_spec {Q A} `{ReaderWriterQueueLaws Q A} limit fuel (q : Q) n :
  0 <= limit -> (length (rq_elems q) <= fuel)%nat ->
  exists q', drainTo limit fuel q n = (q', n + Z.of_nat (excessOver limit q)) /\
             rq_elems q' = drop (excessOver limit q) (rq_elems q).
Proof.
  intros Hl. revert q n. induction fuel as [|fuel IH]; intros q n L.
  - exists q. unfold excessOver. simpl.
    replace (length (rq_elems q) - Z.to_nat limit)%nat with 0%nat by lia.
    rewrite drop_0. split; [f_equal; lia|done].
  - cbn [drainTo]. unfold size_approx.
    destruct (Z.ltb_spec limit (Z.of_nat (length (rq_elems q)))).
    + pose proof (rq_pop_elems q) as [E P]. destruct (rq_pop q) as [popped q1].
      simpl in E, P. destruct popped.
      * destruct (IH q1 (n + 1)) as (q' & -> & E'); [rewrite E, length_drop; lia|].
        exists q'. unfold excessOver in *. rewrite E', E, length_drop, drop_drop.
        replace (length (rq_elems q) - Z.to_nat limit)%nat
          with (S (length (rq_elems q) - 1 - Z.to_nat limit)) by lia.
        split; [f_equal; lia|]. f_equal.
      * exfalso. symmetry in P. apply negb_false_iff, bool_decide_eq_true in P.
        rewrite P in *. simpl in *. lia.
    + exists q. unfold excessOver.
      replace (length (rq_elems q) - Z.to_nat limit)%nat with 0%nat by lia.
      rewrite drop_0. split; [f_equal; simpl; lia|done].
Qed.

Lemma enqueue_elems {Q A} `{ReaderWriterQueueLaws Q A} x (q : Q) :
  rq_elems (try_enqueue x q).2 = rq_elems q \/
  rq_elems (try_enqueue x q).2 = (rq_elems q ++ [x])%list.
Proof.
  destruct (try_enqueue x q) as [[] q'] eqn:E; apply try_enqueue_elems in E; auto.
Qed.

(** A list with a bound on what it holds. *)
Module ListQueue.
Record queue (A : Type) := mk { bound : nat; items : list A }.
Arguments mk {A}.
Arguments bound {A}.
Arguments items {A}.

#[global] Instance list_queue {A} : ReaderWriterQueue (queue A) A := {|
  rq_new n := mk (2 * Z.to_nat n) [];
  try_enqueue x q :=
    if (length (items q) <? bound q)%nat
    then (true, mk (bound q) (items q ++ [x])%list) else (false, q);
  try_dequeue q :=
    match items q with [] => None | x :: l => Some (x, mk (bound q) l) end;
  rq_elems := items
|}.
#[global] Instance list_queue_laws {A} : ReaderWriterQueueLaws (queue A) A.
Proof.
  split; simpl; intros; [done| |by rewrite H|rewrite H; eauto].
  destruct (_ <? _)%nat; by simplify_eq.
Qed.
End ListQueue.

(** ** boost::property_tree

    [get<T>(path, default)] gives the default where the path is absent or
    its text is not a [T]. *)
Class PropertyTree (T : Type) := {
  pt_string : T -> string -> string -> string;
  pt_int : T -> string -> Z -> Z;
  pt_u16 : T -> string -> Z -> Z;
  pt_bool : T -> string -> bool -> bool;
  pt_get : T -> string -> option string   (* get_optional<std::string> *)
}.

(** Paths with the text and the number or flag it parses to. *)
Module ListTree.
Inductive entry := EString (s : string) | EInt (z : Z) | EBool (b : bool).
Definition tree : Type := list (string * entry).
Fixpoint find (t : tree) (k : string) : option entry :=
  match t with
  | [] => None
  | (k', e) :: t' => if decide (k' = k) then Some e else find t' k
  end.
#[global] Instance list_tree : PropertyTree tree := {|
  pt_string t k d := match find t k with Some (EString s) => s | _ => d end;
  pt_int t k d :=
    match find t k with Some (EInt z) => if in_i32 z then z else d | _ => d end;
  pt_u16 t k d :=
    match find t k with
    | Some (EInt z) => if (0 <=? z) && (z <? 65536) then z else d
    | _ => d
    end;
  pt_bool t k d := match find t k with Some (EBool b) => b | _ => d end;
  pt_get t k := match find t k with Some (EString s) => Some s | _ => None end
|}.

(* a number read is of the type asked for *)
Lemma pt_int_in_i32 (t : tree) k d : in_i32 d = true -> in_i32 (pt_int t k d) = true.
Proof. intros Hd. simpl. destruct (find t k) as [[]|]; try done. by destruct (in_i32 z) eqn:E. Qed.
End ListTree.

(** ** Rate limited reports

    A tester [T] reports bad channels at most once per interval.  [rl_step]
    handles one input at a time in seconds and says whether a report was
    written; [None] is undefined behaviour, where a run ends.  The implementation owes the two laws; the client gets the
    spacing of the reports of a whole run. *)
Class RateLimited (T I : Type) := {
  rl_last : T -> Z;
  rl_interval : T -> Z;
  (* the reports of a step at a time *)
  rl_step : I -> T -> option (T * option Z)
}.

Class RateLimitedLaws (T I : Type) `{RateLimited T I} := {
  rl_interval_step i t t' r : rl_step i t = Some (t', r) -> rl_interval t' = rl_interval t;
  rl_silent i t t' : rl_step i t = Some (t', None) -> rl_last t' = rl_last t;
  rl_report i t t' s :
    rl_step i t = Some (t', Some s) -> rl_last t' = s /\ rl_last t + rl_interval t <= s
}.

(** The times of the reports of a run. *)
Fixpoint reports {T I} `{RateLimited T I} (l : list I) (t : T) : list Z :=
  match l with
  | [] => []
  | i :: l' =>
      match rl_step i t with
      | None => []
      | Some (t', r) => (option_list r ++ reports l' t')%list
      end
  end.

(** Every time is at least [gap] after the one before it. *)
Fixpoint spaced (gap last : Z) (l : list Z) : Prop :=
  match l with
  | [] => True
  | s :: l' => last + gap <= s /\ spaced gap s l'
  end.

Lemma reports_spaced {T I} `{RateLimitedLaws T I} (l : list I) (t : T) :
  spaced (rl_interval t) (rl_last t) (reports l t).
Proof.
  revert t. induction l as [|i l IH]; intros t; simpl; [done|].
  destruct (rl_step i t) as [[t1 r]|] eqn:E; [|done].
  specialize (IH t1). rewrite (rl_interval_step _ _ _ _ E) in IH.
  destruct r as [s|]; simpl.
  - destruct (rl_report _ _ _ _ E) as [L ?]. split; [done|]. by rewrite L in IH.
  - by rewrite (rl_silent _ _ _ E) in IH.
Qed.

(** ** Signals

    The three programs install one handler for SIGINT and SIGTERM and poll the
    flag it sets.  Given the signals that come before each poll, these are the
    values the polls see; a signal that is not caught ends the process and is
    not among them. *)
Definition SIGINT : Z := 2.
Definition SIGTERM : Z := 15.

Fixpoint pollFlag (caught : list Z) (handler : Z -> bool -> bool) (delivered : list (list Z))
    (flag : bool) : list bool :=
  match delivered with
  | [] => []
  | signals :: rest =>
      let flag := foldl (fun b s => if bool_decide (s ∈ caught) then handler s b else b) flag signals in
      flag :: pollFlag caught handler rest flag
  end.

(** With a handler that raises the flag, the polls are true from the first
    caught signal on. *)
Lemma pollFlag_raised caught handler delivered :
  (forall s b, handler s b = true) ->
  existsb (fun b => b) (pollFlag caught handler delivered false) = true <->
  exists signals s, signals ∈ delivered /\ s ∈ signals /\ s ∈ caught.
Proof.
  intros Hh.
  assert (Once : forall signals b,
    foldl (fun b s => if bool_decide (s ∈ caught) then handler s b else b) b signals = true <->
    b = true \/ exists s, s ∈ signals /\ s ∈ caught).
  { induction signals as [|s signals IH]; intros b; cbn [foldl].
    - split; [by left|]. intros [?|(s & X & _)]; [done|]. by apply not_elem_of_nil in X.
    - rewrite IH. setoid_rewrite elem_of_cons. case_bool_decide as D.
      + rewrite Hh. split; [right; exists s; auto|by left].
      + split; [intros [?|(x & ? & ?)]; eauto|].
        intros [?|(x & [->|?] & ?)]; [by left|done|right; eauto]. }
  induction delivered as [|signals rest IH]; cbn [pollFlag existsb].
  - split; [done|]. intros (x & s & X & _). by apply not_elem_of_nil in X.
  - destruct (foldl _ false signals) eqn:E.
    + split; [|done]. intros _. apply Once in E as [?|(s & ? & ?)]; [done|].
      exists signals, s. split; [by left|done].
    + simpl. rewrite IH. setoid_rewrite elem_of_cons. split.
      * intros (x & s & ? & ? & ?). exists x, s. auto.
      * intros (x & s & [->|?] & ? & ?); [|eauto]. exfalso.
        assert (X : foldl (fun b s => if bool_decide (s ∈ caught) then handler s b else b) false signals = true)
          by (apply Once; eauto). congruence.
Qed.

(** ** ZeroMQ sockets

    A socket is the list of the calls made on it, oldest first.  The library
    decides from that list whether the next call succeeds; [z_parts] is the
    number of parts that [zmq::send_multipart] reports. *)
Inductive zcall :=
  | ZSetInt (option : string) (value : Z)
  | ZSetStr (option : string) (value : string)
  | ZConnect (endPoint : string)
  | ZBind (endPoint : string)
  | ZSend (part : string)
  | ZSendMultipart (parts : list string).

#[export] Instance zcall_eq_dec : EqDecision zcall.
Proof. solve_decision. Defined.

Definition socket : Type := list zcall.

Record ZmqEnv := mkZmq {
  z_call : socket -> zcall -> outcome unit;
  z_parts : socket -> list string -> outcome (option Z)
}.

Definition zdo (env : ZmqEnv) (c : zcall) (s : socket) : outcome socket :=
  z_call env s c;; Ok (s ++ [c])%list.

Lemma zdo_ok env c s s' : zdo env c s = Ok s' -> s' = (s ++ [c])%list.
Proof. by intros ([] & _ & [= <-])%bind_ok. Qed.

(** A library whose calls all succeed, and that sends every part. *)
Definition willing : ZmqEnv := mkZmq (fun _ _ => Ok tt) (fun _ l => Ok (Some (Z.of_nat (length l)))).

(** A [const char *] argument ends at the first zero byte. *)
Fixpoint c_str (s : string) : string :=
  match s with
  | EmptyString => EmptyString
  | String c s' => if (Nat.eqb (nat_of_ascii c) 0) then EmptyString else String c (c_str s')
  end.

Lemma c_str_id s :
  str_all (fun c => negb (Nat.eqb (nat_of_ascii c) 0)) s = true <-> c_str s = s.
Proof.
  induction s as [|c s IH]; [done|].
  change (str_all (fun c => negb (Nat.eqb (nat_of_ascii c) 0)) (String c s)) with
    (negb (Nat.eqb (nat_of_ascii c) 0) && str_all (fun c => negb (Nat.eqb (nat_of_ascii c) 0)) s).
  change (c_str (String c s)) with
    (if Nat.eqb (nat_of_ascii c) 0 then EmptyString else String c (c_str s)).
  destruct (Nat.eqb (nat_of_ascii c) 0); simpl; [done|]. rewrite IH. split; congruence.
Qed.
