(* ===== verification/DataPacket.v ===== *)
(** * The data packet

    [DataPacket::DataPacketImpl] and the public class around it
    (messageFormats/broadcasts/dataPacket.cpp), with [IMessage]
    (messageFormats/message.cpp) and [isEmpty] (private/isEmpty.hpp).
    Setters and the end time computation are outcomes: they throw on bad
    arguments, and the end time is undefined where the 64 bit count
    overflows. *)
From Stdlib Require Import ZArith Ascii String SpecFloat Lia.
From stdpp Require Import base tactics list gmap strings.
From S2P Require Import Prelude Float64 JsonLib.

Open Scope string_scope.
Open Scope Z_scope.

(** ** Data *)
Inductive DataType := Integer32 | Integer64 | Float | Double | Unknown.

#[export] Instance DataType_eq_dec : EqDecision DataType.
Proof. solve_decision. Defined.

Record DataPacketImpl := mkPacket {
  mNetwork : string;
  mStation : string;
  mChannel : string;
  mLocationCode : string;
  mInteger32Data : list Z;
  mInteger64Data : list Z;
  mFloatData : list spec_float;
  mDoubleData : list double;
  mStartTimeMicroSeconds : Z;
  mEndTimeMicroSeconds : Z;
  mSamplingRate : double;
  mDataType : DataType
}.

#[export] Instance DataPacketImpl_eq_dec : EqDecision DataPacketImpl.
Proof. solve_decision. Defined.

(** A vector argument of one of the four element types of [setData]. *)
Inductive samples :=
  | Int32s (l : list Z)
  | Int64s (l : list Z)
  | Floats (l : list spec_float)
  | Doubles (l : list double).

Definition samples_length (x : samples) : nat :=
  match x with
  | Int32s l | Int64s l => length l
  | Floats l => length l
  | Doubles l => length l
  end.

(** Field updates. *)
Definition with_codes (n s c l : string) (p : DataPacketImpl) : DataPacketImpl :=
  mkPacket n s c l (mInteger32Data p) (mInteger64Data p) (mFloatData p)
    (mDoubleData p) (mStartTimeMicroSeconds p) (mEndTimeMicroSeconds p)
    (mSamplingRate p) (mDataType p).
Definition with_end (e : Z) (p : DataPacketImpl) : DataPacketImpl :=
  mkPacket (mNetwork p) (mStation p) (mChannel p) (mLocationCode p)
    (mInteger32Data p) (mInteger64Data p) (mFloatData p) (mDoubleData p)
    (mStartTimeMicroSeconds p) e (mSamplingRate p) (mDataType p).
Definition with_start (t : Z) (p : DataPacketImpl) : DataPacketImpl :=
  mkPacket (mNetwork p) (mStation p) (mChannel p) (mLocationCode p)
    (mInteger32Data p) (mInteger64Data p) (mFloatData p) (mDoubleData p)
    t (mEndTimeMicroSeconds p) (mSamplingRate p) (mDataType p).
Definition with_rate (r : double) (p : DataPacketImpl) : DataPacketImpl :=
  mkPacket (mNetwork p) (mStation p) (mChannel p) (mLocationCode p)
    (mInteger32Data p) (mInteger64Data p) (mFloatData p) (mDoubleData p)
    (mStartTimeMicroSeconds p) (mEndTimeMicroSeconds p) r (mDataType p).
Definition with_data (i32 i64 : list Z) (f : list spec_float) (d : list double)
    (t : DataType) (p : DataPacketImpl) : DataPacketImpl :=
  mkPacket (mNetwork p) (mStation p) (mChannel p) (mLocationCode p)
    i32 i64 f d (mStartTimeMicroSeconds p) (mEndTimeMicroSeconds p)
    (mSamplingRate p) t.

(** ** Strings *)
Definition isEmpty (s : string) : bool :=
  if str_empty s then true else str_all isspace s.

Definition convertString (s : string) : string :=
  str_map toupper (str_remove_if (fun c => bool_decide (c = space)) s).

(** ** DataPacketImpl *)
Definition size (p : DataPacketImpl) : Z :=
  match mDataType p with
  | Unknown => 0
  | Integer32 => wrap_i32 (Z.of_nat (length (mInteger32Data p)))
  | Float => wrap_i32 (Z.of_nat (length (mFloatData p)))
  | Double => wrap_i32 (Z.of_nat (length (mDoubleData p)))
  | Integer64 => wrap_i32 (Z.of_nat (length (mInteger64Data p)))
  end.

Definition clearData (p : DataPacketImpl) : DataPacketImpl :=
  with_data [] [] [] [] Unknown p.

Definition updateEndTime (p : DataPacketImpl) : outcome DataPacketImpl :=
  let p := with_end (mStartTimeMicroSeconds p) p in
  let nSamples := size p in
  if (0 <? nSamples) && d_positive (mSamplingRate p) then
    let traceDuration :=
      std_round (d_mul (d_div (d_of_Z (nSamples - 1)) (mSamplingRate p))
                       (d_of_Z 1000000)) in
    iTraceDuration ← d_to_i64 traceDuration;
    e ← to_i64 (mStartTimeMicroSeconds p + iTraceDuration);
    Ok (with_end e p)
  else Ok p.

Arguments updateEndTime : simpl never.

Definition storeData (x : samples) (p : DataPacketImpl) : DataPacketImpl :=
  match x with
  | Int32s l => with_data l [] [] [] Integer32 p
  | Int64s l => with_data [] l [] [] Integer64 p
  | Floats l => with_data [] [] l [] Float p
  | Doubles l => with_data [] [] [] l Double p
  end.

(** The four overloads [DataPacketImpl::setData(std::vector<U> &&)]. *)
Definition setDataImpl (x : samples) (p : DataPacketImpl) : outcome DataPacketImpl :=
  if Nat.eqb (samples_length x) 0 then Ok p
  else updateEndTime (storeData x (clearData p)).

(** ** DataPacket *)
Definition newPacket : DataPacketImpl :=
  mkPacket "" "" "" "" [] [] [] [] 0 0 d_zero Unknown.

Definition clear (p : DataPacketImpl) : DataPacketImpl :=
  with_rate d_zero (with_end 0 (with_start 0 (with_codes "" "" "" "" (clearData p)))).

Definition setNetwork (s : string) (p : DataPacketImpl) : outcome DataPacketImpl :=
  throw_if (isEmpty s) (InvalidArgument "Network is empty");;
  Ok (with_codes (convertString s) (mStation p) (mChannel p) (mLocationCode p) p).
Definition haveNetwork (p : DataPacketImpl) : bool := negb (str_empty (mNetwork p)).
Definition getNetwork (p : DataPacketImpl) : outcome string :=
  throw_if (negb (haveNetwork p)) (RuntimeError "Network not set yet");; Ok (mNetwork p).

Definition setStation (s : string) (p : DataPacketImpl) : outcome DataPacketImpl :=
  throw_if (isEmpty s) (InvalidArgument "Station is empty");;
  Ok (with_codes (mNetwork p) (convertString s) (mChannel p) (mLocationCode p) p).
Definition haveStation (p : DataPacketImpl) : bool := negb (str_empty (mStation p)).
Definition getStation (p : DataPacketImpl) : outcome string :=
  throw_if (negb (haveStation p)) (RuntimeError "Station not set yet");; Ok (mStation p).

Definition setChannel (s : string) (p : DataPacketImpl) : outcome DataPacketImpl :=
  throw_if (isEmpty s) (InvalidArgument "Channel is empty");;
  Ok (with_codes (mNetwork p) (mStation p) (convertString s) (mLocationCode p) p).
Definition haveChannel (p : DataPacketImpl) : bool := negb (str_empty (mChannel p)).
Definition getChannel (p : DataPacketImpl) : outcome string :=
  throw_if (negb (haveChannel p)) (RuntimeError "Channel not set yet");; Ok (mChannel p).

Definition setLocationCode (s : string) (p : DataPacketImpl) : outcome DataPacketImpl :=
  throw_if (isEmpty s) (InvalidArgument "Location is empty");;
  Ok (with_codes (mNetwork p) (mStation p) (mChannel p) (convertString s) p).
Definition haveLocationCode (p : DataPacketImpl) : bool :=
  negb (str_empty (mLocationCode p)).
Definition getLocationCode (p : DataPacketImpl) : outcome string :=
  throw_if (negb (haveLocationCode p)) (RuntimeError "Location code not set yet");;
  Ok (mLocationCode p).

Definition setSamplingRate (samplingRate : double) (p : DataPacketImpl)
    : outcome DataPacketImpl :=
  throw_if (d_leb samplingRate d_zero)
    (InvalidArgument ("samplingRate = " +:+ d_to_string samplingRate
                      +:+ " must be positive"));;
  updateEndTime (with_rate samplingRate p).
Definition haveSamplingRate (p : DataPacketImpl) : bool := d_positive (mSamplingRate p).
Definition getSamplingRate (p : DataPacketImpl) : outcome double :=
  throw_if (negb (haveSamplingRate p)) (RuntimeError "Sampling rate not set");;
  Ok (mSamplingRate p).

Definition getNumberOfSamples (p : DataPacketImpl) : Z := size p.

Definition setStartTime (startTime : Z) (p : DataPacketImpl) : outcome DataPacketImpl :=
  updateEndTime (with_start startTime p).
Definition setStartTimeSeconds (startTime : double) (p : DataPacketImpl)
    : outcome DataPacketImpl :=
  iStartTimeMuS ← d_to_i64 (std_round (d_mul startTime (d_of_Z 1000000)));
  setStartTime iStartTimeMuS p.
Definition getStartTime (p : DataPacketImpl) : Z := mStartTimeMicroSeconds p.

Definition getEndTime (p : DataPacketImpl) : outcome Z :=
  throw_if (negb (haveSamplingRate p)) (RuntimeError "Sampling rate note set");;
  throw_if (getNumberOfSamples p <? 1) (RuntimeError "No samples in signal");;
  Ok (mEndTimeMicroSeconds p).

Definition setData (x : samples) (p : DataPacketImpl) : outcome DataPacketImpl :=
  p ← setDataImpl x p; updateEndTime p.

(** [setData(const int nSamples, const U *x)]: [None] is a null pointer and
    reading past the array is undefined. *)
Definition samples_take (n : nat) (x : samples) : samples :=
  match x with
  | Int32s l => Int32s (take n l)
  | Int64s l => Int64s (take n l)
  | Floats l => Floats (take n l)
  | Doubles l => Doubles (take n l)
  end.
Definition setDataPointer (nSamples : Z) (x : option samples) (p : DataPacketImpl)
    : outcome DataPacketImpl :=
  throw_if (nSamples <? 0) (InvalidArgument "nSamples not positive");;
  match x with
  | None => Throw (InvalidArgument "x is NULL")
  | Some a =>
      if Z.of_nat (samples_length a) <? nSamples then Undef
      else setData (samples_take (Z.to_nat nSamples) a) p
  end.

Definition getDataType (p : DataPacketImpl) : DataType := mDataType p.

(** [getData<U>] copies the stored vector and converts each sample to [U]. *)
Inductive ctype := CInt32 | CInt64 | CFloat | CDouble.
Definition csem (u : ctype) : Type :=
  match u with CInt32 | CInt64 => Z | CFloat | CDouble => spec_float end.

Definition czero (u : ctype) : csem u :=
  match u with CInt32 | CInt64 => 0 | CFloat | CDouble => d_zero end.

Definition conv_i32 (u : ctype) (z : Z) : outcome (csem u) :=
  match u with
  | CInt32 | CInt64 => Ok z
  | CFloat => Ok (f_of_Z z)
  | CDouble => Ok (d_of_Z z)
  end.
Definition conv_i64 (u : ctype) (z : Z) : outcome (csem u) :=
  match u with
  | CInt32 => Ok (wrap_i32 z)
  | CInt64 => Ok z
  | CFloat => Ok (f_of_Z z)
  | CDouble => Ok (d_of_Z z)
  end.
Definition conv_float (u : ctype) (x : spec_float) : outcome (csem u) :=
  match u with
  | CInt32 => d_to_i32 (d_of_f x)
  | CInt64 => d_to_i64 (d_of_f x)
  | CFloat => Ok x
  | CDouble => Ok (d_of_f x)
  end.
Definition conv_double (u : ctype) (x : double) : outcome (csem u) :=
  match u with
  | CInt32 => d_to_i32 x
  | CInt64 => d_to_i64 x
  | CFloat => Ok (f_of_d x)
  | CDouble => Ok x
  end.

(** [std::copy(l.begin(), l.end(), result.begin())] into [n] elements. *)
Definition copy_into {A B} (n : Z) (f : A -> outcome B) (l : list A)
    : outcome (list B) :=
  if Z.of_nat (length l) =? n then foldr (fun x acc => y ← f x; ys ← acc; Ok (y :: ys)) (Ok []) l
  else Undef.

Definition getData (u : ctype) (p : DataPacketImpl) : outcome (list (csem u)) :=
  let nSamples := getNumberOfSamples p in
  if nSamples <? 1 then Ok []
  else
    match getDataType p with
    | Integer32 => copy_into nSamples (conv_i32 u) (mInteger32Data p)
    | Float => copy_into nSamples (conv_float u) (mFloatData p)
    | Double => copy_into nSamples (conv_double u) (mDoubleData p)
    | Integer64 => copy_into nSamples (conv_i64 u) (mInteger64Data p)
    | Unknown => Ok (replicate (Z.to_nat nSamples) (czero u))
    end.

(** [getDataPointer]: the samples the pointer designates, [None] for null. *)
Definition getDataPointer (p : DataPacketImpl) : option samples :=
  if getNumberOfSamples p <? 1 then None
  else
    match getDataType p with
    | Integer32 => Some (Int32s (mInteger32Data p))
    | Float => Some (Floats (mFloatData p))
    | Double => Some (Doubles (mDoubleData p))
    | Integer64 => Some (Int64s (mInteger64Data p))
    | Unknown => None
    end.

Definition getMessageType : string := "US8::MessageFormats::Broadcasts::DataPacket".
Definition getMessageVersion : string := "1.0.0".

(** ** Serialization *)
Section serialization.
Context {J V : Type} `{JsonLib J V}.

Definition toJSONObject (packet : DataPacketImpl) : outcome J :=
  let obj := j_set j_null_doc "messageType" (j_string getMessageType) in
  let obj := j_set obj "messageVersion" (j_string getMessageVersion) in
  network ← getNetwork packet;
  let obj := j_set obj "network" (j_string network) in
  station ← getStation packet;
  let obj := j_set obj "station" (j_string station) in
  channel ← getChannel packet;
  let obj := j_set obj "channel" (j_string channel) in
  locationCode ← getLocationCode packet;
  let obj := j_set obj "locationCode" (j_string locationCode) in
  let obj := j_set obj "startTime" (j_int (getStartTime packet)) in
  samplingRate ← getSamplingRate packet;
  let obj := j_set obj "samplingRate" (j_float samplingRate) in
  obj ← (if haveSamplingRate packet && (0 <? getNumberOfSamples packet)
         then endTime ← getEndTime packet; Ok (j_set obj "endTime" (j_int endTime))
         else Ok obj);
  if 0 <? getNumberOfSamples packet then
    match getDataType packet with
    | Integer32 =>
        data ← getData CInt32 packet;
        Ok (j_set (j_set obj "dataType" (j_string "integer32")) "data" (j_ints data))
    | Double =>
        data ← getData CDouble packet;
        Ok (j_set (j_set obj "dataType" (j_string "double")) "data" (j_floats data))
    | Integer64 =>
        data ← getData CInt64 packet;
        Ok (j_set (j_set obj "dataType" (j_string "integer64")) "data" (j_ints data))
    | Float =>
        data ← getData CFloat packet;
        Ok (j_set (j_set obj "dataType" (j_string "float")) "data"
                  (j_floats (d_of_f <$> data)))
    | Unknown => Throw (RuntimeError "Unhandled data type")
    end
  else Ok obj.

(** [value == s]: false unless the value is that string. *)
Definition is_string (v : V) (s : string) : bool :=
  match get_string v with
  | Ok s' => bool_decide (s' = s)
  | _ => false
  end.

Definition objectToDataPacket (obj : J) : outcome DataPacketImpl :=
  sameType ← (j_at obj "messageType" ≫= fun v => Ok (is_string v getMessageType));
  throw_if (negb sameType) (InvalidArgument "Message has invalid message type");;
  network ← (j_at obj "network" ≫= get_string);
  packet ← setNetwork network newPacket;
  station ← (j_at obj "station" ≫= get_string);
  packet ← setStation station packet;
  channel ← (j_at obj "channel" ≫= get_string);
  packet ← setChannel channel packet;
  locationCode ← (j_at obj "locationCode" ≫= get_string);
  packet ← setLocationCode locationCode packet;
  samplingRate ← (j_at obj "samplingRate" ≫= get_double);
  packet ← setSamplingRate samplingRate packet;
  startTime ← (j_at obj "startTime" ≫= get_i64);
  packet ← setStartTime startTime packet;
  data ← (j_at obj "data" ≫= get_doubles);
  if Nat.eqb (length data) 0 then Ok packet
  else setData (Doubles data) packet.

Definition fromCBORMessage (message : string) : outcome DataPacketImpl :=
  obj ← from_cbor message; objectToDataPacket obj.

Definition serialize (p : DataPacketImpl) : outcome string :=
  obj ← toJSONObject p; Ok (to_cbor obj).

(** [deserialize(const std::string_view &)] replaces the packet by the
    decoded one. *)
Definition deserialize (message : string) : outcome DataPacketImpl :=
  throw_if (str_empty message) (InvalidArgument "Message is empty");;
  fromCBORMessage message.

(** [IMessage::deserialize(const char *, size_t)]; [None] is null. *)
Definition deserializeBuffer (data : option string) (length : nat)
    : outcome DataPacketImpl :=
  throw_if (Nat.eqb length 0) (InvalidArgument "No data");;
  match data with
  | None => Throw (InvalidArgument "message data is null")
  | Some d =>
      if (Nat.ltb (String.length d) length) then Undef
      else deserialize (String.substring 0 length d)
  end.
End serialization.

(** ** Mutators and reachable packets *)
Inductive mutator :=
  | MClear
  | MSetNetwork (s : string)
  | MSetStation (s : string)
  | MSetChannel (s : string)
  | MSetLocationCode (s : string)
  | MSetSamplingRate (r : double)
  | MSetStartTimeSeconds (t : double)
  | MSetStartTime (t : Z)
  | MSetData (x : samples)
  | MSetDataPointer (n : Z) (x : option samples).

Definition mutate (m : mutator) (p : DataPacketImpl) : outcome DataPacketImpl :=
  match m with
  | MClear => Ok (clear p)
  | MSetNetwork s => setNetwork s p
  | MSetStation s => setStation s p
  | MSetChannel s => setChannel s p
  | MSetLocationCode s => setLocationCode s p
  | MSetSamplingRate r => setSamplingRate r p
  | MSetStartTimeSeconds t => setStartTimeSeconds t p
  | MSetStartTime t => setStartTime t p
  | MSetData x => setData x p
  | MSetDataPointer n x => setDataPointer n x p
  end.

(** Packets a program can build: a throwing setter leaves the packet as it
    was, so only the successful calls are steps. *)
Inductive reachable : DataPacketImpl -> Prop :=
  | reachable_new : reachable newPacket
  | reachable_mutate m p p' : reachable p -> mutate m p = Ok p' -> reachable p'.

(** *** The well-formedness of a packet *)
Definition code_ok (s : string) : bool :=
  str_empty s ||
  (negb (isEmpty s) &&
   str_all (fun c => negb (bool_decide (c = space)) && bool_decide (toupper c = c)) s).

(** Exactly the vector the data type names holds samples. *)
Definition storage_ok (p : DataPacketImpl) : Prop :=
  (mInteger32Data p <> [] <-> mDataType p = Integer32) /\
  (mInteger64Data p <> [] <-> mDataType p = Integer64) /\
  (mFloatData p <> [] <-> mDataType p = Float) /\
  (mDoubleData p <> [] <-> mDataType p = Double).

Record wf (p : DataPacketImpl) : Prop := mkWf {
  wf_network : code_ok (mNetwork p) = true;
  wf_station : code_ok (mStation p) = true;
  wf_channel : code_ok (mChannel p) = true;
  wf_location : code_ok (mLocationCode p) = true;
  wf_rate : mSamplingRate p = d_zero \/ d_leb (mSamplingRate p) d_zero = false;
  wf_storage : storage_ok p;
  wf_end : updateEndTime p = Ok p
}.

(** ** Strings: normal form of the codes *)
Lemma isEmpty_all s : isEmpty s = str_all isspace s.
Proof. unfold isEmpty. by destruct s. Qed.

Lemma isspace_toupper c : isspace (toupper c) = isspace c.
Proof. destruct c as [[] [] [] [] [] [] [] []]; reflexivity. Qed.

Lemma str_all_remove_if p q s :
  (forall c, q c = true -> p c = true) ->
  str_all p (str_remove_if q s) = str_all p s.
Proof.
  intros H. induction s as [|c s IH]; simpl; [done|].
  destruct (q c) eqn:E; simpl; rewrite IH; [by rewrite H|done].
Qed.

Lemma isEmpty_convertString s : isEmpty (convertString s) = isEmpty s.
Proof.
  rewrite !isEmpty_all. unfold convertString.
  rewrite str_all_map, (str_all_ext _ _ _ isspace_toupper).
  apply str_all_remove_if. intros c. apply space_isspace.
Qed.

Lemma convertString_ok s : isEmpty s = false -> code_ok (convertString s) = true.
Proof.
  intros H. unfold code_ok. rewrite isEmpty_convertString, H.
  apply orb_true_iff. right. simpl. unfold convertString. rewrite str_all_map.
  eapply str_all_weaken; [|apply str_remove_if_all]. intros c Hc.
  rewrite toupper_space, Hc. simpl. by rewrite bool_decide_eq_true, toupper_idemp.
Qed.

Lemma convertString_id s : code_ok s = true -> convertString s = s.
Proof.
  unfold code_ok. rewrite orb_true_iff, andb_true_iff, str_empty_true.
  intros [->|[_ H]]; [done|]. unfold convertString.
  rewrite str_remove_if_id.
  - apply str_map_id. eapply str_all_weaken; [|done]. intros c [??]%andb_true_iff. done.
  - eapply str_all_weaken; [|done]. intros c [??]%andb_true_iff. done.
Qed.

Lemma code_ok_nonempty s :
  code_ok s = true -> str_empty s = false -> isEmpty s = false.
Proof.
  unfold code_ok. intros H E. rewrite E in H. simpl in H.
  apply andb_true_iff in H as [H _]. by apply negb_true_iff in H.
Qed.

Lemma isEmpty_nonempty s : isEmpty s = false -> str_empty (convertString s) = false.
Proof.
  rewrite <- isEmpty_convertString. unfold isEmpty. by destruct (str_empty _).
Qed.

(** ** The end time *)
Lemma updateEndTime_with_end e p : updateEndTime (with_end e p) = updateEndTime p.
Proof. done. Qed.

Lemma updateEndTime_shape p q :
  updateEndTime p = Ok q -> exists e, q = with_end e p.
Proof.
  unfold updateEndTime. destruct (_ && _).
  - intros (i & _ & (e & _ & [= <-])%bind_ok)%bind_ok. by exists e.
  - intros [= <-]. eauto.
Qed.

Lemma updateEndTime_idemp p q : updateEndTime p = Ok q -> updateEndTime q = Ok q.
Proof.
  intros H. destruct (updateEndTime_shape _ _ H) as [e ->].
  by rewrite updateEndTime_with_end.
Qed.

(** The end time is a function of the sample count, the start time and the
    rate. *)
Lemma updateEndTime_ext p q :
  size p = size q -> mStartTimeMicroSeconds p = mStartTimeMicroSeconds q ->
  mSamplingRate p = mSamplingRate q ->
  updateEndTime q = (fun r => with_end (mEndTimeMicroSeconds r) q) <$> updateEndTime p.
Proof.
  intros Hs Ht Hr. unfold updateEndTime.
  change (size (with_end _ p)) with (size p). change (size (with_end _ q)) with (size q).
  cbn [with_end mSamplingRate mStartTimeMicroSeconds]. rewrite Hs, Ht, Hr.
  destruct (_ && _); [|done].
  destruct (d_to_i64 _) as [i| |]; simpl; [|done|done].
  by destruct (to_i64 _).
Qed.

Lemma updateEndTime_fixed p q :
  size p = size q -> mStartTimeMicroSeconds p = mStartTimeMicroSeconds q ->
  mSamplingRate p = mSamplingRate q ->
  updateEndTime p = Ok p -> updateEndTime q = Ok (with_end (mEndTimeMicroSeconds p) q).
Proof. intros Hs Ht Hr E. by rewrite (updateEndTime_ext p q Hs Ht Hr), E. Qed.

(** With no samples the end time is the start time. *)
Lemma updateEndTime_no_samples p :
  size p = 0 -> updateEndTime p = Ok (with_end (mStartTimeMicroSeconds p) p).
Proof.
  intros H. unfold updateEndTime.
  change (size (with_end _ p)) with (size p). by rewrite H.
Qed.

(** Everything of [wf] but the end time, which [updateEndTime] restores. *)
Record pre_wf (p : DataPacketImpl) : Prop := mkPreWf {
  pre_network : code_ok (mNetwork p) = true;
  pre_station : code_ok (mStation p) = true;
  pre_channel : code_ok (mChannel p) = true;
  pre_location : code_ok (mLocationCode p) = true;
  pre_rate : mSamplingRate p = d_zero \/ d_leb (mSamplingRate p) d_zero = false;
  pre_storage : storage_ok p
}.

Lemma wf_pre p : wf p -> pre_wf p.
Proof. intros []. by constructor. Qed.

Lemma updateEndTime_wf p q : pre_wf p -> updateEndTime p = Ok q -> wf q.
Proof.
  intros [] H. pose proof (updateEndTime_idemp _ _ H).
  destruct (updateEndTime_shape _ _ H) as [e ->].
  by constructor.
Qed.

Lemma storeData_storage x p :
  samples_length x <> 0%nat -> storage_ok (storeData x (clearData p)).
Proof.
  destruct x as [l|l|l|l]; destruct l; simpl; intros; try done;
  repeat split; try done; naive_solver.
Qed.

Lemma clearData_storage p : storage_ok (clearData p).
Proof. repeat split; try done; intros []; done. Qed.

Lemma setDataImpl_wf x p q : wf p -> setDataImpl x p = Ok q -> wf q.
Proof.
  unfold setDataImpl. intros W. destruct (Nat.eqb_spec (samples_length x) 0).
  - by intros [= <-].
  - destruct (wf_pre _ W). apply updateEndTime_wf. destruct x; constructor; try done; by apply (storeData_storage _ p).
Qed.

Lemma setData_wf x p q : wf p -> setData x p = Ok q -> wf q.
Proof.
  intros W (p' & H & H')%bind_ok. apply (updateEndTime_wf p'); [|done].
  by eapply wf_pre, setDataImpl_wf.
Qed.

Lemma with_codes_wf n s c l p :
  wf p -> code_ok n = true -> code_ok s = true -> code_ok c = true ->
  code_ok l = true -> wf (with_codes n s c l p).
Proof.
  intros []. constructor; try done.
  by apply (updateEndTime_fixed p (with_codes n s c l p)).
Qed.

Lemma newPacket_wf : wf newPacket.
Proof. constructor; try done. all: try by left. all: repeat split; naive_solver. Qed.

Lemma clear_wf p : wf (clear p).
Proof. constructor; try done. all: try by left. all: repeat split; naive_solver. Qed.

Lemma setStartTime_wf t p q : wf p -> setStartTime t p = Ok q -> wf q.
Proof. intros []%wf_pre. by apply updateEndTime_wf. Qed.

Lemma setSamplingRate_wf r p q : wf p -> setSamplingRate r p = Ok q -> wf q.
Proof.
  intros []%wf_pre ([] & Hr%throw_if_ok & H)%bind_ok.
  eapply updateEndTime_wf, H. constructor; try done. by right.
Qed.

(** A successful code setter on a packet well formed by [W]. *)
Ltac code_setter W :=
  intros ([] & ?%throw_if_ok & [= <-])%bind_ok; pose proof W as [];
  by apply with_codes_wf; auto using convertString_ok.

(** Every mutator keeps a packet well formed. *)
Lemma mutate_wf m p q : wf p -> mutate m p = Ok q -> wf q.
Proof.
  intros W. destruct m; simpl.
  2-5: code_setter W.
  - intros [= <-]. apply clear_wf.
  - by apply setSamplingRate_wf.
  - intros (i & _ & H)%bind_ok. by eapply setStartTime_wf.
  - by apply setStartTime_wf.
  - by apply setData_wf.
  - intros ([] & _ & H)%bind_ok. destruct x as [a|]; [|done].
    destruct (_ <? _); [done|]. by eapply setData_wf.
Qed.

Lemma reachable_wf_aux p : reachable p -> wf p.
Proof. induction 1; eauto using newPacket_wf, mutate_wf. Qed.

(** ** What a round trip through the wire format yields *)

(** The samples as the decoder reads them. *)
Definition doubles (p : DataPacketImpl) : list double :=
  match mDataType p with
  | Integer32 => d_of_Z <$> mInteger32Data p
  | Integer64 => d_of_Z <$> mInteger64Data p
  | Float => d_of_f <$> mFloatData p
  | Double => mDoubleData p
  | Unknown => []
  end.

Definition as_double (p : DataPacketImpl) : DataPacketImpl :=
  with_data [] [] [] (doubles p) Double p.

(** All fields set, and fewer than 2^31 samples. *)
Definition complete (p : DataPacketImpl) : bool :=
  haveNetwork p && haveStation p && haveChannel p && haveLocationCode p &&
  haveSamplingRate p && Nat.ltb 0 (length (doubles p)) &&
  in_i32 (Z.of_nat (length (doubles p))).

Lemma copy_into_id {A} n (l : list A) :
  Z.of_nat (length l) = n -> copy_into n Ok l = Ok l.
Proof.
  intros <-. unfold copy_into. rewrite Z.eqb_refl.
  induction l as [|x l IH]; [done|]. cbn [foldr]. by rewrite IH.
Qed.

Lemma size_doubles p :
  in_i32 (Z.of_nat (length (doubles p))) = true ->
  size p = Z.of_nat (length (doubles p)).
Proof.
  unfold size, doubles.
  destruct (mDataType p); rewrite ?length_fmap; intros; try done; auto with us8.
Qed.

Lemma size_as_double p :
  in_i32 (Z.of_nat (length (doubles p))) = true -> size (as_double p) = size p.
Proof. intros H. rewrite (size_doubles p) by done. by apply wrap_i32_small. Qed.

Lemma empty_of_iff {A} (l : list A) (P : Prop) : (l <> [] <-> P) -> ~ P -> l = [].
Proof. destruct l; [done|]. intros E NP. exfalso. by apply NP, E. Qed.

Lemma as_double_id p : storage_ok p -> mDataType p = Double -> as_double p = p.
Proof.
  intros (H1 & H2 & H3 & _) T.
  apply empty_of_iff in H1, H2, H3; [|congruence..].
  unfold as_double, doubles. rewrite T.
  destruct p. simpl in *. by subst.
Qed.

Section roundtrip.
Context {J V : Type} `{JsonLaws J V}.

(** The document of a packet, without its samples. *)
Definition headerDoc (p : DataPacketImpl) : J :=
  foldl (fun o kv => j_set o kv.1 kv.2) j_null_doc
    [("messageType", j_string getMessageType);
     ("messageVersion", j_string getMessageVersion);
     ("network", j_string (mNetwork p)); ("station", j_string (mStation p));
     ("channel", j_string (mChannel p)); ("locationCode", j_string (mLocationCode p));
     ("startTime", j_int (mStartTimeMicroSeconds p));
     ("samplingRate", j_float (mSamplingRate p))].

Definition dataDoc (p : DataPacketImpl) (ty : string) (v : V) : J :=
  j_set (j_set (j_set (headerDoc p) "endTime" (j_int (mEndTimeMicroSeconds p)))
               "dataType" (j_string ty)) "data" v.

Lemma toJSON_complete p :
  complete p = true ->
  exists ty v, toJSONObject p = Ok (dataDoc p ty v) /\ get_doubles v = Ok (doubles p).
Proof.
  unfold complete. rewrite !andb_true_iff, Nat.ltb_lt.
  intros [[[[[[Hn Hs] Hc] Hl] Hr] Hpos] Hi].
  pose proof (size_doubles _ Hi) as Hsz.
  unfold toJSONObject, getNetwork, getStation, getChannel, getLocationCode,
    getSamplingRate, getEndTime, getData, getNumberOfSamples, getDataType.
  rewrite Hn, Hs, Hc, Hl, Hr. simpl.
  assert ((0 <? size p) = true) as -> by lia.
  assert ((size p <? 1) = false) as -> by lia. simpl.
  unfold doubles in *.
  destruct (mDataType p); rewrite ?length_fmap in Hsz; simpl in *; [..|lia];
  unfold conv_i32, conv_i64, conv_float, conv_double;
  rewrite copy_into_id by done; simpl; eexists _, _; (split; [done|]);
  by rewrite ?get_doubles_ints, ?get_doubles_floats.
Qed.

Ltac at_key := repeat rewrite at_set_ne by done; rewrite at_set_eq; simpl.

(** [objectToDataPacket] only sees what [j_same] compares. *)
Lemma objectToDataPacket_same (a b : J) :
  j_same a b -> objectToDataPacket a = objectToDataPacket b.
Proof.
  intros S. unfold objectToDataPacket.
  rewrite (at_same_bind (j_at a "messageType") (j_at b "messageType") _ (S _)).
  2: { intros x y (E & _). unfold is_string. by rewrite E. }
  by rewrite !(at_string_same _ _ _ S), (at_double_same _ _ _ S),
    (at_i64_same _ _ _ S), (at_doubles_same _ _ _ S).
Qed.

(** Setting a code that is already in normal form stores it unchanged. *)
Lemma throw_if_code s e : code_ok s = true -> negb (str_empty s) = true ->
  throw_if (isEmpty s) e = Ok tt.
Proof. intros ? ?%negb_true_iff. by rewrite code_ok_nonempty. Qed.

Lemma d_positive_not_le r : d_positive r = true -> d_leb r d_zero = false.
Proof. by intros [->|(m & e & ->)]%d_positive_cases. Qed.

#[local] Opaque updateEndTime.

(** Decoding a document that carries the header of [p]: the setters accept
    every field, and what is left is the samples. *)
Definition headerPacket (p : DataPacketImpl) : DataPacketImpl :=
  with_end (mStartTimeMicroSeconds p) (clearData p).

Definition carries_header (o : J) (p : DataPacketImpl) : Prop :=
  j_at o "messageType" = Ok (j_string getMessageType) /\
  j_at o "network" = Ok (j_string (mNetwork p)) /\
  j_at o "station" = Ok (j_string (mStation p)) /\
  j_at o "channel" = Ok (j_string (mChannel p)) /\
  j_at o "locationCode" = Ok (j_string (mLocationCode p)) /\
  j_at o "samplingRate" = Ok (j_float (mSamplingRate p)) /\
  j_at o "startTime" = Ok (j_int (mStartTimeMicroSeconds p)).

Definition have_header (p : DataPacketImpl) : bool :=
  haveNetwork p && haveStation p && haveChannel p && haveLocationCode p &&
  haveSamplingRate p.

Lemma headerDoc_carries p : carries_header (headerDoc p) p.
Proof. unfold carries_header, headerDoc. simpl. repeat split; at_key; done. Qed.

Lemma dataDoc_carries p ty v :
  carries_header (dataDoc p ty v) p /\ j_at (dataDoc p ty v) "data" = Ok v.
Proof. unfold carries_header, dataDoc, headerDoc. simpl. repeat split; at_key; done. Qed.

#[local] Opaque updateEndTime.

Lemma objectToDataPacket_header (o : J) p :
  wf p -> have_header p = true -> carries_header o p ->
  objectToDataPacket o =
    (data ← (j_at o "data" ≫= get_doubles);
     if Nat.eqb (length data) 0 then Ok (headerPacket p)
     else setData (Doubles data) (headerPacket p)).
Proof.
  unfold have_header. rewrite !andb_true_iff.
  intros W [[[[Hn Hs] Hc] Hl] Hr] (Em & En & Es & Ec & El & Er & Et). pose proof W as [].
  unfold objectToDataPacket. rewrite Em, En, Es, Ec, El, Er, Et.
  cbn [mbind outcome_bind]. unfold is_string.
  rewrite !get_string_string, get_double_float, get_i64_int.
  rewrite bool_decide_true by done. simpl.
  unfold setNetwork, setStation, setChannel, setLocationCode, setSamplingRate, setStartTime.
  rewrite !throw_if_code by done. simpl.
  rewrite !convertString_id by done. rewrite d_positive_not_le by done. simpl.
  rewrite updateEndTime_no_samples by done. simpl.
  by rewrite updateEndTime_no_samples by done.
Qed.

Lemma objectToDataPacket_headerDoc p :
  wf p -> have_header p = true -> objectToDataPacket (headerDoc p) = Undef.
Proof.
  intros W Hh. rewrite (objectToDataPacket_header _ p W Hh (headerDoc_carries p)).
  assert (j_at (headerDoc p) "data" = Undef) as ->; [|done].
  unfold headerDoc. simpl. repeat rewrite at_set_ne by done. by rewrite at_absent.
Qed.

Lemma setData_header p :
  wf p -> length (doubles p) <> 0%nat ->
  in_i32 (Z.of_nat (length (doubles p))) = true ->
  setData (Doubles (doubles p)) (headerPacket p) = Ok (as_double p).
Proof.
  intros [] Hne%Nat.eqb_neq Hi. unfold setData, setDataImpl. cbn [samples_length].
  rewrite Hne.
  match goal with |- context [updateEndTime ?q] => set (r := q) end.
  assert (updateEndTime r = Ok (as_double p)) as ->.
  { rewrite (updateEndTime_fixed p r); try done. by rewrite <- (size_as_double p). }
  simpl. rewrite (updateEndTime_fixed p (as_double p)); try done.
  by rewrite size_as_double.
Qed.

Lemma complete_spec p :
  complete p = true ->
  have_header p = true /\ length (doubles p) <> 0%nat /\
  in_i32 (Z.of_nat (length (doubles p))) = true.
Proof.
  unfold complete, have_header. rewrite !andb_true_iff, Nat.ltb_lt.
  intros [[? ?] ?]. repeat split; try tauto. lia.
Qed.

Lemma objectToDataPacket_dataDoc p ty v :
  wf p -> complete p = true -> get_doubles v = Ok (doubles p) ->
  objectToDataPacket (dataDoc p ty v) = Ok (as_double p).
Proof.
  intros W (Hh & Hne & Hi)%complete_spec Hv.
  destruct (dataDoc_carries p ty v) as [Hc Hd].
  rewrite (objectToDataPacket_header _ p W Hh Hc), Hd. simpl. rewrite Hv. simpl.
  apply Nat.eqb_neq in Hne as Hne'. rewrite Hne'. by apply setData_header.
Qed.
End roundtrip.

(** ** Running mutators *)
Definition runMutators (ms : list mutator) (p : DataPacketImpl) : outcome DataPacketImpl :=
  foldl (fun acc m => acc ≫= mutate m) (Ok p) ms.

Lemma runMutators_reachable ms p q :
  reachable p -> runMutators ms p = Ok q -> reachable q.
Proof.
  unfold runMutators. revert p. induction ms as [|m ms IH]; simpl; intros p R.
  - by intros [= <-].
  - destruct (mutate m p) as [p'|e|] eqn:E.
    + by apply IH, (reachable_mutate m p).
    + clear. induction ms; simpl; [done|auto].
    + clear. induction ms; simpl; [done|auto].
Qed.

(** Codes, and the facts about them that later setters do not disturb. *)
Definition codes (p : DataPacketImpl) : string * string * string * string :=
  (mNetwork p, mStation p, mChannel p, mLocationCode p).

Lemma updateEndTime_keeps p q :
  updateEndTime p = Ok q ->
  codes q = codes p /\ mDataType q = mDataType p /\ doubles q = doubles p /\
  mSamplingRate q = mSamplingRate p /\ size q = size p /\
  mStartTimeMicroSeconds q = mStartTimeMicroSeconds p.
Proof. by intros [e ->]%updateEndTime_shape. Qed.

Lemma setData_doubles_keeps l p q :
  length l <> 0%nat -> setData (Doubles l) p = Ok q ->
  codes q = codes p /\ mDataType q = Double.
Proof.
  intros Hl (r & Hr & Hq)%bind_ok. unfold setDataImpl in Hr.
  apply Nat.eqb_neq in Hl. cbn [samples_length] in Hr. rewrite Hl in Hr.
  apply updateEndTime_keeps in Hr as (Ec & Et & _), Hq as (Ec' & Et' & _).
  by rewrite Ec', Ec, Et', Et.
Qed.

Lemma updateEndTime_positive p q :
  updateEndTime p = Ok q -> 0 < size p -> d_positive (mSamplingRate p) = true ->
  mStartTimeMicroSeconds q <= mEndTimeMicroSeconds q /\
  in_i64 (mEndTimeMicroSeconds q) = true /\
  (size p = 1 -> mEndTimeMicroSeconds q = mStartTimeMicroSeconds q).
Proof.
  intros H Hs Hr. unfold updateEndTime in H.
  change (size (with_end _ p)) with (size p) in H.
  cbn [with_end mSamplingRate mStartTimeMicroSeconds] in H. rewrite Hr in H.
  replace (0 <? size p) with true in H by lia.
  apply bind_ok in H as (i & Hi & (e & He & [= <-])%bind_ok).
  apply to_i64_ok in He as [-> Hin]. simpl. split; [|split; [done|]].
  - enough (0 <= i) by lia. eapply d_to_i64_nonneg, Hi.
    apply std_round_sign, d_mul_sign; [|done]. apply d_div_sign; [|done].
    apply d_of_Z_sign. lia.
  - intros E. rewrite E in Hi.
    apply d_positive_cases in Hr as [Er|(m & x & Er)]; rewrite Er in Hi;
    injection Hi as <-; lia.
Qed.

(** ** Properties of the data packet *)

(** C2: every packet that successful setter calls can build is well formed:
    each code is unset or upper case, without blanks and not blank; exactly
    the vector that the data type names holds samples; the rate is unset or
    not below zero; and the end time is the one computed from the current
    start time, rate and number of samples. *)
Theorem reachable_wf p : reachable p -> wf p.
Proof. apply reachable_wf_aux. Qed.

(** A packet of three samples at 100 Hz, and one without samples. *)
Definition demoHeader : list mutator :=
  [MSetNetwork " uu"; MSetStation "fork"; MSetChannel "HHZ"; MSetLocationCode "01";
   MSetSamplingRate (d_of_Z 100); MSetStartTime 1700000000000000].
Definition demoPacketOf (ms : list mutator) : DataPacketImpl :=
  match runMutators ms newPacket with Ok p => p | _ => newPacket end.
Definition demoPacket : DataPacketImpl :=
  demoPacketOf (demoHeader ++ [MSetData (Int32s [1; -2; 3])]).
Definition demoHeaderPacket : DataPacketImpl := demoPacketOf demoHeader.

Lemma demoPacketOf_reachable ms : reachable (demoPacketOf ms).
Proof.
  unfold demoPacketOf. destruct (runMutators ms newPacket) as [p|e|] eqn:E; [|constructor..].
  by apply (runMutators_reachable ms newPacket); [constructor|].
Qed.

Lemma demoPacket_reachable : reachable demoPacket.
Proof. apply demoPacketOf_reachable. Qed.

Lemma demoHeaderPacket_reachable : reachable demoHeaderPacket.
Proof. apply demoPacketOf_reachable. Qed.

Lemma reachable_wf_witness : reachable demoPacket /\ wf demoPacket.
Proof.
  split; [apply demoPacket_reachable | apply (reachable_wf demoPacket demoPacket_reachable)].
Defined.

Lemma serialize_deserialize_aux {J V} `{JsonLaws J V} p :
  reachable p -> complete p = true ->
  exists m, serialize (J:=J) p = Ok m /\ deserialize (J:=J) m = Ok (as_double p) /\
            (mDataType p = Double -> as_double p = p).
Proof.
  intros R C. pose proof (reachable_wf_aux _ R) as W.
  destruct (toJSON_complete (J:=J) p C) as (ty & v & E & Ev).
  exists (to_cbor (dataDoc p ty v)). unfold serialize. rewrite E. split; [done|].
  split.
  - unfold deserialize, fromCBORMessage. rewrite to_cbor_nonempty. simpl.
    destruct (from_to_cbor (dataDoc (J:=J) p ty v)) as (o' & -> & S). simpl.
    rewrite (objectToDataPacket_same _ _ S). by apply objectToDataPacket_dataDoc.
  - by apply as_double_id, wf_storage.
Qed.

(** A packet that serializes has its header; with samples it is complete. *)
Lemma serialize_complete {J V} `{JsonLib J V} p m :
  serialize (J:=J) p = Ok m -> 1 <= getNumberOfSamples p ->
  in_i32 (Z.of_nat (length (doubles p))) = true -> complete p = true.
Proof.
  intros (o & E & _)%bind_ok N I. unfold toJSONObject in E.
  apply bind_ok in E as (? & (? & E1%throw_if_ok%negb_false_iff & _)%bind_ok & E).
  apply bind_ok in E as (? & (? & E2%throw_if_ok%negb_false_iff & _)%bind_ok & E).
  apply bind_ok in E as (? & (? & E3%throw_if_ok%negb_false_iff & _)%bind_ok & E).
  apply bind_ok in E as (? & (? & E4%throw_if_ok%negb_false_iff & _)%bind_ok & E).
  apply bind_ok in E as (? & (? & E5%throw_if_ok%negb_false_iff & _)%bind_ok & _).
  unfold complete. rewrite E1, E2, E3, E4, E5, I, andb_true_r. simpl.
  unfold getNumberOfSamples in N. rewrite (size_doubles p I) in N.
  destruct (Nat.ltb_spec 0 (length (doubles p))); [done|lia].
Qed.

(** C1: serializing a packet with all its fields set and then deserializing
    the message succeeds and gives the same packet with its samples as
    doubles: codes, times, rate and number of samples survive, the sample
    type does not.  A packet of doubles comes back unchanged. *)
Theorem serialize_deserialize {J V} `{JsonLaws J V} p :
  reachable p -> complete p = true ->
  exists m, serialize (J:=J) p = Ok m /\ deserialize (J:=J) m = Ok (as_double p) /\
            (mDataType p = Double -> as_double p = p).
Proof. apply serialize_deserialize_aux. Qed.

Lemma serialize_deserialize_witness :
  reachable demoPacket /\ complete demoPacket = true /\
  exists m, serialize (J:=TinyJson.doc) demoPacket = Ok m /\
            deserialize (J:=TinyJson.doc) m = Ok (as_double demoPacket) /\
            (mDataType demoPacket = Double -> as_double demoPacket = demoPacket).
Proof.
  split; [apply demoPacket_reachable|]. split; [vm_compute; reflexivity|].
  apply (serialize_deserialize demoPacket demoPacket_reachable). vm_compute. reflexivity.
Defined.

(** A packet whose codes and rate are set but which holds no samples can
    be serialized, and reading the message back is undefined behaviour: the
    encoder leaves the key "data" out and the decoder indexes a constant
    document with it. *)
Theorem header_only_undefined {J V} `{JsonLaws J V} p :
  reachable p -> have_header p = true -> size p = 0 ->
  exists m, serialize (J:=J) p = Ok m /\ deserialize (J:=J) m = Undef.
Proof.
  intros W%reachable_wf_aux Hh Hsz. pose proof Hh as Hh'.
  unfold have_header in Hh'. rewrite !andb_true_iff in Hh'.
  destruct Hh' as [[[[Hn Hs] Hc] Hl] Hr].
  exists (to_cbor (headerDoc p)). split.
  - unfold serialize, toJSONObject, getNetwork, getStation, getChannel, getLocationCode,
      getSamplingRate, getNumberOfSamples. rewrite Hn, Hs, Hc, Hl, Hr, Hsz. done.
  - unfold deserialize, fromCBORMessage. rewrite to_cbor_nonempty. simpl.
    destruct (from_to_cbor (headerDoc (J:=J) p)) as (o' & -> & S). simpl.
    rewrite (objectToDataPacket_same _ _ S). by apply objectToDataPacket_headerDoc.
Qed.

Lemma header_only_undefined_witness :
  reachable demoHeaderPacket /\
  exists m, serialize (J:=TinyJson.doc) demoHeaderPacket = Ok m /\
            deserialize (J:=TinyJson.doc) m = Undef.
Proof.
  split; [apply demoHeaderPacket_reachable|].
  apply (header_only_undefined demoHeaderPacket demoHeaderPacket_reachable);
  vm_compute; reflexivity.
Defined.

(** The end of a built packet is not before its start. *)
Lemma end_not_before_start p t :
  reachable p -> getEndTime p = Ok t -> getStartTime p <= t.
Proof.
  intros R%reachable_wf_aux. unfold getEndTime, getNumberOfSamples.
  intros ([] & Hr%throw_if_ok & ([] & Hs%throw_if_ok & [= <-])%bind_ok)%bind_ok.
  apply negb_false_iff in Hr.
  apply (updateEndTime_positive p p); [apply R|lia|done].
Qed.

(** C20: where [getEndTime] returns a time, it fits 64 bits, is not before the
    start time, and equals the start time of a single sample; it returns one
    exactly when the rate is positive and there is a sample. *)
Theorem end_time_bounds p :
  reachable p ->
  (is_ok (getEndTime p) = true <-> haveSamplingRate p = true /\ 0 < size p) /\
  forall t, getEndTime p = Ok t ->
    getStartTime p <= t /\ in_i64 t = true /\ (size p = 1 -> t = getStartTime p).
Proof.
  intros R%reachable_wf_aux. unfold getEndTime, getNumberOfSamples. split.
  - destruct (haveSamplingRate p); simpl; [|by split; [|intros [? _]]].
    destruct (Z.ltb_spec (size p) 1); simpl; split; intros; try done; lia.
  - intros t ([] & Hr%throw_if_ok & ([] & Hs%throw_if_ok & [= <-])%bind_ok)%bind_ok.
    apply negb_false_iff in Hr.
    apply (updateEndTime_positive p p); [apply R|lia|done].
Qed.

Lemma end_time_bounds_witness :
  reachable demoPacket /\ getEndTime demoPacket = Ok 1700000000020000 /\
  getStartTime demoPacket <= 1700000000020000.
Proof.
  split; [apply demoPacket_reachable|].
  assert (E : getEndTime demoPacket = Ok 1700000000020000) by (vm_compute; reflexivity).
  split; [exact E|].
  exact (proj1 (proj2 (end_time_bounds demoPacket demoPacket_reachable) _ E)).
Defined.

(** The four code setters with their getters and the text of their errors. *)
Definition codeSetters :
    list ((string -> DataPacketImpl -> outcome DataPacketImpl) *
          (DataPacketImpl -> outcome string) * string) :=
  [(setNetwork, getNetwork, "Network is empty");
   (setStation, getStation, "Station is empty");
   (setChannel, getChannel, "Channel is empty");
   (setLocationCode, getLocationCode, "Location is empty")].

(** C18: each code setter rejects exactly the strings that are empty or all
    white space; otherwise the getter returns the normal form of the string,
    whose normal form is itself, and only that code changes. *)
Theorem code_setters set get err :
  (set, get, err) ∈ codeSetters ->
  forall s p,
  (isEmpty s = true -> set s p = Throw (InvalidArgument err)) /\
  (isEmpty s = false ->
   exists q, set s p = Ok q /\ get q = Ok (convertString s) /\
     convertString (convertString s) = convertString s /\
     set (convertString s) p = Ok q /\
     with_codes "" "" "" "" q = with_codes "" "" "" "" p).
Proof.
  intros E s p. split; intros Hs.
  - repeat (apply elem_of_cons in E as [[= -> -> ->]|E]); [..|by apply not_elem_of_nil in E];
    unfold setNetwork, setStation, setChannel, setLocationCode; by rewrite Hs.
  - pose proof (convertString_id _ (convertString_ok _ Hs)) as Hid.
    pose proof (isEmpty_nonempty _ Hs) as Hne.
    repeat (apply elem_of_cons in E as [[= -> -> ->]|E]); [..|by apply not_elem_of_nil in E];
    unfold setNetwork, setStation, setChannel, setLocationCode;
    rewrite isEmpty_convertString, Hs, Hid; simpl; eexists; (split; [done|]);
    unfold getNetwork, getStation, getChannel, getLocationCode, haveNetwork,
      haveStation, haveChannel, haveLocationCode; simpl; by rewrite Hne.
Qed.

Lemma code_setters_witness :
  (setStation, getStation, "Station is empty") ∈ codeSetters /\
  setStation " " newPacket = Throw (InvalidArgument "Station is empty").
Proof.
  assert (E : (setStation, getStation, "Station is empty") ∈ codeSetters)
    by (unfold codeSetters; repeat constructor).
  split; [exact E|].
  exact (proj1 (code_setters _ _ _ E " " newPacket) eq_refl).
Defined.

(** The six setters the decoder calls, in its order. *)
Lemma header_setters n s c l r t p1 p2 p3 p4 p5 p6 :
  setNetwork n newPacket = Ok p1 -> setStation s p1 = Ok p2 -> setChannel c p2 = Ok p3 ->
  setLocationCode l p3 = Ok p4 -> setSamplingRate r p4 = Ok p5 -> setStartTime t p5 = Ok p6 ->
  reachable p6 /\ mDataType p6 = Unknown /\
  forall q, codes q = codes p6 ->
    haveNetwork q && haveStation q && haveChannel q && haveLocationCode q = true.
Proof.
  intros E1 E2 E3 E4 E5 E6. split.
  { apply (runMutators_reachable [MSetNetwork n; MSetStation s; MSetChannel c;
      MSetLocationCode l; MSetSamplingRate r; MSetStartTime t] newPacket); [constructor|].
    unfold runMutators. simpl. rewrite E1. simpl. rewrite E2. simpl. rewrite E3. simpl.
    rewrite E4. simpl. by rewrite E5. }
  apply bind_ok in E1 as ([] & ?%throw_if_ok & [= <-]), E2 as ([] & ?%throw_if_ok & [= <-]),
    E3 as ([] & ?%throw_if_ok & [= <-]), E4 as ([] & ?%throw_if_ok & [= <-]),
    E5 as ([] & _ & E5).
  apply updateEndTime_keeps in E5 as (C5 & T5 & _), E6 as (C6 & T6 & _).
  unfold codes in *. simpl in *. rewrite C6, T6. split; [done|].
  intros q Eq. rewrite C5 in Eq. injection Eq as Q1 Q2 Q3 Q4.
  unfold haveNetwork, haveStation, haveChannel, haveLocationCode.
  by rewrite Q1, Q2, Q3, Q4, !isEmpty_nonempty.
Qed.

Lemma deserialize_sound_aux {J V} `{JsonLib J V} m p :
  deserialize (J:=J) m = Ok p ->
  reachable p /\
  haveNetwork p && haveStation p && haveChannel p && haveLocationCode p = true /\
  (mDataType p = Unknown \/ mDataType p = Double).
Proof.
  intros ([] & _ & (o & _ & Ho)%bind_ok)%bind_ok.
  apply bind_ok in Ho as (b & _ & ([] & _ & (n & _ & (p1 & E1 & Ho)%bind_ok)%bind_ok)%bind_ok).
  apply bind_ok in Ho as (s & _ & (p2 & E2 & (c & _ & (p3 & E3 & Ho)%bind_ok)%bind_ok)%bind_ok).
  apply bind_ok in Ho as (l & _ & (p4 & E4 & (r & _ & (p5 & E5 & Ho)%bind_ok)%bind_ok)%bind_ok).
  apply bind_ok in Ho as (t & _ & (p6 & E6 & (d & _ & Ho)%bind_ok)%bind_ok).
  destruct (header_setters _ _ _ _ _ _ _ _ _ _ _ _ E1 E2 E3 E4 E5 E6) as (R & T & Hh).
  destruct (Nat.eqb_spec (length d) 0) as [|Hd].
  - injection Ho as <-. auto.
  - destruct (setData_doubles_keeps _ _ _ Hd Ho) as [C T'].
    split; [|split; [by apply Hh|auto]].
    by apply (reachable_mutate (MSetData (Doubles d)) p6).
Qed.

(** C19: whatever the message, a packet that [deserialize] returns can be
    built by the setters, so it is well formed; its four codes are set; and
    its samples are doubles, if it has any. *)
Theorem deserialize_sound {J V} `{JsonLib J V} m p :
  deserialize (J:=J) m = Ok p ->
  reachable p /\
  haveNetwork p && haveStation p && haveChannel p && haveLocationCode p = true /\
  (mDataType p = Unknown \/ mDataType p = Double).
Proof. apply deserialize_sound_aux. Qed.

(** The message of [demoPacket] in the small document store. *)
Definition demoMessage : string :=
  match serialize (J:=TinyJson.doc) demoPacket with Ok m => m | _ => "" end.

Lemma deserialize_sound_witness :
  deserialize (J:=TinyJson.doc) demoMessage = Ok (as_double demoPacket) /\
  reachable (as_double demoPacket).
Proof.
  assert (E : deserialize (J:=TinyJson.doc) demoMessage = Ok (as_double demoPacket))
    by (vm_compute; reflexivity).
  split; [exact E | exact (proj1 (deserialize_sound demoMessage _ E))].
Defined.

(** A packet with one sample of 54 bits. *)
Definition wideMutators : list mutator :=
  (demoHeader ++ [MSetData (Int64s [9007199254740993])])%list.
Definition wideDemo : DataPacketImpl := demoPacketOf wideMutators.
Definition wideMessage : string :=
  match serialize (J:=TinyJson.doc) wideDemo with Ok m => m | _ => "" end.

(** A 64 bit sample of more than 53 bits does not survive a round trip:
    the packet read back holds a different number. *)
Theorem integer64_samples_change :
  exists p z m q y,
    reachable p /\ mInteger64Data p = [z] /\
    serialize (J:=TinyJson.doc) p = Ok m /\ deserialize (J:=TinyJson.doc) m = Ok q /\
    mDoubleData q = [y] /\ d_to_i64 y <> Ok z.
Proof.
  exists wideDemo, 9007199254740993, wideMessage, (as_double wideDemo),
    (d_of_Z 9007199254740993).
  split.
  { apply (runMutators_reachable wideMutators newPacket); [constructor|].
    vm_compute. reflexivity. }
  split; [vm_compute; reflexivity|].
  split; [vm_compute; reflexivity|].
  split; [vm_compute; reflexivity|].
  split; [vm_compute; reflexivity|].
  vm_compute. discriminate.
Qed.
