(* ===== verification/PacketTests.v ===== *)
(** * The future and the expired packet tests

    sanitizer/toName.hpp, sanitizer/testFutureDataPacket.cpp and
    sanitizer/testExpiredDataPacket.cpp.  Each test is a record with the
    fields of its [Impl]; [allow] takes the time of its clock, the packet and
    the tester, and gives the verdict, the tester afterwards and the log
    lines.  Both keep the interface [RateLimited]. *)
From Stdlib Require Import ZArith Ascii String SpecFloat Lia.
From stdpp Require Import base tactics list gmap strings sorting.
From S2P Require Import Prelude Float64 Interfaces DataPacket.

Open Scope string_scope.
Open Scope Z_scope.

Definition toName (packet : DataPacketImpl) : outcome string :=
  network ← getNetwork packet;
  station ← getStation packet;
  channel ← getChannel packet;
  let locationCode :=
    match getLocationCode packet with Ok l => l | _ => "" end in
  let name := network +:+ "." +:+ station +:+ "." +:+ channel in
  Ok (if negb (str_empty locationCode) then name +:+ "." +:+ locationCode else name).

Lemma toName_nonempty p s : toName p = Ok s -> str_empty s = false.
Proof.
  unfold toName. intros (n & _ & (st & _ & (c & _ & [= <-])%bind_ok)%bind_ok)%bind_ok.
  by destruct n; simpl; destruct (match getLocationCode p with Ok l => l | _ => "" end).
Qed.

(** The name exists when the three mandatory codes do. *)
Lemma toName_codes p :
  haveNetwork p && haveStation p && haveChannel p = true -> exists s, toName p = Ok s.
Proof.
  rewrite !andb_true_iff. intros [[Hn Hs] Hc]. unfold toName, getNetwork, getStation, getChannel.
  rewrite Hn, Hs, Hc. simpl. eauto.
Qed.

(** The name written to the log for a packet that was not allowed, and the
    warning if it has none. *)
Definition badName (allow : bool) (packet : DataPacketImpl) : outcome (string * list line) :=
  TRY (if negb allow then name ← toName packet; Ok (name, []) else Ok ("", []))
  CATCH _ => Ok ("", [Warn "Could not extract name of packet"]).

Lemma badName_ok allow p : exists nl, badName allow p = Ok nl.
Proof.
  unfold badName. destruct allow; simpl; [eauto|].
  unfold toName, getNetwork, getStation, getChannel.
  destruct (haveNetwork p); simpl; [|eauto]. destruct (haveStation p); simpl; [|eauto].
  destruct (haveChannel p); simpl; eauto.
Qed.

Lemma badName_allowed p : badName true p = Ok ("", []).
Proof. done. Qed.

Lemma badName_named p s : toName p = Ok s -> badName false p = Ok (s, []).
Proof. intros E. unfold badName. simpl. by rewrite E. Qed.

(** ** The log of rejected packets

    testFutureDataPacket.cpp and testExpiredDataPacket.cpp carry the same
    [logBadData] over fields of their own; what both do is proved once, for
    the pair of the pending channels and the time of the last report. *)
Section pending.
Context (report : gset string -> string).

Definition pendingLog (logs : bool) (interval : Z) (allow : bool)
    (packet : DataPacketImpl) (nowMuSec : Z) (s : gset string * Z)
    : outcome (gset string * Z * list line) :=
  if negb logs then Ok (s, [])
  else
    '(name, warned) ← badName allow packet;
    let nowSeconds := us_to_s nowMuSec in
    let channels :=
      if negb (str_empty name) && negb (bool_decide (name ∈ s.1))
      then {[name]} ∪ s.1 else s.1 in
    next ← to_i64 (s.2 + interval);
    if next <=? nowSeconds then
      if negb (bool_decide (channels = ∅)) then
        Ok (∅, nowSeconds, warned ++ [Info (report channels)])%list
      else Ok (channels, s.2, warned)
    else Ok (channels, s.2, warned).

Lemma pendingLog_throws logs i allow p now s e : pendingLog logs i allow p now s <> Throw e.
Proof.
  unfold pendingLog. destruct logs; [|done]. simpl.
  destruct (badName_ok allow p) as [[name warned] ->]. simpl.
  unfold to_i64. destruct (in_i64 _); [|done]. simpl. by repeat case_match.
Qed.

Lemma pendingLog_defined logs i allow p now s :
  in_i64 (s.2 + i) = true -> pendingLog logs i allow p now s <> Undef.
Proof.
  intros L. unfold pendingLog. destruct logs; [|done]. simpl.
  destruct (badName_ok allow p) as [[name warned] ->]. simpl.
  unfold to_i64. rewrite L. simpl. by repeat case_match.
Qed.

Lemma badName_quiet allow p name warned s :
  badName allow p = Ok (name, warned) -> Info s ∉ warned.
Proof.
  unfold badName. destruct allow; simpl.
  - intros [= _ <-]. apply not_elem_of_nil.
  - destruct (toName p); simpl; intros; simplify_eq; [apply not_elem_of_nil|].
    by rewrite list_elem_of_singleton.
Qed.

(** A report is written only when the interval has passed, and sets the
    time of the last report; without one that time stays. *)
Lemma pendingLog_report logs i allow p now s s' ls :
  pendingLog logs i allow p now s = Ok (s', ls) ->
  (forall m, Info m ∈ ls -> s' = (∅, us_to_s now) /\ s.2 + i <= us_to_s now) /\
  ((forall m, Info m ∉ ls) -> s'.2 = s.2).
Proof.
  unfold pendingLog. destruct logs; simpl.
  2:{ intros [= <- <-]. split; [|done]. intros m Hm. by apply not_elem_of_nil in Hm. }
  destruct (badName_ok allow p) as [[name warned] Eb]. rewrite Eb. simpl.
  pose proof (fun m => badName_quiet _ _ _ _ m Eb) as W.
  intros (next & (-> & _)%to_i64_ok & E)%bind_ok.
  destruct (_ <=? _) eqn:Hn; [destruct (negb _)|]; injection E as <- <-.
  - apply Z.leb_le in Hn. split; [done|].
    intros N. exfalso. eapply N. apply elem_of_app. right. by apply list_elem_of_singleton.
  - split; [|done]. intros m Hm. by apply W in Hm.
  - split; [|done]. intros m Hm. by apply W in Hm.
Qed.

(** A rejected packet with a name is pending afterwards, or was just
    reported: in either case it is in the set the report is made from. *)
Lemma pendingLog_named i p name now s s' ls :
  toName p = Ok name -> pendingLog true i false p now s = Ok (s', ls) ->
  name ∈ s'.1 \/ (exists X, ls = [Info (report X)] /\ name ∈ X /\ s.1 ⊆ X).
Proof.
  intros Hn. unfold pendingLog. rewrite (badName_named _ _ Hn). simpl.
  rewrite (toName_nonempty _ _ Hn). simpl.
  set (X := if negb (bool_decide (name ∈ s.1)) then {[name]} ∪ s.1 else s.1).
  assert (I : name ∈ X /\ s.1 ⊆ X).
  { unfold X. destruct (bool_decide_reflect (name ∈ s.1)); simpl; [done|].
    split; set_solver. }
  destruct I as [I S].
  intros (next & _ & E)%bind_ok.
  destruct (next <=? us_to_s now); [|injection E as <- <-; by left].
  destruct (negb (bool_decide (X = ∅))); injection E as <- <-; [|by left].
  right. by exists X.
Qed.
End pending.

Lemma existsb_info ls : existsb is_info ls = true <-> exists s, Info s ∈ ls.
Proof.
  rewrite existsb_exists. split.
  - intros ([] & I & E); try done. exists s. by apply list_elem_of_In.
  - intros [s I]. exists (Info s). split; [by apply list_elem_of_In|done].
Qed.

(** ** Future packets *)
Module Future.

Record TestFutureDataPacketImpl := mk {
  mFutureChannels : gset string;
  mMaxFutureTime : Z;                (* microseconds *)
  mLastLogTime : Z;                  (* seconds *)
  mLogBadDataInterval : Z;           (* seconds *)
  mLogBadData : bool
}.

#[global] Instance impl_eq_dec : EqDecision TestFutureDataPacketImpl.
Proof. solve_decision. Defined.

Definition with_channels (X : gset string) (last : Z) (t : TestFutureDataPacketImpl) : TestFutureDataPacketImpl :=
  mk X (mMaxFutureTime t) last (mLogBadDataInterval t) (mLogBadData t).

Definition new (maxFutureTime logBadDataInterval : Z) : TestFutureDataPacketImpl * list line :=
  (mk ∅ maxFutureTime 0 logBadDataInterval (0 <=? logBadDataInterval),
   if maxFutureTime <? 0 then [Warn "Max future time is negative"] else []).
Definition newDefault : TestFutureDataPacketImpl * list line := new 0 3600.

(** Copy construction is member-wise. *)
Definition copy (impl : TestFutureDataPacketImpl) : TestFutureDataPacketImpl :=
  mk (mFutureChannels impl) (mMaxFutureTime impl) (mLastLogTime impl)
     (mLogBadDataInterval impl) (mLogBadData impl).

Definition reportMessage (X : gset string) : string :=
  join_channels "Future data detected for: " (set_iteration X).

Definition logBadData (allow : bool) (packet : DataPacketImpl) (nowMuSec : Z)
    (t : TestFutureDataPacketImpl) : outcome (TestFutureDataPacketImpl * list line) :=
  if negb (mLogBadData t) then Ok (t, [])
  else
    '(name, warned) ← badName allow packet;
    let nowSeconds := us_to_s nowMuSec in
    let channels :=
      if negb (str_empty name) && negb (bool_decide (name ∈ mFutureChannels t))
      then {[name]} ∪ mFutureChannels t else mFutureChannels t in
    next ← to_i64 (mLastLogTime t + mLogBadDataInterval t);
    if next <=? nowSeconds then
      if negb (bool_decide (channels = ∅)) then
        Ok (with_channels ∅ nowSeconds t, warned ++ [Info (reportMessage channels)])%list
      else Ok (with_channels channels (mLastLogTime t) t, warned)
    else Ok (with_channels channels (mLastLogTime t) t, warned).

Definition allow (nowMuSeconds : Z) (packet : DataPacketImpl)
    (t : TestFutureDataPacketImpl)
    : outcome (bool * TestFutureDataPacketImpl * list line) :=
  packetEndTime ← getEndTime packet;
  latestTime ← to_i64 (nowMuSeconds + mMaxFutureTime t);
  let allow := packetEndTime <=? latestTime in
  '(t', ls) ← TRY logBadData allow packet nowMuSeconds t
              CATCH e => Ok (t, [Warn ("Error detect in logBadData: " +:+ what e)]);
  Ok (allow, t', ls).

(** *** What [logBadData] does *)
Lemma future_logBadData allow p now t :
  logBadData allow p now t =
    '(s, ls) ← pendingLog reportMessage (mLogBadData t) (mLogBadDataInterval t) allow p now
                 (mFutureChannels t, mLastLogTime t);
    Ok (with_channels s.1 s.2 t, ls).
Proof.
  unfold logBadData, pendingLog. destruct t as [X m l i b]. simpl.
  destruct b; [|done]. simpl. destruct (badName allow p) as [[name w]| |]; [|done..]. simpl.
  destruct (to_i64 (l + i)); [|done..]. simpl. by repeat case_match.
Qed.

Lemma future_logBadData_throws allow p now t e : logBadData allow p now t <> Throw e.
Proof.
  rewrite future_logBadData. intros [E|([s ls] & _ & E)]%bind_throw; [|done].
  by apply pendingLog_throws in E.
Qed.

Lemma future_logBadData_defined allow p now t :
  in_i64 (mLastLogTime t + mLogBadDataInterval t) = true ->
  exists t' ls, logBadData allow p now t = Ok (t', ls).
Proof.
  intros L. rewrite future_logBadData. set (s := (mFutureChannels t, mLastLogTime t)).
  destruct (pendingLog _ _ _ allow p now s) as [[s' ls]| |] eqn:E; simpl; [eauto| |].
  - by apply pendingLog_throws in E.
  - by apply pendingLog_defined in E.
Qed.

(** The options never change. *)
Lemma future_logBadData_options allow p now t t' ls :
  logBadData allow p now t = Ok (t', ls) ->
  mMaxFutureTime t' = mMaxFutureTime t /\ mLogBadDataInterval t' = mLogBadDataInterval t /\
  mLogBadData t' = mLogBadData t.
Proof. rewrite future_logBadData. by intros ([s l] & _ & [= <- <-])%bind_ok. Qed.

Lemma future_logBadData_report allow p now t t' ls :
  logBadData allow p now t = Ok (t', ls) ->
  (forall m, Info m ∈ ls ->
     mLastLogTime t' = us_to_s now /\ mFutureChannels t' = ∅ /\
     mLastLogTime t + mLogBadDataInterval t <= us_to_s now) /\
  ((forall m, Info m ∉ ls) -> mLastLogTime t' = mLastLogTime t).
Proof.
  rewrite future_logBadData. intros ([s l] & E & [= <- <-])%bind_ok.
  apply pendingLog_report in E as [E1 E2]. split; [|exact E2].
  intros m Hm. by destruct (E1 m Hm) as [-> ?].
Qed.

Lemma future_logBadData_named p name now t t' ls :
  mLogBadData t = true -> toName p = Ok name ->
  logBadData false p now t = Ok (t', ls) ->
  name ∈ mFutureChannels t' \/
  (exists X, ls = [Info (reportMessage X)] /\ name ∈ X /\ mFutureChannels t ⊆ X).
Proof.
  intros Hl Hn. rewrite future_logBadData, Hl. intros ([s l] & E & [= <- <-])%bind_ok.
  exact (pendingLog_named _ _ _ _ _ _ _ _ Hn E).
Qed.

(** One call as a rate limited step. *)
Definition step (i : Z * DataPacketImpl) (t : TestFutureDataPacketImpl) : option (TestFutureDataPacketImpl * option Z) :=
  match allow i.1 i.2 t with
  | Ok (_, t', ls) =>
      Some (t', if existsb is_info ls then Some (us_to_s i.1) else None)
  | Throw _ => Some (t, None)
  | Undef => None
  end.

#[global] Instance rate_limited : RateLimited TestFutureDataPacketImpl (Z * DataPacketImpl) := {|
  rl_last := mLastLogTime; rl_interval := mLogBadDataInterval; rl_step := step |}.

Lemma future_allow_spec now p t b t' ls :
  allow now p t = Ok (b, t', ls) -> logBadData b p now t = Ok (t', ls).
Proof.
  unfold allow. intros (e & _ & (l & _ & ([t1 ls1] & E & [= <- <- <-])%bind_ok)%bind_ok)%bind_ok.
  destruct (logBadData _ p now t) eqn:El; simpl in E; [done| |done].
  by apply future_logBadData_throws in El.
Qed.

#[global] Instance rate_limited_laws : RateLimitedLaws TestFutureDataPacketImpl (Z * DataPacketImpl).
Proof.
  split; intros [now p] t t'; simpl; unfold step; simpl.
  - intros r. destruct (allow now p t) as [[[b t1] ls]| |] eqn:E; [|by intros [= <- _]|done].
    intros [= -> _]. by apply future_allow_spec, future_logBadData_options in E as (_ & ? & _).
  - destruct (allow now p t) as [[[b t1] ls]| |] eqn:E; [|by intros [= <-]|done].
    destruct (existsb is_info ls) eqn:X; [done|]. intros [= ->].
    apply future_allow_spec, future_logBadData_report in E as [_ E]. apply E.
    intros s I. assert (existsb is_info ls = true) by (apply existsb_info; eauto).
    congruence.
  - intros s. destruct (allow now p t) as [[[b t1] ls]| |] eqn:E; try done.
    destruct (existsb is_info ls) eqn:X; [|done]. intros [= -> <-].
    apply existsb_info in X as [s X].
    apply future_allow_spec, future_logBadData_report in E as [E _].
    by destruct (E _ X) as (? & _ & ?).
Qed.
End Future.

(** ** Expired packets *)
Module Expired.

Record TestExpiredDataPacketImpl := mk {
  mExpiredChannels : gset string;
  mMaxExpiredTime : Z;                (* microseconds *)
  mLastLogTime : Z;                  (* seconds *)
  mLogBadDataInterval : Z;           (* seconds *)
  mLogBadData : bool
}.

#[global] Instance impl_eq_dec : EqDecision TestExpiredDataPacketImpl.
Proof. solve_decision. Defined.

Definition with_channels (X : gset string) (last : Z) (t : TestExpiredDataPacketImpl) : TestExpiredDataPacketImpl :=
  mk X (mMaxExpiredTime t) last (mLogBadDataInterval t) (mLogBadData t).

Definition new (maxExpiredTime logBadDataInterval : Z) : outcome TestExpiredDataPacketImpl :=
  throw_if (maxExpiredTime <=? 0) (InvalidArgument "Max expired time must be positive");;
  Ok (mk ∅ maxExpiredTime 0 logBadDataInterval (0 <=? logBadDataInterval)).
Definition newDefault : outcome TestExpiredDataPacketImpl :=
  maxExpiredTime ← s_to_us 7776000; new maxExpiredTime 3600.

(** Copy construction is member-wise. *)
Definition copy (impl : TestExpiredDataPacketImpl) : TestExpiredDataPacketImpl :=
  mk (mExpiredChannels impl) (mMaxExpiredTime impl) (mLastLogTime impl)
     (mLogBadDataInterval impl) (mLogBadData impl).

Definition reportMessage (X : gset string) : string :=
  join_channels "Expired data detected for: " (set_iteration X).

Definition logBadData (allow : bool) (packet : DataPacketImpl) (nowMuSec : Z)
    (t : TestExpiredDataPacketImpl) : outcome (TestExpiredDataPacketImpl * list line) :=
  if negb (mLogBadData t) then Ok (t, [])
  else
    '(name, warned) ← badName allow packet;
    let nowSeconds := us_to_s nowMuSec in
    let channels :=
      if negb (str_empty name) && negb (bool_decide (name ∈ mExpiredChannels t))
      then {[name]} ∪ mExpiredChannels t else mExpiredChannels t in
    next ← to_i64 (mLastLogTime t + mLogBadDataInterval t);
    if next <=? nowSeconds then
      if negb (bool_decide (channels = ∅)) then
        Ok (with_channels ∅ nowSeconds t, warned ++ [Info (reportMessage channels)])%list
      else Ok (with_channels channels (mLastLogTime t) t, warned)
    else Ok (with_channels channels (mLastLogTime t) t, warned).

Definition allow (nowMuSeconds : Z) (packet : DataPacketImpl)
    (t : TestExpiredDataPacketImpl)
    : outcome (bool * TestExpiredDataPacketImpl * list line) :=
  let packetStartTime := getStartTime packet in
  earliestTime ← to_i64 (nowMuSeconds - mMaxExpiredTime t);
  let allow := earliestTime <=? packetStartTime in
  '(t', ls) ← TRY logBadData allow packet nowMuSeconds t
              CATCH e => Ok (t, [Warn ("Error detect in logBadData: " +:+ what e)]);
  Ok (allow, t', ls).

(** *** What [logBadData] does *)
Lemma expired_logBadData allow p now t :
  logBadData allow p now t =
    '(s, ls) ← pendingLog reportMessage (mLogBadData t) (mLogBadDataInterval t) allow p now
                 (mExpiredChannels t, mLastLogTime t);
    Ok (with_channels s.1 s.2 t, ls).
Proof.
  unfold logBadData, pendingLog. destruct t as [X m l i b]. simpl.
  destruct b; [|done]. simpl. destruct (badName allow p) as [[name w]| |]; [|done..]. simpl.
  destruct (to_i64 (l + i)); [|done..]. simpl. by repeat case_match.
Qed.

Lemma expired_logBadData_throws allow p now t e : logBadData allow p now t <> Throw e.
Proof.
  rewrite expired_logBadData. intros [E|([s ls] & _ & E)]%bind_throw; [|done].
  by apply pendingLog_throws in E.
Qed.

Lemma expired_logBadData_defined allow p now t :
  in_i64 (mLastLogTime t + mLogBadDataInterval t) = true ->
  exists t' ls, logBadData allow p now t = Ok (t', ls).
Proof.
  intros L. rewrite expired_logBadData. set (s := (mExpiredChannels t, mLastLogTime t)).
  destruct (pendingLog _ _ _ allow p now s) as [[s' ls]| |] eqn:E; simpl; [eauto| |].
  - by apply pendingLog_throws in E.
  - by apply pendingLog_defined in E.
Qed.

(** The options never change. *)
Lemma expired_logBadData_options allow p now t t' ls :
  logBadData allow p now t = Ok (t', ls) ->
  mMaxExpiredTime t' = mMaxExpiredTime t /\ mLogBadDataInterval t' = mLogBadDataInterval t /\
  mLogBadData t' = mLogBadData t.
Proof. rewrite expired_logBadData. by intros ([s l] & _ & [= <- <-])%bind_ok. Qed.

Lemma expired_logBadData_report allow p now t t' ls :
  logBadData allow p now t = Ok (t', ls) ->
  (forall m, Info m ∈ ls ->
     mLastLogTime t' = us_to_s now /\ mExpiredChannels t' = ∅ /\
     mLastLogTime t + mLogBadDataInterval t <= us_to_s now) /\
  ((forall m, Info m ∉ ls) -> mLastLogTime t' = mLastLogTime t).
Proof.
  rewrite expired_logBadData. intros ([s l] & E & [= <- <-])%bind_ok.
  apply pendingLog_report in E as [E1 E2]. split; [|exact E2].
  intros m Hm. by destruct (E1 m Hm) as [-> ?].
Qed.

Lemma expired_logBadData_named p name now t t' ls :
  mLogBadData t = true -> toName p = Ok name ->
  logBadData false p now t = Ok (t', ls) ->
  name ∈ mExpiredChannels t' \/
  (exists X, ls = [Info (reportMessage X)] /\ name ∈ X /\ mExpiredChannels t ⊆ X).
Proof.
  intros Hl Hn. rewrite expired_logBadData, Hl. intros ([s l] & E & [= <- <-])%bind_ok.
  exact (pendingLog_named _ _ _ _ _ _ _ _ Hn E).
Qed.

(** One call as a rate limited step. *)
Definition step (i : Z * DataPacketImpl) (t : TestExpiredDataPacketImpl) : option (TestExpiredDataPacketImpl * option Z) :=
  match allow i.1 i.2 t with
  | Ok (_, t', ls) =>
      Some (t', if existsb is_info ls then Some (us_to_s i.1) else None)
  | Throw _ => Some (t, None)
  | Undef => None
  end.

#[global] Instance rate_limited : RateLimited TestExpiredDataPacketImpl (Z * DataPacketImpl) := {|
  rl_last := mLastLogTime; rl_interval := mLogBadDataInterval; rl_step := step |}.

Lemma expired_allow_spec now p t b t' ls :
  allow now p t = Ok (b, t', ls) -> logBadData b p now t = Ok (t', ls).
Proof.
  unfold allow. intros (l & _ & ([t1 ls1] & E & [= <- <- <-])%bind_ok)%bind_ok.
  destruct (logBadData _ p now t) eqn:El; simpl in E; [done| |done].
  by apply expired_logBadData_throws in El.
Qed.

#[global] Instance rate_limited_laws : RateLimitedLaws TestExpiredDataPacketImpl (Z * DataPacketImpl).
Proof.
  split; intros [now p] t t'; simpl; unfold step; simpl.
  - intros r. destruct (allow now p t) as [[[b t1] ls]| |] eqn:E; [|by intros [= <- _]|done].
    intros [= -> _]. by apply expired_allow_spec, expired_logBadData_options in E as (_ & ? & _).
  - destruct (allow now p t) as [[[b t1] ls]| |] eqn:E; [|by intros [= <-]|done].
    destruct (existsb is_info ls) eqn:X; [done|]. intros [= ->].
    apply expired_allow_spec, expired_logBadData_report in E as [_ E]. apply E.
    intros s I. assert (existsb is_info ls = true) by (apply existsb_info; eauto).
    congruence.
  - intros s. destruct (allow now p t) as [[[b t1] ls]| |] eqn:E; try done.
    destruct (existsb is_info ls) eqn:X; [|done]. intros [= -> <-].
    apply existsb_info in X as [s X].
    apply expired_allow_spec, expired_logBadData_report in E as [E _].
    by destruct (E _ X) as (? & _ & ?).
Qed.
End Expired.

(** ** Properties *)

Lemma future_allow_total p now t e :
  getEndTime p = Ok e ->
  in_i64 (now + Future.mMaxFutureTime t) = true ->
  in_i64 (Future.mLastLogTime t + Future.mLogBadDataInterval t) = true ->
  exists t' ls,
    Future.allow now p t = Ok (e <=? now + Future.mMaxFutureTime t, t', ls).
Proof.
  intros E B L. unfold Future.allow. rewrite E. simpl. unfold to_i64 at 1. rewrite B. simpl.
  destruct (Future.future_logBadData_defined (e <=? now + Future.mMaxFutureTime t) p now t L)
    as (t' & ls & ->). simpl. eauto.
Qed.

Lemma expired_allow_total p now t :
  in_i64 (now - Expired.mMaxExpiredTime t) = true ->
  in_i64 (Expired.mLastLogTime t + Expired.mLogBadDataInterval t) = true ->
  exists t' ls,
    Expired.allow now p t =
      Ok (now - Expired.mMaxExpiredTime t <=? getStartTime p, t', ls).
Proof.
  intros B L. unfold Expired.allow. unfold to_i64 at 1. rewrite B. simpl.
  destruct (Expired.expired_logBadData_defined
    (now - Expired.mMaxExpiredTime t <=? getStartTime p) p now t L) as (t' & ls & ->).
  simpl. eauto.
Qed.

(** C11: on a packet with an end time, and away from the ends of the 64 bit
    clock, both tests return; together they allow exactly the packets all of
    whose samples lie in the window from [now - maxExpiredTime] to
    [now + maxFutureTime]. *)
Theorem window_test p now f x e :
  reachable p -> getEndTime p = Ok e ->
  in_i64 (now + Future.mMaxFutureTime f) = true ->
  in_i64 (now - Expired.mMaxExpiredTime x) = true ->
  in_i64 (Future.mLastLogTime f + Future.mLogBadDataInterval f) = true ->
  in_i64 (Expired.mLastLogTime x + Expired.mLogBadDataInterval x) = true ->
  exists bf f' lf bx x' lx,
    Future.allow now p f = Ok (bf, f', lf) /\
    Expired.allow now p x = Ok (bx, x', lx) /\
    (bf && bx = true <->
     forall t, getStartTime p <= t <= e ->
       now - Expired.mMaxExpiredTime x <= t <= now + Future.mMaxFutureTime f).
Proof.
  intros R E B1 B2 L1 L2.
  destruct (future_allow_total p now f e E B1 L1) as (f' & lf & ->).
  destruct (expired_allow_total p now x B2 L2) as (x' & lx & ->).
  do 6 eexists. split; [done|]. split; [done|].
  pose proof (end_not_before_start p e R E) as S.
  rewrite andb_true_iff, !Z.leb_le. split.
  - intros [H1 H2] t Ht. lia.
  - intros W. pose proof (W (getStartTime p)). pose proof (W e). lia.
Qed.

(** Testers with the options of a sanitizer. *)
Definition demoFuture : Future.TestFutureDataPacketImpl := (Future.new 0 60).1.
Definition demoExpired : Expired.TestExpiredDataPacketImpl :=
  Expired.mk ∅ 120000000 0 60 true.

Lemma window_test_witness :
  Expired.new 120000000 60 = Ok demoExpired /\
  exists bf f' lf bx x' lx,
    Future.allow 1700000060000000 demoPacket demoFuture = Ok (bf, f', lf) /\
    Expired.allow 1700000060000000 demoPacket demoExpired = Ok (bx, x', lx) /\
    (bf && bx = true <->
     forall t, getStartTime demoPacket <= t <= 1700000000020000 ->
       1699999940000000 <= t <= 1700000060000000).
Proof.
  split; [reflexivity|].
  apply (window_test demoPacket 1700000060000000 demoFuture demoExpired 1700000000020000
           demoPacket_reachable); vm_compute; reflexivity.
Defined.

(** C22: a test that logs loses no bad packet: when it rejects a packet that
    has a name, that name is in the set of pending channels afterwards, or in
    a report just written together with every channel that was pending. *)
Theorem rejected_reported p name now :
  toName p = Ok name ->
  (forall t t' ls, Future.mLogBadData t = true ->
     Future.allow now p t = Ok (false, t', ls) ->
     name ∈ Future.mFutureChannels t' \/
     exists X, ls = [Info (Future.reportMessage X)] /\ name ∈ X /\
               Future.mFutureChannels t ⊆ X) /\
  (forall t t' ls, Expired.mLogBadData t = true ->
     Expired.allow now p t = Ok (false, t', ls) ->
     name ∈ Expired.mExpiredChannels t' \/
     exists X, ls = [Info (Expired.reportMessage X)] /\ name ∈ X /\
               Expired.mExpiredChannels t ⊆ X).
Proof.
  intros N. split; intros t t' ls L E.
  - apply Future.future_allow_spec in E. by eapply Future.future_logBadData_named.
  - apply Expired.expired_allow_spec in E. by eapply Expired.expired_logBadData_named.
Qed.

Lemma rejected_reported_witness :
  toName demoPacket = Ok "UU.FORK.HHZ.01" /\
  exists t' ls,
    Future.allow 1600000000000000 demoPacket demoFuture = Ok (false, t', ls) /\
    ("UU.FORK.HHZ.01" ∈ Future.mFutureChannels t' \/
     exists X, ls = [Info (Future.reportMessage X)] /\ "UU.FORK.HHZ.01" ∈ X /\
               Future.mFutureChannels demoFuture ⊆ X).
Proof.
  assert (N : toName demoPacket = Ok "UU.FORK.HHZ.01") by (vm_compute; reflexivity).
  split; [exact N|].
  destruct (future_allow_total demoPacket 1600000000000000 demoFuture 1700000000020000)
    as (t' & ls & E); [vm_compute; reflexivity..|].
  change (1700000000020000 <=? _) with false in E.
  exists t', ls. split; [exact E|].
  exact (proj1 (rejected_reported demoPacket _ _ N) demoFuture t' ls eq_refl E).
Defined.

(** The reports of each test are spaced, whatever the packets and the clock. *)
Lemma window_reports_spaced (l : list (Z * DataPacketImpl)) :
  (forall f : Future.TestFutureDataPacketImpl,
     spaced (Future.mLogBadDataInterval f) (Future.mLastLogTime f) (reports l f)) /\
  (forall x : Expired.TestExpiredDataPacketImpl,
     spaced (Expired.mLogBadDataInterval x) (Expired.mLastLogTime x) (reports l x)).
Proof. split; intros t; exact (reports_spaced l t). Qed.

(** A run over three rejected packets in which the first and the last are
    reported. *)
Definition demoRun : list (Z * DataPacketImpl) :=
  [(1600000000000000, demoPacket); (1600000030000000, demoPacket);
   (1600000040000000, newPacket); (1600000061000000, demoPacket)].
