(* ===== verification/DuplicateTest.v ===== *)
(** * The duplicate packet test

    sanitizer/testDuplicateDataPacket.cpp: the headers of the packets already
    seen are kept, per channel, in a circular buffer sorted by start time.
    The buffers are those of the interface [CircularBuffer].  The asserts of a
    build without [NDEBUG] are part of the model; [allowHeader_no_assert]
    shows that none of them fails. *)
From Stdlib Require Import ZArith Ascii String SpecFloat Lia Sorted.
From stdpp Require Import base tactics list gmap strings sorting pretty.
From S2P Require Import Prelude Float64 Interfaces DataPacket PacketTests.

Open Scope string_scope.
Open Scope Z_scope.

(** ** Packet headers *)
Record DataPacketHeader := mkHeader {
  name : string;
  startTime : Z;
  endTime : Z;
  samplingRate : Z;
  nSamples : Z
}.

#[export] Instance DataPacketHeader_eq_dec : EqDecision DataPacketHeader.
Proof. solve_decision. Defined.

(** [explicit DataPacketHeader(const DataPacket &packet)] *)
Definition toHeader (packet : DataPacketImpl) : outcome DataPacketHeader :=
  name ← toName packet;
  assert_ (negb (str_empty name));;
  let startTime := getStartTime packet in
  endTime ← getEndTime packet;
  rate ← getSamplingRate packet;
  samplingRate ← d_to_i32 (std_round rate);
  let nSamples := getNumberOfSamples packet in
  throw_if (nSamples <=? 0) (InvalidArgument "No samples in packet");;
  Ok (mkHeader name startTime endTime samplingRate nSamples).

(** [*this < rhs], the order of the buffers. *)
Definition header_lt (this rhs : DataPacketHeader) : bool :=
  startTime this <? startTime rhs.

(** The allowed difference of start times, in microseconds. *)
Definition tolerance (rate : Z) : option Z :=
  if rate <? 105 then Some 15000
  else if rate <? 255 then Some 4500
  else if rate <? 505 then Some 2500
  else if rate <? 1005 then Some 1500
  else None.

(** [*this == rhs] *)
Definition header_eq (this rhs : DataPacketHeader) : outcome bool :=
  if negb (bool_decide (name rhs = name this)) then Ok false
  else
    dRate ← to_i32 (samplingRate rhs - samplingRate this);
    throw_if (negb (dRate =? 0))
      (RuntimeError ("Inconsistent sampling rates for: " +:+ name this));;
    if negb (nSamples rhs =? nSamples this) then Ok false
    else
      difference ← to_i64 (startTime rhs - startTime this);
      dStartTime ← to_i64 (Z.abs difference);
      match tolerance (samplingRate this) with
      | Some t => Ok (dStartTime <? t)
      | None =>
          Throw (RuntimeError ("Could not classify sampling rate: "
                               +:+ pretty (samplingRate this) +:+ " for " +:+ name this))
      end.

(** [std::find(begin, end, header) != end] *)
Fixpoint find_header (l : list DataPacketHeader) (header : DataPacketHeader) : outcome bool :=
  match l with
  | [] => Ok false
  | x :: l' =>
      same ← header_eq x header;
      if (same : bool) then Ok true else find_header l' header
  end.

(** [std::is_sorted] by start time *)
Fixpoint is_sorted (l : list DataPacketHeader) : bool :=
  match l with
  | x :: ((y :: _) as l') => negb (header_lt y x) && is_sorted l'
  | _ => true
  end.

(** [std::sort] by start time: the buffers hold distinct start times, so the
    order of equal elements does not matter. *)
Definition start_le (a b : DataPacketHeader) : Prop := startTime a <= startTime b.
#[export] Instance start_le_dec : RelDecision start_le.
Proof. intros a b. unfold start_le. apply _. Defined.
Definition sort_headers (l : list DataPacketHeader) : list DataPacketHeader :=
  merge_sort start_le l.

(** The double 1.5. *)
Definition d_three_halves : double := d_div (d_of_Z 3) (d_of_Z 2).

Definition estimateCapacity (header : DataPacketHeader) (memory : Z) : outcome Z :=
  let duration :=
    d_max d_zero
      (std_round (d_div (d_sub (d_of_Z (nSamples header)) (d_of_Z 1))
                        (d_of_Z (Z.max 1 (samplingRate header))))) in
  packetDuration ← d_to_i32 duration;
  n ← d_to_i32 (d_div (d_mul d_three_halves (d_of_Z memory)) duration);
  to_i32 (Z.max 10 n + 1).

Arguments estimateCapacity : simpl never.

(** The start or the end of [header] lies in [streamHeader]. *)
Definition slips (header streamHeader : DataPacketHeader) : bool :=
  ((startTime streamHeader <=? startTime header) &&
   (startTime header <=? endTime streamHeader)) ||
  ((startTime streamHeader <=? endTime header) &&
   (endTime header <=? endTime streamHeader)).

(** ** The tester *)
Record TestDuplicateDataPacketImpl (C : Type) := mkDuplicate {
  mCircularBuffers : gmap string C;
  mDuplicateChannels : gset string;
  mBadTimingChannels : gset string;
  mLogBadDataInterval : Z;
  mLastLogTime : Z;
  mCircularBufferDuration : Z;
  mCircularBufferSize : Z;
  mLogBadData : bool;
  mEstimateCapacity : bool
}.
Arguments mkDuplicate {C}.
Arguments mCircularBuffers {C}.
Arguments mDuplicateChannels {C}.
Arguments mBadTimingChannels {C}.
Arguments mLogBadDataInterval {C}.
Arguments mLastLogTime {C}.
Arguments mCircularBufferDuration {C}.
Arguments mCircularBufferSize {C}.
Arguments mLogBadData {C}.
Arguments mEstimateCapacity {C}.

Section tester.
Context {C : Type} `{CircularBuffer C DataPacketHeader}.
Abbreviation impl := (TestDuplicateDataPacketImpl C).

Definition with_buffers (m : gmap string C) (t : impl) : impl :=
  mkDuplicate m (mDuplicateChannels t) (mBadTimingChannels t) (mLogBadDataInterval t)
    (mLastLogTime t) (mCircularBufferDuration t) (mCircularBufferSize t)
    (mLogBadData t) (mEstimateCapacity t).
Definition with_bad (dup timing : gset string) (last : Z) (t : impl) : impl :=
  mkDuplicate (mCircularBuffers t) dup timing (mLogBadDataInterval t) last
    (mCircularBufferDuration t) (mCircularBufferSize t) (mLogBadData t)
    (mEstimateCapacity t).

(** *** Constructors *)
Definition newDefault : impl := mkDuplicate ∅ ∅ ∅ 3600 0 300 100 true false.

Definition newSize (circularBufferSize logBadDataInterval : Z) : outcome impl :=
  throw_if (circularBufferSize <? 1)
    (InvalidArgument "Circular buffer size must be positive");;
  Ok (mkDuplicate ∅ ∅ ∅ logBadDataInterval 0 300 circularBufferSize
        (0 <=? logBadDataInterval) false).

Definition newDuration (circularBufferDuration logBadDataInterval : Z) : outcome impl :=
  throw_if (circularBufferDuration <? 1)
    (InvalidArgument "Circular buffer duration must be positive");;
  Ok (mkDuplicate ∅ ∅ ∅ logBadDataInterval 0 circularBufferDuration 100
        (0 <=? logBadDataInterval) true).

(** Copy assignment of the implementation. *)
Definition copy (this other : impl) : impl :=
  mkDuplicate (mCircularBuffers other) (mDuplicateChannels other)
    (mBadTimingChannels other) (mLogBadDataInterval other) (mLastLogTime other)
    (mCircularBufferDuration other) (mCircularBufferSize other) (mLogBadData other)
    (mEstimateCapacity other).

(** *** Reports *)
Definition logBadData (nowMuSeconds : Z) (t : impl) : outcome (impl * list line) :=
  if negb (mLogBadData t) then Ok (t, [])
  else
    let nowSeconds := us_to_s nowMuSeconds in
    next ← to_i64 (mLastLogTime t + mLogBadDataInterval t);
    if next <=? nowSeconds then
      let '(t, l1) :=
        if negb (bool_decide (mDuplicateChannels t = ∅)) then
          (with_bad ∅ (mBadTimingChannels t) nowSeconds t,
           [Info (join_channels "Duplicate packets detected for:"
                    (set_iteration (mDuplicateChannels t)))])
        else (t, []) in
      let '(t, l2) :=
        if negb (bool_decide (mBadTimingChannels t = ∅)) then
          (with_bad (mDuplicateChannels t) ∅ nowSeconds t,
           [Info (join_channels "Bad timing detected for:"
                    (set_iteration (mBadTimingChannels t)))])
        else (t, []) in
      Ok (t, l1 ++ l2)%list
    else Ok (t, []).

(** *** The decision *)
Definition store (header : DataPacketHeader) (b : C) (t : impl) : impl :=
  with_buffers (<[name header := b]> (mCircularBuffers t)) t.

Definition flagDuplicate (n : string) (t : impl) : impl :=
  if mLogBadData t
  then with_bad ({[n]} ∪ mDuplicateChannels t) (mBadTimingChannels t) (mLastLogTime t) t
  else t.
Definition flagBadTiming (n : string) (t : impl) : impl * list line :=
  if mLogBadData t
  then (with_bad (mDuplicateChannels t) ({[n]} ∪ mBadTimingChannels t) (mLastLogTime t) t,
        [Info ("Detected possible timing slip for: " +:+ n)])
  else (t, []).

(** [TestDuplicateDataPacketImpl::allow]; the second look up of the buffer,
    which cannot miss, is left out. *)
Definition allowHeader (header : DataPacketHeader) (t : impl)
    : outcome (bool * impl * list line) :=
  assert_ (negb (str_empty (name header)));;
  assert_ (0 <? nSamples header);;
  match mCircularBuffers t !! name header with
  | None =>
      capacity ← (if mEstimateCapacity t
                  then estimateCapacity header (mCircularBufferDuration t)
                  else Ok (mCircularBufferSize t));
      Ok (true, store header (cb_push_back header (cb_new capacity)) t,
          [Info ("Creating new circular buffer for: " +:+ name header
                 +:+ " with capacity: " +:+ pretty capacity)])
  | Some buffer =>
      found ← find_header (cb_elems buffer) header;
      if (found : bool) then Ok (false, flagDuplicate (name header) t, [])
      else
        back ← of_option (last (cb_elems buffer));
        if endTime back <? startTime header then
          Ok (true, store header (cb_push_back header buffer) t, [])
        else
          front ← of_option (head (cb_elems buffer));
          if endTime header <? startTime front then
            if negb (cb_full buffer) then
              let buffer := cb_push_front header buffer in
              assert_ (is_sorted (cb_elems buffer));;
              Ok (false, store header buffer t, [])
            else Ok (false, t, [])
          else if existsb (slips header) (cb_elems buffer) then
            let '(t, l) := flagBadTiming (name header) t in Ok (false, t, l)
          else
            let buffer := cb_push_back header buffer in
            Ok (true, store header (cb_assign sort_headers buffer) t, [])
  end.

(** [TestDuplicateDataPacket::allow]; an exception of the decision leaves
    the tester as it was and the packet allowed. *)
Definition allow (nowMuSeconds : Z) (packet : DataPacketImpl) (t : impl)
    : outcome (bool * impl * list line) :=
  match toHeader packet with
  | Undef => Undef
  | Throw e =>
      Ok (false, t, [Warn ("Failed to unpack dataPacketHeader.  Failed because: "
                           +:+ what e +:+ "; Not allowing...")])
  | Ok header =>
      '(allow, t, l1) ←
        TRY allowHeader header t
        CATCH e => Ok (true, t, [Warn ("Failed to check packet because " +:+ what e)]);
      '(t, l2) ←
        TRY logBadData nowMuSeconds t
        CATCH e => Ok (t, [Warn ("Error: " +:+ what e
                             +:+ " detected during logging expired data.")]);
      Ok (allow, t, l1 ++ l2)%list
  end.
End tester.

(** ** Sorted headers *)
Definition starts (l : list DataPacketHeader) : list Z := startTime <$> l.

(** Strictly increasing start times, and no packet ends before it starts. *)
Definition ordered (l : list DataPacketHeader) : Prop :=
  StronglySorted Z.lt (starts l) /\ Forall (fun h => startTime h <= endTime h) l.

Lemma ordered_nil : ordered [].
Proof. split; constructor. Qed.

Lemma ordered_cons h l :
  ordered (h :: l) <->
  startTime h <= endTime h /\ Forall (fun x => startTime h < startTime x) l /\ ordered l.
Proof.
  unfold ordered, starts. simpl. rewrite Forall_cons. split.
  - intros [S [? ?]]. inversion S; subst. rewrite Forall_fmap in *. auto.
  - intros (? & F & S & ?). split; [|auto]. constructor; [done|]. by rewrite Forall_fmap.
Qed.

Lemma ordered_app_inv l1 l2 : ordered (l1 ++ l2) -> ordered l1 /\ ordered l2.
Proof.
  induction l1 as [|h l1 IH]; simpl; [by split; [apply ordered_nil|]|].
  rewrite ordered_cons, Forall_app. intros (? & [? ?] & [? ?]%IH).
  split; [|done]. by apply ordered_cons.
Qed.

Lemma ordered_drop1 l : ordered l -> ordered (drop 1 l).
Proof. destruct l; simpl; [done|]. rewrite ordered_cons, drop_0. tauto. Qed.

Lemma ordered_snoc l h :
  ordered l -> startTime h <= endTime h ->
  Forall (fun x => startTime x < startTime h) l -> ordered (l ++ [h]).
Proof.
  intros O Hh. induction l as [|x l IH]; simpl.
  - intros _. rewrite ordered_cons. split; [done|]. split; [constructor|apply ordered_nil].
  - apply ordered_cons in O as (? & F & O). intros [? ?]%Forall_cons.
    apply ordered_cons. split; [done|]. split; [|by apply IH].
    apply Forall_app. split; [done|]. by constructor.
Qed.

(** The last element starts last. *)
Lemma ordered_last l h x :
  ordered l -> last l = Some h -> x ∈ l -> startTime x <= startTime h.
Proof.
  induction l as [|y l IH]; [done|]. rewrite ordered_cons. intros (? & F & O) L I.
  destruct l as [|z l].
  - injection L as ->. apply list_elem_of_singleton in I as ->. lia.
  - change (last (z :: l) = Some h) in L.
    apply elem_of_cons in I as [->|I]; [|by apply IH].
    apply last_Some_elem_of in L. rewrite Forall_forall in F. specialize (F h L). lia.
Qed.

Lemma ordered_head l h x : ordered l -> head l = Some h -> x ∈ l -> startTime h <= startTime x.
Proof.
  destruct l as [|y l]; [done|]. rewrite ordered_cons. intros (? & F & O) [= ->] I.
  apply elem_of_cons in I as [->|I]; [lia|]. rewrite Forall_forall in F. specialize (F x I). lia.
Qed.

Lemma ordered_is_sorted l : ordered l -> is_sorted l = true.
Proof.
  induction l as [|x l IH]; [done|]. rewrite ordered_cons. intros (? & F & O).
  destruct l as [|y l]; [done|]. change (negb (header_lt y x) && is_sorted (y :: l) = true).
  rewrite (IH O). apply Forall_cons in F as [? _]. unfold header_lt.
  rewrite andb_true_r, negb_true_iff. lia.
Qed.

Lemma StronglySorted_lt_NoDup (l : list Z) : StronglySorted Z.lt l -> NoDup l.
Proof.
  induction 1 as [|x l S IH F]; constructor; [|done].
  intros I. rewrite Forall_forall in F. specialize (F x I). lia.
Qed.

#[export] Instance start_le_trans : Transitive start_le.
Proof. intros x y z. unfold start_le. lia. Qed.
#[export] Instance start_le_total : Total start_le.
Proof. intros x y. unfold start_le. lia. Qed.

Lemma sort_headers_perm l : sort_headers l ≡ₚ l.
Proof. apply merge_sort_Permutation. Qed.

(** Sorting headers with distinct start times orders them. *)
Lemma sort_headers_ordered l :
  NoDup (starts l) -> Forall (fun h => startTime h <= endTime h) l ->
  ordered (sort_headers l).
Proof.
  intros N F. split; [|by rewrite sort_headers_perm].
  assert (N' : NoDup (starts (sort_headers l)))
    by (unfold starts; by rewrite sort_headers_perm).
  assert (S : StronglySorted start_le (sort_headers l))
    by (apply StronglySorted_merge_sort; apply _).
  revert N' S. generalize (sort_headers l). clear. induction l as [|x l IH]; simpl.
  - constructor.
  - intros [N1 N2]%NoDup_cons S. inversion S as [|? ? S' F]; subst.
    constructor; [by apply IH|]. unfold starts. rewrite Forall_fmap, Forall_forall in *.
    intros y I. specialize (F y I). unfold start_le in F. simpl.
    assert (startTime x <> startTime y); [|lia].
    intros E. apply N1. unfold starts. rewrite E. by apply list_elem_of_fmap_2.
Qed.

(** ** The invariant of the tester *)
Record header_ok (h : DataPacketHeader) : Prop := mkHeaderOk {
  ho_name : str_empty (name h) = false;
  ho_samples : 0 < nSamples h;
  ho_times : startTime h <= endTime h;
  ho_rate : 0 <= samplingRate h < 2 ^ 31
}.

Lemma toHeader_ok p h : reachable p -> toHeader p = Ok h -> header_ok h.
Proof.
  intros R. unfold toHeader.
  intros (n & En & ([] & En'%assert_ok & (e & Ee & Hh)%bind_ok)%bind_ok)%bind_ok.
  apply bind_ok in Hh as (r & Er & (i & Ei & ([] & Hs%throw_if_ok & [= <-])%bind_ok)%bind_ok).
  apply negb_true_iff in En'. split; simpl; [done|lia|by apply end_not_before_start|].
  unfold getSamplingRate in Er. apply bind_ok in Er as ([] & Hr%throw_if_ok & [= <-]).
  apply negb_false_iff in Hr. unfold haveSamplingRate in Hr.
  assert (N : d_isneg (std_round (mSamplingRate p)) = false).
  { apply std_round_sign. destruct (d_positive_cases _ Hr) as [->|(m & x & ->)]; done. }
  unfold d_to_i32 in Ei. destruct (d_trunc _) as [z|] eqn:Ez; [|done].
  apply to_i32_ok in Ei as [-> B%in_i32_spec].
  pose proof (d_trunc_nonneg _ _ N Ez). lia.
Qed.

Section invariant.
Context {C : Type} `{CircularBufferLaws C DataPacketHeader}.
Abbreviation impl := (TestDuplicateDataPacketImpl C).

(** A buffer holds at least one and at most [capacity] headers, all of its
    channel, in strictly increasing order of start time. *)
Record buffer_ok (n : string) (b : C) : Prop := mkBufferOk {
  bo_ordered : ordered (cb_elems b);
  bo_headers : Forall (fun h => header_ok h /\ name h = n) (cb_elems b);
  bo_bounds : (0 < length (cb_elems b))%nat /\
              Z.of_nat (length (cb_elems b)) <= cb_capacity b
}.

Definition state_ok (t : impl) : Prop :=
  map_Forall buffer_ok (mCircularBuffers t) /\ 1 <= mCircularBufferSize t.

Lemma buffer_capacity n b : buffer_ok n b -> 0 < cb_capacity b.
Proof. intros [_ _ ?]. lia. Qed.

Lemma length_push_back b h :
  0 < cb_capacity b -> Z.of_nat (length (cb_elems b)) <= cb_capacity b ->
  (0 < length (cb_elems (cb_push_back h b)))%nat /\
  Z.of_nat (length (cb_elems (cb_push_back h b))) <= cb_capacity b.
Proof.
  intros Hc Hl. rewrite cb_push_back_elems, length_app by done. simpl.
  unfold cb_full. destruct (Z.eqb_spec (Z.of_nat (length (cb_elems b))) (cb_capacity b)); [|lia].
  rewrite length_drop. lia.
Qed.

Lemma elems_push_back b h x :
  0 < cb_capacity b -> x ∈ cb_elems (cb_push_back h b) -> x = h \/ x ∈ cb_elems b.
Proof.
  intros Hc. rewrite cb_push_back_elems by done. intros [I|I]%elem_of_app.
  - right. destruct (cb_full b); eauto with us8.
  - left. by apply list_elem_of_singleton in I.
Qed.

Lemma push_back_mem b h : 0 < cb_capacity b -> h ∈ cb_elems (cb_push_back h b).
Proof.
  intros Hc. rewrite cb_push_back_elems by done. apply elem_of_app. right.
  by apply list_elem_of_singleton.
Qed.

(** The first header of a channel. *)
Lemma first_buffer_ok h n :
  header_ok h -> 0 < n -> buffer_ok (name h) (cb_push_back h (cb_new n)).
Proof.
  intros Hh Hn.
  assert (Hc : cb_capacity (cb_new (C:=C) n) = n) by (by apply cb_new_capacity).
  assert (Hf : cb_full (cb_new (C:=C) n) = false)
    by (unfold cb_full; rewrite cb_new_elems, Hc; by destruct n).
  assert (E : cb_elems (cb_push_back h (cb_new (C:=C) n)) = [h])
    by (rewrite cb_push_back_elems, Hf, cb_new_elems by (by rewrite Hc); done).
  split; rewrite E.
  - apply ordered_cons. split; [apply Hh|]. split; [constructor|apply ordered_nil].
  - by apply Forall_singleton.
  - rewrite cb_push_back_capacity, Hc. simpl. lia.
Qed.

Lemma push_back_ok b h n :
  buffer_ok n b -> header_ok h -> name h = n ->
  Forall (fun x => startTime x < startTime h) (cb_elems b) ->
  buffer_ok n (cb_push_back h b).
Proof.
  intros B Hh Hn F. pose proof (buffer_capacity _ _ B) as Hc. destruct B as [O Hs L].
  split.
  - rewrite cb_push_back_elems by done. destruct (cb_full b); apply ordered_snoc; try apply Hh.
    + by apply ordered_drop1.
    + by apply Forall_drop.
    + done.
    + done.
  - rewrite Forall_forall in *. intros x I. apply elems_push_back in I as [->|I]; auto.
  - rewrite cb_push_back_capacity. by apply length_push_back; [|destruct L].
Qed.

Lemma push_front_ok b h n :
  buffer_ok n b -> header_ok h -> name h = n -> cb_full b = false ->
  Forall (fun x => startTime h < startTime x) (cb_elems b) ->
  buffer_ok n (cb_push_front h b).
Proof.
  intros B Hh Hn Hf F. pose proof (buffer_capacity _ _ B) as Hc. destruct B as [O Hs L].
  unfold cb_full in Hf. apply Z.eqb_neq in Hf.
  assert (E : cb_elems (cb_push_front h b) = h :: cb_elems b).
  { rewrite cb_push_front_elems by done. unfold cb_full.
    by destruct (Z.eqb_spec (Z.of_nat (length (cb_elems b))) (cb_capacity b)). }
  split; rewrite E.
  - apply ordered_cons. split; [apply Hh|done].
  - by constructor.
  - rewrite cb_push_front_capacity. simpl. lia.
Qed.

Lemma insert_ok b h n :
  buffer_ok n b -> header_ok h -> name h = n ->
  startTime h ∉ starts (cb_elems b) ->
  buffer_ok n (cb_assign sort_headers (cb_push_back h b)) /\
  h ∈ cb_elems (cb_assign sort_headers (cb_push_back h b)).
Proof.
  intros B Hh Hn F. pose proof (buffer_capacity _ _ B) as Hc. destruct B as [O Hs L].
  pose proof (sort_headers_perm (cb_elems (cb_push_back h b))) as P.
  assert (Hs' : Forall (fun x => header_ok x /\ name x = n) (cb_elems (cb_push_back h b))).
  { rewrite Forall_forall in *. intros x I. apply elems_push_back in I as [->|I]; auto. }
  assert (E := cb_assign_elems _ _ P).
  split; [split|]; rewrite ?E.
  - apply sort_headers_ordered.
    + assert (N : NoDup (starts (cb_elems b))) by apply StronglySorted_lt_NoDup, O.
      rewrite cb_push_back_elems by done. unfold starts in *. rewrite fmap_app.
      apply NoDup_app. split; [destruct (cb_full b); [rewrite fmap_drop; auto with us8|done]|].
      split; [|by apply NoDup_singleton].
      intros x I I'. simpl in I'. apply list_elem_of_singleton in I' as ->. apply F.
      destruct (cb_full b); [|done]. rewrite fmap_drop in I. eauto with us8.
    + eapply Forall_impl; [exact Hs'|]. simpl. intros x [[] _]. done.
  - by rewrite P.
  - rewrite P, cb_assign_capacity, cb_push_back_capacity.
    by apply length_push_back; [|destruct L].
  - rewrite P. by apply push_back_mem.
Qed.

Lemma state_ok_store t h b :
  state_ok t -> buffer_ok (name h) b -> state_ok (store h b t).
Proof. intros [S ?] B. split; [|done]. by apply map_Forall_insert_2. Qed.

Lemma flagDuplicate_buffers n (t : impl) :
  mCircularBuffers (flagDuplicate n t) = mCircularBuffers t /\
  mCircularBufferSize (flagDuplicate n t) = mCircularBufferSize t.
Proof. unfold flagDuplicate. by destruct (mLogBadData t). Qed.
Lemma flagBadTiming_buffers n (t : impl) :
  mCircularBuffers (flagBadTiming n t).1 = mCircularBuffers t /\
  mCircularBufferSize (flagBadTiming n t).1 = mCircularBufferSize t.
Proof. unfold flagBadTiming. by destruct (mLogBadData t). Qed.
End invariant.

Lemma estimateCapacity_bounds h m n : estimateCapacity h m = Ok n -> 11 <= n < 2 ^ 31.
Proof.
  unfold estimateCapacity. intros (d & _ & (k & _ & [-> B%in_i32_spec]%to_i32_ok)%bind_ok)%bind_ok.
  change (2 ^ 31) with 2147483648. lia.
Qed.

(** ** When two headers are duplicates *)
Definition duplicates (x h : DataPacketHeader) : Prop :=
  name x = name h /\ samplingRate x = samplingRate h /\ nSamples x = nSamples h /\
  exists tol, tolerance (samplingRate h) = Some tol /\
              Z.abs (startTime h - startTime x) < tol.

Lemma header_eq_duplicates x h : header_eq x h = Ok true -> duplicates x h.
Proof.
  unfold header_eq. destruct (bool_decide_reflect (name h = name x)) as [En|]; [|done]. simpl.
  intros (d & [-> _]%to_i32_ok & ([] & Hr%throw_if_ok & Hn)%bind_ok)%bind_ok.
  apply negb_false_iff, Z.eqb_eq in Hr.
  destruct (Z.eqb_spec (nSamples h) (nSamples x)); [|done]. simpl in Hn.
  apply bind_ok in Hn as (d & [-> _]%to_i64_ok & (a & [-> _]%to_i64_ok & Ht)%bind_ok).
  assert (samplingRate x = samplingRate h) as Es by lia. rewrite Es in Ht.
  destruct (tolerance (samplingRate h)) as [tol|] eqn:Et; [|done].
  injection Ht as Ht. split; [done|]. split; [done|]. split; [done|].
  exists tol. split; [done|lia].
Qed.

(** Comparing with a header of the same channel and a rate below 1005 Hz does
    not throw. *)
Lemma header_eq_no_throw x h e :
  samplingRate x = samplingRate h -> samplingRate h < 1005 -> header_eq x h <> Throw e.
Proof.
  unfold header_eq. intros Er Hr. destruct (negb (bool_decide _)); [done|].
  unfold to_i32. destruct (in_i32 _); [|done]. simpl. rewrite Er, Z.sub_diag. simpl.
  destruct (negb (nSamples h =? nSamples x)); [done|].
  unfold to_i64. destruct (in_i64 _); [|done]. simpl. destruct (in_i64 _); [|done]. simpl.
  unfold tolerance. repeat case_match; try done. lia.
Qed.

Lemma header_eq_dup x h r : duplicates x h -> header_eq x h = Ok r -> r = true.
Proof.
  intros (En & Er & Es & tol & Et & Hd). unfold header_eq.
  rewrite bool_decide_eq_true_2 by done. simpl. rewrite Er, Z.sub_diag, Es, Z.eqb_refl. simpl.
  intros (d & [-> _]%to_i64_ok & (a & [-> _]%to_i64_ok & Ht)%bind_ok)%bind_ok.
  rewrite Et in Ht. injection Ht as <-. lia.
Qed.

Lemma find_header_true l h : find_header l h = Ok true -> exists x, x ∈ l /\ duplicates x h.
Proof.
  induction l as [|x l IH]; simpl; [done|]. intros (r & Er & E)%bind_ok. destruct r.
  - exists x. split; [by left|]. by apply header_eq_duplicates.
  - destruct (IH E) as (y & ? & ?). exists y. split; [by right|done].
Qed.

Lemma find_header_dup l x h : x ∈ l -> duplicates x h -> find_header l h <> Ok false.
Proof.
  induction l as [|y l IH]; simpl; [by intros ?%not_elem_of_nil|].
  intros I D (r & Er & E)%bind_ok.
  apply elem_of_cons in I as [->|I].
  - rewrite (header_eq_dup _ _ _ D Er) in E. done.
  - destruct r; [done|]. by apply IH in E.
Qed.

Lemma find_header_no_throw l h e :
  Forall (fun x => samplingRate x = samplingRate h) l -> samplingRate h < 1005 ->
  find_header l h <> Throw e.
Proof.
  intros F Hr. induction F as [|x l Ex F IH]; simpl; [done|].
  intros [E|(r & Er & E)]%bind_throw.
  - by eapply header_eq_no_throw.
  - by destruct r.
Qed.

(** ** The decision, case by case *)
Section decision.
Context {C : Type} `{CircularBufferLaws C DataPacketHeader}.
Abbreviation impl := (TestDuplicateDataPacketImpl C).

Inductive decision (h : DataPacketHeader) (t : impl) : bool -> impl -> Prop :=
  | DFirst n :
      mCircularBuffers t !! name h = None ->
      (n = mCircularBufferSize t \/ 11 <= n) ->
      decision h t true (store h (cb_push_back h (cb_new n)) t)
  | DDuplicate b x :
      mCircularBuffers t !! name h = Some b ->
      x ∈ cb_elems b -> duplicates x h ->
      decision h t false (flagDuplicate (name h) t)
  | DNewer b back :
      mCircularBuffers t !! name h = Some b -> find_header (cb_elems b) h = Ok false ->
      last (cb_elems b) = Some back -> endTime back < startTime h ->
      decision h t true (store h (cb_push_back h b) t)
  | DOlder b front :
      mCircularBuffers t !! name h = Some b -> find_header (cb_elems b) h = Ok false ->
      head (cb_elems b) = Some front -> endTime h < startTime front ->
      cb_full b = false ->
      decision h t false (store h (cb_push_front h b) t)
  | DExpired b front :
      mCircularBuffers t !! name h = Some b -> find_header (cb_elems b) h = Ok false ->
      head (cb_elems b) = Some front -> endTime h < startTime front ->
      cb_full b = true ->
      decision h t false t
  | DSlip b x :
      mCircularBuffers t !! name h = Some b -> find_header (cb_elems b) h = Ok false ->
      x ∈ cb_elems b -> slips h x = true ->
      decision h t false (flagBadTiming (name h) t).1
  | DBackfill b front :
      mCircularBuffers t !! name h = Some b -> find_header (cb_elems b) h = Ok false ->
      (forall x, x ∈ cb_elems b -> slips h x = false) ->
      head (cb_elems b) = Some front -> startTime front <= endTime h ->
      decision h t true (store h (cb_assign sort_headers (cb_push_back h b)) t).

Lemma allowHeader_decision h t v t' ls :
  allowHeader h t = Ok (v, t', ls) -> decision h t v t'.
Proof.
  unfold allowHeader. intros ([] & _ & ([] & _ & E)%bind_ok)%bind_ok.
  destruct (mCircularBuffers t !! name h) as [b|] eqn:Eb.
  2:{ apply bind_ok in E as (n & En & [= <- <- <-]). apply DFirst; [done|].
      destruct (mEstimateCapacity t); [|left; congruence].
      right. apply estimateCapacity_bounds in En as []; done. }
  apply bind_ok in E as (found & Ef & E). destruct found.
  { injection E as <- <- <-. apply find_header_true in Ef as (x & ? & ?).
    by eapply DDuplicate. }
  apply bind_ok in E as (back & Hb%of_option_ok & E).
  destruct (Z.ltb_spec (endTime back) (startTime h)).
  { injection E as <- <- <-. by eapply DNewer. }
  apply bind_ok in E as (front & Hf%of_option_ok & E).
  destruct (Z.ltb_spec (endTime h) (startTime front)).
  { destruct (cb_full b) eqn:Efull; simpl in E.
    - injection E as <- <- <-. by eapply DExpired.
    - apply bind_ok in E as ([] & _ & [= <- <- <-]). by eapply DOlder. }
  destruct (existsb (slips h) (cb_elems b)) eqn:Es.
  - apply existsb_exists in Es as (x & I%list_elem_of_In & Hx).
    destruct (flagBadTiming (name h) t) as [t1 l1] eqn:Et. injection E as <- <- <-.
    change t1 with (t1, l1).1. rewrite <- Et. by eapply DSlip.
  - injection E as <- <- <-. apply (DBackfill h t b front); [done|done| |done|done].
    intros x I%list_elem_of_In. apply not_true_iff_false. intros Hx.
    apply not_true_iff_false in Es. apply Es, existsb_exists. eauto.
Qed.

(** Where the verdict is true the header is stored; the invariant holds
    afterwards in every case. *)
Lemma newer_starts b h back n :
  buffer_ok n b -> last (cb_elems b) = Some back -> endTime back < startTime h ->
  Forall (fun x => startTime x < startTime h) (cb_elems b).
Proof.
  intros [O Hs _] L E. rewrite Forall_forall in *. intros x I.
  pose proof (ordered_last _ _ _ O L I).
  destruct (Hs back (last_Some_elem_of _ _ L)) as [[] _]. lia.
Qed.

Lemma older_starts b h front n :
  buffer_ok n b -> header_ok h -> head (cb_elems b) = Some front ->
  endTime h < startTime front ->
  Forall (fun x => startTime h < startTime x) (cb_elems b).
Proof.
  intros [O Hs _] [] L E. rewrite Forall_forall in *. intros x I.
  pose proof (ordered_head _ _ _ O L I). lia.
Qed.

Lemma backfill_start b h n :
  buffer_ok n b -> (forall x, x ∈ cb_elems b -> slips h x = false) ->
  startTime h ∉ starts (cb_elems b).
Proof.
  intros [O Hs _] S I. unfold starts in I. apply list_elem_of_fmap in I as (x & Ex & I).
  specialize (S x I). rewrite Forall_forall in Hs. destruct (Hs x I) as [[] _].
  unfold slips in S. apply orb_false_iff in S as [S _]. lia.
Qed.

Lemma decision_ok h t v t' :
  state_ok t -> header_ok h -> decision h t v t' ->
  state_ok t' /\
  (v = true -> exists b, mCircularBuffers t' !! name h = Some b /\ h ∈ cb_elems b).
Proof.
  intros S Hh D. pose proof S as [SF SS].
  destruct D as [n E1 Hn|b x Hb|b back Hb Hf Hl He|b front Hb Hf Hl He Hfull|b front|b x
                |b front Hb Hf Hs Hl He].
  - assert (B : buffer_ok (name h) (cb_push_back h (cb_new (C:=C) n)))
      by (apply first_buffer_ok; [done|lia]).
    split; [apply state_ok_store; [exact S|exact B]|]. intros _. eexists.
    split; [apply lookup_insert_eq|]. apply push_back_mem.
    rewrite cb_new_capacity; lia.
  - split; [|done]. unfold state_ok. by destruct (flagDuplicate_buffers (name h) t) as [-> ->].
  - pose proof (SF _ _ Hb) as B. split.
    + apply state_ok_store; [done|]. apply push_back_ok; [done..|]. by eapply newer_starts.
    + intros _. eexists. split; [apply lookup_insert_eq|].
      by eapply push_back_mem, buffer_capacity.
  - split; [|done]. pose proof (SF _ _ Hb) as B. apply state_ok_store; [done|].
    apply push_front_ok; [done..|]. by eapply older_starts.
  - by split.
  - split; [|done]. unfold state_ok. by destruct (flagBadTiming_buffers (name h) t) as [-> ->].
  - pose proof (SF _ _ Hb) as B.
    destruct (insert_ok b h (name h) B Hh eq_refl (backfill_start _ _ _ B Hs)) as [B' I].
    split; [by apply state_ok_store|]. intros _. eexists.
    by split; [apply lookup_insert_eq|].
Qed.
End decision.

(** Two ordered lists of the same headers are the same list. *)
Lemma ordered_perm_eq l1 l2 : ordered l1 -> ordered l2 -> l1 ≡ₚ l2 -> l1 = l2.
Proof.
  revert l2. induction l1 as [|x l1 IH]; intros l2 O1 O2 P.
  { by apply Permutation_nil in P. }
  destruct l2 as [|y l2]; [by apply Permutation_sym, Permutation_nil in P|].
  pose proof O1 as (_ & F1 & O1')%ordered_cons. pose proof O2 as (_ & F2 & O2')%ordered_cons.
  rewrite Forall_forall in F1, F2.
  assert (x = y) as ->.
  { assert (Ix : x ∈ y :: l2) by (rewrite <- P; by left).
    assert (Iy : y ∈ x :: l1) by (rewrite P; by left).
    apply elem_of_cons in Ix as [->|Ix]; [done|].
    apply elem_of_cons in Iy as [->|Iy]; [done|].
    specialize (F1 _ Iy). specialize (F2 _ Ix). lia. }
  f_equal. apply IH; [done..|]. by eapply Permutation_cons_inv.
Qed.

(** ** The abstract specification

    Each channel has a capacity and a list of headers. *)
Definition archive : Type := gmap string (Z * list DataPacketHeader).

(** Room for one more: a full list loses its earliest header. *)
Definition keep (cap : Z) (l : list DataPacketHeader) : list DataPacketHeader :=
  if Z.of_nat (length l) =? cap then drop 1 l else l.

Inductive spec (h : DataPacketHeader) (m : archive) : bool -> archive -> Prop :=
  (* the first header of a channel opens its list *)
  | SpecFirst cap :
      m !! name h = None -> 0 < cap -> spec h m true (<[name h := (cap, [h])]> m)
  (* a duplicate or a timing slip is rejected *)
  | SpecReject cap l x :
      m !! name h = Some (cap, l) -> x ∈ l -> duplicates x h \/ slips h x = true ->
      spec h m false m
  (* a header before all others is rejected; it is kept where there is room *)
  | SpecOld cap l :
      m !! name h = Some (cap, l) -> find_header l h = Ok false ->
      (forall x, x ∈ l -> endTime h < startTime x) ->
      spec h m false
        (if Z.of_nat (length l) =? cap then m else <[name h := (cap, h :: l)]> m)
  (* a header that is neither, nor before all others, is allowed and inserted in
     order *)
  | SpecInsert cap l l' :
      m !! name h = Some (cap, l) -> find_header l h = Ok false ->
      (forall x, x ∈ l -> slips h x = false) ->
      (exists x, x ∈ l /\ startTime x <= endTime h) ->
      ordered l' -> l' ≡ₚ h :: keep cap l ->
      spec h m true (<[name h := (cap, l')]> m).

(** A header before all others slips into none of them. *)
Lemma before_no_slip h (l : list DataPacketHeader) x :
  header_ok h -> (forall y, y ∈ l -> endTime h < startTime y) -> x ∈ l -> slips h x = false.
Proof.
  intros [] B I. specialize (B x I). unfold slips.
  apply orb_false_iff. split; apply andb_false_iff; left; lia.
Qed.

(** The specification decides: one verdict, and on a channel that is known
    one archive. *)
Lemma spec_decides h m v1 m1 v2 m2 :
  header_ok h -> spec h m v1 m1 -> spec h m v2 m2 ->
  v1 = v2 /\ (is_Some (m !! name h) -> m1 = m2).
Proof.
  intros Hh S1 S2.
  destruct S1 as [c1 E1 _|c1 l1 x1 E1 I1 R1|c1 l1 E1 F1 B1|c1 l1 l1' E1 F1 N1 (x1 & I1 & L1) O1 P1];
  destruct S2 as [c2 E2 _|c2 l2 x2 E2 I2 R2|c2 l2 E2 F2 B2|c2 l2 l2' E2 F2 N2 (x2 & I2 & L2) O2 P2];
  rewrite E1 in E2; try discriminate E2;
  try (injection E2 as <- <-);
  try (exfalso; destruct R1 as [D|D]; [by eapply find_header_dup in D|];
       first [by rewrite N2 in D | by rewrite (before_no_slip _ _ _ Hh B2 I1) in D]);
  try (exfalso; destruct R2 as [D|D]; [by eapply find_header_dup in D|];
       first [by rewrite N1 in D | by rewrite (before_no_slip _ _ _ Hh B1 I2) in D]).
  - split; [done|]. rewrite E1. by intros [].
  - done.
  - done.
  - specialize (B1 _ I2). lia.
  - specialize (B2 _ I1). lia.
  - split; [done|]. intros _. do 2 f_equal. apply ordered_perm_eq; [done..|]. by rewrite P1.
Qed.

Section refinement.
Context {C : Type} `{CircularBufferLaws C DataPacketHeader}.
Abbreviation impl := (TestDuplicateDataPacketImpl C).

Definition contents (t : impl) : archive :=
  (fun b => (cb_capacity b, cb_elems b)) <$> mCircularBuffers t.

Lemma contents_lookup t n b :
  mCircularBuffers t !! n = Some b -> contents t !! n = Some (cb_capacity b, cb_elems b).
Proof.
  intros E. unfold contents. change archive with (gmap string (Z * list DataPacketHeader)).
  by rewrite lookup_fmap, E.
Qed.

Lemma contents_absent t n : mCircularBuffers t !! n = None -> contents t !! n = None.
Proof.
  intros E. unfold contents. change archive with (gmap string (Z * list DataPacketHeader)).
  by rewrite lookup_fmap, E.
Qed.

Lemma contents_store h b t :
  contents (store h b t) = <[name h := (cb_capacity b, cb_elems b)]> (contents t).
Proof. unfold contents, store. simpl. by rewrite fmap_insert. Qed.

Lemma contents_duplicate n t : contents (flagDuplicate n t) = contents t.
Proof. unfold contents. by destruct (flagDuplicate_buffers n t) as [-> _]. Qed.
Lemma contents_timing n t : contents (flagBadTiming n t).1 = contents t.
Proof. unfold contents. by destruct (flagBadTiming_buffers n t) as [-> _]. Qed.

Lemma newer_no_slip b h back n :
  buffer_ok n b -> header_ok h -> Forall (fun x => endTime x < startTime h) (cb_elems b) ->
  last (cb_elems b) = Some back ->
  forall x, x ∈ cb_elems b -> slips h x = false.
Proof.
  intros B [] F _ x I. rewrite Forall_forall in F. specialize (F x I).
  unfold slips. apply orb_false_iff. split; apply andb_false_iff; lia.
Qed.

(** Newer than the header that starts last, but inside an earlier one that
    contains it: the code does not look at that one. *)
Definition shadowed (h : DataPacketHeader) (t : impl) : Prop :=
  exists b back x,
    mCircularBuffers t !! name h = Some b /\ last (cb_elems b) = Some back /\
    endTime back < startTime h /\ x ∈ cb_elems b /\ startTime h <= endTime x.

(** A header before all others, whether or not there is room for it. *)
Lemma spec_older h t b front full :
  buffer_ok (name h) b -> mCircularBuffers t !! name h = Some b ->
  find_header (cb_elems b) h = Ok false ->
  head (cb_elems b) = Some front -> endTime h < startTime front -> cb_full b = full ->
  spec h (contents t) false
    (if full then contents t else <[name h := (cb_capacity b, h :: cb_elems b)]> (contents t)).
Proof.
  intros B Hb Hf Hl He Hfull. unfold cb_full in Hfull. rewrite <- Hfull.
  apply SpecOld; [by apply contents_lookup|done|].
  intros x I. pose proof (ordered_head _ _ _ (bo_ordered _ _ B) Hl I). lia.
Qed.

(** What [push_back] leaves, as a list without an order. *)
Lemma push_back_keeps h n b :
  buffer_ok n b -> cb_elems (cb_push_back h b) ≡ₚ h :: keep (cb_capacity b) (cb_elems b).
Proof.
  intros B. rewrite cb_push_back_elems by (by eapply buffer_capacity).
  unfold keep, cb_full. by rewrite Permutation_app_comm.
Qed.

Lemma decision_refines h t v t' :
  state_ok t -> header_ok h -> ~ shadowed h t -> decision h t v t' ->
  spec h (contents t) v (contents t').
Proof.
  intros S Hh W D. pose proof S as [SF SS].
  pose proof (decision_ok _ _ _ _ S Hh D) as [[SF' _] _].
  destruct D as [n E1 Hn|b x Hb|b back Hb Hf Hl He|b front Hb Hf Hl He Hfull
                |b front Hb Hf Hl He Hfull|b x Hb Hf Hx|b front Hb Hf Hs Hl He];
  rewrite ?contents_duplicate, ?contents_timing; rewrite ?contents_store.
  - assert (Hn' : 0 < n) by lia.
    rewrite cb_push_back_capacity, cb_new_capacity by done.
    rewrite cb_push_back_elems by (by rewrite cb_new_capacity).
    unfold cb_full. rewrite cb_new_elems, cb_new_capacity by done.
    replace (Z.of_nat (length []) =? n) with false by (simpl; by destruct n).
    apply SpecFirst; [by apply contents_absent|done].
  - eapply SpecReject; [by apply contents_lookup|done|by left].
  - assert (L : mCircularBuffers (store h (cb_push_back h b) t) !! name h
                = Some (cb_push_back h b)) by apply lookup_insert_eq.
    pose proof (SF' _ _ L) as [O _ _]. pose proof (SF _ _ Hb) as B.
    rewrite cb_push_back_capacity.
    eapply SpecInsert; [by apply contents_lookup|done| | |done|].
    + eapply newer_no_slip; [done..| |done]. rewrite Forall_forall. intros x I.
      destruct (Z.lt_ge_cases (endTime x) (startTime h)); [done|].
      exfalso. apply W. by exists b, back, x.
    + pose proof (last_Some_elem_of _ _ Hl) as I. exists back. split; [done|].
      pose proof (bo_headers _ _ B) as F. rewrite Forall_forall in F.
      destruct (F back I) as [[] _]. destruct Hh. lia.
    + by eapply push_back_keeps.
  - pose proof (SF _ _ Hb) as B.
    rewrite cb_push_front_capacity, cb_push_front_elems by (by eapply buffer_capacity).
    rewrite Hfull. exact (spec_older _ _ _ _ _ B Hb Hf Hl He Hfull).
  - exact (spec_older _ _ _ _ _ (SF _ _ Hb) Hb Hf Hl He Hfull).
  - eapply SpecReject; [by apply contents_lookup|done|by right].
  - pose proof (SF _ _ Hb) as B.
    assert (L : mCircularBuffers
                  (store h (cb_assign sort_headers (cb_push_back h b)) t) !! name h
                = Some (cb_assign sort_headers (cb_push_back h b))) by apply lookup_insert_eq.
    pose proof (SF' _ _ L) as [O _ _].
    rewrite cb_assign_capacity, cb_push_back_capacity.
    eapply SpecInsert; [by apply contents_lookup|done|done| |done|].
    { exists front. split; [by apply head_Some_elem_of|done]. }
    rewrite cb_assign_elems by apply sort_headers_perm.
    rewrite sort_headers_perm. by eapply push_back_keeps.
Qed.
End refinement.

(** ** Runs *)
Section runs.
Context {C : Type} `{CircularBufferLaws C DataPacketHeader}.
Abbreviation impl := (TestDuplicateDataPacketImpl C).

Lemma logBadData_keeps now (t t' : impl) ls :
  logBadData now t = Ok (t', ls) ->
  mCircularBuffers t' = mCircularBuffers t /\
  mCircularBufferSize t' = mCircularBufferSize t /\
  mEstimateCapacity t' = mEstimateCapacity t /\
  mCircularBufferDuration t' = mCircularBufferDuration t.
Proof.
  unfold logBadData. destruct (negb (mLogBadData t)); [by intros [= <- <-]|].
  intros (next & _ & E)%bind_ok. destruct (next <=? us_to_s now); [|by injection E as <- <-].
  destruct (negb (bool_decide (mDuplicateChannels t = ∅))); simpl in E;
  destruct (negb (bool_decide (mBadTimingChannels t = ∅))); simpl in E;
  by injection E as <- <-.
Qed.

Lemma logBadData_no_throw now (t : impl) e : logBadData now t <> Throw e.
Proof.
  unfold logBadData. destruct (negb (mLogBadData t)); [done|].
  unfold to_i64. destruct (in_i64 _); [|done]. simpl.
  destruct (_ <=? us_to_s now); [|done].
  by destruct (negb (bool_decide (mDuplicateChannels t = ∅))); simpl;
  destruct (negb (bool_decide (mBadTimingChannels t = ∅))).
Qed.

(** What one call does: the header could not be made, the decision threw,
    or the decision was taken; then the report. *)
Lemma allow_inv now p (t t' : impl) v ls :
  allow now p t = Ok (v, t', ls) ->
  (v = false /\ t' = t) \/
  exists h t1,
    toHeader p = Ok h /\
    ((exists e, allowHeader h t = Throw e) /\ v = true /\ t1 = t \/
     exists l1, allowHeader h t = Ok (v, t1, l1)) /\
    mCircularBuffers t' = mCircularBuffers t1 /\
    mCircularBufferSize t' = mCircularBufferSize t1.
Proof.
  unfold allow. destruct (toHeader p) as [h|e|]; [|intros [= <- <- _]; by left|done].
  intros ([[v1 t1] l1] & E1 & ([t2 l2] & E2 & [= <- <- _])%bind_ok)%bind_ok.
  right. exists h, t1. split; [done|]. split.
  - destruct (allowHeader h t) as [x|e|]; simpl in E1; [|left; naive_solver|done].
    right. exists l1. congruence.
  - destruct (logBadData now t1) as [[t3 l3]|e|] eqn:El; simpl in E2; [|by apply logBadData_no_throw in El|done].
    injection E2 as <- <-. by apply logBadData_keeps in El as (? & ? & _).
Qed.

Lemma state_ok_same (t t' : impl) :
  mCircularBuffers t' = mCircularBuffers t ->
  mCircularBufferSize t' = mCircularBufferSize t -> state_ok t -> state_ok t'.
Proof. unfold state_ok. by intros -> ->. Qed.

Lemma allow_state_ok now p (t t' : impl) v ls :
  reachable p -> state_ok t -> allow now p t = Ok (v, t', ls) -> state_ok t'.
Proof.
  intros R S [[_ ->]|(h & t1 & Hh & D & Eb & Es)]%allow_inv; [done|].
  apply (state_ok_same t1); [done..|].
  destruct D as [(_ & _ & ->)|[l1 D%allowHeader_decision]]; [done|].
  by eapply decision_ok; [done|by eapply toHeader_ok|].
Qed.

(** A run of the tester over packets at the times of the clock. *)
Fixpoint runAllow (l : list (Z * DataPacketImpl)) (t : impl)
    : outcome (list bool * impl) :=
  match l with
  | [] => Ok ([], t)
  | (now, p) :: l' =>
      '(v, t, _) ← allow now p t;
      '(vs, t) ← runAllow l' t;
      Ok (v :: vs, t)
  end.

Lemma newDuplicate_ok (t : impl) size duration interval :
  t = newDefault \/ newSize size interval = Ok t \/ newDuration duration interval = Ok t ->
  state_ok t.
Proof.
  intros [->|[E|E]].
  - split; [apply map_Forall_empty|]. simpl. lia.
  - apply bind_ok in E as ([] & Hs%throw_if_ok & [= <-]).
    split; [apply map_Forall_empty|]. simpl. lia.
  - apply bind_ok in E as ([] & _ & [= <-]).
    split; [apply map_Forall_empty|]. simpl. lia.
Qed.

Lemma runAllow_ok l (t t' : impl) vs :
  Forall (fun i => reachable i.2) l -> state_ok t -> runAllow l t = Ok (vs, t') -> state_ok t'.
Proof.
  intros R. revert t vs. induction R as [|[now p] l R _ IH]; simpl; intros t vs S.
  - by intros [= <- <-].
  - intros ([[v t1] ls] & E1 & ([vs' t2] & E2 & [= <- <-])%bind_ok)%bind_ok.
    eapply IH; [|done]. by eapply allow_state_ok.
Qed.

(** All stored headers of the channel have the sampling rate of [h]. *)
Definition same_rates (h : DataPacketHeader) (t : impl) : Prop :=
  forall b, mCircularBuffers t !! name h = Some b ->
            Forall (fun x => samplingRate x = samplingRate h) (cb_elems b).

(** A stored header keeps its duplicates out. *)
Lemma stored_rejects now p k (t t' : impl) b x v ls :
  toHeader p = Ok k -> mCircularBuffers t !! name k = Some b -> x ∈ cb_elems b ->
  duplicates x k -> samplingRate k < 1005 -> same_rates k t ->
  allow now p t = Ok (v, t', ls) -> v = false.
Proof.
  intros Hk Hb I D Hr Hs [[-> _]|(h & t1 & Hh & E & _)]%allow_inv; [done|].
  assert (h = k) as -> by congruence.
  destruct E as [((e & E) & _)|[l1 E]]; unfold allowHeader in E.
  - apply bind_throw in E as [E|(? & _ & E)]; [by destruct (str_empty (name k))|].
    apply bind_throw in E as [E|(? & _ & E)]; [by destruct (0 <? nSamples k)|].
    rewrite Hb in E. exfalso.
    apply bind_throw in E as [E|(found & Ef & E)].
    + by eapply find_header_no_throw in E; [|apply Hs|].
    + destruct found; [done|]. by eapply find_header_dup in Ef.
  - apply bind_ok in E as ([] & _ & ([] & _ & E)%bind_ok). rewrite Hb in E.
    apply bind_ok in E as (found & Ef & E). destruct found; [congruence|].
    by eapply find_header_dup in Ef.
Qed.

(** An insertion adds [h] and forgets at most one header. *)
Lemma decision_subset h (t t' : impl) v b' x :
  state_ok t -> decision h t v t' -> mCircularBuffers t' !! name h = Some b' ->
  x ∈ cb_elems b' ->
  x = h \/ exists b, mCircularBuffers t !! name h = Some b /\ x ∈ cb_elems b.
Proof.
  intros S D L I. pose proof S as [SF SS].
  destruct D as [n E1 Hn|b y Hb|b back Hb Hf Hl He|b front Hb Hf Hl He Hfull
                |b front Hb Hf Hl He Hfull|b y Hb Hf Hx|b front Hb Hf Hs Hl He].
  - unfold store in L. simpl in L. rewrite lookup_insert_eq in L. injection L as <-.
    apply elems_push_back in I as [->|I]; [by left| |rewrite cb_new_capacity; lia].
    rewrite cb_new_elems in I. by apply not_elem_of_nil in I.
  - right. rewrite (proj1 (flagDuplicate_buffers _ _)) in L. eauto.
  - unfold store in L. simpl in L. rewrite lookup_insert_eq in L. injection L as <-.
    apply elems_push_back in I as [->|I]; [by left|eauto|].
    by eapply buffer_capacity, SF.
  - unfold store in L. simpl in L. rewrite lookup_insert_eq in L. injection L as <-.
    rewrite cb_push_front_elems in I by (eapply buffer_capacity, SF, Hb).
    rewrite Hfull in I. apply elem_of_cons in I as [->|I]; eauto.
  - eauto.
  - right. rewrite (proj1 (flagBadTiming_buffers _ _)) in L. eauto.
  - unfold store in L. simpl in L. rewrite lookup_insert_eq in L. injection L as <-.
    rewrite cb_assign_elems, sort_headers_perm in I by apply sort_headers_perm.
    apply elems_push_back in I as [->|I]; [by left|eauto|].
    by eapply buffer_capacity, SF.
Qed.
End runs.

(** ** Totality and exceptions of the decision *)
Lemma d_to_i32_no_throw x e : d_to_i32 x <> Throw e.
Proof. unfold d_to_i32. destruct (d_trunc x); [|done]. unfold to_i32. by destruct (in_i32 _). Qed.

Lemma estimateCapacity_no_throw h m e : estimateCapacity h m <> Throw e.
Proof.
  unfold estimateCapacity. intros [E|(? & _ & [E|(? & _ & E)]%bind_throw)]%bind_throw.
  - by apply d_to_i32_no_throw in E.
  - by apply d_to_i32_no_throw in E.
  - unfold to_i32 in E. by destruct (in_i32 _).
Qed.

(** Start and end are after 1970 and fit the clock. *)
Definition modern (h : DataPacketHeader) : Prop := 0 <= startTime h /\ endTime h < 2 ^ 63.

Lemma header_eq_total x h :
  header_ok x -> header_ok h -> modern x -> modern h -> header_eq x h <> Undef.
Proof.
  intros [_ _ Tx Rx] [_ _ Th Rh] [Sx Ex] [Sh Eh]. unfold header_eq.
  destruct (negb (bool_decide _)); [done|].
  assert (B1 : in_i32 (samplingRate h - samplingRate x) = true) by (apply in_i32_spec; lia).
  unfold to_i32. rewrite B1. simpl.
  destruct (negb (samplingRate h - samplingRate x =? 0)); [done|]. simpl.
  destruct (negb (nSamples h =? nSamples x)); [done|].
  assert (B2 : in_i64 (startTime h - startTime x) = true) by (apply in_i64_spec; lia).
  assert (B3 : in_i64 (Z.abs (startTime h - startTime x)) = true) by (apply in_i64_spec; lia).
  unfold to_i64. rewrite B2. simpl. rewrite B3. simpl. by destruct (tolerance _).
Qed.

Lemma find_header_total l h :
  Forall (fun x => header_ok x /\ modern x) l -> header_ok h -> modern h ->
  find_header l h <> Undef.
Proof.
  intros F Hh Mh. induction F as [|x l [Hx Mx] F IH]; simpl; [done|].
  pose proof (header_eq_total x h Hx Hh Mx Mh).
  destruct (header_eq x h) as [[]|e|]; simpl; done.
Qed.

Section totality.
Context {C : Type} `{CircularBufferLaws C DataPacketHeader}.
Abbreviation impl := (TestDuplicateDataPacketImpl C).

(** What the decision asks for: known times and, for the first header of a
    channel, a capacity. *)
Definition decidable_header (h : DataPacketHeader) (t : impl) : Prop :=
  match mCircularBuffers t !! name h with
  | Some b => modern h /\ Forall modern (cb_elems b)
  | None => mEstimateCapacity t = true ->
            is_ok (estimateCapacity h (mCircularBufferDuration t)) = true
  end.

Lemma allowHeader_no_assert h (t : impl) :
  state_ok t -> header_ok h -> decidable_header h t -> allowHeader h t <> Undef.
Proof.
  intros [SF SS] Hh D. unfold decidable_header in D. unfold allowHeader.
  destruct Hh as [Hn Hs Ht Hr] eqn:EHh. rewrite Hn. simpl.
  replace (0 <? nSamples h) with true by lia. simpl.
  destruct (mCircularBuffers t !! name h) as [b|] eqn:Eb.
  2:{ destruct (mEstimateCapacity t); [|done].
      destruct (estimateCapacity h _); by specialize (D eq_refl). }
  pose proof (SF _ _ Eb) as B. destruct D as [Mh Mb].
  pose proof (find_header_total (cb_elems b) h) as F.
  destruct (find_header (cb_elems b) h) as [found|e|] eqn:Ef; simpl; [|done|].
  2:{ exfalso. apply F; [|done|done|done]. destruct B as [_ Bh _].
      rewrite Forall_forall in *. intros x I. split; [by apply Bh|by apply Mb]. }
  destruct found; [done|].
  destruct (bo_bounds _ _ B) as [Hne _].
  destruct (last (cb_elems b)) as [back|] eqn:El;
    [simpl | apply last_None in El; rewrite El in Hne; simpl in Hne; lia].
  destruct (endTime back <? startTime h); [done|].
  destruct (head (cb_elems b)) as [front|] eqn:Eh;
    [simpl | apply head_None in Eh; rewrite Eh in Hne; simpl in Hne; lia].
  destruct (endTime h <? startTime front) eqn:Eo.
  - destruct (cb_full b) eqn:Efull; [done|].
    assert (P : buffer_ok (name h) (cb_push_front h b)).
    { apply push_front_ok; [done..|]. eapply older_starts; [done..|lia]. }
    simpl. rewrite (ordered_is_sorted _ (bo_ordered _ _ P)). done.
  - destruct (existsb (slips h) (cb_elems b)); [|done].
    by destruct (flagBadTiming (name h) t).
Qed.

Lemma allowHeader_no_throw h (t : impl) e :
  same_rates h t -> samplingRate h < 1005 -> allowHeader h t <> Throw e.
Proof.
  intros S Hr. unfold allowHeader. destruct (negb (str_empty (name h))); [|done].
  destruct (0 <? nSamples h); [|done]. simpl.
  destruct (mCircularBuffers t !! name h) as [b|] eqn:Eb.
  - pose proof (find_header_no_throw _ h e (S _ Eb) Hr).
    destruct (find_header (cb_elems b) h) as [[]|e'|]; simpl; [done| |congruence|done].
    destruct (last (cb_elems b)); [simpl|done].
    destruct (_ <? startTime h); [done|].
    destruct (head (cb_elems b)); [simpl|done].
    destruct (endTime h <? _); [destruct (negb (cb_full b)); [|done]|].
    + by destruct (is_sorted _).
    + destruct (existsb (slips h) (cb_elems b)); [|done].
      by destruct (flagBadTiming (name h) t).
  - destruct (mEstimateCapacity t); [|done].
    pose proof (estimateCapacity_no_throw h (mCircularBufferDuration t)) as N.
    destruct (estimateCapacity h _) as [|e'|]; [done| |done]. by destruct (N e').
Qed.

Lemma logBadData_total now (t : impl) :
  in_i64 (mLastLogTime t + mLogBadDataInterval t) = true ->
  exists t' ls, logBadData now t = Ok (t', ls).
Proof.
  intros B. unfold logBadData. destruct (negb (mLogBadData t)); [eauto|].
  unfold to_i64. rewrite B. simpl. destruct (_ <=? us_to_s now); [|eauto].
  destruct (negb (bool_decide (mDuplicateChannels t = ∅))); simpl;
  destruct (negb (bool_decide (mBadTimingChannels t = ∅))); simpl; eauto.
Qed.

(** The decision leaves the logging options and the time of the last
    report alone. *)
Lemma decision_log h (t t' : impl) v :
  decision h t v t' ->
  mLastLogTime t' = mLastLogTime t /\ mLogBadDataInterval t' = mLogBadDataInterval t.
Proof.
  destruct 1; try done; unfold flagDuplicate, flagBadTiming; by destruct (mLogBadData t).
Qed.
End totality.

(** The duration of a single sample is zero, and a quotient by zero is not an
    integer. *)
Definition sample_duration (r : Z) : double :=
  d_max d_zero (std_round (d_div (d_sub (d_of_Z 1) (d_of_Z 1)) (d_of_Z (Z.max 1 r)))).
Definition is_zero (x : double) : bool :=
  match x with S754_zero false => true | _ => false end.
Lemma zero_durations :
  forallb (fun r => is_zero (sample_duration r)) (Z.of_nat <$> seq 0 1005) = true.
Proof. vm_compute. reflexivity. Qed.

Lemma is_zero_true x : is_zero x = true -> x = d_zero.
Proof. by destruct x as [[]| | |]. Qed.

Lemma zero_duration r : 0 <= r < 1005 -> sample_duration r = d_zero.
Proof.
  intros Hr. apply is_zero_true.
  refine (proj1 (forallb_forall _ _) zero_durations r _).
  apply list_elem_of_In, list_elem_of_fmap. exists (Z.to_nat r).
  split; [lia|apply list_elem_of_In, in_seq; lia].
Qed.

Lemma div_zero_to_i32 x : d_to_i32 (d_div x d_zero) = Undef.
Proof. by destruct x as [| | |[]]. Qed.

Lemma single_sample_capacity h m :
  nSamples h = 1 -> 0 <= samplingRate h < 1005 -> estimateCapacity h m = Undef.
Proof.
  intros Hn Hr. unfold estimateCapacity. rewrite Hn.
  change (d_max _ _) with (sample_duration (samplingRate h)). rewrite zero_duration by done.
  change (d_to_i32 d_zero) with (Ok 0).
  generalize (d_mul d_three_halves (d_of_Z m)). intros x.
  unfold mbind, outcome_bind. by rewrite div_zero_to_i32.
Qed.

(** ** Properties *)
Section properties.
Context {C : Type} `{CircularBufferLaws C DataPacketHeader}.
Abbreviation impl := (TestDuplicateDataPacketImpl C).


(** C4: from each constructor, and over every run of packets, a channel's
    buffer holds between one and [capacity] headers of that channel, all
    with samples, none ending before it starts, in strictly increasing
    order of start time. *)
Theorem buffers_stay_ordered l size duration interval (t t' : impl) vs :
  t = newDefault \/ newSize size interval = Ok t \/ newDuration duration interval = Ok t ->
  Forall (fun i => reachable i.2) l ->
  runAllow l t = Ok (vs, t') ->
  map_Forall buffer_ok (mCircularBuffers t').
Proof.
  intros N R E. by eapply runAllow_ok in E as [? _]; [|done|by eapply newDuplicate_ok].
Qed.

(** C5: an allowed packet keeps its retransmission out: a packet of the
    same channel, rate and number of samples whose start differs by less
    than the tolerance of that rate is not allowed next.  This holds for
    rates below 1005 Hz on a channel that does not change its rate. *)
Theorem retransmission_rejected now now' p q h k (t t' t'' : impl) ls v ls' :
  state_ok t -> reachable p -> toHeader p = Ok h -> toHeader q = Ok k ->
  duplicates h k -> samplingRate h < 1005 -> same_rates h t ->
  allow now p t = Ok (true, t', ls) ->
  allow now' q t' = Ok (v, t'', ls') ->
  v = false.
Proof.
  intros S R Hh Hk D Hr Hs [[? _]|(h' & t1 & Hh' & E & Eb & Es)]%allow_inv; [done|].
  assert (h' = h) as -> by congruence. destruct D as (Dn & Dr & D).
  destruct E as [((e & E) & _)|[l1 E%allowHeader_decision]].
  { by apply allowHeader_no_throw in E. }
  pose proof (decision_ok h t true t1 S (toHeader_ok _ _ R Hh) E) as [_ P].
  destruct (P eq_refl) as (b & Hb & I).
  apply (stored_rejects now' q k t' t'' b h v ls'); [done| |done|by split|lia|].
  - by rewrite Eb, <- Dn.
  - intros b' Hb'. rewrite Eb, <- Dn in Hb'. assert (b' = b) as -> by congruence.
    rewrite Forall_forall. intros x Ix.
    destruct (decision_subset h t t1 true b x S E Hb Ix) as [->|(b0 & Hb0 & I0)]; [done|].
    specialize (Hs b0 Hb0). rewrite Forall_forall in Hs. rewrite (Hs x I0). done.
Qed.

(** C13: the test always answers, and none of its assertions fails, for a
    packet with a header whose times are after 1970 when its channel's
    times are, and, if it is the first of its channel, whose capacity can
    be estimated; the time at which the next report is due has to fit the 64
    bits of the clock. *)
Theorem allow_answers now p h (t : impl) :
  reachable p -> toHeader p = Ok h -> state_ok t -> decidable_header h t ->
  in_i64 (mLastLogTime t + mLogBadDataInterval t) = true ->
  exists v t' ls, allow now p t = Ok (v, t', ls).
Proof.
  intros R Hh S D L. unfold allow. rewrite Hh.
  pose proof (allowHeader_no_assert h t S (toHeader_ok _ _ R Hh) D) as N.
  destruct (allowHeader h t) as [[[v t1] l1]|e|] eqn:E; [simpl|simpl|done].
  - apply allowHeader_decision, decision_log in E as [E1 E2].
    destruct (logBadData_total now t1) as (t2 & l2 & E3); [by rewrite E1, E2|].
    rewrite E3. simpl. eauto.
  - destruct (logBadData_total now t L) as (t2 & l2 & E3). rewrite E3. simpl. eauto.
Qed.

(** On a channel of 1005 Hz or more, and on a packet whose rate is not
    that of the channel, the test decides nothing: it allows the packet,
    however many times it is sent, and stores nothing. *)
Theorem unclassified_rate_passes now p h x b l (t : impl) :
  reachable p -> toHeader p = Ok h -> state_ok t ->
  mCircularBuffers t !! name h = Some b -> cb_elems b = x :: l ->
  modern h -> modern x ->
  samplingRate x <> samplingRate h \/
    (1005 <= samplingRate h /\ nSamples x = nSamples h) ->
  in_i64 (mLastLogTime t + mLogBadDataInterval t) = true ->
  exists t' ls, allow now p t = Ok (true, t', ls) /\
                mCircularBuffers t' = mCircularBuffers t.
Proof.
  intros R Hh [SF _] Hb Ex Mh Mx Hr L. pose proof (toHeader_ok _ _ R Hh) as Kh.
  destruct (SF _ _ Hb) as [_ Bh _]. rewrite Ex in Bh. apply Forall_cons in Bh as [[Kx Nx] _].
  assert (E : exists e, header_eq x h = Throw e).
  { unfold header_eq. rewrite bool_decide_eq_true_2 by done. simpl.
    destruct Kh as [_ _ Th Rh], Kx as [_ _ Tx Rx], Mh, Mx.
    unfold to_i32. replace (in_i32 _) with true by (symmetry; apply in_i32_spec; lia). simpl.
    destruct (Z.eqb_spec (samplingRate h - samplingRate x) 0); simpl; [|eauto].
    destruct Hr as [Hr|[Hr Es]]; [lia|].
    rewrite Es, Z.eqb_refl. simpl. unfold to_i64.
    replace (in_i64 (startTime h - startTime x)) with true
      by (symmetry; apply in_i64_spec; lia). simpl.
    replace (in_i64 (Z.abs (startTime h - startTime x))) with true
      by (symmetry; apply in_i64_spec; lia). simpl.
    assert (Et : tolerance (samplingRate x) = None)
      by (unfold tolerance; repeat case_match; try done; lia).
    rewrite Et. eauto. }
  destruct E as [e E].
  assert (T : exists e, allowHeader h t = Throw e).
  { exists e. unfold allowHeader. destruct Kh as [Kn Ks _ _]. rewrite Kn. simpl.
    replace (0 <? nSamples h) with true by lia. simpl. rewrite Hb, Ex. simpl. by rewrite E. }
  destruct T as [e' T]. unfold allow. rewrite Hh, T. simpl.
  destruct (logBadData_total now t L) as (t2 & l2 & E3). rewrite E3. simpl.
  do 2 eexists. split; [done|]. by apply logBadData_keeps in E3 as [? _].
Qed.

(** A packet that starts before and ends after every packet of its
    channel, with another number of samples, is allowed: the check for
    timing slips looks at the two ends of the packet only. *)
Theorem containing_packet_allowed h b (t : impl) :
  state_ok t -> header_ok h -> modern h ->
  mCircularBuffers t !! name h = Some b ->
  Forall (fun x => modern x /\ samplingRate x = samplingRate h /\ nSamples x <> nSamples h /\
                   startTime h < startTime x /\ endTime x < endTime h) (cb_elems b) ->
  exists t' ls, allowHeader h t = Ok (true, t', ls).
Proof.
  intros S Hh Mh Hb F. pose proof S as [SF _]. pose proof (SF _ _ Hb) as B.
  assert (N : find_header (cb_elems b) h = Ok false).
  { destruct B as [_ Bh _]. induction F as [|x l (Mx & Er & Es & _) F IH]; [done|].
    apply Forall_cons in Bh as [[Kx Nx] Bh]. simpl. unfold header_eq.
    rewrite bool_decide_eq_true_2 by done. simpl. rewrite Er, Z.sub_diag. simpl.
    replace (nSamples h =? nSamples x) with false by lia. simpl. by apply IH. }
  destruct (bo_bounds _ _ B) as [Hne _].
  unfold allowHeader. destruct Hh as [Kn Ks Kt Kr]. rewrite Kn. simpl.
  replace (0 <? nSamples h) with true by lia. simpl. rewrite Hb, N. simpl.
  destruct (last (cb_elems b)) as [back|] eqn:El;
    [simpl | apply last_None in El; rewrite El in Hne; simpl in Hne; lia].
  destruct (head (cb_elems b)) as [front|] eqn:Eh;
    [simpl | apply head_None in Eh; rewrite Eh in Hne; simpl in Hne; lia].
  pose proof (bo_headers _ _ B) as BH. rewrite Forall_forall in F, BH.
  pose proof (last_Some_elem_of _ _ El) as Ib.
  destruct (F _ Ib) as (_ & _ & _ & ? & ?). destruct (BH _ Ib) as [[_ _ ? _] _].
  assert (If : front ∈ cb_elems b).
  { destruct (cb_elems b); [done|]. injection Eh as ->. by left. }
  destruct (F _ If) as (_ & _ & _ & ? & ?). destruct (BH _ If) as [[_ _ ? _] _].
  replace (endTime back <? startTime h) with false by lia. simpl.
  replace (endTime h <? startTime front) with false by lia.
  replace (existsb (slips h) (cb_elems b)) with false; [eauto|].
  symmetry. apply not_true_iff_false. intros (x & I%list_elem_of_In & E)%existsb_exists.
  destruct (F _ I) as (_ & _ & _ & ? & ?). unfold slips in E. lia.
Qed.

(** Where the capacity is estimated, a first packet of one sample is
    undefined behaviour: its duration rounds to zero, the memory is divided
    by it, and the infinite (or undefined) quotient is cast to an integer. *)
Theorem single_sample_undefined h (t : impl) :
  mEstimateCapacity t = true -> mCircularBuffers t !! name h = None ->
  header_ok h -> nSamples h = 1 -> samplingRate h < 1005 ->
  allowHeader h t = Undef.
Proof.
  intros He Hb [Kn Ks _ Kr] Hn Hr. unfold allowHeader. rewrite Kn, Hn. simpl.
  by rewrite Hb, He, single_sample_capacity by lia.
Qed.
End properties.

(** ** A tester over list buffers *)
Definition DemoTester : Type :=
  TestDuplicateDataPacketImpl (ListBuffer.buffer DataPacketHeader).

Definition demoName : string := "UU.FORK.HHZ.01".
(** One second of data at 100 Hz that starts at second [k]. *)
Definition demoHeaderAt (k : Z) : DataPacketHeader :=
  mkHeader demoName (k * 1000000) (k * 1000000 + 990000) 100 100.
Definition demoNew : DemoTester := mkDuplicate ∅ ∅ ∅ 60 0 300 3 true false.
Definition demoWith (l : list DataPacketHeader) : DemoTester :=
  with_buffers {[demoName := ListBuffer.mk 3 l]} demoNew.

Lemma demoWith_ok l :
  ordered l -> Forall (fun h => header_ok h /\ name h = demoName) l ->
  (0 < length l <= 3)%nat -> state_ok (demoWith l).
Proof.
  intros O F L. split; [|done]. apply map_Forall_singleton.
  split; [exact O|exact F|]. simpl. lia.
Qed.

Lemma demoHeaderAt_ok k : header_ok (demoHeaderAt k) /\ name (demoHeaderAt k) = demoName.
Proof. split; [|done]. split; simpl; [done|lia|lia|]. change (2 ^ 31) with 2147483648. lia. Qed.

Definition demoTwo : DemoTester := demoWith [demoHeaderAt 10; demoHeaderAt 12].

Lemma demoTwo_ok : state_ok demoTwo.
Proof.
  apply demoWith_ok; [|repeat constructor; apply demoHeaderAt_ok|simpl; lia].
  repeat (apply ordered_cons; simpl; split; [lia|]; split; [repeat constructor; simpl; lia|]).
  apply ordered_nil.
Qed.


Definition demoRunTester : DemoTester :=
  match runAllow [(1700000060000000, demoPacket); (1700000061000000, demoPacket)] demoNew with
  | Ok (_, t) => t
  | _ => demoNew
  end.

Lemma buffers_stay_ordered_witness :
  runAllow [(1700000060000000, demoPacket); (1700000061000000, demoPacket)] demoNew
    = Ok ([true; false], demoRunTester) /\
  map_Forall buffer_ok (mCircularBuffers demoRunTester).
Proof.
  assert (E : runAllow [(1700000060000000, demoPacket); (1700000061000000, demoPacket)]
                demoNew = Ok ([true; false], demoRunTester)) by (vm_compute; reflexivity).
  split; [exact E|].
  refine (buffers_stay_ordered _ 3 0 60 demoNew demoRunTester _
            (or_intror (or_introl eq_refl)) _ E).
  repeat constructor; apply demoPacket_reachable.
Defined.

Definition demoPacketHeader : DataPacketHeader :=
  mkHeader demoName 1700000000000000 1700000000020000 100 3.
Definition demoAfter (now : Z) (p : DataPacketImpl) (t : DemoTester) : DemoTester * list line :=
  match allow now p t with Ok (_, t', ls) => (t', ls) | _ => (t, []) end.
Definition demoOnce : DemoTester := (demoAfter 1700000060000000 demoPacket demoNew).1.

Lemma demoNew_ok : state_ok demoNew.
Proof. split; [apply map_Forall_empty|]. simpl. lia. Qed.
Lemma demoPacketHeader_eq : toHeader demoPacket = Ok demoPacketHeader.
Proof. vm_compute. reflexivity. Qed.

Lemma retransmission_rejected_witness :
  exists t'' ls ls',
    allow 1700000060000000 demoPacket demoNew = Ok (true, demoOnce, ls) /\
    allow 1700000061000000 demoPacket demoOnce = Ok (false, t'', ls').
Proof.
  assert (E : allow 1700000060000000 demoPacket demoNew =
              Ok (true, demoOnce, (demoAfter 1700000060000000 demoPacket demoNew).2))
    by (vm_compute; reflexivity).
  destruct (allow 1700000061000000 demoPacket demoOnce) as [[[v t''] ls']|e|] eqn:E'.
  - exists t'', (demoAfter 1700000060000000 demoPacket demoNew).2, ls'.
    split; [exact E|].
    assert (v = false) as ->; [|reflexivity].
    refine (retransmission_rejected 1700000060000000 1700000061000000 demoPacket demoPacket
             demoPacketHeader demoPacketHeader demoNew demoOnce t'' _ v ls' demoNew_ok
             demoPacket_reachable demoPacketHeader_eq demoPacketHeader_eq _ _ _ E E').
    + repeat split. exists 15000. split; [reflexivity|simpl; lia].
    + simpl. lia.
    + intros b Hb. discriminate Hb.
  - exfalso. vm_compute in E'. discriminate E'.
  - exfalso. vm_compute in E'. discriminate E'.
Defined.

Lemma allow_answers_witness :
  exists v t' ls, allow 1700000061000000 demoPacket demoTwo = Ok (v, t', ls).
Proof.
  apply (allow_answers 1700000061000000 demoPacket demoPacketHeader demoTwo
           demoPacket_reachable demoPacketHeader_eq demoTwo_ok); [|vm_compute; reflexivity].
  change (modern demoPacketHeader /\ Forall modern [demoHeaderAt 10; demoHeaderAt 12]).
  unfold modern. change (2 ^ 63) with 9223372036854775808.
  split; [simpl; lia|]. repeat constructor; simpl; lia.
Defined.

(** A packet of three samples at 2000 Hz, and the tester that has seen it. *)
Definition fastMutators : list mutator :=
  (demoHeader ++ [MSetData (Int32s [1; -2; 3]); MSetSamplingRate (d_of_Z 2000)])%list.
Definition fastPacket : DataPacketImpl := demoPacketOf fastMutators.
Definition fastHeader : DataPacketHeader :=
  mkHeader demoName 1700000000000000 1700000000001000 2000 3.

Lemma unclassified_rate_passes_witness :
  exists t' ls, allow 1700000061000000 fastPacket (demoWith [fastHeader]) = Ok (true, t', ls) /\
                mCircularBuffers t' = mCircularBuffers (demoWith [fastHeader]).
Proof.
  assert (K : header_ok fastHeader /\ name fastHeader = demoName).
  { split; [|done]. split; simpl; [done|lia|lia|]. change (2 ^ 31) with 2147483648. lia. }
  assert (M : modern fastHeader)
    by (unfold modern; change (2 ^ 63) with 9223372036854775808; simpl; lia).
  apply (unclassified_rate_passes 1700000061000000 fastPacket fastHeader fastHeader
           (ListBuffer.mk 3 [fastHeader]) []); try done.
  - apply (runMutators_reachable fastMutators newPacket); [constructor|].
    vm_compute. reflexivity.
  - apply demoWith_ok; [|by constructor|simpl; lia].
    apply ordered_cons. simpl. split; [lia|]. split; [constructor|apply ordered_nil].
  - right. simpl. lia.
Defined.

Lemma containing_packet_allowed_witness :
  exists t' ls,
    allowHeader (mkHeader demoName 9000000 13990000 100 500) demoTwo = Ok (true, t', ls).
Proof.
  apply (containing_packet_allowed (mkHeader demoName 9000000 13990000 100 500)
           (ListBuffer.mk 3 [demoHeaderAt 10; demoHeaderAt 12]) demoTwo demoTwo_ok).
  - split; simpl; [done|lia|lia|]. change (2 ^ 31) with 2147483648. lia.
  - unfold modern. change (2 ^ 63) with 9223372036854775808. simpl. lia.
  - reflexivity.
  - unfold modern. change (2 ^ 63) with 9223372036854775808.
    repeat constructor; simpl; lia.
Defined.

Definition demoEstimating : DemoTester := mkDuplicate ∅ ∅ ∅ 60 0 120 100 true true.

Lemma single_sample_undefined_witness :
  newDuration 120 60 = Ok demoEstimating /\
  allowHeader (mkHeader demoName 10000000 10000000 1 1) demoEstimating = Undef.
Proof.
  split; [reflexivity|].
  apply single_sample_undefined; [reflexivity|reflexivity| |reflexivity|simpl; lia].
  split; simpl; [done|lia|lia|]. change (2 ^ 31) with 2147483648. lia.
Defined.

(** ** Reports

    [logBadData] writes at most two lines, one for each set of channels; the
    decision may write lines of its own before them, with other beginnings. *)
Definition is_report (l : line) : bool :=
  match l with
  | Info s => String.prefix "Duplicate packets detected for:" s
              || String.prefix "Bad timing detected for:" s
  | _ => false
  end.

Lemma prefix_app a b : String.prefix a (a +:+ b) = true.
Proof.
  induction a as [|c a IH]; simpl; [by destruct b|].
  destruct (ascii_dec c c); [done|congruence].
Qed.

Lemma prefix_join m cs : String.prefix m (join_channels m cs) = true.
Proof.
  assert (exists x, join_channels m cs = m +:+ x) as [x ->]; [|apply prefix_app].
  unfold join_channels. revert m. induction cs as [|c cs IH]; intros m; simpl.
  - exists "". induction m as [|c m IH]; [done|].
    change (String c m = String c (m +:+ "")). congruence.
  - destruct (IH (m +:+ " " +:+ c)) as [x ->]. exists (" " +:+ c +:+ x).
    by rewrite !str_app_assoc.
Qed.

Section reporting.
Context {C : Type} `{CircularBuffer C DataPacketHeader}.
Abbreviation impl := (TestDuplicateDataPacketImpl C).

(** The decision writes no report. *)
Lemma allowHeader_no_report h (t t' : impl) v ls :
  allowHeader h t = Ok (v, t', ls) ->
  existsb is_report ls = false /\
  mLastLogTime t' = mLastLogTime t /\ mLogBadDataInterval t' = mLogBadDataInterval t.
Proof.
  unfold allowHeader. intros (_ & _ & (_ & _ & E)%bind_ok)%bind_ok.
  destruct (mCircularBuffers t !! name h) as [b|].
  - apply bind_ok in E as (f & _ & E). destruct f.
    { injection E as _ <- <-. unfold flagDuplicate. by destruct (mLogBadData t). }
    apply bind_ok in E as (bk & _ & E). destruct (endTime bk <? startTime h).
    { by injection E as _ <- <-. }
    apply bind_ok in E as (fr & _ & E). destruct (endTime h <? startTime fr).
    { destruct (negb (cb_full b)); [|by injection E as _ <- <-].
      apply bind_ok in E as (_ & _ & E). by injection E as _ <- <-. }
    destruct (existsb (slips h) (cb_elems b)); [|by injection E as _ <- <-].
    unfold flagBadTiming in E. by destruct (mLogBadData t); injection E as _ <- <-.
  - apply bind_ok in E as (c & _ & E). by injection E as _ <- <-.
Qed.

(** A report puts the time of the call in [mLastLogTime], and is written only
    when the interval has passed. *)
Lemma logBadData_reports now (t t' : impl) ls :
  logBadData now t = Ok (t', ls) ->
  mLogBadDataInterval t' = mLogBadDataInterval t /\
  if existsb is_report ls
  then mLastLogTime t' = us_to_s now /\ mLastLogTime t + mLogBadDataInterval t <= us_to_s now
  else mLastLogTime t' = mLastLogTime t.
Proof.
  unfold logBadData. destruct (negb (mLogBadData t)); [by intros [= <- <-]|].
  intros (next & En & E)%bind_ok. apply to_i64_ok in En as [-> _].
  destruct (_ <=? us_to_s now) eqn:L; [|by injection E as <- <-]. apply Z.leb_le in L.
  destruct (negb (bool_decide (mDuplicateChannels t = ∅))); simpl in E;
  destruct (negb (bool_decide (mBadTimingChannels t = ∅))); simpl in E;
  injection E as <- <-; simpl; rewrite ?prefix_join, ?orb_true_r; done.
Qed.

Lemma allow_reports now p (t t' : impl) v ls :
  allow now p t = Ok (v, t', ls) ->
  mLogBadDataInterval t' = mLogBadDataInterval t /\
  if existsb is_report ls
  then mLastLogTime t' = us_to_s now /\ mLastLogTime t + mLogBadDataInterval t <= us_to_s now
  else mLastLogTime t' = mLastLogTime t.
Proof.
  unfold allow. destruct (toHeader p) as [h|e|]; [|by intros [= _ <- <-]|done].
  intros ([[v1 t1] l1] & E1 & ([t2 l2] & E2 & [= _ <- <-])%bind_ok)%bind_ok.
  assert (existsb is_report l1 = false /\ mLastLogTime t1 = mLastLogTime t /\
          mLogBadDataInterval t1 = mLogBadDataInterval t) as (N & Hl & Hi).
  { destruct (allowHeader h t) as [[[]]|e|] eqn:Eh; simpl in E1; [|by injection E1 as _ <- <-|done].
    injection E1 as -> -> ->. by eapply allowHeader_no_report. }
  rewrite existsb_app, N. simpl. rewrite <- Hl, <- Hi.
  destruct (logBadData now t1) as [[t3 l3]|e|] eqn:El; simpl in E2; [|by injection E2 as <- <-|done].
  injection E2 as <- <-. by apply logBadData_reports in El.
Qed.

(** One call as a rate limited step. *)
Definition step (i : Z * DataPacketImpl) (t : impl) : option (impl * option Z) :=
  match allow i.1 i.2 t with
  | Ok (_, t', ls) =>
      Some (t', if existsb is_report ls then Some (us_to_s i.1) else None)
  | Throw _ => Some (t, None)
  | Undef => None
  end.

#[global] Instance rate_limited : RateLimited impl (Z * DataPacketImpl) := {|
  rl_last := mLastLogTime; rl_interval := mLogBadDataInterval; rl_step := step |}.

#[global] Instance rate_limited_laws : RateLimitedLaws impl (Z * DataPacketImpl).
Proof.
  split; intros [now p] t t'; simpl; unfold step; simpl; [intros r| |intros s];
  destruct (allow now p t) as [[[b t1] ls]| |] eqn:E; try done;
  try (by intros [= <- _]); try (by intros [= <-]);
  apply allow_reports in E as [Ei El]; destruct (existsb is_report ls); try done.
  - by intros [= -> _].
  - by intros [= -> _].
  - by intros [= ->].
  - by intros [= -> <-].
Qed.
End reporting.

(** C23: whatever the packets and the clock, the reports of the three tests
    are spaced: each is at least [mLogBadDataInterval] after the one before it
    (and the first, after the last report of the state the run starts in).  A
    run is a sequence of calls of [allow]: one that throws (the future test
    does, of a packet without an end time) leaves the tester as it was and the
    run goes on, as the sanitizer's does.  A run ends early only at undefined
    behaviour, and what it reported before that is spaced as well. *)
Theorem report_spacing {C : Type} `{CircularBuffer C DataPacketHeader}
    (l : list (Z * DataPacketImpl)) :
  (forall f : Future.TestFutureDataPacketImpl,
     spaced (Future.mLogBadDataInterval f) (Future.mLastLogTime f) (reports l f)) /\
  (forall x : Expired.TestExpiredDataPacketImpl,
     spaced (Expired.mLogBadDataInterval x) (Expired.mLastLogTime x) (reports l x)) /\
  (forall d : TestDuplicateDataPacketImpl C,
     spaced (mLogBadDataInterval d) (mLastLogTime d) (reports l d)).
Proof.
  destruct (window_reports_spaced l) as [F X]. split; [exact F|]. split; [exact X|].
  intros d. exact (reports_spaced l d).
Qed.

(** The same run through the future and the duplicate test, with a packet
    without an end time in it, of which the future test throws: the future test
    reports before and after that packet, the duplicate test has nothing to
    say the first time. *)
Lemma report_spacing_witness :
  reports demoRun demoFuture = [1600000000; 1600000061] /\
  spaced 60 0 [1600000000; 1600000061] /\
  reports demoRun demoNew = [1600000030] /\
  spaced 60 0 [1600000030].
Proof.
  assert (E : reports demoRun demoFuture = [1600000000; 1600000061])
    by (vm_compute; reflexivity).
  assert (D : reports demoRun demoNew = [1600000030]) by (vm_compute; reflexivity).
  destruct (report_spacing (C := ListBuffer.buffer DataPacketHeader) demoRun) as (F & _ & G).
  split; [exact E|]. split; [rewrite <- E; exact (F demoFuture)|].
  split; [exact D|]. rewrite <- D. exact (G demoNew).
Defined.
