(* ===== verification/Broadcast.v ===== *)
(** * Publishing and subscribing to data packets

    broadcasts/dataPacket/publisherOptions.cpp, publisher.cpp,
    subscriberOptions.cpp, subscriber.cpp and importClient.cpp, and
    version.cpp.  The ZeroMQ library is the parameter [env]. *)
From Stdlib Require Import ZArith Ascii String SpecFloat Lia.
From stdpp Require Import base tactics list gmap strings pretty.
From S2P Require Import Prelude Float64 JsonLib Interfaces DataPacket.

Open Scope string_scope.
Open Scope Z_scope.

(** ** Version *)
Section version.
(* the macros of the build *)
Context (US8_MAJOR US8_MINOR US8_PATCH : Z).

Definition isAtLeast (major minor patch : Z) : bool :=
  if US8_MAJOR <? major then false
  else if major <? US8_MAJOR then true
  else if US8_MINOR <? minor then false
  else if minor <? US8_MINOR then true
  else if US8_PATCH <? patch then false
  else true.
End version.

(** ** End points

    Both constructors strip white space and check the transport. *)
Definition checkEndPoint (endPointIn : string) : outcome string :=
  let endPoint := str_remove_if isspace endPointIn in
  throw_if (str_empty endPoint) (InvalidArgument "End point is empty");;
  throw_if (negb (starts_with "tcp://" endPoint) && negb (starts_with "udp://" endPoint) &&
            negb (starts_with "inproc://" endPoint))
    (InvalidArgument "End point must start with tcp:// or udp:// or inproc://");;
  Ok endPoint.

(** ** Publisher options *)
Module PublisherOptions.
Record PublisherOptionsImpl := mk {
  mEndPoint : string;
  mSendTimeOut : Z;           (* milliseconds *)
  mSendHighWaterMark : Z;
  mHaveCallback : bool
}.

Definition new (endPointIn : string) : outcome PublisherOptionsImpl :=
  endPoint ← checkEndPoint endPointIn; Ok (mk endPoint 10 4096 false).

Definition getEndPoint (o : PublisherOptionsImpl) : outcome string :=
  throw_if (str_empty (mEndPoint o)) (InvalidArgument "End point not set");;
  Ok (mEndPoint o).

Definition setTimeOut (timeOut : Z) (o : PublisherOptionsImpl) : PublisherOptionsImpl :=
  mk (mEndPoint o) (if timeOut <? 0 then -1 else timeOut) (mSendHighWaterMark o)
     (mHaveCallback o).
Definition getTimeOut (o : PublisherOptionsImpl) : Z := mSendTimeOut o.

Definition setHighWaterMark (highWaterMark : Z) (o : PublisherOptionsImpl)
    : outcome PublisherOptionsImpl :=
  throw_if (highWaterMark <? 0)
    (InvalidArgument "High water mark must be non-negative");;
  Ok (mk (mEndPoint o) (mSendTimeOut o) highWaterMark (mHaveCallback o)).
Definition getHighWaterMark (o : PublisherOptionsImpl) : Z := mSendHighWaterMark o.
End PublisherOptions.

(** ** Subscriber options

    The callback takes a packet and the state [S] of its owner; it may throw
    after it has changed that state. *)
Module SubscriberOptions.
Record SubscriberOptionsImpl (S : Type) := mk {
  mCallback : DataPacketImpl -> S -> S * outcome unit;
  mEndPoint : string;
  mLoggingInterval : Z;         (* seconds *)
  mReceiveTimeOut : Z;          (* milliseconds *)
  mReceiveHighWaterMark : Z;
  mHaveCallback : bool
}.
Arguments mk {S}.
Arguments mCallback {S}.
Arguments mEndPoint {S}.
Arguments mLoggingInterval {S}.
Arguments mReceiveTimeOut {S}.
Arguments mReceiveHighWaterMark {S}.
Arguments mHaveCallback {S}.

Section options.
Context {S : Type}.
Abbreviation impl := (SubscriberOptionsImpl S).

Definition new (endPointIn : string) (callback : DataPacketImpl -> S -> S * outcome unit)
    : outcome impl :=
  endPoint ← checkEndPoint endPointIn; Ok (mk callback endPoint 3600 10 4096 true).

Definition getEndPoint (o : impl) : outcome string :=
  throw_if (str_empty (mEndPoint o)) (InvalidArgument "End point not set");;
  Ok (mEndPoint o).

Definition getCallback (o : impl) : outcome (DataPacketImpl -> S -> S * outcome unit) :=
  throw_if (negb (mHaveCallback o)) (RuntimeError "Callback not set");; Ok (mCallback o).

Definition setTimeOut (timeOut : Z) (o : impl) : impl :=
  mk (mCallback o) (mEndPoint o) (mLoggingInterval o)
     (if timeOut <? 0 then -1 else timeOut) (mReceiveHighWaterMark o) (mHaveCallback o).
Definition getTimeOut (o : impl) : Z := mReceiveTimeOut o.

Definition setHighWaterMark (highWaterMark : Z) (o : impl) : outcome impl :=
  throw_if (highWaterMark <? 0)
    (InvalidArgument "High water mark must be non-negative");;
  Ok (mk (mCallback o) (mEndPoint o) (mLoggingInterval o) (mReceiveTimeOut o)
         highWaterMark (mHaveCallback o)).
Definition getHighWaterMark (o : impl) : Z := mReceiveHighWaterMark o.

Definition setLoggingInterval (loggingInterval : Z) (o : impl) : impl :=
  mk (mCallback o) (mEndPoint o) loggingInterval (mReceiveTimeOut o)
     (mReceiveHighWaterMark o) (mHaveCallback o).
Definition getLoggingInterval (o : impl) : Z := mLoggingInterval o.
End options.
End SubscriberOptions.

(** ** Publisher *)
Module Publisher.
Record PublisherImpl := mk {
  mOptions : PublisherOptions.PublisherOptionsImpl;
  mPublisherSocket : socket;
  mInitialized : bool
}.

Section publisher.
Context (env : ZmqEnv).

(** [try { m } catch (e) { throw runtime_error(prefix + e.what()); }] *)
Definition rethrow {A} (prefix : string) (m : outcome A) : outcome A :=
  TRY m CATCH e => Throw (RuntimeError (prefix +:+ what e)).

Definition new (options : PublisherOptions.PublisherOptionsImpl) : outcome PublisherImpl :=
  s ← rethrow "Failed to initialize publisher socket because "
        (s ← zdo env (ZSetInt "sndhwm" (PublisherOptions.getHighWaterMark options)) [];
         let timeOutMilliSeconds := wrap_i32 (PublisherOptions.getTimeOut options) in
         s ← zdo env (ZSetInt "sndtimeo" timeOutMilliSeconds) s;
         endPoint ← PublisherOptions.getEndPoint options;
         zdo env (ZConnect endPoint) s);
  Ok (mk options s true).

Context {J V : Type} `{JsonLib J V}.

Definition sendImpl (dataPacket : DataPacketImpl) (p : PublisherImpl)
    : outcome PublisherImpl :=
  let messageType := getMessageType in
  throw_if (str_empty messageType)
    (RuntimeError "Message type for data packet is empty");;
  messagePayload ← serialize (J:=J) dataPacket;
  nPartsSent ← z_parts env (mPublisherSocket p) [messageType; messagePayload];
  throw_if (negb (bool_decide (nPartsSent = Some 2)))
    (RuntimeError "Failed to send two-part message");;
  Ok (mk (mOptions p)
         (mPublisherSocket p ++ [ZSendMultipart [messageType; messagePayload]])%list
         (mInitialized p)).

Definition send (dataPacket : DataPacketImpl) (p : PublisherImpl) : outcome PublisherImpl :=
  throw_if (negb (mInitialized p)) (InvalidArgument "Publisher not initialized");;
  sendImpl dataPacket p.
End publisher.
End Publisher.

(** ** What a publisher sends *)
Section sending.
Context (env : ZmqEnv) {J V : Type} `{JsonLib J V}.

(** The call that sends a packet. *)
Definition sends (p : DataPacketImpl) (c : zcall) : Prop :=
  exists m, serialize (J:=J) p = Ok m /\ c = ZSendMultipart [getMessageType; m].

Lemma send_inv p pub pub' :
  Publisher.send env (J:=J) p pub = Ok pub' ->
  exists c, sends p c /\
    Publisher.mPublisherSocket pub' = (Publisher.mPublisherSocket pub ++ [c])%list.
Proof.
  unfold Publisher.send, Publisher.sendImpl. simpl.
  intros ([] & _ & (m & Em & (n & _ & ([] & _ & [= <-])%bind_ok)%bind_ok)%bind_ok)%bind_ok.
  eexists. split; [by exists m|done].
Qed.
End sending.

(** ** Subscriber *)
Module Subscriber.
Definition mMessageTypes : gset string := {[getMessageType]}.

Record SubscriberImpl (S : Type) := mk {
  mOptions : SubscriberOptions.SubscriberOptionsImpl S;
  mSubscriberSocket : socket;
  threadRunning : bool;        (* [mSubscriberThread] is joinable *)
  threadsStarted : nat;        (* how often it was made *)
  mKeepRunning : bool;
  mInitialized : bool
}.
Arguments mk {S}.
Arguments mOptions {S}.
Arguments mSubscriberSocket {S}.
Arguments threadRunning {S}.
Arguments threadsStarted {S}.
Arguments mKeepRunning {S}.
Arguments mInitialized {S}.

Section subscriber.
Context (env : ZmqEnv) {S : Type}.
Abbreviation impl := (SubscriberImpl S).

Definition subscribeAll (s : socket) : outcome socket :=
  foldl (fun acc t => s ← acc; zdo env (ZSetStr "subscribe" t) s) (Ok s)
    (set_iteration mMessageTypes).

Definition new (options : SubscriberOptions.SubscriberOptionsImpl S) : outcome impl :=
  s ← Publisher.rethrow "Failed to initialize subscriber socket because "
        (s ← zdo env (ZSetInt "rcvhwm" (SubscriberOptions.getHighWaterMark options)) [];
         s ← subscribeAll s;
         let timeOutMilliSeconds := wrap_i32 (SubscriberOptions.getTimeOut options) in
         s ← zdo env (ZSetInt "rcvtimeo" timeOutMilliSeconds) s;
         endPoint ← SubscriberOptions.getEndPoint options;
         zdo env (ZConnect endPoint) s);
  Ok (mk options s false 0 true true).

(** Joining waits for [listen] to see [mKeepRunning = false] and return. *)
Definition stopImpl (p : impl) : impl :=
  mk (mOptions p) (mSubscriberSocket p) false (threadsStarted p) false (mInitialized p).

Definition startImpl (p : impl) : outcome impl :=
  throw_if (negb (mInitialized p)) (RuntimeError "Subscriber not initialized");;
  let p := stopImpl p in
  Ok (mk (mOptions p) (mSubscriberSocket p) true (1 + threadsStarted p) true
         (mInitialized p)).

Definition destructor (p : impl) : impl := stopImpl p.

(** [Subscriber::start] and [Subscriber::stop]; the latter calls
    [pImpl->start()]. *)
Definition start (p : impl) : outcome impl := startImpl p.
Definition stop (p : impl) : outcome impl := startImpl p.

(** The locals of [listen]. *)
Record listening := mkListening {
  lastLogTime : Z;
  nReceivedMessages : Z;
  nNotPropagatedMessages : Z
}.

Definition listenStart (nowMuSeconds : Z) : listening :=
  mkListening (us_to_s nowMuSeconds) 0 0.

Definition performance (logInterval : Z) (l : listening) : line :=
  Info ("Received " +:+ pretty (nReceivedMessages l) +:+ " messages in last "
        +:+ pretty logInterval +:+ " seconds. (Did not propagate "
        +:+ pretty (nNotPropagatedMessages l) +:+ " messages.)").

Context {J V : Type} `{JsonLib J V}.

(** The [try] block: the result of the callback, or of what failed before
    it; [None] is the [continue] on an unhandled type. *)
Definition propagate (callback : DataPacketImpl -> S -> S * outcome unit)
    (messageType payload : string) (s : S) : option (S * outcome unit) :=
  if negb (bool_decide (messageType ∈ mMessageTypes)) then None
  else
    match deserialize (J:=J) payload with
    | Ok dataPacket => Some (callback dataPacket s)
    | Throw e => Some (s, Throw e)
    | Undef => Some (s, Undef)
    end.

(** One pass of the loop over the parts received; [ndebug] says whether
    the build defines [NDEBUG]. *)
Definition listenStep (ndebug : bool) (p : impl) (nowMuSeconds : Z)
    (messagesReceived : list string) (l : listening) (s : S)
    : outcome (listening * S * list line) :=
  callback ← SubscriberOptions.getCallback (mOptions p);
  let logInterval := SubscriberOptions.getLoggingInterval (mOptions p) in
  let doLogging := 0 <=? logInterval in
  match messagesReceived with
  | [] => Ok (l, s, [])
  | _ =>
      let l := mkListening (lastLogTime l) (nReceivedMessages l + 1)
                 (nNotPropagatedMessages l) in
      match messagesReceived with
      | [messageType; payload] =>
          match propagate callback messageType payload s with
          | None => Ok (l, s, [Warn ("Unhandled message type " +:+ messageType)])
          | Some (s, result) =>
              '(l, warned) ←
                match result with
                | Ok _ => Ok (l, [])
                | Throw e =>
                    Ok (mkListening (lastLogTime l) (nReceivedMessages l)
                          (nNotPropagatedMessages l + 1),
                        [Warn ("Failed getting from wire to queue because " +:+ what e)])
                | Undef => Undef
                end;
              let nowSeconds := us_to_s nowMuSeconds in
              due ← (if doLogging
                     then next ← to_i64 (lastLogTime l + logInterval);
                          Ok (next <=? nowSeconds)
                     else Ok false);
              if (due : bool)
              then Ok (mkListening nowSeconds 0 0, s,
                       warned ++ [performance logInterval l])%list
              else Ok (l, s, warned)
          end
      | _ =>
          if ndebug then
            Ok (mkListening (lastLogTime l) (nReceivedMessages l)
                  (nNotPropagatedMessages l + 1), s,
                [Warn "Only 2-part messages handled"])
          else Undef
      end
  end.
End subscriber.
End Subscriber.

(** ** The import client interface *)
Module ImportClient.
Section client.
Context {S : Type} (mCallback : DataPacketImpl -> S -> S * outcome unit).

(** [operator()(DataPacket &&)] *)
Definition applyPacket (packet : DataPacketImpl) (s : S) : S * outcome unit :=
  mCallback packet s.

(** [operator()(std::vector<DataPacket> &&)]: an exception ends the loop. *)
Fixpoint applyPackets (packets : list DataPacketImpl) (s : S) : S * outcome unit :=
  match packets with
  | [] => (s, Ok tt)
  | packet :: packets' =>
      let '(s, r) := applyPacket packet s in
      match r with Ok _ => applyPackets packets' s | _ => (s, r) end
  end.
End client.
End ImportClient.

(** ** Properties *)

Lemma checkEndPoint_ok s e :
  checkEndPoint s = Ok e <->
  e = str_remove_if isspace s /\
  (starts_with "tcp://" e || starts_with "udp://" e || starts_with "inproc://" e = true).
Proof.
  unfold checkEndPoint. set (r := str_remove_if isspace s). split.
  - intros ([] & _ & ([] & H%throw_if_ok & [= <-])%bind_ok)%bind_ok. split; [done|].
    by destruct (starts_with "tcp://" r), (starts_with "udp://" r), (starts_with "inproc://" r).
  - intros [-> H]. rewrite <- !negb_orb, H.
    by replace (str_empty r) with false by (by destruct r).
Qed.

(** The calls a constructor makes, when it returns. *)
Definition publisherCalls (hwm timeOut : Z) (endPoint : string) : list zcall :=
  [ZSetInt "sndhwm" hwm; ZSetInt "sndtimeo" (wrap_i32 timeOut); ZConnect endPoint].
Definition subscriberCalls (hwm timeOut : Z) (endPoint : string) : list zcall :=
  [ZSetInt "rcvhwm" hwm; ZSetStr "subscribe" getMessageType;
   ZSetInt "rcvtimeo" (wrap_i32 timeOut); ZConnect endPoint].

(** Whatever the library does: when the options and then the publisher,
    or the subscriber, are constructed, the end point connected to is the
    given one without white space, it names one of the three transports, and
    the socket was given the marks and time outs before it was connected; a
    subscriber asks for data packets and nothing else. *)
Theorem sockets_configured env text e o S (callback : DataPacketImpl -> S -> S * outcome unit) :
  e = str_remove_if isspace text ->
  (forall p, PublisherOptions.new text = Ok o -> Publisher.new env o = Ok p ->
     Publisher.mPublisherSocket p = publisherCalls 4096 10 e /\
     (starts_with "tcp://" e || starts_with "udp://" e || starts_with "inproc://" e = true)) /\
  (forall so p, SubscriberOptions.new text callback = Ok so ->
     Subscriber.new env so = Ok p ->
     Subscriber.mSubscriberSocket p = subscriberCalls 4096 10 e /\
     Subscriber.threadRunning p = false /\
     (starts_with "tcp://" e || starts_with "udp://" e || starts_with "inproc://" e = true)).
Proof.
  intros ->. split.
  - intros p (e & [-> T]%checkEndPoint_ok & [= <-])%bind_ok (s & E & [= <-])%bind_ok. simpl.
    split; [|done].
    unfold Publisher.rethrow in E. destruct (mbind _ _) as [s'|ex|] eqn:Es; simpl in E; [|done|done].
    injection E as <-. apply bind_ok in Es as (s1 & ->%zdo_ok & Es).
    apply bind_ok in Es as (s2 & ->%zdo_ok & (e & Ee & ->%zdo_ok)%bind_ok).
    apply bind_ok in Ee as ([] & _ & [= <-]). done.
  - intros so p (e & [-> T]%checkEndPoint_ok & [= <-])%bind_ok (s & E & [= <-])%bind_ok. simpl.
    split; [|done].
    unfold Publisher.rethrow in E. destruct (mbind _ _) as [s'|ex|] eqn:Es; simpl in E; [|done|done].
    injection E as <-. apply bind_ok in Es as (s1 & ->%zdo_ok & Es).
    apply bind_ok in Es as (s2 & Es2 & (s3 & ->%zdo_ok & (e & Ee & ->%zdo_ok)%bind_ok)%bind_ok).
    apply bind_ok in Ee as ([] & _ & [= <-]).
    assert (s2 = [ZSetInt "rcvhwm" 4096; ZSetStr "subscribe" getMessageType]) as ->; [|done].
    by apply zdo_ok in Es2.
Qed.

(** A subscriber whose owner collects the packets. *)
Definition collect (p : DataPacketImpl) (s : list DataPacketImpl)
    : list DataPacketImpl * outcome unit := ((s ++ [p])%list, Ok tt).
Definition demoText : string := " tcp://127.0.0.1:5551 ".
Definition demoOptions : SubscriberOptions.SubscriberOptionsImpl (list DataPacketImpl) :=
  SubscriberOptions.mk collect "tcp://127.0.0.1:5551" 3600 10 4096 true.
Definition demoSubscriber : Subscriber.SubscriberImpl (list DataPacketImpl) :=
  Subscriber.mk demoOptions (subscriberCalls 4096 10 "tcp://127.0.0.1:5551") false 0 true true.
Definition demoPublisherOptions : PublisherOptions.PublisherOptionsImpl :=
  PublisherOptions.mk "tcp://127.0.0.1:5551" 10 4096 false.
Definition demoPublisher : Publisher.PublisherImpl :=
  Publisher.mk demoPublisherOptions (publisherCalls 4096 10 "tcp://127.0.0.1:5551") true.

Lemma sockets_configured_witness :
  SubscriberOptions.new demoText collect = Ok demoOptions /\
  Subscriber.new willing demoOptions = Ok demoSubscriber /\
  Subscriber.mSubscriberSocket demoSubscriber =
    subscriberCalls 4096 10 "tcp://127.0.0.1:5551".
Proof.
  assert (E1 : SubscriberOptions.new demoText collect = Ok demoOptions) by reflexivity.
  assert (E2 : Subscriber.new willing demoOptions = Ok demoSubscriber)
    by (vm_compute; reflexivity).
  split; [exact E1|]. split; [exact E2|].
  exact (proj1 (proj2 (sockets_configured willing demoText "tcp://127.0.0.1:5551"
           demoPublisherOptions _ collect eq_refl) _ _ E1 E2)).
Defined.

(** [Subscriber::stop] does not stop: on an initialized subscriber it
    leaves a listening thread running, a new one, whatever ran before, and no
    sequence of starts and stops ends without one. *)
Theorem subscriber_stop_starts {S} (p : Subscriber.SubscriberImpl S) (calls : list bool) :
  Subscriber.mInitialized p = true -> calls <> [] ->
  exists q,
    foldl (fun acc (c : bool) => p ← acc; if c then Subscriber.start p else Subscriber.stop p)
      (Ok p) calls = Ok q /\
    Subscriber.threadRunning q = true /\ Subscriber.mKeepRunning q = true /\
    Subscriber.threadsStarted q = (length calls + Subscriber.threadsStarted p)%nat.
Proof.
  intros I. revert p I. induction calls as [|c calls IH]; [done|]. intros p I _.
  assert (E : exists q, (if c then Subscriber.start p else Subscriber.stop p) = Ok q /\
             Subscriber.mInitialized q = true /\ Subscriber.threadRunning q = true /\
             Subscriber.mKeepRunning q = true /\
             Subscriber.threadsStarted q = (1 + Subscriber.threadsStarted p)%nat).
  { unfold Subscriber.start, Subscriber.stop, Subscriber.startImpl. rewrite I.
    eexists. split; [by destruct c|]. done. }
  destruct E as (q & E & Iq & T & K & N).
  change (foldl _ _ (c :: calls)) with
    (foldl (fun acc (c : bool) => p ← acc; if c then Subscriber.start p else Subscriber.stop p)
       (if c then Subscriber.start p else Subscriber.stop p) calls).
  rewrite E. destruct calls as [|c' calls].
  - exists q. simpl. auto with lia.
  - destruct (IH q Iq) as (q' & Eq & ? & ? & Nq); [done|].
    exists q'. rewrite Eq, Nq, N. split; [done|]. split; [done|]. split; [done|]. simpl. lia.
Qed.

Lemma subscriber_stop_starts_witness :
  exists q, Subscriber.stop demoSubscriber = Ok q /\ Subscriber.threadRunning q = true.
Proof.
  destruct (subscriber_stop_starts demoSubscriber [false] eq_refl ltac:(discriminate))
    as (q & E & T & _).
  exists q. split; [exact E | exact T].
Defined.

Section delivery.
Context {J V : Type} `{JsonLaws J V} {S : Type}.

(** C8: what one process publishes the other receives: when a publisher
    has sent a packet with all its fields, and the parts it wrote reach a
    subscriber, its callback is called once with the same packet as
    doubles, and the message counts as received and as propagated (unless
    the counters were just reported and reset).  The time at which the next
    report is due has to fit the 64 bits of the clock. *)
Theorem published_is_received env p (pub pub' : Publisher.PublisherImpl)
    (sub : Subscriber.SubscriberImpl S) callback ndebug now l s s' :
  reachable p -> complete p = true ->
  Publisher.send env (J:=J) p pub = Ok pub' ->
  SubscriberOptions.getCallback (Subscriber.mOptions sub) = Ok callback ->
  callback (as_double p) s = (s', Ok tt) ->
  in_i64 (Subscriber.lastLogTime l +
          SubscriberOptions.mLoggingInterval (Subscriber.mOptions sub)) = true ->
  exists parts l' ls,
    Publisher.mPublisherSocket pub' =
      (Publisher.mPublisherSocket pub ++ [ZSendMultipart parts])%list /\
    Subscriber.listenStep (J:=J) ndebug sub now parts l s = Ok (l', s', ls) /\
    (ls = [] /\ l' = Subscriber.mkListening (Subscriber.lastLogTime l)
                       (Subscriber.nReceivedMessages l + 1)
                       (Subscriber.nNotPropagatedMessages l) \/
     l' = Subscriber.mkListening (us_to_s now) 0 0).
Proof.
  intros R C P Hc Hcb B.
  destruct (serialize_deserialize_aux (J:=J) p R C) as (m & Em & Ed & _).
  unfold Publisher.send, Publisher.sendImpl in P. rewrite Em in P.
  apply bind_ok in P as ([] & _ & ([] & _ & (m' & [= <-] & P)%bind_ok)%bind_ok).
  apply bind_ok in P as (n & _ & ([] & _ & [= <-])%bind_ok).
  exists [getMessageType; m]. unfold Subscriber.listenStep. rewrite Hc. simpl mbind.
  unfold Subscriber.propagate. rewrite bool_decide_eq_true_2 by set_solver. simpl negb.
  rewrite Ed, Hcb. cbn [mbind outcome_bind].
  unfold SubscriberOptions.getLoggingInterval, to_i64. simpl Subscriber.lastLogTime. rewrite B.
  cbn [mbind outcome_bind].
  destruct (0 <=? _); [destruct (_ <=? us_to_s now)|]; do 2 eexists; eauto.
Qed.
End delivery.

(** The publisher after it has sent [demoPacket]. *)
Definition demoSent : Publisher.PublisherImpl :=
  match Publisher.send willing (J:=TinyJson.doc) demoPacket demoPublisher with
  | Ok p => p
  | _ => demoPublisher
  end.

Lemma published_is_received_witness :
  Publisher.send willing (J:=TinyJson.doc) demoPacket demoPublisher = Ok demoSent /\
  exists parts l' ls,
    Publisher.mPublisherSocket demoSent =
      (Publisher.mPublisherSocket demoPublisher ++ [ZSendMultipart parts])%list /\
    Subscriber.listenStep (J:=TinyJson.doc) true demoSubscriber 1700000060000000 parts
      (Subscriber.listenStart 1700000000000000) [] = Ok (l', [as_double demoPacket], ls).
Proof.
  assert (E : Publisher.send willing (J:=TinyJson.doc) demoPacket demoPublisher = Ok demoSent)
    by (vm_compute; reflexivity).
  split; [exact E|].
  destruct (published_is_received willing demoPacket demoPublisher demoSent demoSubscriber
              collect true 1700000060000000 (Subscriber.listenStart 1700000000000000)
              [] [as_double demoPacket] demoPacket_reachable eq_refl E eq_refl eq_refl eq_refl)
    as (parts & l' & ls & P & L & _).
  exists parts, l', ls. split; [exact P | exact L].
Defined.

(** ** What becomes of a message *)
Section accounting.
Context {J V : Type} `{JsonLib J V}.

(** A run of [listen] over the messages received, one per pass. *)
Fixpoint listenRun {S} (ndebug : bool) (p : Subscriber.SubscriberImpl S)
    (input : list (Z * list string)) (l : Subscriber.listening) (s : S)
    : outcome (Subscriber.listening * S) :=
  match input with
  | [] => Ok (l, s)
  | (now, parts) :: input' =>
      '(l, s, _) ← Subscriber.listenStep (J:=J) ndebug p now parts l s;
      listenRun ndebug p input' l s
  end.

(** Messages of two parts whose type is not that of a data packet. *)
Definition unhandled (parts : list string) : bool :=
  match parts with
  | [messageType; _] => negb (bool_decide (messageType ∈ Subscriber.mMessageTypes))
  | _ => false
  end.
Definition count (f : list string -> bool) (input : list (Z * list string)) : Z :=
  Z.of_nat (length (filter (fun i => f i.2 = true) input)).
Definition nonempty (parts : list string) : bool :=
  match parts with [] => false | _ => true end.

Lemma count_cons f i input :
  count f (i :: input) = (if f i.2 then 1 else 0) + count f input.
Proof.
  unfold count. rewrite filter_cons. case_decide; destruct (f i.2); simpl; try done; lia.
Qed.

Variable o : SubscriberOptions.SubscriberOptionsImpl (list DataPacketImpl).
Variable p : Subscriber.SubscriberImpl (list DataPacketImpl).
Hypothesis Ho : Subscriber.mOptions p = o.
Hypothesis Hc : SubscriberOptions.mCallback o = collect.
Hypothesis Hl : SubscriberOptions.mLoggingInterval o < 0.

(** The packets delivered and the messages counted as not propagated. *)
Lemma listenStep_counts ndebug now parts l s l' s' ls :
  Subscriber.listenStep (J:=J) ndebug p now parts l s = Ok (l', s', ls) ->
  exists d, s' = (s ++ d)%list /\
    Subscriber.nReceivedMessages l' =
      Subscriber.nReceivedMessages l + (if nonempty parts then 1 else 0) /\
    Subscriber.nReceivedMessages l' - Subscriber.nReceivedMessages l =
      Z.of_nat (length d) + (if unhandled parts then 1 else 0) +
      (Subscriber.nNotPropagatedMessages l' - Subscriber.nNotPropagatedMessages l).
Proof.
  unfold Subscriber.listenStep, SubscriberOptions.getCallback,
    SubscriberOptions.getLoggingInterval. rewrite Ho, Hc.
  intros (cb & ([] & _ & [= <-])%bind_ok & E)%bind_ok.
  replace (0 <=? SubscriberOptions.mLoggingInterval o) with false in E by lia.
  destruct parts as [|t [|m [|x parts]]].
  - injection E as <- <- <-. exists []. rewrite app_nil_r. simpl. split; [done|lia].
  - destruct ndebug; [|done]. injection E as <- <- <-. exists [].
    rewrite app_nil_r. simpl. split; [done|lia].
  - unfold Subscriber.propagate in E. simpl unhandled.
    destruct (negb (bool_decide (t ∈ Subscriber.mMessageTypes))).
    { injection E as <- <- <-. exists []. rewrite app_nil_r. simpl. split; [done|lia]. }
    destruct (deserialize m) as [q|e|]; [| |done].
    + unfold collect in E. injection E as <- <- <-. exists [q]. simpl. split; [done|lia].
    + injection E as <- <- <-. exists []. rewrite app_nil_r. simpl. split; [done|lia].
  - destruct ndebug; [|done]. injection E as <- <- <-. exists [].
    rewrite app_nil_r. simpl. split; [done|lia].
Qed.

Lemma listenRun_counts ndebug input l s l' s' :
  listenRun ndebug p input l s = Ok (l', s') ->
  exists d, s' = (s ++ d)%list /\
    Subscriber.nReceivedMessages l' - Subscriber.nReceivedMessages l = count nonempty input /\
    count nonempty input = Z.of_nat (length d) + count unhandled input +
      (Subscriber.nNotPropagatedMessages l' - Subscriber.nNotPropagatedMessages l).
Proof.
  revert l s. induction input as [|[now parts] input IH]; simpl; intros l s.
  - intros [= <- <-]. exists []. rewrite app_nil_r. split; [done|].
    unfold count. simpl. lia.
  - intros ([[l1 s1] ls] & E1 & E2)%bind_ok.
    apply listenStep_counts in E1 as (d1 & -> & R1 & A1).
    apply IH in E2 as (d2 & -> & R2 & A2). exists (d1 ++ d2)%list.
    rewrite (assoc_L app). split; [done|]. rewrite !count_cons, length_app. simpl. lia.
Qed.
End accounting.

(** With reports off and an owner that collects the packets, every
    message received is accounted for: as many as were counted as received
    and not as lost were delivered, in order, except that the messages of
    another type are neither delivered nor counted as lost. *)
Theorem messages_accounted {J V} `{JsonLib J V} (p : Subscriber.SubscriberImpl _) ndebug input
    now0 l' (s' : list DataPacketImpl) :
  SubscriberOptions.mCallback (Subscriber.mOptions p) = collect ->
  SubscriberOptions.mLoggingInterval (Subscriber.mOptions p) < 0 ->
  listenRun (J:=J) ndebug p input (Subscriber.listenStart now0) [] = Ok (l', s') ->
  Subscriber.nReceivedMessages l' = count nonempty input /\
  Subscriber.nReceivedMessages l' =
    Z.of_nat (length s') + count unhandled input + Subscriber.nNotPropagatedMessages l'.
Proof.
  intros Hc Hl E.
  apply (listenRun_counts _ p eq_refl Hc Hl) in E as (d & -> & R & A). simpl in *. lia.
Qed.

Definition demoQuiet : Subscriber.SubscriberImpl (list DataPacketImpl) :=
  Subscriber.mk (SubscriberOptions.setLoggingInterval (-1) demoOptions) [] false 0 true true.
Definition demoInput : list (Z * list string) :=
  [(1, [getMessageType; demoMessage]); (2, ["Other"; ""]); (3, []); (4, [getMessageType; ""])].

Lemma messages_accounted_witness :
  listenRun (J:=TinyJson.doc) true demoQuiet demoInput (Subscriber.listenStart 0) [] =
    Ok (Subscriber.mkListening 0 3 1, [as_double demoPacket]) /\
  3 = Z.of_nat (length [as_double demoPacket]) + count unhandled demoInput + 1.
Proof.
  assert (E : listenRun (J:=TinyJson.doc) true demoQuiet demoInput
                (Subscriber.listenStart 0) [] =
              Ok (Subscriber.mkListening 0 3 1, [as_double demoPacket]))
    by (vm_compute; reflexivity).
  split; [exact E|].
  exact (proj2 (messages_accounted demoQuiet true demoInput 0 _ _ eq_refl eq_refl E)).
Defined.
