(* ===== verification/Sanitizer.v ===== *)
(** * The data packet sanitizer

    broadcasts/dataPacket/sanitizer/sanitizer.cpp: the program options, the
    [Process] with its two queues and three testers, one pass of each of its
    two loops, starting and stopping, and [main].  The queues, the circular
    buffers, the ini file and ZeroMQ are parameters. *)
From Stdlib Require Import ZArith Ascii String SpecFloat Lia.
From stdpp Require Import base tactics list gmap strings pretty.
From S2P Require Import Prelude Float64 JsonLib Interfaces.
From S2P Require Import DataPacket PacketTests DuplicateTest Broadcast.

Open Scope string_scope.
Open Scope Z_scope.

Definition MAX_QUEUE_SIZE : Z := 256.

(** ** Program options *)
Record ProgramOptions := mkOptions {
  inputBroadcastAddress : string;
  outputBroadcastAddress : string;
  receiveTimeOut : Z;              (* milliseconds *)
  sendTimeOut : Z;                 (* milliseconds *)
  maximumFutureTime : Z;           (* milliseconds *)
  maximumLatency : Z;              (* seconds *)
  circularBufferDuration : Z;      (* seconds *)
  logBadDataInterval : Z;          (* seconds *)
  receiveHighWaterMark : Z;
  sendHighWaterMark : Z;
  verbosity : Z
}.

Definition defaultOptions : ProgramOptions :=
  mkOptions "tcp://127.0.0.1:5551" "tcp://127.0.0.1:5552" 10 1000 0 120 120 60 4096 4096 3.

(** The checks on an address of the ini file. *)
Definition checkAddress (key address : string) : outcome unit :=
  throw_if (str_empty address) (InvalidArgument (key +:+ " is empty"));;
  throw_if (negb (starts_with "tcp://" address))
    (InvalidArgument (key +:+ " must starts with tcp://")).

(** [file] is [None] where the file does not exist, otherwise what [read_ini]
    makes of it. *)
Definition parseIniFile {T} `{PropertyTree T} (file : option (outcome T))
    : outcome ProgramOptions :=
  let options := defaultOptions in
  match file with
  | None => Ok options
  | Some read =>
      propertyTree ← read;
      let input := pt_string propertyTree "ZeroMQ.inputBroadcastAddress"
                     (inputBroadcastAddress options) in
      checkAddress "ZeroMQ.inputBroadcastAddress" input;;
      let output := pt_string propertyTree "ZeroMQ.outputBroadcastAddress"
                      (outputBroadcastAddress options) in
      checkAddress "ZeroMQ.outputBroadcastAddress" output;;
      let future := pt_int propertyTree "Sanitizer.maximumFutureTimeInMilliSeconds"
                      (wrap_i32 (maximumFutureTime options)) in
      let latency := pt_int propertyTree "Sanitizer.maximumLatencyInSeconds"
                       (wrap_i32 (maximumLatency options)) in
      let duration := pt_int propertyTree "Sanitizer.circularBufferDurationInSeconds"
                        (wrap_i32 (circularBufferDuration options)) in
      let interval := pt_int propertyTree "Sanitizer.logBadDataIntervalInSeconds"
                        (wrap_i32 (logBadDataInterval options)) in
      Ok (mkOptions input output (receiveTimeOut options) (sendTimeOut options)
            future latency duration interval
            (receiveHighWaterMark options) (sendHighWaterMark options) (verbosity options))
  end.

(** What the command line parser stores: [help] and the text of [ini]. *)
Record variables_map := mkVariables { vm_help : bool; vm_ini : option string }.

Definition parseCommandLineOptions (exists_file : string -> bool)
    (vm : outcome variables_map) : outcome (string * bool) :=
  vm ← vm;
  if vm_help vm then Ok ("", true)
  else
    match vm_ini vm with
    | None => Ok ("", false)
    | Some iniFile =>
        throw_if (negb (exists_file iniFile))
          (RuntimeError ("Initialization file: " +:+ iniFile +:+ " does not exist"));;
        Ok (iniFile, false)
    end.

(** ** The process *)
Section process.
Context (env : ZmqEnv) {J V : Type} `{JsonLib J V}.
Context {C : Type} `{CircularBuffer C DataPacketHeader}.
Context {Q : Type} `{ReaderWriterQueue Q DataPacketImpl}.

Record testers := mkTesters {
  mFutureDataPacketTester : option Future.TestFutureDataPacketImpl;
  mExpiredDataPacketTester : option Expired.TestExpiredDataPacketImpl;
  mDuplicateDataPacketTester : option (TestDuplicateDataPacketImpl C)
}.

Record Process := mkProcess {
  mTesters : testers;
  mPacketSubscriber : Subscriber.SubscriberImpl Q;
  mPacketPublisher : Publisher.PublisherImpl;
  mPacketsToCheckQueue : Q;
  mMessagesToPublishQueue : Q;
  mTesterThread : bool;            (* joinable *)
  mPublisherThread : bool;
  mLogPublishingPerformanceInterval : Z;
  mKeepRunning : bool;
  mStopRequested : bool
}.

Definition with_testers (ts : testers) (p : Process) : Process :=
  mkProcess ts (mPacketSubscriber p) (mPacketPublisher p) (mPacketsToCheckQueue p)
    (mMessagesToPublishQueue p) (mTesterThread p) (mPublisherThread p)
    (mLogPublishingPerformanceInterval p) (mKeepRunning p) (mStopRequested p).
Definition with_queues (check publish : Q) (p : Process) : Process :=
  mkProcess (mTesters p) (mPacketSubscriber p) (mPacketPublisher p) check publish
    (mTesterThread p) (mPublisherThread p) (mLogPublishingPerformanceInterval p)
    (mKeepRunning p) (mStopRequested p).
Definition with_publisher (pub : Publisher.PublisherImpl) (p : Process) : Process :=
  mkProcess (mTesters p) (mPacketSubscriber p) pub (mPacketsToCheckQueue p)
    (mMessagesToPublishQueue p) (mTesterThread p) (mPublisherThread p)
    (mLogPublishingPerformanceInterval p) (mKeepRunning p) (mStopRequested p).
Definition with_threads (sub : Subscriber.SubscriberImpl Q) (tester publisher keep : bool)
    (p : Process) : Process :=
  mkProcess (mTesters p) sub (mPacketPublisher p) (mPacketsToCheckQueue p)
    (mMessagesToPublishQueue p) tester publisher (mLogPublishingPerformanceInterval p)
    keep (mStopRequested p).
Definition with_stop (p : Process) : Process :=
  mkProcess (mTesters p) (mPacketSubscriber p) (mPacketPublisher p) (mPacketsToCheckQueue p)
    (mMessagesToPublishQueue p) (mTesterThread p) (mPublisherThread p)
    (mLogPublishingPerformanceInterval p) (mKeepRunning p) true.

(** The callback of the subscriber: the result of [try_enqueue] is dropped. *)
Definition inputPacketsToQueueCallback (dataPacket : DataPacketImpl) (q : Q)
    : Q * outcome unit := ((try_enqueue dataPacket q).2, Ok tt).

Definition makeTesters (o : ProgramOptions) : outcome testers :=
  f ← (if 0 <=? maximumFutureTime o then
         t ← ms_to_us (maximumFutureTime o);
         Ok (Some (Future.new t (logBadDataInterval o)).1)
       else Ok None);
  x ← (if 0 <? maximumLatency o then
         t ← s_to_us (maximumLatency o);
         t ← Expired.new t (logBadDataInterval o); Ok (Some t)
       else Ok None);
  d ← (if 0 <? circularBufferDuration o then
         t ← newDuration (circularBufferDuration o) (logBadDataInterval o); Ok (Some t)
       else Ok None);
  Ok (mkTesters f x d).

Definition newProcess (o : ProgramOptions) : outcome Process :=
  ts ← makeTesters o;
  sub ← Publisher.rethrow "Failed to initialize subscriber socket because "
          (so ← SubscriberOptions.new (inputBroadcastAddress o) inputPacketsToQueueCallback;
           so ← SubscriberOptions.setHighWaterMark (receiveHighWaterMark o) so;
           let so := SubscriberOptions.setTimeOut (receiveTimeOut o) so in
           Subscriber.new env so);
  pub ← Publisher.rethrow "Failed to initialize publisher because "
          (po ← PublisherOptions.new (outputBroadcastAddress o);
           po ← PublisherOptions.setHighWaterMark (sendHighWaterMark o) po;
           let po := PublisherOptions.setTimeOut (sendTimeOut o) po in
           Publisher.new env po);
  Ok (mkProcess ts sub pub (rq_new MAX_QUEUE_SIZE) (rq_new MAX_QUEUE_SIZE)
        false false 3600 true false).

(** *** Threads *)
Definition stop (p : Process) : outcome Process :=
  sub ← Subscriber.stop (mPacketSubscriber p);
  Ok (with_threads sub false false false p).

Definition start (p : Process) : outcome Process :=
  p ← stop p;
  let p := with_threads (mPacketSubscriber p) true true true p in
  sub ← Subscriber.start (mPacketSubscriber p);
  Ok (with_threads sub (mTesterThread p) (mPublisherThread p) (mKeepRunning p) p).

(** *** The loops *)

(** [while (size_approx() > MAX_QUEUE_SIZE) { if (!pop()) break; nDeleted++; }] *)
Definition drain (q : Q) : Q * Z := drainTo MAX_QUEUE_SIZE (length (rq_elems q)) q 0.

(** The trimming at the top of each loop. *)
Definition trim (which : string) (q : Q) : Q * Z * list line :=
  if MAX_QUEUE_SIZE <? size_approx q then
    let '(q, nDeleted) := drain q in
    (q, nDeleted, [Warn ("Overfull " +:+ which +:+ " queue - deleted "
                         +:+ pretty nDeleted +:+ " packets")])
  else (q, 0, []).

(** The clock at each tester of a pass, and at its end. *)
Record clocks := mkClocks { atFuture : Z; atExpired : Z; atDuplicate : Z; atEnd : Z }.

Definition verdict : Type := testers * outcome bool * list line.

(** [if (allow && tester) { allow = tester->allow(packet); }] *)
Definition also (r : verdict) (k : testers -> verdict) : verdict :=
  match r with
  | (ts, Ok true, l) => let '(ts, r, l') := k ts in (ts, r, l ++ l')%list
  | _ => r
  end.

Definition testFuture (now : Z) (packet : DataPacketImpl) (ts : testers) : verdict :=
  match mFutureDataPacketTester ts with
  | None => (ts, Ok false, [])            (* [allow] starts as false *)
  | Some f =>
      match Future.allow now packet f with
      | Ok (b, f, l) =>
          (mkTesters (Some f) (mExpiredDataPacketTester ts) (mDuplicateDataPacketTester ts),
           Ok b, l)
      | Throw e => (ts, Throw e, [])
      | Undef => (ts, Undef, [])
      end
  end.
Definition testExpired (now : Z) (packet : DataPacketImpl) (ts : testers) : verdict :=
  match mExpiredDataPacketTester ts with
  | None => (ts, Ok true, [])
  | Some x =>
      match Expired.allow now packet x with
      | Ok (b, x, l) =>
          (mkTesters (mFutureDataPacketTester ts) (Some x) (mDuplicateDataPacketTester ts),
           Ok b, l)
      | Throw e => (ts, Throw e, [])
      | Undef => (ts, Undef, [])
      end
  end.
Definition testDuplicate (now : Z) (packet : DataPacketImpl) (ts : testers) : verdict :=
  match mDuplicateDataPacketTester ts with
  | None => (ts, Ok true, [])
  | Some d =>
      match allow now packet d with
      | Ok (b, d, l) =>
          (mkTesters (mFutureDataPacketTester ts) (mExpiredDataPacketTester ts) (Some d),
           Ok b, l)
      | Throw e => (ts, Throw e, [])
      | Undef => (ts, Undef, [])
      end
  end.

Definition scrutinize (c : clocks) (packet : DataPacketImpl) (ts : testers) : verdict :=
  also (also (testFuture (atFuture c) packet ts) (testExpired (atExpired c) packet))
    (testDuplicate (atDuplicate c) packet).

(** The locals of a loop. *)
Record counters := mkCounters { lastLogTime : Z; nDone : Z; nNotDone : Z }.
Definition countersAt (nowMuSeconds : Z) : counters := mkCounters (us_to_s nowMuSeconds) 0 0.

Definition performance (verb what : string) (interval nowMuSeconds : Z) (k : counters)
    : outcome (counters * list line) :=
  let nowSeconds := us_to_s nowMuSeconds in
  next ← to_i64 (lastLogTime k + interval);
  if next <=? nowSeconds then
    Ok (mkCounters nowSeconds 0 0,
        [Info (verb +:+ " " +:+ pretty (nDone k) +:+ " packets in last " +:+ pretty interval
               +:+ " seconds. (Failed to " +:+ what +:+ " " +:+ pretty (nNotDone k)
               +:+ " packets.)")])
  else Ok (k, []).

(** One pass of [checkPackets]. *)
Definition checkStep (c : clocks) (p : Process) (k : counters)
    : outcome (Process * counters * list line) :=
  let '(q, nDeleted, l1) := trim "input" (mPacketsToCheckQueue p) in
  let k := mkCounters (lastLogTime k) (nDone k) (nNotDone k + nDeleted) in
  '(p, k, l2) ←
    match try_dequeue q with
    | None => Ok (with_queues q (mMessagesToPublishQueue p) p, k, [])
    | Some (packet, q) =>
        let '(ts, r, l) := scrutinize c packet (mTesters p) in
        let p := with_testers ts p in
        match r with
        | Ok allow =>
            let publish :=
              if (allow : bool) then (try_enqueue packet (mMessagesToPublishQueue p)).2
              else mMessagesToPublishQueue p in
            Ok (with_queues q publish p,
                mkCounters (lastLogTime k) (nDone k + 1) (nNotDone k), l)
        | Throw e =>
            Ok (with_queues q (mMessagesToPublishQueue p) p, k,
                l ++ [Warn ("Failed to scrutinize packet because " +:+ what e)])%list
        | Undef => Undef
        end
    end;
  '(k, l3) ← performance "Checked" "check" (mLogPublishingPerformanceInterval p) (atEnd c) k;
  Ok (p, k, l1 ++ l2 ++ l3)%list.

(** One pass of [publishGoodPackets]. *)
Definition publishStep (nowMuSeconds : Z) (p : Process) (k : counters)
    : outcome (Process * counters * list line) :=
  let '(q, nDeleted, l1) := trim "publisher" (mMessagesToPublishQueue p) in
  let k := mkCounters (lastLogTime k) (nDone k) (nNotDone k + nDeleted) in
  '(p, k, l2) ←
    match rq_peek q with
    | None => Ok (with_queues (mPacketsToCheckQueue p) q p, k, [])
    | Some packet =>
        '(pub, k, l) ←
          match Publisher.send env (J:=J) packet (mPacketPublisher p) with
          | Ok pub => Ok (pub, mkCounters (lastLogTime k) (nDone k + 1) (nNotDone k), [])
          | Throw e =>
              Ok (mPacketPublisher p,
                  mkCounters (lastLogTime k) (nDone k) (nNotDone k + 1),
                  [Warn ("Failed to send message because " +:+ what e)])
          | Undef => Undef
          end;
        let '(popped, q) := rq_pop q in
        let l' := if (popped : bool) then []
                  else [Warn "Publisher queue appears to be empty"] in
        Ok (with_publisher pub (with_queues (mPacketsToCheckQueue p) q p), k, l ++ l')%list
    end;
  '(k, l3) ← performance "Sent" "send" (mLogPublishingPerformanceInterval p) nowMuSeconds k;
  Ok (p, k, l1 ++ l2 ++ l3)%list.

(** [handleMainThread], given the polls of [mInterrupted] until the first
    that is true. *)
Fixpoint handleMainThread (interrupted : list bool) (p : Process) : outcome Process :=
  if mStopRequested p then stop p
  else
    match interrupted with
    | [] => Ok p                            (* still waiting *)
    | b :: rest => if (b : bool) then stop (with_stop p) else handleMainThread rest p
    end.

(** The class has no destructor: its members are destroyed in the reverse of
    the order they are declared in.  A thread that was not joined ends the
    program; the subscriber's own destructor stops and joins its thread, and
    until then a packet that arrives, here [arrive m] just before [m] is
    destroyed, is put on the input queue. *)
Inductive member :=
  | TesterThread | PublisherThread | PacketSubscriber | PacketPublisher | ReceivePacketCallback
  | FutureTester | ExpiredTester | DuplicateTester | PacketsToCheckQueue | MessagesToPublishQueue
  | Settings.
Definition declared : list member :=
  [TesterThread; PublisherThread; PacketSubscriber; PacketPublisher; ReceivePacketCallback;
   FutureTester; ExpiredTester; DuplicateTester; PacketsToCheckQueue; MessagesToPublishQueue;
   Settings].

Fixpoint destroyMembers (ms : list member) (arrive : member -> list DataPacketImpl)
    (queue listening : bool) (p : Process) : outcome unit :=
  match ms with
  | [] => Ok tt
  | m :: ms' =>
      if listening && negb queue && negb (bool_decide (arrive m = [])) then Undef
      else
        match m with
        | PacketsToCheckQueue => destroyMembers ms' arrive false listening p
        | PacketSubscriber => destroyMembers ms' arrive queue false p
        | TesterThread => if mTesterThread p then Undef else destroyMembers ms' arrive queue listening p
        | PublisherThread =>
            if mPublisherThread p then Undef else destroyMembers ms' arrive queue listening p
        | _ => destroyMembers ms' arrive queue listening p
        end
  end.
Definition destroyProcess (arrive : member -> list DataPacketImpl) (p : Process) : outcome unit :=
  destroyMembers (rev declared) arrive true (Subscriber.threadRunning (mPacketSubscriber p)) p.

(** The handler of a caught signal raises the flag that [handleMainThread]
    polls. *)
Definition signalHandler (_ : Z) (_ : bool) : bool := true.
Definition catchSignals : list Z := [SIGINT; SIGTERM].

(** [main]: the exit status, and the process it leaves; [delivered] are the
    signals that come before each poll. *)
Definition main {T} `{PropertyTree T} (exists_file : string -> bool)
    (vm : outcome variables_map) (read_ini : string -> outcome T) (delivered : list (list Z))
    : outcome (Z * option Process) :=
  match parseCommandLineOptions exists_file vm with
  | Undef => Undef
  | Throw _ => Ok (1, None)
  | Ok (_, true) => Ok (0, None)
  | Ok (iniFile, false) =>
      let file := if exists_file iniFile then Some (read_ini iniFile) else None in
      match parseIniFile file with
      | Undef => Undef
      | Throw _ => Ok (1, None)
      | Ok programOptions =>
          match newProcess programOptions with
          | Undef => Undef
          | Throw _ => Ok (1, None)
          | Ok process =>
              match start process with
              | Undef => Undef
              | Throw _ => Ok (1, None)
              | Ok process =>
                  let interrupted := pollFlag catchSignals signalHandler delivered false in
                  p ← handleMainThread interrupted process; Ok (0, Some p)
              end
          end
      end
  end.
End process.
Arguments testers : clear implicits.
Arguments Process : clear implicits.

(** ** Trimming a queue *)
Section queues.
Context {Q : Type} `{ReaderWriterQueueLaws Q DataPacketImpl}.

(** A queue of at most [MAX_QUEUE_SIZE] elements keeps them; a longer one
    loses its oldest. *)
Definition excess (q : Q) : nat := (length (rq_elems q) - 256)%nat.

Lemma trim_spec which (q : Q) :
  exists q' l, trim which q = (q', Z.of_nat (excess q), l) /\
               rq_elems q' = drop (excess q) (rq_elems q).
Proof.
  unfold trim. destruct (MAX_QUEUE_SIZE <? size_approx q) eqn:E.
  - unfold drain. destruct (drainTo_spec MAX_QUEUE_SIZE (length (rq_elems q)) q 0)
      as (q' & -> & E'); [done|lia|].
    do 2 eexists. split; [done|exact E'].
  - exists q, []. unfold excess, size_approx, MAX_QUEUE_SIZE in *.
    replace (length (rq_elems q) - 256)%nat with 0%nat by lia. by rewrite drop_0.
Qed.
End queues.

(** ** What a packet that is published went through *)
Section pipeline.
Context (env : ZmqEnv) {J V : Type} `{JsonLib J V}.
Context {C : Type} `{CircularBuffer C DataPacketHeader}.
Context {Q : Type} `{ReaderWriterQueueLaws Q DataPacketImpl}.
Abbreviation process := (Process C Q).

(** The limits the testers were made with, in microseconds. *)
Definition limits (ts : testers C) : option Z * option Z :=
  (Future.mMaxFutureTime <$> mFutureDataPacketTester ts,
   Expired.mMaxExpiredTime <$> mExpiredDataPacketTester ts).

(** At one of the passes of the checking thread the packet ended before the
    latest, and started after the earliest, allowable time. *)
Definition within (lim : option Z * option Z) (cs : list clocks) (p : DataPacketImpl) : Prop :=
  exists c f e, c ∈ cs /\ lim.1 = Some f /\ getEndTime p = Ok e /\ e <= atFuture c + f /\
    forall x, lim.2 = Some x -> atExpired c - x <= getStartTime p.

Lemma future_allow_inv now p t b t' ls :
  Future.allow now p t = Ok (b, t', ls) ->
  Future.mMaxFutureTime t' = Future.mMaxFutureTime t /\
  exists e, getEndTime p = Ok e /\ (b = true -> e <= now + Future.mMaxFutureTime t).
Proof.
  intros E. split; [by apply Future.future_allow_spec, Future.future_logBadData_options in E as (? & _)|].
  unfold Future.allow in E. apply bind_ok in E as (e & Ee & E).
  apply bind_ok in E as (l & [-> _]%to_i64_ok & ([t1 l1] & _ & [= <- _ _])%bind_ok).
  exists e. split; [done|]. by intros ?%Z.leb_le.
Qed.

Lemma expired_allow_inv now p t b t' ls :
  Expired.allow now p t = Ok (b, t', ls) ->
  Expired.mMaxExpiredTime t' = Expired.mMaxExpiredTime t /\
  (b = true -> now - Expired.mMaxExpiredTime t <= getStartTime p).
Proof.
  intros E. split; [by apply Expired.expired_allow_spec, Expired.expired_logBadData_options in E as (? & _)|].
  unfold Expired.allow in E.
  apply bind_ok in E as (l & [-> _]%to_i64_ok & ([t1 l1] & _ & [= <- _ _])%bind_ok).
  by intros ?%Z.leb_le.
Qed.

Lemma also_inv r (k : testers C -> verdict) ts o l :
  also r k = (ts, o, l) ->
  (r.1.2 <> Ok true /\ ts = r.1.1 /\ o = r.1.2) \/
  (r.1.2 = Ok true /\ exists l', k r.1.1 = (ts, o, l')).
Proof.
  destruct r as [[ts0 [[]|e|]] l0]; simpl.
  - destruct (k ts0) as [[ts1 o1] l1]. intros [= <- <- <-]. right. eauto.
  - intros [= <- <- <-]. by left.
  - intros [= <- <- <-]. by left.
  - intros [= <- <- <-]. by left.
Qed.

Lemma testFuture_inv now p (ts ts' : testers C) o l :
  testFuture now p ts = (ts', o, l) ->
  limits ts' = limits ts /\
  (o = Ok true -> exists f e, (limits ts).1 = Some f /\ getEndTime p = Ok e /\ e <= now + f).
Proof.
  unfold testFuture, limits. destruct (mFutureDataPacketTester ts) as [f|] eqn:Ef.
  - destruct (Future.allow now p f) as [[[b f'] l']|e|] eqn:E; intros [= <- <- <-];
      rewrite ?Ef; simpl; [|done..].
    apply future_allow_inv in E as (-> & e & Ee & Hb). split; [done|].
    intros [= ->]. eauto 10.
  - intros [= <- <- <-]. by rewrite Ef.
Qed.

Lemma testExpired_inv now p (ts ts' : testers C) o l :
  testExpired now p ts = (ts', o, l) ->
  limits ts' = limits ts /\
  (o = Ok true -> forall x, (limits ts).2 = Some x -> now - x <= getStartTime p).
Proof.
  unfold testExpired, limits. destruct (mExpiredDataPacketTester ts) as [x|] eqn:Ef.
  - destruct (Expired.allow now p x) as [[[b x'] l']|e|] eqn:E; intros [= <- <- <-];
      rewrite ?Ef; simpl; [|done..].
    apply expired_allow_inv in E as [-> Hb]. split; [done|].
    intros [= ->] y [= <-]. auto.
  - intros [= <- <- <-]. by rewrite Ef.
Qed.

Lemma testDuplicate_limits now p (ts ts' : testers C) o l :
  testDuplicate now p ts = (ts', o, l) -> limits ts' = limits ts.
Proof.
  unfold testDuplicate, limits. destruct (mDuplicateDataPacketTester ts) as [d|].
  - by destruct (allow now p d) as [[[b d'] l']|e|]; intros [= <- <- <-].
  - by intros [= <- <- <-].
Qed.

Lemma scrutinize_inv c p (ts ts' : testers C) o l :
  scrutinize c p ts = (ts', o, l) ->
  limits ts' = limits ts /\ (o = Ok true -> within (limits ts) [c] p).
Proof.
  unfold scrutinize. intros E.
  destruct (also (testFuture (atFuture c) p ts) (testExpired (atExpired c) p))
    as [[ts2 o2] l2] eqn:E2.
  apply also_inv in E. simpl in E.
  assert (P : limits ts2 = limits ts /\ (o2 = Ok true -> within (limits ts) [c] p)).
  { destruct (testFuture (atFuture c) p ts) as [[ts1 o1] l1] eqn:E1.
    apply testFuture_inv in E1 as [L1 F1]. apply also_inv in E2. simpl in E2.
    destruct E2 as [(N & -> & ->)|(Ho & l' & E2)]; [by split|].
    apply testExpired_inv in E2 as [L2 F2]. rewrite L1 in L2, F2. split; [done|].
    intros Ho2. destruct (F1 Ho) as (f & e & ? & ? & ?).
    exists c, f, e. split; [by left|]. auto. }
  destruct P as [L2 W2]. destruct E as [(N & -> & ->)|(Ho & l' & E3)]; [by split|].
  apply testDuplicate_limits in E3. split; [congruence|auto].
Qed.

Lemma within_mono lim cs cs' p : cs ⊆ cs' -> within lim cs p -> within lim cs' p.
Proof. intros S (c & f & e & I & R). exists c, f, e. split; [by apply S|done]. Qed.
End pipeline.

(** ** Interleavings of the threads

    The three threads share the two queues: the subscriber's callback, a pass
    of [checkPackets] and a pass of [publishGoodPackets] are the steps. *)
Inductive event :=
  | EReceive (p : DataPacketImpl)
  | ECheck (c : clocks)
  | EPublish (nowMuSeconds : Z).

Definition receivedBy (es : list event) : list DataPacketImpl :=
  omap (fun e => match e with EReceive p => Some p | _ => None end) es.
Definition checksOf (es : list event) : list clocks :=
  omap (fun e => match e with ECheck c => Some c | _ => None end) es.

Section interleavings.
Local Open Scope list_scope.
Context (env : ZmqEnv) {J V : Type} `{JsonLib J V}.
Context {C : Type} `{CircularBuffer C DataPacketHeader}.
Context {Q : Type} `{ReaderWriterQueueLaws Q DataPacketImpl}.
Abbreviation process := (Process C Q).

(** The process with the counters of its two loops. *)
Record world := mkWorld { wProcess : process; wChecked : counters; wSent : counters }.

Definition worldStep (e : event) (w : world) : outcome world :=
  match e with
  | EReceive p =>
      let '(q, r) := inputPacketsToQueueCallback p (mPacketsToCheckQueue (wProcess w)) in
      r;; Ok (mkWorld (with_queues q (mMessagesToPublishQueue (wProcess w)) (wProcess w))
               (wChecked w) (wSent w))
  | ECheck c =>
      '(p, k, _) ← checkStep c (wProcess w) (wChecked w); Ok (mkWorld p k (wSent w))
  | EPublish now =>
      '(p, k, _) ← publishStep env (J:=J) now (wProcess w) (wSent w);
      Ok (mkWorld p (wChecked w) k)
  end.

Fixpoint worldRun (es : list event) (w : world) : outcome world :=
  match es with
  | [] => Ok w
  | e :: es' => w ← worldStep e w; worldRun es' w
  end.

Definition socketOf (w : world) : socket :=
  Publisher.mPublisherSocket (mPacketPublisher (wProcess w)).
Definition checkQueue (w : world) : list DataPacketImpl :=
  rq_elems (mPacketsToCheckQueue (wProcess w)).
Definition publishQueue (w : world) : list DataPacketImpl :=
  rq_elems (mMessagesToPublishQueue (wProcess w)).

(** What was sent, then what waits to be sent, then what waits to be
    checked, is a part of what was received, in order; and what was sent or
    waits to be sent passed the tests. *)
Record flow (s0 : socket) (lim : option Z * option Z) (cs : list clocks)
    (received : list DataPacketImpl) (w : world) : Prop := mkFlow {
  fl_limits : limits (mTesters (wProcess w)) = lim;
  fl_sent : exists sent calls,
    socketOf w = (s0 ++ calls)%list /\ Forall2 (sends (J:=J)) sent calls /\
    (sent ++ publishQueue w ++ checkQueue w) `sublist_of` received /\
    Forall (within lim cs) (sent ++ publishQueue w)
}.

Lemma flow_receive s0 lim cs r w w' p :
  flow s0 lim cs r w -> worldStep (EReceive p) w = Ok w' ->
  flow s0 lim cs (r ++ [p]) w'.
Proof.
  intros [L (sent & calls & S & F & Sub & W)] [= <-]. split; [done|].
  exists sent, calls. split; [done|]. split; [done|]. split; [|done].
  unfold publishQueue, checkQueue in *. simpl.
  destruct (enqueue_elems p (mPacketsToCheckQueue (wProcess w))) as [-> | ->].
  - by apply sublist_inserts_r.
  - rewrite !(assoc_L app). apply sublist_app; [|done]. by rewrite <- (assoc_L app).
Qed.

Lemma sublist_drop_mid {A} (a b c r : list A) n m :
  (a ++ b ++ c) `sublist_of` r -> (a ++ drop n b ++ drop m c) `sublist_of` r.
Proof.
  intros S. etrans; [|exact S]. apply sublist_app; [done|].
  apply sublist_app; apply sublist_drop.
Qed.

Lemma flow_check s0 lim cs r w w' c :
  flow s0 lim cs r w -> worldStep (ECheck c) w = Ok w' ->
  flow s0 lim (cs ++ [c]) r w'.
Proof.
  intros [L (sent & calls & S & F & Sub & W)] E. simpl in E.
  apply bind_ok in E as ([[p k] l] & E & [= <-]). unfold checkStep in E.
  destruct (trim_spec "input" (mPacketsToCheckQueue (wProcess w))) as (q & l1 & Et & Eq).
  rewrite Et in E. apply bind_ok in E as ([[p1 k1] l2] & E1 & E2).
  apply bind_ok in E2 as ([k2 l3] & _ & [= <- <- <-]).
  assert (M : forall x, within lim cs x -> within lim (cs ++ [c]) x)
    by (intros x; apply within_mono; intros y Hy; apply elem_of_app; by left).
  unfold publishQueue, checkQueue in Sub, W.
  destruct (rq_elems q) as [|x rest] eqn:Eqq.
  - rewrite (try_dequeue_nil q Eqq) in E1. injection E1 as <- <- <-.
    split; [done|]. exists sent, calls. unfold publishQueue, checkQueue. simpl.
    split; [done|]. split; [done|]. rewrite Eqq. split; [|by eapply Forall_impl].
    rewrite app_nil_r. etrans; [|exact Sub]. apply sublist_app; [done|].
    apply sublist_inserts_r. done.
  - destruct (try_dequeue_cons x rest q Eqq) as (q' & Ed & Er). rewrite Ed in E1.
    destruct (scrutinize c x (mTesters (wProcess w))) as [[ts o] l4] eqn:Es.
    apply scrutinize_inv in Es as [Lt Wt]. rewrite L in Lt, Wt.
    assert (Sub' : (sent ++ rq_elems (mMessagesToPublishQueue (wProcess w)) ++ x :: rest)
                     `sublist_of` r).
    { rewrite Eq. rewrite <- (drop_0 (rq_elems (mMessagesToPublishQueue (wProcess w)))).
      by apply sublist_drop_mid. }
    assert (Sub0 : (sent ++ rq_elems (mMessagesToPublishQueue (wProcess w)) ++ rest)
                     `sublist_of` r).
    { etrans; [|exact Sub']. apply sublist_app; [done|]. apply sublist_app; [done|].
      by apply sublist_cons. }
    destruct o as [b|e|]; [| |done]; injection E1 as <- <- <-.
    + split; [done|]. exists sent, calls. unfold publishQueue, checkQueue. simpl.
      split; [done|]. split; [done|]. rewrite Er.
      destruct b; [|split; [done|by eapply Forall_impl]].
      destruct (enqueue_elems x (mMessagesToPublishQueue (wProcess w))) as [-> | ->];
        [split; [done|by eapply Forall_impl]|].
      split.
      * by rewrite <- (assoc_L app _ [x]).
      * rewrite (assoc_L app), Forall_app. split; [by eapply Forall_impl|].
        apply Forall_singleton. eapply within_mono; [|by apply Wt].
        intros y Hy. apply elem_of_app. by right.
    + split; [done|]. exists sent, calls. unfold publishQueue, checkQueue. simpl.
      split; [done|]. split; [done|]. rewrite Er. split; [done|by eapply Forall_impl].
Qed.

Lemma flow_publish s0 lim cs r w w' now :
  flow s0 lim cs r w -> worldStep (EPublish now) w = Ok w' -> flow s0 lim cs r w'.
Proof.
  intros [L (sent & calls & S & F & Sub & W)] E. simpl in E.
  apply bind_ok in E as ([[p k] l] & E & [= <-]). unfold publishStep in E.
  destruct (trim_spec "publisher" (mMessagesToPublishQueue (wProcess w)))
    as (q & l1 & Et & Eq).
  rewrite Et in E. apply bind_ok in E as ([[p1 k1] l2] & E1 & E2).
  apply bind_ok in E2 as ([k2 l3] & _ & [= <- <- <-]).
  unfold publishQueue, checkQueue in Sub, W. apply Forall_app in W as [Ws Wq].
  assert (Wq' : Forall (within lim cs) (rq_elems q)) by (rewrite Eq; by apply Forall_drop).
  assert (Sub' : (sent ++ rq_elems q ++ rq_elems (mPacketsToCheckQueue (wProcess w)))
                   `sublist_of` r).
  { rewrite Eq, <- (drop_0 (rq_elems (mPacketsToCheckQueue (wProcess w)))).
    by apply sublist_drop_mid. }
  unfold rq_peek in E1. destruct (rq_elems q) as [|x rest] eqn:Eqq.
  - injection E1 as <- <- <-. split; [done|]. exists sent, calls.
    unfold publishQueue, checkQueue. simpl. rewrite Eqq. split; [done|]. split; [done|].
    split; [done|]. by rewrite app_nil_r.
  - simpl in E1. apply bind_ok in E1 as ([[pub k3] l4] & Ep & E1).
    pose proof (rq_pop_elems q) as [Er _]. destruct (rq_pop q) as [popped q1].
    simpl in Er. rewrite Eqq in Er. simpl in Er. rewrite drop_0 in Er.
    injection E1 as <- <- <-. apply Forall_cons in Wq' as [Wx Wr].
    destruct (Publisher.send env x (mPacketPublisher (wProcess w))) as [pub'|e|] eqn:En;
      [| |done]; injection Ep as <- <- <-.
    + apply send_inv in En as (cl & Sc & Es). split; [done|].
      exists (sent ++ [x])%list, (calls ++ [cl])%list.
      unfold publishQueue, checkQueue, socketOf in *. simpl. rewrite Es, S, Er.
      split; [by rewrite (assoc_L app)|]. split; [by apply Forall2_app; [|constructor]|].
      split; [by rewrite <- (assoc_L app sent [x])|].
      rewrite <- (assoc_L app). apply Forall_app. split; [done|]. by constructor.
    + split; [done|]. exists sent, calls. unfold publishQueue, checkQueue. simpl.
      rewrite Er. split; [done|]. split; [done|].
      split; [|by apply Forall_app].
      etrans; [|exact Sub']. apply sublist_app; [done|]. by apply sublist_cons.
Qed.

Lemma flow_run es s0 lim cs r w w' :
  flow s0 lim cs r w -> worldRun es w = Ok w' ->
  flow s0 lim (cs ++ checksOf es) (r ++ receivedBy es) w'.
Proof.
  revert cs r w. induction es as [|e es IH]; intros cs r w Fl; simpl.
  - intros [= <-]. by rewrite !app_nil_r.
  - intros (w1 & E1 & E2)%bind_ok. destruct e as [p|c|now].
    + pose proof (IH _ _ _ (flow_receive _ _ _ _ _ _ _ Fl E1) E2) as G.
      by rewrite <- (assoc_L app) in G.
    + pose proof (IH _ _ _ (flow_check _ _ _ _ _ _ _ Fl E1) E2) as G.
      by rewrite <- (assoc_L app) in G.
    + exact (IH _ _ _ (flow_publish _ _ _ _ _ _ _ Fl E1) E2).
Qed.
End interleavings.
Arguments mkWorld {C Q}.

(** ** Properties *)
Section properties.
Local Open Scope list_scope.
Context (env : ZmqEnv) {J V : Type} `{JsonLib J V}.
Context {C : Type} `{CircularBuffer C DataPacketHeader}.
Context {Q : Type} `{ReaderWriterQueueLaws Q DataPacketImpl}.

Lemma flow_start (w : world (C:=C) (Q:=Q)) :
  checkQueue w = [] -> publishQueue w = [] ->
  flow (J:=J) (socketOf w) (limits (mTesters (wProcess w))) [] [] w.
Proof.
  intros Ec Ep. split; [done|]. exists [], []. rewrite app_nil_r, Ec, Ep. done.
Qed.

(** Whatever the order in which the threads run, the calls the
    sanitizer makes on its publisher's socket send, in order and each at
    most once, packets it received, and each of them passed the tests: at
    one of the passes of the checking thread it ended no later than
    [maximumFutureTime] after the clock, and, when there is a latency test,
    started no earlier than [maximumLatency] before it. *)
Theorem published_were_clean es (w w' : world (C:=C) (Q:=Q)) :
  checkQueue w = [] -> publishQueue w = [] ->
  worldRun env (J:=J) es w = Ok w' ->
  exists sent calls,
    socketOf w' = socketOf w ++ calls /\ Forall2 (sends (J:=J)) sent calls /\
    sent `sublist_of` receivedBy es /\
    Forall (within (limits (mTesters (wProcess w))) (checksOf es)) sent.
Proof.
  intros Ec Ep E. pose proof (flow_run env es _ _ _ _ _ _ (flow_start w Ec Ep) E) as [_ F].
  destruct F as (sent & calls & S & F & Sub & W). exists sent, calls.
  split; [done|]. split; [done|]. apply Forall_app in W as [W _]. split; [|done].
  etrans; [|exact Sub]. by apply sublist_inserts_r.
Qed.

(** With the future test switched off ([maximumFutureTime] negative)
    the sanitizer publishes nothing at all: the verdict starts as false and
    only that test can make it true. *)
Theorem no_future_test_no_output o es p k1 k2 (w' : world (C:=C) (Q:=Q)) :
  maximumFutureTime o < 0 ->
  newProcess env o = Ok p ->
  worldRun env (J:=J) es (mkWorld p k1 k2) = Ok w' ->
  socketOf w' = Publisher.mPublisherSocket (mPacketPublisher p).
Proof.
  intros Hf En E.
  assert (N : checkQueue (mkWorld p k1 k2) = [] /\ publishQueue (mkWorld p k1 k2) = [] /\
              (limits (mTesters p)).1 = None).
  { unfold newProcess, makeTesters in En.
    replace (0 <=? maximumFutureTime o)%Z with false in En by lia.
    apply bind_ok in En as (ts & Ets & (sub & _ & (pub & _ & [= <-])%bind_ok)%bind_ok).
    apply bind_ok in Ets as (f & [= <-] & (x & _ & (d & _ & [= <-])%bind_ok)%bind_ok).
    unfold checkQueue, publishQueue. simpl. by rewrite rq_new_elems. }
  destruct N as (Nc & Np & Nl).
  destruct (flow_run env es _ _ _ _ _ _ (flow_start _ Nc Np) E) as [_ F].
  destruct F as (sent & calls & S & F & Sub & W). apply Forall_app in W as [W _].
  destruct sent as [|y sent].
  - inversion F; subst. by rewrite app_nil_r in S.
  - apply Forall_cons in W as [(c & f & e & _ & L & _) _]. cbn [wProcess] in L. by rewrite Nl in L.
Qed.

(** C14: a pass of the publishing thread takes the oldest packets off its
    queue, all but 256 of them and then one more, and counts every one it
    takes off as sent or as not sent (unless it reports and resets its
    counters); what it leaves is at most 255 packets, the newest, in order. *)
Theorem publish_pass_counts now (p p' : Process C Q) k k' ls :
  publishStep env (J:=J) now p k = Ok (p', k', ls) ->
  rq_elems (mMessagesToPublishQueue p') =
    drop 1 (drop (excess (mMessagesToPublishQueue p)) (rq_elems (mMessagesToPublishQueue p))) /\
  (length (rq_elems (mMessagesToPublishQueue p')) <= 255)%nat /\
  rq_elems (mPacketsToCheckQueue p') = rq_elems (mPacketsToCheckQueue p) /\
  (k' = mkCounters (us_to_s now) 0 0 \/
   nDone k' + nNotDone k' + Z.of_nat (length (rq_elems (mMessagesToPublishQueue p'))) =
   nDone k + nNotDone k + Z.of_nat (length (rq_elems (mMessagesToPublishQueue p))))%Z.
Proof.
  intros E. unfold publishStep in E.
  destruct (trim_spec "publisher" (mMessagesToPublishQueue p)) as (q & l1 & Et & Eq).
  rewrite Et in E. apply bind_ok in E as ([[p1 k1] l2] & E1 & E2).
  apply bind_ok in E2 as ([k2 l3] & Er & [= <- <- <-]).
  assert (P : k2 = mkCounters (us_to_s now) 0 0 \/ k2 = k1).
  { unfold performance in Er. apply bind_ok in Er as (n & _ & Er).
    destruct (n <=? us_to_s now)%Z; injection Er as <- _; auto. }
  assert (Lq : length (rq_elems q) = (length (rq_elems (mMessagesToPublishQueue p)) -
                 excess (mMessagesToPublishQueue p))%nat) by (by rewrite Eq, length_drop).
  rewrite <- Eq. unfold rq_peek, excess in *. destruct (rq_elems q) as [|x rest] eqn:Eqq.
  - injection E1 as <- <- <-. simpl in *. rewrite Eqq. split; [done|]. simpl.
    split; [lia|]. split; [done|]. destruct P as [-> | ->]; [by left|right]. simpl. lia.
  - simpl in E1. apply bind_ok in E1 as ([[pub k3] l4] & Ep & E1).
    pose proof (rq_pop_elems q) as [El _]. destruct (rq_pop q) as [popped q1].
    simpl in El. rewrite Eqq in El. injection E1 as <- <- <-. simpl in *. rewrite El.
    rewrite !drop_0. split; [done|]. split; [lia|]. split; [done|].
    destruct P as [-> | ->]; [by left|right].
    destruct (Publisher.send env x (mPacketPublisher p)) as [pub'|e|];
      [| |done]; injection Ep as <- <- <-; simpl; lia.
Qed.
End properties.

(** Stopping leaves the subscriber at work: after [stop] the checking
    and publishing threads are gone, but the subscriber has a listening
    thread, newly started; so it has after [start], which stops first. *)
Theorem stop_leaves_subscriber {C Q : Type} (p : Process C Q) :
  Subscriber.mInitialized (mPacketSubscriber p) = true ->
  exists q r,
    stop p = Ok q /\
    mTesterThread q = false /\ mPublisherThread q = false /\ mKeepRunning q = false /\
    Subscriber.threadRunning (mPacketSubscriber q) = true /\
    Subscriber.threadsStarted (mPacketSubscriber q) =
      S (Subscriber.threadsStarted (mPacketSubscriber p)) /\
    start p = Ok r /\
    mTesterThread r = true /\ mPublisherThread r = true /\ mKeepRunning r = true /\
    Subscriber.threadsStarted (mPacketSubscriber r) =
      S (S (Subscriber.threadsStarted (mPacketSubscriber p))).
Proof.
  intros I. unfold stop, start, stop, Subscriber.stop, Subscriber.start, Subscriber.startImpl.
  rewrite I. simpl. rewrite I. simpl. by do 2 eexists.
Qed.

Lemma newProcess_initialized {C Q : Type} `{ReaderWriterQueue Q DataPacketImpl} env o
    (p : Process C Q) :
  newProcess env o = Ok p -> Subscriber.mInitialized (mPacketSubscriber p) = true.
Proof.
  intros (ts & _ & (sub & Es & (pub & _ & [= <-])%bind_ok)%bind_ok)%bind_ok. simpl.
  unfold Publisher.rethrow in Es. destruct (mbind _ _) as [s|e|] eqn:E; simpl in Es; [|done|done].
  injection Es as <-. apply bind_ok in E as (so & _ & (so' & _ & E)%bind_ok).
  by apply bind_ok in E as (sk & _ & [= <-]).
Qed.

Lemma stop_total {C Q : Type} (p : Process C Q) :
  Subscriber.mInitialized (mPacketSubscriber p) = true -> exists q, stop p = Ok q.
Proof.
  intros I. unfold stop, Subscriber.stop, Subscriber.startImpl. rewrite I. simpl. eauto.
Qed.

(** The members destroyed after the queue of the packets to check, up to the
    subscriber. *)
Definition window : list member :=
  [DuplicateTester; ExpiredTester; FutureTester; ReceivePacketCallback; PacketPublisher;
   PacketSubscriber].

Lemma stopped_destroy {C Q : Type} (p : Process C Q) arrive :
  mTesterThread p = false -> mPublisherThread p = false ->
  Subscriber.threadRunning (mPacketSubscriber p) = true ->
  destroyProcess arrive p =
    if existsb (fun m => negb (bool_decide (arrive m = []))) window then Undef else Ok tt.
Proof.
  intros T P L. unfold destroyProcess, window. rewrite L. simpl. rewrite T, P.
  repeat (destruct (negb (bool_decide (arrive _ = []))); simpl; [done|]). done.
Qed.

Lemma handle_stops {C Q : Type} (p : Process C Q) interrupted :
  Subscriber.mInitialized (mPacketSubscriber p) = true -> true ∈ interrupted ->
  exists q, handleMainThread interrupted p = Ok q /\
    mTesterThread q = false /\ mPublisherThread q = false /\
    Subscriber.threadRunning (mPacketSubscriber q) = true.
Proof.
  intros I. assert (S : forall p : Process C Q, Subscriber.mInitialized (mPacketSubscriber p) = true ->
    exists q, stop p = Ok q /\ mTesterThread q = false /\ mPublisherThread q = false /\
      Subscriber.threadRunning (mPacketSubscriber q) = true).
  { clear. intros p I. unfold stop, Subscriber.stop, Subscriber.startImpl. rewrite I. simpl. eauto. }
  induction interrupted as [|b l IH]; intros E; [by apply elem_of_nil in E|]. simpl.
  destruct (mStopRequested p); [by apply S|]. destruct b; [by apply S|].
  apply IH. by apply elem_of_cons in E as [|].
Qed.

(** C39: when a signal ends the sanitizer, its threads are joined, but the
    subscriber that [stop] has started again still listens while the members
    of the process are destroyed: a packet that arrives after the input
    queue is gone and before the subscriber is, is put on a queue that does
    not exist any more; the process ends well only if none does. *)
Theorem shutdown_uses_dead_queue {C Q : Type} `{ReaderWriterQueue Q DataPacketImpl} env o
    (p p' : Process C Q) interrupted arrive :
  newProcess env o = Ok p -> start p = Ok p' -> true ∈ interrupted ->
  exists q, handleMainThread interrupted p' = Ok q /\
    destroyProcess arrive q =
      if existsb (fun m => negb (bool_decide (arrive m = []))) window then Undef else Ok tt.
Proof.
  intros En Es It. apply newProcess_initialized in En.
  assert (I' : Subscriber.mInitialized (mPacketSubscriber p') = true).
  { unfold start, stop, Subscriber.stop, Subscriber.start, Subscriber.startImpl in Es.
    rewrite En in Es. simpl in Es. rewrite En in Es. by injection Es as <-. }
  destruct (handle_stops p' interrupted I' It) as (q & E & T & P & L).
  exists q. split; [done|]. by apply stopped_destroy.
Qed.

(** ** The program *)
Lemma checkAddress_ok k a u : checkAddress k a = Ok u -> starts_with "tcp://" a = true.
Proof.
  unfold checkAddress. intros ([] & _ & H%throw_if_ok)%bind_ok. by apply negb_false_iff.
Qed.

Lemma checkEndPoint_tcp a :
  starts_with "tcp://" a = true -> checkEndPoint a = Ok (str_remove_if isspace a).
Proof.
  intros H. apply checkEndPoint_ok. split; [done|].
  by rewrite (starts_with_remove_if "tcp://" isspace a eq_refl H).
Qed.

Lemma tcp_nonempty a :
  starts_with "tcp://" a = true -> str_empty (str_remove_if isspace a) = false.
Proof.
  intros H. apply (starts_with_remove_if "tcp://" isspace a eq_refl) in H.
  by destruct (str_remove_if isspace a).
Qed.

(** Options a process can be made from. *)
Definition usable (o : ProgramOptions) : Prop :=
  starts_with "tcp://" (inputBroadcastAddress o) = true /\
  starts_with "tcp://" (outputBroadcastAddress o) = true /\
  in_i32 (maximumFutureTime o) = true /\ in_i32 (maximumLatency o) = true /\
  0 <= receiveHighWaterMark o /\ 0 <= sendHighWaterMark o.

Lemma parseIniFile_usable {T} `{PropertyTree T} file o :
  (forall (t : T) k d, in_i32 d = true -> in_i32 (pt_int t k d) = true) ->
  parseIniFile file = Ok o -> usable o.
Proof.
  intros Hi. unfold parseIniFile. destruct file as [read|]; [|by intros [= <-]].
  intros (t & _ & ([] & Ha%checkAddress_ok & ([] & Hb%checkAddress_ok & [= <-])%bind_ok)%bind_ok)%bind_ok.
  repeat split; simpl; try done; by apply Hi.
Qed.

Section construction.
Context {C : Type} `{CircularBuffer C DataPacketHeader}.
Context {Q : Type} `{ReaderWriterQueue Q DataPacketImpl}.

Lemma makeTesters_total o :
  in_i32 (maximumFutureTime o) = true -> in_i32 (maximumLatency o) = true ->
  exists ts : testers C,
    makeTesters o = Ok ts /\
    limits ts = ((if 0 <=? maximumFutureTime o then Some (maximumFutureTime o * 1000) else None),
                 (if 0 <? maximumLatency o then Some (maximumLatency o * 1000000) else None)) /\
    (is_Some (mDuplicateDataPacketTester ts) <-> 0 < circularBufferDuration o).
Proof.
  intros Hf%in_i32_spec Hl%in_i32_spec. unfold makeTesters, limits.
  unfold ms_to_us, s_to_us, us_per_s, to_i64.
  replace (in_i64 (maximumFutureTime o * 1000)) with true by (symmetry; apply in_i64_spec; lia).
  replace (in_i64 (maximumLatency o * 1000000)) with true by (symmetry; apply in_i64_spec; lia).
  destruct (0 <=? maximumFutureTime o) eqn:Ef; destruct (0 <? maximumLatency o) eqn:El;
    simpl; unfold Expired.new;
    try (replace (maximumLatency o * 1000000 <=? 0) with false by lia; simpl);
    (destruct (0 <? circularBufferDuration o) eqn:Ed; simpl;
      [unfold newDuration;
       replace (circularBufferDuration o <? 1) with false by lia; simpl|]);
    (eexists; split; [reflexivity|]; split; [reflexivity|]);
    simpl; split; try (by intros [? [=]]); try (intros; eauto); lia.
Qed.

Lemma newProcess_total o :
  usable o -> exists p : Process C Q,
    newProcess willing o = Ok p /\
    limits (mTesters p) =
      ((if 0 <=? maximumFutureTime o then Some (maximumFutureTime o * 1000) else None),
       (if 0 <? maximumLatency o then Some (maximumLatency o * 1000000) else None)) /\
    (is_Some (mDuplicateDataPacketTester (mTesters p)) <-> 0 < circularBufferDuration o).
Proof.
  intros (Hi & Ho & Hf & Hl & Hr & Hs).
  destruct (makeTesters_total o Hf Hl) as (ts & Et & L & D).
  unfold newProcess. rewrite Et. simpl.
  unfold SubscriberOptions.new. rewrite (checkEndPoint_tcp _ Hi). simpl.
  unfold SubscriberOptions.setHighWaterMark.
  replace (receiveHighWaterMark o <? 0) with false by lia. simpl.
  unfold Subscriber.new, SubscriberOptions.getEndPoint. simpl. rewrite (tcp_nonempty _ Hi). simpl.
  unfold PublisherOptions.new. rewrite (checkEndPoint_tcp _ Ho). simpl.
  unfold PublisherOptions.setHighWaterMark.
  replace (sendHighWaterMark o <? 0) with false by lia. simpl.
  unfold Publisher.new, PublisherOptions.getEndPoint. simpl. rewrite (tcp_nonempty _ Ho). simpl.
  eexists. split; [reflexivity|]. by split.
Qed.

(** C25: an ini file whose options are accepted, whatever its text, gives a
    process (when the sockets can be made): the constructor accepts every
    address and every number the parser lets through, and makes the tests
    the options ask for, with their limits in microseconds. *)
Theorem ini_file_gives_process {T} `{PropertyTree T} file o :
  (forall (t : T) k d, in_i32 d = true -> in_i32 (pt_int t k d) = true) ->
  parseIniFile file = Ok o ->
  exists p : Process C Q,
    newProcess willing o = Ok p /\
    limits (mTesters p) =
      ((if 0 <=? maximumFutureTime o then Some (maximumFutureTime o * 1000) else None),
       (if 0 <? maximumLatency o then Some (maximumLatency o * 1000000) else None)) /\
    (is_Some (mDuplicateDataPacketTester (mTesters p)) <-> 0 < circularBufferDuration o).
Proof. intros Hi E. by apply newProcess_total, (parseIniFile_usable file). Qed.

(** [main] lets no exception out, whatever the command line, the ini
    file and the sockets do: it returns 0 or 1, and 1 exactly when there is
    no process although help was not asked for. *)
Theorem main_catches env {T} `{PropertyTree T} exists_file vm read_ini delivered :
  match main (C:=C) (Q:=Q) (T:=T) env exists_file vm read_ini delivered with
  | Ok (status, p) =>
      (status = 0 \/ status = 1 /\ p = None) /\
      (status = 0 -> p = None -> exists v, vm = Ok v /\ vm_help v = true)
  | Throw _ => False
  | Undef => True
  end.
Proof.
  unfold main. destruct (parseCommandLineOptions exists_file vm) as [[ini help]|e|] eqn:Ep;
    [|split; [by right|done]|done].
  destruct help.
  { split; [by left|]. intros _ _. unfold parseCommandLineOptions in Ep.
    apply bind_ok in Ep as (v & Ev & E). exists v. split; [done|].
    destruct (vm_help v); [done|]. destruct (vm_ini v); [|done].
    by apply bind_ok in E as (? & _ & [=]). }
  destruct (parseIniFile _) as [o|e|]; [|split; [by right|done]|done].
  destruct (newProcess env o) as [p|e|] eqn:En; [|split; [by right|done]|done].
  apply newProcess_initialized in En.
  assert (Hs : exists q, start p = Ok q /\
            Subscriber.mInitialized (mPacketSubscriber q) = true).
  { unfold start, stop, Subscriber.stop, Subscriber.start, Subscriber.startImpl.
    rewrite En. simpl. rewrite En. simpl. by eexists. }
  destruct Hs as (q & -> & Iq).
  cbv zeta. generalize (pollFlag catchSignals signalHandler delivered false). intros interrupted.
  assert (Hm : exists r, handleMainThread interrupted q = Ok r).
  { clear -Iq. revert q Iq. induction interrupted as [|b l IH]; intros q Iq; simpl.
    - destruct (mStopRequested q); [by apply stop_total|eauto].
    - destruct (mStopRequested q); [by apply stop_total|]. destruct b; [|by apply IH].
      by apply stop_total. }
  destruct Hm as (r & ->). simpl. split; [by left|done].
Qed.
End construction.

(** ** A sanitizer over lists *)
Definition DemoBuffer : Type := ListBuffer.buffer DataPacketHeader.
Definition DemoQueue : Type := ListQueue.queue DataPacketImpl.
Definition demoProcessOf (o : ProgramOptions) : Process DemoBuffer DemoQueue :=
  match newProcess willing o with
  | Ok p => p
  | _ => mkProcess (mkTesters None None None)
           (Subscriber.mk (SubscriberOptions.mk inputPacketsToQueueCallback "" 0 0 0 true)
              [] false 0 false false)
           demoPublisher (rq_new 0) (rq_new 0) false false 0 false false
  end.
Definition demoProcess : Process DemoBuffer DemoQueue := demoProcessOf defaultOptions.
Definition demoWorld : world := mkWorld demoProcess (countersAt 0) (countersAt 0).
Definition demoClocks : clocks :=
  mkClocks 1700000060000000 1700000060000000 1700000060000000 1700000060000000.
(** Three samples at 1 Hz. *)
Definition slowPacket : DataPacketImpl :=
  demoPacketOf (demoHeader ++ [MSetData (Int32s [1; -2; 3]); MSetSamplingRate (d_of_Z 1)])%list.
(** A packet is received twice, checked twice and published. *)
Definition demoEvents : list event :=
  [EReceive slowPacket; EReceive slowPacket; ECheck demoClocks; ECheck demoClocks;
   EPublish 1700000061000000; EPublish 1700000062000000].
Definition demoWorldAfter : world :=
  match worldRun willing (J:=TinyJson.doc) demoEvents demoWorld with
  | Ok w => w
  | _ => demoWorld
  end.

Lemma published_were_clean_witness :
  worldRun willing (J:=TinyJson.doc) demoEvents demoWorld = Ok demoWorldAfter /\
  length (socketOf demoWorldAfter) = S (length (socketOf demoWorld)) /\
  exists sent calls,
    socketOf demoWorldAfter = (socketOf demoWorld ++ calls)%list /\
    Forall2 (sends (J:=TinyJson.doc)) sent calls /\
    sent `sublist_of` [slowPacket; slowPacket] /\
    Forall (within (Some 0, Some 120000000) [demoClocks; demoClocks]) sent.
Proof.
  assert (E : worldRun willing (J:=TinyJson.doc) demoEvents demoWorld = Ok demoWorldAfter)
    by (vm_compute; reflexivity).
  split; [exact E|]. split; [vm_compute; reflexivity|].
  exact (published_were_clean willing demoEvents demoWorld demoWorldAfter eq_refl eq_refl E).
Defined.

Definition noFutureOptions : ProgramOptions :=
  mkOptions "tcp://127.0.0.1:5551" "tcp://127.0.0.1:5552" 10 1000 (-1) 120 120 60 4096 4096 3.
Definition demoDeafAfter : world :=
  match worldRun willing (J:=TinyJson.doc) demoEvents
          (mkWorld (demoProcessOf noFutureOptions) (countersAt 0) (countersAt 0)) with
  | Ok w => w
  | _ => demoWorld
  end.

Lemma no_future_test_no_output_witness :
  worldRun willing (J:=TinyJson.doc) demoEvents
    (mkWorld (demoProcessOf noFutureOptions) (countersAt 0) (countersAt 0)) =
    Ok demoDeafAfter /\
  socketOf demoDeafAfter =
    Publisher.mPublisherSocket (mPacketPublisher (demoProcessOf noFutureOptions)).
Proof.
  assert (E : worldRun willing (J:=TinyJson.doc) demoEvents
    (mkWorld (demoProcessOf noFutureOptions) (countersAt 0) (countersAt 0)) = Ok demoDeafAfter)
    by (vm_compute; reflexivity).
  split; [exact E|].
  refine (no_future_test_no_output willing noFutureOptions demoEvents
            (demoProcessOf noFutureOptions) _ _ _ _ _ E); [simpl; lia|].
  vm_compute. reflexivity.
Defined.

(** A publisher queue of 300 packets. *)
Definition demoFull : Process DemoBuffer DemoQueue :=
  with_queues (mPacketsToCheckQueue demoProcess)
    (ListQueue.mk 512 (replicate 300 demoPacket)) demoProcess.

Lemma publish_pass_counts_witness :
  exists p' k' ls,
    publishStep willing (J:=TinyJson.doc) 5000000 demoFull (countersAt 0) = Ok (p', k', ls) /\
    nDone k' = 1 /\ nNotDone k' = 44 /\
    (length (rq_elems (mMessagesToPublishQueue p')) <= 255)%nat.
Proof.
  destruct (publishStep willing (J:=TinyJson.doc) 5000000 demoFull (countersAt 0))
    as [[[p' k'] ls]|e|] eqn:E.
  - exists p', k', ls. split; [reflexivity|].
    pose proof (publish_pass_counts willing _ _ _ _ _ _ E) as (_ & L & _).
    split; [|split; [|exact L]].
    + assert (K : match publishStep willing (J:=TinyJson.doc) 5000000 demoFull (countersAt 0) with
                  | Ok (_, k, _) => nDone k | _ => 0 end = 1) by (vm_compute; reflexivity).
      by rewrite E in K.
    + assert (K : match publishStep willing (J:=TinyJson.doc) 5000000 demoFull (countersAt 0) with
                  | Ok (_, k, _) => nNotDone k | _ => 0 end = 44) by (vm_compute; reflexivity).
      by rewrite E in K.
  - exfalso. vm_compute in E. discriminate E.
  - exfalso. vm_compute in E. discriminate E.
Defined.

Lemma stop_leaves_subscriber_witness :
  exists q, stop demoProcess = Ok q /\ mTesterThread q = false /\
            Subscriber.threadRunning (mPacketSubscriber q) = true.
Proof.
  destruct (stop_leaves_subscriber demoProcess eq_refl) as (q & r & E & T & _ & _ & S & _).
  exists q. split; [exact E|]. split; [exact T | exact S].
Defined.

Definition demoIni : ListTree.tree :=
  [("ZeroMQ.inputBroadcastAddress", ListTree.EString "tcp://127.0.0.1:6000");
   ("Sanitizer.maximumLatencyInSeconds", ListTree.EInt 300)].
Definition demoIniOptions : ProgramOptions :=
  mkOptions "tcp://127.0.0.1:6000" "tcp://127.0.0.1:5552" 10 1000 0 300 120 60 4096 4096 3.

Lemma ini_file_gives_process_witness :
  parseIniFile (Some (Ok demoIni)) = Ok demoIniOptions /\
  exists p : Process DemoBuffer DemoQueue,
    newProcess willing demoIniOptions = Ok p /\
    limits (mTesters p) = (Some 0, Some 300000000).
Proof.
  split; [vm_compute; reflexivity|].
  destruct (ini_file_gives_process (C:=DemoBuffer) (Q:=DemoQueue) (Some (Ok demoIni))
              demoIniOptions ListTree.pt_int_in_i32 eq_refl) as (p & E & L & _).
  exists p. split; [exact E | exact L].
Defined.

(** A packet that arrives while the duplicate test is destroyed. *)
Definition demoLate (m : member) : list DataPacketImpl :=
  match m with DuplicateTester => [slowPacket] | _ => [] end.
Lemma shutdown_uses_dead_queue_witness :
  exists p' q, start demoProcess = Ok p' /\ handleMainThread [false; true] p' = Ok q /\
    destroyProcess demoLate q = Undef /\ destroyProcess (fun _ => []) q = Ok tt.
Proof.
  assert (En : newProcess willing defaultOptions = Ok demoProcess) by (vm_compute; reflexivity).
  destruct (start demoProcess) as [p'|e|] eqn:Es; [|vm_compute in Es; discriminate..].
  assert (It : true ∈ [false; true]) by (right; left).
  destruct (shutdown_uses_dead_queue willing defaultOptions demoProcess p' [false; true] demoLate
              En Es It) as (q & E & D).
  destruct (shutdown_uses_dead_queue willing defaultOptions demoProcess p' [false; true]
              (fun _ => []) En Es It) as (q' & E' & D').
  rewrite E in E'. injection E' as <-. exists p', q.
  split; [reflexivity|]. split; [exact E|]. split; [exact D | exact D'].
Defined.
