(* ===== verification/Authentication.v ===== *)
(** * Authentication

    messaging/authentication (the credentials and [IAuthenticator]) and
    messaging/zeromq/authentication (grasslands.cpp, zapOptions.cpp,
    service.cpp).  Keys and message parts are byte strings. *)
From Stdlib Require Import ZArith Ascii String Lia.
From stdpp Require Import base tactics list gmap strings pretty.
From S2P Require Import Prelude Interfaces.

Open Scope string_scope.
Open Scope Z_scope.

(** ** Credentials *)
Module Credential.
Record UserNameAndPassword := mkUser {
  mUserName : string;
  mPassword : string;
  mHavePassword : bool
}.

Definition userName (userName : string) : outcome UserNameAndPassword :=
  throw_if (str_empty userName) (InvalidArgument "User name is empty");;
  Ok (mkUser userName "" false).
Definition userNameAndPassword (userName password : string) : outcome UserNameAndPassword :=
  throw_if (str_empty userName) (InvalidArgument "User name is empty");;
  Ok (if negb (str_empty password) then mkUser userName password true
      else mkUser userName "" false).
Definition clearUser (c : UserNameAndPassword) : UserNameAndPassword := mkUser "" "" false.
Definition getUserName (c : UserNameAndPassword) : outcome string :=
  throw_if (str_empty (mUserName c)) (RuntimeError "User name not set");; Ok (mUserName c).
Definition getPassword (c : UserNameAndPassword) : option string :=
  if mHavePassword c then Some (mPassword c) else None.

Record KeyPair := mkKeyPair { mPublicKey : string; mPrivateKey : string }.

Definition publicKey (publicKey : string) : outcome KeyPair :=
  throw_if (str_empty publicKey) (InvalidArgument "Public key is empty");;
  Ok (mkKeyPair publicKey "").
Definition keyPair (publicKey privateKey : string) : outcome KeyPair :=
  throw_if (str_empty publicKey) (InvalidArgument "Public key is empty");;
  Ok (mkKeyPair publicKey privateKey).
Definition getPublicKey (k : KeyPair) : outcome string :=
  throw_if (str_empty (mPublicKey k)) (RuntimeError "Public key not set");; Ok (mPublicKey k).
Definition getPrivateKey (k : KeyPair) : option string :=
  if negb (str_empty (mPrivateKey k)) then Some (mPrivateKey k) else None.
End Credential.
Import Credential.

(** ** The authenticator interface *)
Record IAuthenticator := mkAuthenticator {
  whiteListed : string -> outcome (list line);
  blackListed : string -> outcome (list line);
  authenticateUser : UserNameAndPassword -> outcome (string * list line);
  authenticateKey : KeyPair -> outcome (string * list line)
}.

(** The two forms of [operator()]. *)
Definition applyUser (a : IAuthenticator) (c : UserNameAndPassword) := authenticateUser a c.
Definition applyKey (a : IAuthenticator) (k : KeyPair) := authenticateKey a k.

(** The levels of spdlog: trace 0, debug 1, info 2, ..., off 6.  A line is
    written when its level is at least the level set. *)
Definition level_debug : Z := 1.
Definition level_info : Z := 2.
Definition infoLine (level : Z) (s : string) : list line :=
  if level <=? level_info then [Info s] else [].

(** ** Grasslands: everything comes through *)
Module Grasslands.
Definition blackListed (level : Z) (address : string) : outcome (list line) :=
  Ok (if level_info <=? level
      then infoLine level ("Grasslands address: " +:+ address +:+ " is not blacklisted")
      else []).
Definition whiteListed (level : Z) (address : string) : outcome (list line) :=
  Ok (if level <? level_info
      then infoLine level ("Grasslands address: " +:+ address +:+ " is whitelisted")
      else []).
Definition authenticateUser (level : Z) (c : UserNameAndPassword)
    : outcome (string * list line) :=
  l ← (if level <? level_debug then
         TRY (name ← getUserName c;
              Ok (infoLine level ("User: " +:+ name +:+ " is allowed")))
         CATCH _ => Ok (infoLine level "Grasslands unspecified user is allowed")
       else Ok []);
  Ok ("OK", l).
Definition authenticateKey (level : Z) (k : KeyPair) : outcome (string * list line) :=
  Ok ("OK", if level <? level_debug then infoLine level "Grasslands allowing key" else []).

Definition authenticator (level : Z) : IAuthenticator :=
  mkAuthenticator (whiteListed level) (blackListed level) (authenticateUser level)
    (authenticateKey level).
End Grasslands.

(** ** Socket options

    A null pointer to the socket is [None]. *)
Inductive Protocol := ProtocolGrasslands | ProtocolStrawhouse | ProtocolStonehouse.

(** [if (options == nullptr){throw ...}] *)
Definition nonnull (options : option socket) : outcome socket :=
  match options with
  | None => Throw (RuntimeError "Socket pointer is NULL")
  | Some s => Ok s
  end.

Definition keyToString (key : string) : string := key.

Module GrasslandsClient.
Definition getProtocol : Protocol := ProtocolGrasslands.
Definition isAuthenticationServer : bool := false.
Definition setSocketOptions (options : option socket) : outcome socket := nonnull options.
End GrasslandsClient.

Module GrasslandsServer.
Record GrasslandsServerImpl := mk { mDomain : string }.
Definition new : GrasslandsServerImpl := mk "global".
Definition getProtocol : Protocol := ProtocolGrasslands.
Definition isAuthenticationServer : bool := true.
Definition getDomain (s : GrasslandsServerImpl) : string := mDomain s.
Definition setSocketOptions (env : ZmqEnv) (this : GrasslandsServerImpl)
    (options : option socket) : outcome socket :=
  s ← nonnull options; zdo env (ZSetStr "zap_domain" (getDomain this)) s.
End GrasslandsServer.

Module StrawhouseServer.
Record StrawhouseServerImpl := mk { mDomain : string }.
Definition new : StrawhouseServerImpl := mk "global".
Definition getProtocol : Protocol := ProtocolStrawhouse.
Definition isAuthenticationServer : bool := true.
Definition getDomain (s : StrawhouseServerImpl) : string := mDomain s.
Definition setSocketOptions (env : ZmqEnv) (this : StrawhouseServerImpl)
    (options : option socket) : outcome socket :=
  s ← nonnull options; zdo env (ZSetStr "zap_domain" (getDomain this)) s.
End StrawhouseServer.

Definition zeroMQKeySize : nat := 32.
Definition wrongSize (key : string) : bool := negb (Nat.eqb (String.length key) zeroMQKeySize).

Module StonehouseClient.
Record StonehouseClientImpl := mk {
  mClientKeyPair : option KeyPair;
  mServerPublicKey : option KeyPair;
  mDomain : string
}.
Definition getProtocol : Protocol := ProtocolStonehouse.
Definition isAuthenticationServer : bool := false.
Definition getDomain (s : StonehouseClientImpl) : string := mDomain s.

Definition new (clientKeyPair serverPublicKey : KeyPair) : outcome StonehouseClientImpl :=
  clientPublic ← getPublicKey clientKeyPair;
  throw_if (wrongSize clientPublic)
    (InvalidArgument "Client public key must have length 32");;
  clientPrivate ← match getPrivateKey clientKeyPair with
                  | None => Throw (InvalidArgument "Client's private key not set")
                  | Some k => Ok k
                  end;
  throw_if (wrongSize clientPrivate)
    (InvalidArgument "Client private key must have length 32");;
  serverPublic ← getPublicKey serverPublicKey;
  throw_if (wrongSize serverPublic)
    (InvalidArgument "Server public key must have length 32");;
  Ok (mk (Some clientKeyPair) (Some serverPublicKey) "global").

Definition copy (client : StonehouseClientImpl) : StonehouseClientImpl :=
  mk (mClientKeyPair client) (mServerPublicKey client) (mDomain client).

Definition setSocketOptions (env : ZmqEnv) (this : StonehouseClientImpl)
    (options : option socket) : outcome socket :=
  s ← nonnull options;
  server ← match mServerPublicKey this with
           | None => Throw (RuntimeError "Server public key not set")
           | Some k => Ok k
           end;
  client ← match mClientKeyPair this with
           | None => Throw (RuntimeError "Client keypair not set")
           | Some k => Ok k
           end;
  serverPublicKey ← getPublicKey server;
  clientPublicKey ← getPublicKey client;
  clientPrivateKey ← of_option (getPrivateKey client);
  s ← zdo env (ZSetStr "zap_domain" (getDomain this)) s;
  s ← zdo env (ZSetInt "curve_server" (if isAuthenticationServer then 1 else 0)) s;
  s ← zdo env (ZSetStr "curve_serverkey" (c_str (keyToString serverPublicKey))) s;
  s ← zdo env (ZSetStr "curve_publickey" (c_str (keyToString clientPublicKey))) s;
  zdo env (ZSetStr "curve_secretkey" (c_str (keyToString clientPrivateKey))) s.
End StonehouseClient.

Module StonehouseServer.
Record StonehouseServerImpl := mk { mServerKeyPair : option KeyPair; mDomain : string }.
Definition getProtocol : Protocol := ProtocolStonehouse.
Definition isAuthenticationServer : bool := true.
Definition getDomain (s : StonehouseServerImpl) : string := mDomain s.

Definition new (serverKeyPair : KeyPair) : outcome StonehouseServerImpl :=
  serverPublic ← getPublicKey serverKeyPair;
  throw_if (wrongSize serverPublic)
    (InvalidArgument "Server public key must have length 32");;
  serverPrivate ← match getPrivateKey serverKeyPair with
                  | None => Throw (InvalidArgument "Server's private key not set")
                  | Some k => Ok k
                  end;
  throw_if (wrongSize serverPrivate)
    (InvalidArgument "Server private key must have length 32");;
  Ok (mk (Some serverKeyPair) "global").

Definition copy (server : StonehouseServerImpl) : StonehouseServerImpl :=
  mk (mServerKeyPair server) (mDomain server).

(** This one does not check its pointers: null ones are dereferenced. *)
Definition setSocketOptions (env : ZmqEnv) (this : StonehouseServerImpl)
    (options : option socket) : outcome socket :=
  server ← of_option (mServerKeyPair this);
  serverPublicKey ← getPublicKey server;
  serverPrivateKey ← of_option (getPrivateKey server);
  s ← of_option options;
  s ← zdo env (ZSetStr "zap_domain" (getDomain this)) s;
  s ← zdo env (ZSetInt "curve_server" (if isAuthenticationServer then 1 else 0)) s;
  s ← zdo env (ZSetStr "curve_publickey" (c_str (keyToString serverPublicKey))) s;
  zdo env (ZSetStr "curve_secretkey" (c_str (keyToString serverPrivateKey))) s.
End StonehouseServer.

(** ** The authentication service *)
Module Service.
Definition mAuthenticatorIdentifier : string := "US8ZMAAuth".

Record ServiceImpl := mk {
  mName : string;
  mAuthenticator : option IAuthenticator;
  mAPIPipe : socket;
  threadRunning : bool;        (* [mZAPThread] is joinable *)
  mAPIStarted : bool;
  mKeepRunning : bool
}.

(** The constructors; [context] tells whether the pointer is not null, and
    [address] is [this] as text. *)
Definition new (env : ZmqEnv) (name address : string) (context : bool)
    (authenticator : option IAuthenticator) : outcome ServiceImpl :=
  throw_if (negb context) (InvalidArgument "Context cannot be null");;
  let mEndPoint := "inproc://" +:+ address +:+ ".inproc" in
  s ← zdo env (ZSetInt "linger" 1) [];
  s ← zdo env (ZBind mEndPoint) s;
  Ok (mk name authenticator s false false true).

(** Joining waits for the thread to see the flag or the message. *)
Definition stop (env : ZmqEnv) (p : ServiceImpl) : outcome ServiceImpl :=
  s ← (if mAPIStarted p then zdo env (ZSend "TERMINATE") (mAPIPipe p) else Ok (mAPIPipe p));
  Ok (mk (mName p) (mAuthenticator p) s false false false).

Definition start (env : ZmqEnv) (p : ServiceImpl) : outcome ServiceImpl :=
  p ← stop env p;
  Ok (mk (mName p) (mAuthenticator p) (mAPIPipe p) true (mAPIStarted p) true).

(** [multipart_t::at] *)
Definition part (messages : list string) (n : nat) : outcome string :=
  match messages !! n with
  | Some m => Ok m
  | None => Throw (OutOfRange "deque::at")
  end.

(** The checks of the [try] block; the log lines are left out. *)
Definition scrutinize (a : IAuthenticator) (messagesReceived : list string)
    (ipAddress mechanism : string) : outcome unit :=
  whiteListed a ipAddress;;
  blackListed a ipAddress;;
  if bool_decide (mechanism = "PLAIN") then
    user ← part messagesReceived 5;
    password ← part messagesReceived 6;
    throw_if (str_empty user) (BadRequest "User name is empty");;
    plainText ← userNameAndPassword user password;
    Ok tt
  else if bool_decide (mechanism = "CURVE") then
    credential ← part messagesReceived 6;
    throw_if (negb (Nat.eqb (String.length credential) 32))
      (BadRequest "Key must be length 32");;
    key ← publicKey credential;
    Ok tt
  else
    throw_if (negb (bool_decide (mechanism = "NULL")))
      (InternalServerError "Undefined ZAP mechanism").

Definition statusOf (r : outcome unit) : outcome (Z * string) :=
  match r with
  | Ok _ => Ok (200, "OK")
  | Throw (BadRequest e) => Ok (400, e)
  | Throw (Unauthorized _) => Ok (401, "Unauthorized")
  | Throw (Forbidden _) => Ok (403, "Forbidden")
  | Throw (InternalServerError _) => Ok (500, "Internal server error")
  | Throw _ => Ok (500, "Internal server error")
  | Undef => Undef
  end.

(** The reply to a ZAP request.  The assert of the code is in every build
    (its guard is misspelt), though it does nothing where [NDEBUG] is
    defined, and then the exception of [at] ends the thread. *)
Definition zapReply (ndebug : bool) (p : ServiceImpl) (messagesReceived : list string)
    : outcome (list string) :=
  (if negb ndebug then assert_ (Nat.leb 6 (length messagesReceived)) else Ok tt);;
  domain ← part messagesReceived 2;
  ipAddress ← part messagesReceived 3;
  identity ← part messagesReceived 4;
  mechanism ← part messagesReceived 5;
  '(statusCode, statusText) ←
    match mAuthenticator p with
    | Some a => statusOf (scrutinize a messagesReceived ipAddress mechanism)
    | None => Ok (200, "OK")
    end;
  version ← part messagesReceived 0;
  sequence ← part messagesReceived 1;
  Ok [version; sequence; pretty (statusCode : Z); statusText; mAuthenticatorIdentifier; ""].

(** What one poll delivers: the message on the API pipe and the message on
    the ZAP socket; [Some []] is a signal without a message. *)
Record polled := mkPolled { onAPI : option (list string); onZAP : option (list string) }.

Definition with_flags (started keep : bool) (p : ServiceImpl) : ServiceImpl :=
  mk (mName p) (mAuthenticator p) (mAPIPipe p) (threadRunning p) started keep.

(** One pass of the loop of [runZAPThread]: the replies sent. *)
Definition zapStep (ndebug : bool) (e : polled) (p : ServiceImpl)
    : outcome (ServiceImpl * list (list string)) :=
  p ← match onAPI e with
      | None | Some [] => Ok p
      | Some messages =>
          command ← part messages 0;
          Ok (if bool_decide (command = "TERMINATE") then with_flags false false p else p)
      end;
  match onZAP e with
  | None => Ok (p, [])
  | Some messages =>
      if negb (bool_decide (messages = [])) && mKeepRunning p then
        reply ← zapReply ndebug p messages; Ok (p, [reply])
      else Ok (p, [])
  end.

(** [while (keepRunning())], over the polls that return. *)
Fixpoint zapLoop (ndebug : bool) (polls : list polled) (p : ServiceImpl)
    : outcome (ServiceImpl * list (list string)) :=
  if negb (mKeepRunning p) then Ok (p, [])
  else
    match polls with
    | [] => Ok (p, [])
    | e :: polls' =>
        '(p, r) ← zapStep ndebug e p;
        '(p, rs) ← zapLoop ndebug polls' p;
        Ok (p, r ++ rs)%list
    end.

(** [runZAPThread] sets [mAPIStarted] before it enters the loop.  Its two sockets
    are open here; ServiceThreads has the calls that open them, which may
    throw. *)
Definition runZAPThread (ndebug : bool) (polls : list polled) (p : ServiceImpl)
    : outcome (ServiceImpl * list (list string)) :=
  zapLoop ndebug polls (with_flags true (mKeepRunning p) p).
End Service.

(** ** Properties *)
Import Service.

(** An authenticator whose lists do not run into undefined behaviour. *)
Definition lists_defined (a : IAuthenticator) : Prop :=
  forall address, whiteListed a address <> Undef /\ blackListed a address <> Undef.

Lemma part_ok m n : (n < length m)%nat -> exists x, m !! n = Some x /\ part m n = Ok x.
Proof. intros [x E]%lookup_lt_is_Some. exists x. unfold part. by rewrite E. Qed.

Lemma part_defined m n : part m n <> Undef.
Proof. unfold part. by destruct (m !! n). Qed.

Lemma scrutinize_defined a m ip mech : lists_defined a -> scrutinize a m ip mech <> Undef.
Proof.
  intros D. destruct (D ip) as [Dw Db]. unfold scrutinize.
  destruct (whiteListed a ip); simpl; [|done|done].
  destruct (blackListed a ip); simpl; [|done|done].
  destruct (bool_decide (mech = "PLAIN")); [|destruct (bool_decide (mech = "CURVE"))].
  - pose proof (part_defined m 5). destruct (part m 5) as [u| |]; simpl; [|done|done].
    pose proof (part_defined m 6). destruct (part m 6) as [pw| |]; simpl; [|done|done].
    unfold userNameAndPassword. by destruct (str_empty u).
  - pose proof (part_defined m 6). destruct (part m 6) as [pw| |]; simpl; [|done|done].
    destruct (Nat.eqb (String.length pw) 32); [|done]. simpl.
    unfold publicKey. by destruct (str_empty pw).
  - by destruct (bool_decide (mech = "NULL")).
Qed.

Lemma statusOf_range r : r <> Undef ->
  exists status text, statusOf r = Ok (status, text) /\ status ∈ [200; 400; 401; 403; 500] /\
                      (status = 200 <-> r = Ok tt).
Proof.
  destruct r as [[]|[]|]; intros N; [..|done]; simpl; do 2 eexists; (split; [done|]);
  (split; [rewrite !elem_of_cons; lia|]); by split.
Qed.

(** The checks a request has to pass, as a function of its parts. *)
Definition admitted (a : IAuthenticator) (ip mechanism : string) (credentials : list string)
    : Prop :=
  is_ok (whiteListed a ip) = true /\ is_ok (blackListed a ip) = true /\
  (mechanism = "NULL" \/ (mechanism = "PLAIN" /\ credentials <> []) \/
   (mechanism = "CURVE" /\ exists key, head credentials = Some key /\
                                       String.length key = 32%nat)).

Lemma scrutinize_admitted a v s d ip i mech creds :
  scrutinize a (v :: s :: d :: ip :: i :: mech :: creds) ip mech = Ok tt <->
  admitted a ip mech creds.
Proof.
  unfold scrutinize, admitted.
  destruct (whiteListed a ip); simpl; [|split; [done|by intros [? _]]..].
  destruct (blackListed a ip); simpl; [|split; [done|by intros (_ & ? & _)]..].
  destruct (bool_decide_reflect (mech = "PLAIN")) as [->|N1]; simpl.
  { destruct creds as [|c creds]; unfold part; simpl.
    - split; [done|]. intros (_ & _ & [?|[[_ ?]|[? _]]]); done.
    - split; auto 6. }
  destruct (bool_decide_reflect (mech = "CURVE")) as [->|N2]; simpl.
  - destruct creds as [|c creds]; unfold part; simpl.
    { split; [done|]. intros (_ & _ & [?|[[? _]|(_ & key & ? & _)]]); done. }
    destruct (Nat.eqb_spec (String.length c) 32) as [L|L]; simpl.
    + unfold publicKey. replace (str_empty c) with false by (by destruct c). simpl.
      split; eauto 10.
    + split; [done|]. intros (_ & _ & [?|[[? _]|(_ & key & [= <-] & ?)]]); done.
  - destruct (bool_decide_reflect (mech = "NULL")) as [->|N3]; simpl; [split; auto|].
    split; [done|]. intros (_ & _ & [?|[[? _]|[? _]]]); done.
Qed.

Lemma zapReply_eq ndebug p v s d ip i mech rest :
  zapReply ndebug p (v :: s :: d :: ip :: i :: mech :: rest) =
  ('(status, text) ←
     match mAuthenticator p with
     | Some a => statusOf (scrutinize a (v :: s :: d :: ip :: i :: mech :: rest) ip mech)
     | None => Ok (200, "OK")
     end;
   Ok [v; s; pretty (status : Z); text; mAuthenticatorIdentifier; ""]).
Proof. unfold zapReply. by destruct ndebug. Qed.

(** *** The loop *)
Definition terminates (e : polled) : bool :=
  match onAPI e with
  | Some (command :: _) => bool_decide (command = "TERMINATE")
  | _ => false
  end.

Lemma zapStep_keep ndebug e p p' r :
  zapStep ndebug e p = Ok (p', r) ->
  mKeepRunning p' = mKeepRunning p && negb (terminates e) /\
  mAPIStarted p' = mAPIStarted p && negb (terminates e) /\
  mAuthenticator p' = mAuthenticator p /\
  (length r <= 1)%nat /\ (terminates e = true -> r = []).
Proof.
  unfold zapStep, terminates. intros (p1 & E1 & E2)%bind_ok.
  assert (P : mKeepRunning p1 = mKeepRunning p && negb (terminates e) /\
              mAPIStarted p1 = mAPIStarted p && negb (terminates e) /\
              mAuthenticator p1 = mAuthenticator p).
  { unfold terminates. destruct (onAPI e) as [[|c ms]|]; simpl in E1; injection E1 as <-;
    rewrite ?andb_true_r; [done| |done].
    destruct (bool_decide (c = "TERMINATE")); simpl; by rewrite ?andb_true_r, ?andb_false_r. }
  unfold terminates in P. destruct P as (K & A & Au).
  assert (Q : p' = p1 /\ (length r <= 1)%nat /\ (mKeepRunning p1 = false -> r = [])).
  { destruct (onZAP e) as [ms|]; [|injection E2 as <- <-; simpl; auto with lia].
    destruct (negb (bool_decide (ms = [])) && mKeepRunning p1) eqn:G.
    - apply bind_ok in E2 as (reply & _ & [= <- <-]).
      apply andb_true_iff in G as [_ G]. simpl. split; [done|]. split; [lia|congruence].
    - injection E2 as <- <-. simpl. auto with lia. }
  destruct Q as (-> & L & R). split; [done|]. split; [done|]. split; [done|]. split; [done|].
  intros T. apply R. rewrite K, T. by rewrite andb_false_r.
Qed.

(** The pass that receives a request: it is dropped or answered. *)
Lemma zapStep_request ndebug e p m :
  onZAP e = Some m -> m <> [] ->
  if negb (mKeepRunning p) || terminates e
  then exists p', zapStep ndebug e p = Ok (p', [])
  else zapStep ndebug e p = (reply ← zapReply ndebug p m; Ok (p, [reply])).
Proof.
  intros Z N. unfold zapStep, terminates. rewrite Z, (bool_decide_eq_false_2 _ N).
  destruct (onAPI e) as [[|c ms]|]; simpl; rewrite ?orb_false_r.
  - destruct (mKeepRunning p); simpl; eauto.
  - destruct (bool_decide (c = "TERMINATE")); simpl; rewrite ?orb_true_r, ?orb_false_r; [by eexists|].
    destruct (mKeepRunning p); simpl; eauto.
  - destruct (mKeepRunning p); simpl; eauto.
Qed.

(** The reply to a request of six parts or more. *)
Lemma zapReply_status ndebug p v s d ip i mech creds :
  (forall a, mAuthenticator p = Some a -> lists_defined a) ->
  exists status text,
    zapReply ndebug p (v :: s :: d :: ip :: i :: mech :: creds) =
      Ok [v; s; pretty (status : Z); text; mAuthenticatorIdentifier; ""] /\
    status ∈ [200; 400; 401; 403; 500] /\
    (status = 200 <-> forall a, mAuthenticator p = Some a -> admitted a ip mech creds).
Proof.
  intros D. rewrite zapReply_eq. destruct (mAuthenticator p) as [a|].
  - destruct (statusOf_range (scrutinize a (v :: s :: d :: ip :: i :: mech :: creds) ip mech))
      as (status & text & E & R & S).
    { apply scrutinize_defined. by apply D. }
    exists status, text. rewrite E. split; [done|]. split; [done|].
    rewrite S, scrutinize_admitted. split; [by intros ? ? [= <-]|auto].
  - exists 200, "OK". split; [done|]. split; [by left|]. done.
Qed.

(** The checks depend on the two lists of the authenticator only, and not on
    the credentials beyond their presence and the length of a key. *)
Lemma scrutinize_lists a b m ip mech :
  (forall address, whiteListed a address = whiteListed b address /\
                   blackListed a address = blackListed b address) ->
  scrutinize a m ip mech = scrutinize b m ip mech.
Proof. intros L. destruct (L ip) as [Lw Lb]. unfold scrutinize. by rewrite Lw, Lb. Qed.

Lemma scrutinize_plain a v s d ip i creds :
  creds <> [] ->
  scrutinize a (v :: s :: d :: ip :: i :: "PLAIN" :: creds) ip "PLAIN" =
  (whiteListed a ip;; blackListed a ip;; Ok tt).
Proof.
  intros N. destruct creds; [done|]. unfold scrutinize, part, userNameAndPassword. simpl.
  destruct (whiteListed a ip); simpl; [|done..]. by destruct (blackListed a ip).
Qed.

Lemma scrutinize_curve a v s d ip i key rest :
  String.length key = 32%nat ->
  scrutinize a (v :: s :: d :: ip :: i :: "CURVE" :: key :: rest) ip "CURVE" =
  (whiteListed a ip;; blackListed a ip;; Ok tt).
Proof.
  intros L. unfold scrutinize, part, publicKey. simpl. rewrite L. simpl.
  by destruct key.
Qed.

Definition demoService : ServiceImpl :=
  mk "Frontend" (Some (Grasslands.authenticator 3)) [] true true true.
Definition demoRequest : list string :=
  ["1.0"; "7"; "global"; "127.0.0.1"; "id"; "CURVE"; "0123456789abcdef0123456789abcdef"].

Definition demoPolls : list polled := [mkPolled None (Some demoRequest)].
Definition demoTerminate : polled := mkPolled (Some ["TERMINATE"]) (Some demoRequest).

(** C9: what the service's thread does with a ZAP request, in the pass of its
    loop that receives it.  When the service has been stopped, or the same
    poll brings TERMINATE, the request is dropped without a reply.  Otherwise
    a request of six parts or more gets exactly one reply, of six parts: its
    version and its request id echoed, a status of 200, 400, 401, 403 or 500
    with its text, the identifier and an empty part; the status is 200 exactly
    when there is no authenticator, or its two lists let the address pass and
    the mechanism is NULL, PLAIN with a credential, or CURVE with a key of 32
    bytes.  A request of fewer than six parts gets no reply: the assertion
    fails, or in a build without assertions an exception ends the thread.
    The authenticator's two lists are assumed not to run into undefined
    behaviour themselves. *)
Theorem zap_reply_complete ndebug e p m :
  (forall a, mAuthenticator p = Some a -> lists_defined a) ->
  onZAP e = Some m -> m <> [] ->
  if negb (mKeepRunning p) || terminates e then
    exists p', zapStep ndebug e p = Ok (p', [])
  else
    match m with
    | v :: s :: d :: ip :: i :: mech :: creds =>
        exists status text,
          zapStep ndebug e p =
            Ok (p, [[v; s; pretty (status : Z); text; mAuthenticatorIdentifier; ""]]) /\
          status ∈ [200; 400; 401; 403; 500] /\
          (status = 200 <-> forall a, mAuthenticator p = Some a -> admitted a ip mech creds)
    | _ => zapStep ndebug e p = if ndebug then Throw (OutOfRange "deque::at") else Undef
    end.
Proof.
  intros D Z N. pose proof (zapStep_request ndebug e p m Z N) as E.
  destruct (negb (mKeepRunning p) || terminates e); [exact E|]. rewrite E. clear E Z.
  destruct m as [|v [|s [|d [|ip [|i [|mech creds]]]]]];
    [done|by destruct ndebug..|].
  destruct (zapReply_status ndebug p v s d ip i mech creds D) as (status & text & -> & S).
  by exists status, text.
Qed.

(** A request that is answered, and the same request in the poll that brings
    TERMINATE. *)
Lemma zap_reply_complete_witness :
  (exists status text,
    zapStep true (mkPolled None (Some demoRequest)) demoService =
      Ok (demoService, [["1.0"; "7"; pretty (status : Z); text; "US8ZMAAuth"; ""]]) /\
    (status = 200 <-> forall a, mAuthenticator demoService = Some a ->
       admitted a "127.0.0.1" "CURVE" ["0123456789abcdef0123456789abcdef"])) /\
  exists p', zapStep true demoTerminate demoService = Ok (p', []).
Proof.
  assert (D : forall a, mAuthenticator demoService = Some a -> lists_defined a)
    by (intros a [= <-] address; done).
  split.
  - destruct (zap_reply_complete true (mkPolled None (Some demoRequest)) demoService demoRequest
                D eq_refl ltac:(discriminate)) as (status & text & E & _ & S).
    exists status, text. split; [exact E | exact S].
  - exact (zap_reply_complete true demoTerminate demoService demoRequest
             D eq_refl ltac:(discriminate)).
Defined.

(** C27: credentials are never checked.  Two services whose authenticators
    agree on the addresses they let through give the same answer to every
    request, of any number of parts and any mechanism, whatever
    [authenticate] of either says.  Under PLAIN the user name and the
    password of the request change nothing as long as something comes after
    the mechanism, and under CURVE one key of 32 bytes is as good as any
    other. *)
Theorem credentials_not_consulted ndebug p q a b :
  mAuthenticator p = Some a -> mAuthenticator q = Some b ->
  (forall address, whiteListed a address = whiteListed b address /\
                   blackListed a address = blackListed b address) ->
  (forall m, zapReply ndebug p m = zapReply ndebug q m) /\
  forall v s d ip i,
    (forall creds creds', creds <> [] -> creds' <> [] ->
       zapReply ndebug p (v :: s :: d :: ip :: i :: "PLAIN" :: creds) =
       zapReply ndebug p (v :: s :: d :: ip :: i :: "PLAIN" :: creds')) /\
    (forall key rest key' rest', String.length key = 32%nat -> String.length key' = 32%nat ->
       zapReply ndebug p (v :: s :: d :: ip :: i :: "CURVE" :: key :: rest) =
       zapReply ndebug p (v :: s :: d :: ip :: i :: "CURVE" :: key' :: rest')).
Proof.
  intros Ea Eb L. split.
  - intros m. unfold zapReply. rewrite Ea, Eb.
    destruct (if negb ndebug then _ else _) as [[]| |]; simpl; [|done..].
    destruct (part m 2); simpl; [|done..]. destruct (part m 3) as [ip| |]; simpl; [|done..].
    destruct (part m 4); simpl; [|done..]. destruct (part m 5); simpl; [|done..].
    by rewrite (scrutinize_lists a b).
  - intros v s d ip i. split.
    + intros creds creds' N N'. rewrite !zapReply_eq, Ea. by rewrite !scrutinize_plain.
    + intros key rest key' rest' K K'. rewrite !zapReply_eq, Ea. by rewrite !scrutinize_curve.
Qed.

(** An authenticator that accepts every address and no credentials. *)
Definition strict : IAuthenticator :=
  mkAuthenticator (fun _ => Ok []) (fun _ => Ok [])
    (fun _ => Throw (Unauthorized "no")) (fun _ => Throw (Unauthorized "no")).

(** It answers a CURVE request like one that accepts every key, and the
    password of a PLAIN request does not matter. *)
Lemma credentials_not_consulted_witness :
  let p := mk "" (Some strict) [] true true true in
  zapReply true p demoRequest = Ok ["1.0"; "7"; "200"; "OK"; "US8ZMAAuth"; ""] /\
  zapReply true p demoRequest = zapReply true demoService demoRequest /\
  zapReply true p ["1.0"; "7"; "global"; "127.0.0.1"; "id"; "PLAIN"; "root"; "x"] =
    zapReply true p ["1.0"; "7"; "global"; "127.0.0.1"; "id"; "PLAIN"; ""].
Proof.
  intros p. split; [vm_compute; reflexivity|].
  destruct (credentials_not_consulted true p demoService strict (Grasslands.authenticator 3)
              eq_refl eq_refl) as [A P]; [intros address; split; reflexivity|].
  split; [exact (A demoRequest)|].
  exact (proj1 (P "1.0" "7" "global" "127.0.0.1" "id") ["root"; "x"] [""]
           ltac:(discriminate) ltac:(discriminate)).
Defined.

(** The thread answers requests until the poll that brings TERMINATE and
    none from then on: it sends at most one reply per poll before it, the
    polls that follow are not made, and both flags are down at the end. *)
Theorem terminate_ends_loop ndebug before e after p p' replies :
  mKeepRunning p = true ->
  Forall (fun e => terminates e = false) before -> terminates e = true ->
  runZAPThread ndebug (before ++ e :: after)%list p = Ok (p', replies) ->
  mKeepRunning p' = false /\ mAPIStarted p' = false /\
  (length replies <= length before)%nat /\
  runZAPThread ndebug (before ++ [e])%list p = Ok (p', replies).
Proof.
  unfold runZAPThread. intros Hk F T. set (q := with_flags true (mKeepRunning p) p).
  assert (Hq : mKeepRunning q = true) by exact Hk. clearbody q. clear p Hk.
  revert q Hq replies. induction F as [|x before Hx F IH]; intros q Hq replies; simpl; rewrite Hq; simpl.
  - intros ([q1 r] & E1 & ([q2 rs] & E2 & [= <- <-])%bind_ok)%bind_ok.
    rewrite E1. apply zapStep_keep in E1 as (K & A & _ & _ & R). rewrite T in K, A.
    rewrite andb_false_r in K, A. simpl in *.
    assert (Q : q2 = q1 /\ rs = []) by (destruct after; simpl in E2; rewrite K in E2; by injection E2 as <- <-).
    destruct Q as [-> ->]. rewrite K, (R T). simpl. done.
  - intros ([q1 r] & E1 & ([q2 rs] & E2 & [= <- <-])%bind_ok)%bind_ok.
    rewrite E1. simpl. apply zapStep_keep in E1 as (K & A & _ & L & _).
    rewrite Hx, Hq in K. apply IH in E2 as (? & ? & ? & ->); [|exact K].
    simpl. split; [done|]. split; [done|]. split; [|done]. rewrite length_app. simpl. lia.
Qed.

Definition demoEnded : ServiceImpl := with_flags false false demoService.

Lemma terminate_ends_loop_witness :
  runZAPThread true (demoPolls ++ demoTerminate :: demoPolls)%list demoService =
    Ok (demoEnded, [["1.0"; "7"; "200"; "OK"; "US8ZMAAuth"; ""]]) /\
  mKeepRunning demoEnded = false /\ mAPIStarted demoEnded = false.
Proof.
  assert (E : runZAPThread true (demoPolls ++ demoTerminate :: demoPolls)%list demoService =
    Ok (demoEnded, [["1.0"; "7"; "200"; "OK"; "US8ZMAAuth"; ""]])) by (vm_compute; reflexivity).
  split; [exact E|].
  destruct (terminate_ends_loop true demoPolls demoTerminate demoPolls demoService demoEnded
              _ eq_refl ltac:(repeat constructor) eq_refl E)
    as (K & A & _).
  split; [exact K | exact A].
Defined.

(** *** Keys *)
Definition no_zero_byte (s : string) : bool :=
  str_all (fun c => negb (Nat.eqb (nat_of_ascii c) 0)) s.

(** A client is made exactly from keys of the right sizes. *)
Lemma stonehouse_client_made client server :
  is_ok (StonehouseClient.new client server) = true <->
  String.length (mPublicKey client) = 32%nat /\ String.length (mPrivateKey client) = 32%nat /\
  String.length (mPublicKey server) = 32%nat.
Proof.
  destruct client as [cp cs], server as [sp ss].
  unfold StonehouseClient.new, getPublicKey, getPrivateKey, wrongSize. simpl.
  destruct cp as [|c cp]; simpl; [split; [done|by intros (? & _)]|].
  destruct (Nat.eqb_spec (String.length cp) 31) as [->|N1]; simpl.
  2:{ split; [done|]. intros (? & _). lia. }
  destruct cs as [|d cs]; simpl; [split; [done|by intros (_ & ? & _)]|].
  destruct (Nat.eqb_spec (String.length cs) 31) as [->|N2]; simpl.
  2:{ split; [done|]. intros (_ & ? & _). lia. }
  destruct sp as [|e sp]; simpl; [split; [done|by intros (_ & _ & ?)]|].
  destruct (Nat.eqb_spec (String.length sp) 31) as [->|N3]; simpl; [done|].
  split; [done|]. intros (_ & _ & ?). lia.
Qed.

Lemma stonehouse_client_value client server c :
  StonehouseClient.new client server = Ok c ->
  c = StonehouseClient.mk (Some client) (Some server) "global" /\
  getPublicKey client = Ok (mPublicKey client) /\
  getPublicKey server = Ok (mPublicKey server) /\
  getPrivateKey client = Some (mPrivateKey client).
Proof.
  unfold StonehouseClient.new. intros (cp & Ecp & ([] & _ & (cs & Ecs & ([] & _ & N)%bind_ok)%bind_ok)%bind_ok)%bind_ok.
  apply bind_ok in N as (sp & Esp & ([] & _ & [= <-])%bind_ok). split; [done|].
  rewrite Ecp, Esp. apply bind_ok in Ecp as ([] & _ & [= <-]), Esp as ([] & _ & [= <-]).
  split; [done|]. split; [done|]. unfold getPrivateKey in *.
  by destruct (negb (str_empty (mPrivateKey client))).
Qed.

(** C36: a Stonehouse client is made exactly when the public and the private
    key of the client and the public key of the server have 32 bytes each.  It
    refuses a null socket; on a socket it sets the five options of a CURVE
    client, in order, whenever ZeroMQ takes them, and never the role of the
    server.  But it hands the keys over as C strings, so a key arrives whole
    exactly when it has no zero byte. *)
Theorem stonehouse_client_keys env client server :
  (is_ok (StonehouseClient.new client server) = true <->
   String.length (mPublicKey client) = 32%nat /\ String.length (mPrivateKey client) = 32%nat /\
   String.length (mPublicKey server) = 32%nat) /\
  forall c, StonehouseClient.new client server = Ok c ->
    StonehouseClient.setSocketOptions env c None =
      Throw (RuntimeError "Socket pointer is NULL") /\
    forall o s, StonehouseClient.setSocketOptions env c (Some o) = Ok s ->
      exists serverKey publicKey secretKey,
        s = (o ++ [ZSetStr "zap_domain" "global"; ZSetInt "curve_server" 0;
                   ZSetStr "curve_serverkey" serverKey; ZSetStr "curve_publickey" publicKey;
                   ZSetStr "curve_secretkey" secretKey])%list /\
        (serverKey = mPublicKey server <-> no_zero_byte (mPublicKey server) = true) /\
        (publicKey = mPublicKey client <-> no_zero_byte (mPublicKey client) = true) /\
        (secretKey = mPrivateKey client <-> no_zero_byte (mPrivateKey client) = true).
Proof.
  split; [apply stonehouse_client_made|]. intros c N.
  apply stonehouse_client_value in N as (-> & Ecp & Esp & Ek). split; [done|].
  intros o s. unfold StonehouseClient.setSocketOptions. simpl. rewrite Esp, Ecp. simpl.
  rewrite Ek. simpl.
  intros (s1 & ->%zdo_ok & (s2 & ->%zdo_ok & (s3 & ->%zdo_ok & (s4 & ->%zdo_ok & ->%zdo_ok)%bind_ok)%bind_ok)%bind_ok)%bind_ok.
  do 3 eexists. rewrite <- !(assoc_L app). split; [reflexivity|]. unfold no_zero_byte.
  by rewrite !c_str_id.
Qed.

(** Keys of 32 bytes; the secret key has a zero byte in the middle. *)
Definition demoKey : string := "0123456789abcdef0123456789abcdef".
Definition demoZeroKey : string :=
  "0123456789abcde" +:+ String (ascii_of_nat 0) "0123456789abcdef".
Definition demoClient : StonehouseClient.StonehouseClientImpl :=
  StonehouseClient.mk (Some (mkKeyPair demoKey demoZeroKey)) (Some (mkKeyPair demoKey ""))
    "global".

Lemma stonehouse_client_keys_witness :
  StonehouseClient.new (mkKeyPair demoKey demoZeroKey) (mkKeyPair demoKey "") = Ok demoClient /\
  exists serverKey publicKey secretKey s,
    StonehouseClient.setSocketOptions willing demoClient (Some []) = Ok s /\
    s = [ZSetStr "zap_domain" "global"; ZSetInt "curve_server" 0;
         ZSetStr "curve_serverkey" serverKey; ZSetStr "curve_publickey" publicKey;
         ZSetStr "curve_secretkey" secretKey] /\
    serverKey = demoKey /\ secretKey <> demoZeroKey.
Proof.
  assert (E : StonehouseClient.new (mkKeyPair demoKey demoZeroKey) (mkKeyPair demoKey "") =
              Ok demoClient) by (vm_compute; reflexivity).
  split; [exact E|].
  destruct (StonehouseClient.setSocketOptions willing demoClient (Some [])) as [s| |] eqn:S.
  - destruct (proj2 (proj2 (stonehouse_client_keys willing _ _) _ E) _ _ S)
      as (k1 & k2 & k3 & F & K1 & _ & K3).
    exists k1, k2, k3, s. split; [reflexivity|]. split; [exact F|].
    split; [apply K1; vm_compute; reflexivity|].
    intros X. apply K3 in X. vm_compute in X. discriminate X.
  - vm_compute in S. discriminate S.
  - vm_compute in S. discriminate S.
Defined.
