(* ===== verification/Proxy.v ===== *)
(** * The data packet broadcast proxy

    broadcasts/dataPacket/proxy.cpp.  The proxy has four sockets; [env] gives
    the library's behaviour on each, by name.  The steerable proxy of the
    library, which runs in a thread of its own, ends when it is told
    TERMINATE. *)
From Stdlib Require Import ZArith Ascii String Lia.
From stdpp Require Import base tactics list gmap strings pretty.
From S2P Require Import Prelude Interfaces Authentication.

Open Scope string_scope.
Open Scope Z_scope.

Record ProgramOptions := mkOptions {
  proxyFrontendAddress : string;
  proxyBackendAddress : string;
  verbosity : Z;
  helpOnly : bool
}.

Definition defaultOptions : ProgramOptions :=
  mkOptions "tcp://127.0.0.1:5550" "tcp://127.0.0.1:5551" 3 false.

(** The tests on an address; the second message has one letter more. *)
Definition checkAddress (key address : string) : outcome unit :=
  throw_if (str_empty address) (InvalidArgument (key +:+ " is empty"));;
  throw_if (negb (starts_with "tcp://" address))
    (InvalidArgument (key +:+ "s must starts with tcp://")).

Definition parseIniFile {T} `{PropertyTree T} (file : option (outcome T))
    : outcome ProgramOptions :=
  let options := defaultOptions in
  match file with
  | None => Ok options
  | Some read =>
      propertyTree ← read;
      let frontend := pt_string propertyTree "ZeroMQ.proxyFrontendAddress"
                        (proxyFrontendAddress options) in
      checkAddress "ZeroMQ.proxyFrontendAddress" frontend;;
      let backend := pt_string propertyTree "ZeroMQ.proxyBackendAddress"
                       (proxyBackendAddress options) in
      checkAddress "ZeroMQ.proxyBackendAddress" backend;;
      Ok (mkOptions frontend backend (verbosity options) (helpOnly options))
  end.

Inductive ProxyState := NotRunning | Running | Paused.
#[export] Instance ProxyState_eq_dec : EqDecision ProxyState.
Proof. solve_decision. Defined.

(** [mProxyThread]: not joinable, joinable, or waited for by a [join] that
    does not return. *)
Inductive Thread := NoThread | Joinable | JoinBlocks.
#[export] Instance Thread_eq_dec : EqDecision Thread.
Proof. solve_decision. Defined.

Record Process := mkProcess {
  mProxyThread : Thread;
  mControlAddress : string;
  mFrontendAuthenticator : Service.ServiceImpl;
  mBackendAuthenticator : Service.ServiceImpl;
  mFrontendSocket : socket;
  mBackendSocket : socket;
  mControlSocket : socket;
  mCommandSocket : socket;
  mProxyState : ProxyState;
  mStopRequested : bool
}.

Definition with_state (th : Thread) (f b : Service.ServiceImpl) (s : socket) (st : ProxyState)
    (p : Process) : Process :=
  mkProcess th (mControlAddress p) f b (mFrontendSocket p) (mBackendSocket p)
    (mControlSocket p) s st (mStopRequested p).

Section proxy.
Context (env : string -> ZmqEnv).

(** [catch (e) { throw std::runtime_error(f(e.what())); }] *)
Definition rethrow {A} (f : string -> string) (m : outcome A) : outcome A :=
  TRY m CATCH e => Throw (RuntimeError (f (what e))).

(** The constructor; [this] is the address of the object as text. *)
Definition newProcess (options : ProgramOptions) (this : string) (nowMuSec : Z)
    : outcome Process :=
  '(frontend, frontendAuthenticator) ←
    rethrow (fun e => e)
      (s ← GrasslandsServer.setSocketOptions (env "frontend") GrasslandsServer.new (Some []);
       a ← Service.new (env "frontendPipe") "Frontend" this true
             (Some (Grasslands.authenticator level_info));
       s ← zdo (env "frontend") (ZBind (proxyFrontendAddress options)) s;
       Ok (s, a));
  '(backend, backendAuthenticator) ←
    rethrow (fun e => e)
      (s ← GrasslandsServer.setSocketOptions (env "backend") GrasslandsServer.new (Some []);
       a ← Service.new (env "backendPipe") "Backend" this true
             (Some (Grasslands.authenticator level_info));
       s ← zdo (env "backend") (ZSetInt "linger" 0) s;
       s ← zdo (env "backend") (ZBind (proxyBackendAddress options)) s;
       Ok (s, a));
  let controlAddress := "inproc://" +:+ pretty nowMuSec +:+ "_" +:+ this
                        +:+ "_xpubsub_proxy_control" in
  control ← rethrow (fun e => "Failed to bind to control socket failed with " +:+ e)
              (zdo (env "control") (ZBind controlAddress) []);
  command ← rethrow (fun e => "Failed to connect to control socket; failed with " +:+ e)
              (s ← zdo (env "command") (ZSetInt "linger" 0) [];
               zdo (env "command") (ZConnect controlAddress) s);
  Ok (mkProcess NoThread controlAddress frontendAuthenticator backendAuthenticator
        frontend backend control command NotRunning false).

(** Assigning to a joinable [std::thread] ends the program. *)
Definition start (p : Process) : outcome Process :=
  f ← Service.start (env "frontendPipe") (mFrontendAuthenticator p);
  b ← Service.start (env "backendPipe") (mBackendAuthenticator p);
  match mProxyThread p with
  | NoThread => Ok (with_state Joinable f b (mCommandSocket p) Running p)
  | _ => Undef
  end.

(** [mCommandSocket.send(...)] and the new state; a failure is logged and
    leaves everything as it was. *)
Definition command (text failure : string) (st : ProxyState) (p : Process)
    : outcome (Process * list line) :=
  match zdo (env "command") (ZSend text) (mCommandSocket p) with
  | Ok s =>
      Ok (with_state (mProxyThread p) (mFrontendAuthenticator p) (mBackendAuthenticator p)
            s st p, [])
  | Throw e => Ok (p, [Error (failure +:+ what e)])
  | Undef => Undef
  end.

Definition resume (p : Process) : outcome (Process * list line) :=
  if bool_decide (mProxyState p = Running) then
    '(p, l) ← command "RESUME" "Failed to resume the proxy because " Paused p;
    Ok (p, Info "Resuming the proxy" :: l)
  else Ok (p, []).

Definition pause (p : Process) : outcome (Process * list line) :=
  if bool_decide (mProxyState p = Running) then
    '(p, l) ← command "PAUSE" "Failed to pause the proxy because " Paused p;
    Ok (p, Info "Pausing the proxy" :: l)
  else Ok (p, []).

(** [join] returns when the proxy has been told to terminate. *)
Definition join (p : Process) : Process :=
  match mProxyThread p with
  | NoThread => p
  | _ =>
      with_state (if bool_decide (ZSend "TERMINATE" ∈ mCommandSocket p) then NoThread
                  else JoinBlocks)
        (mFrontendAuthenticator p) (mBackendAuthenticator p) (mCommandSocket p)
        (mProxyState p) p
  end.

Definition stop (p : Process) : outcome (Process * list line) :=
  f ← Service.stop (env "frontendPipe") (mFrontendAuthenticator p);
  b ← Service.stop (env "backendPipe") (mBackendAuthenticator p);
  let p := with_state (mProxyThread p) f b (mCommandSocket p) (mProxyState p) p in
  '(p, l) ←
    (if bool_decide (mProxyState p = Running) || bool_decide (mProxyState p = Paused) then
       '(p, l) ← command "TERMINATE" "Failed to terminate proxy because " NotRunning p;
       Ok (p, Info "Terminating the proxy" :: l)
     else Ok (p, []));
  Ok (join p, l).

Definition destructor (p : Process) : outcome (Process * list line) := stop p.

Definition with_stop (p : Process) : Process :=
  mkProcess (mProxyThread p) (mControlAddress p) (mFrontendAuthenticator p)
    (mBackendAuthenticator p) (mFrontendSocket p) (mBackendSocket p) (mControlSocket p)
    (mCommandSocket p) (mProxyState p) true.

Fixpoint handleMainThread (interrupted : list bool) (p : Process) : outcome Process :=
  if mStopRequested p then '(p, _) ← stop p; Ok p
  else
    match interrupted with
    | [] => Ok p
    | b :: rest =>
        if (b : bool) then '(p, _) ← stop (with_stop p); Ok p
        else handleMainThread rest p
    end.

(** What the command line parser stores: [help] and the text of [ini]. *)
Definition parseCommandLineOptions (exists_file : string -> bool)
    (vm : outcome (bool * option string)) : outcome (string * bool) :=
  '(help, ini) ← vm;
  if (help : bool) then Ok ("", true)
  else
    match ini with
    | None => Ok ("", false)
    | Some iniFile =>
        throw_if (negb (exists_file iniFile))
          (RuntimeError ("Initialization file: " +:+ iniFile +:+ " does not exist"));;
        Ok (iniFile, false)
    end.

(** The handler of a caught signal raises the flag that [handleMainThread]
    polls. *)
Definition signalHandler (_ : Z) (_ : bool) : bool := true.
Definition catchSignals : list Z := [SIGINT; SIGTERM].

(** The exit status, and the process [main] leaves to its destructor;
    [delivered] are the signals that come before each poll. *)
Definition main {T} `{PropertyTree T} (exists_file : string -> bool)
    (vm : outcome (bool * option string)) (read_ini : string -> outcome T)
    (this : string) (nowMuSec : Z) (delivered : list (list Z))
    : outcome (Z * option Process) :=
  match parseCommandLineOptions exists_file vm with
  | Undef => Undef
  | Throw _ => Ok (1, None)
  | Ok (_, true) => Ok (0, None)
  | Ok (iniFile, false) =>
      let file := if exists_file iniFile then Some (read_ini iniFile) else None in
      match (parseIniFile file ≫= (fun o => newProcess o this nowMuSec)) ≫= start with
      | Undef => Undef
      | Throw _ => Ok (1, None)
      | Ok process =>
          let interrupted := pollFlag catchSignals signalHandler delivered false in
          p ← handleMainThread interrupted process; Ok (0, Some p)
      end
  end.
End proxy.

(** ** Properties *)

(** A request socket that was sent on and has not received refuses to send:
    the documented behaviour of the REQ pattern, on a socket that never
    receives. *)
Definition request_pattern (env : ZmqEnv) : Prop :=
  forall s a b, (ZSend a ∈ s -> exists e, z_call env s (ZSend b) = Throw e) /\
                ((forall a, ZSend a ∉ s) -> z_call env s (ZSend b) = Ok tt).

(** Pausing and resuming, in any order. *)
Fixpoint steer (env : string -> ZmqEnv) (cmds : list bool) (p : Process) : outcome Process :=
  match cmds with
  | [] => Ok p
  | c :: cmds' =>
      '(p, _) ← (if (c : bool) then resume env p else pause env p); steer env cmds' p
  end.

Lemma paused_stays env cmds p : mProxyState p = Paused -> steer env cmds p = Ok p.
Proof.
  intros Hp. induction cmds as [|c cmds IH]; [done|]. simpl.
  unfold resume, pause. rewrite Hp. by destruct c.
Qed.

Lemma command_inv env text failure st p p' l :
  command env text failure st p = Ok (p', l) ->
  (p' = p /\ l <> [] /\ exists e, z_call (env "command") (mCommandSocket p) (ZSend text) = Throw e) \/
  (mProxyState p' = st /\ mProxyThread p' = mProxyThread p /\ l = [] /\
   mCommandSocket p' = (mCommandSocket p ++ [ZSend text])%list).
Proof.
  unfold command, zdo. destruct (z_call _ _ _) as [[]|e|]; simpl; intros [= <- <-]; [right|left].
  - done.
  - split; [done|]. split; [done|]. eauto.
Qed.

Lemma steer_states env cmds p q :
  mProxyState p = Running -> steer env cmds p = Ok q ->
  mProxyThread q = mProxyThread p /\
  (q = p \/ (mProxyState q = Paused /\
             exists c, (c = "PAUSE" \/ c = "RESUME") /\
                       mCommandSocket q = (mCommandSocket p ++ [ZSend c])%list)).
Proof.
  revert p. induction cmds as [|c cmds IH]; intros p Hp; simpl; [intros [= <-]; auto|].
  intros ([p1 l] & E1 & E2)%bind_ok.
  assert (P : p1 = p \/ (mProxyState p1 = Paused /\ mProxyThread p1 = mProxyThread p /\
               exists c, (c = "PAUSE" \/ c = "RESUME") /\
                         mCommandSocket p1 = (mCommandSocket p ++ [ZSend c])%list)).
  { unfold resume, pause in E1. rewrite Hp in E1.
    destruct c; simpl in E1; apply bind_ok in E1 as ([p2 l2] & E & [= -> _]);
    apply command_inv in E as [(-> & _)|(? & ? & _ & ?)]; eauto 10. }
  destruct P as [->|(S & T & P)]; [by apply IH|].
  rewrite paused_stays in E2 by done. injection E2 as <-. auto.
Qed.

(** [resume] never resumes: from a running proxy every sequence of
    pauses and resumes leaves it running with nothing sent, or paused with
    one command sent - and that command may be RESUME, which pauses; once
    paused, no sequence of them changes anything. *)
Theorem resume_never_resumes env cmds p q :
  steer env cmds p = Ok q ->
  (mProxyState p = Paused -> q = p) /\
  (mProxyState p = Running -> q <> p -> mProxyState q = Paused) /\
  (mProxyState p = Running -> z_call (env "command") (mCommandSocket p) (ZSend "RESUME") = Ok tt ->
   exists r, resume env p = Ok (r, [Info "Resuming the proxy"]) /\ mProxyState r = Paused).
Proof.
  intros E. split; [|split].
  - intros Hp. rewrite paused_stays in E by done. congruence.
  - intros Hp N. destruct (steer_states _ _ _ _ Hp E) as [_ [?|[? _]]]; done.
  - intros Hp Hz. unfold resume. rewrite Hp. simpl. unfold command, zdo. rewrite Hz. simpl.
    by eexists.
Qed.

Lemma service_stop_inv env p p' :
  Service.stop env p = Ok p' ->
  Service.threadRunning p' = false /\ Service.mKeepRunning p' = false /\
  Service.mAPIStarted p' = false.
Proof. by intros (s & _ & [= <-])%bind_ok. Qed.

(** C28: stopping a running proxy works once and only if nothing was sent
    before: with the request pattern of its command socket, [stop] sends
    TERMINATE, joins the thread and leaves the proxy not running; but after a
    pause or a resume the socket refuses TERMINATE, the failure is logged,
    the proxy stays paused and the join never returns. *)
Theorem stop_after_pause_blocks env cmds p q r l :
  request_pattern (env "command") ->
  mProxyState p = Running -> mProxyThread p = Joinable ->
  (forall a, ZSend a ∉ mCommandSocket p) ->
  steer env cmds p = Ok q ->
  stop env q = Ok (r, l) ->
  (mProxyState q = Running /\ mProxyState r = NotRunning /\ mProxyThread r = NoThread /\
   mCommandSocket r = (mCommandSocket p ++ [ZSend "TERMINATE"])%list) \/
  (mProxyState q = Paused /\ mProxyState r = Paused /\ mProxyThread r = JoinBlocks /\
   mCommandSocket r = mCommandSocket q /\ exists w, Error w ∈ l).
Proof.
  intros RP Hp Ht Hs E St.
  destruct (steer_states _ _ _ _ Hp E) as [Hq C].
  unfold stop in St.
  apply bind_ok in St as (f & _ & (b & _ & ([q1 l1] & E1 & [= <- <-])%bind_ok)%bind_ok).
  assert (Hc : bool_decide (mProxyState q = Running) || bool_decide (mProxyState q = Paused) = true).
  { destruct C as [->|[-> _]]; [by rewrite Hp|done]. }
  simpl mProxyState in E1. rewrite Hc in E1.
  apply bind_ok in E1 as ([q2 l2] & E2 & [= <- <-]).
  destruct C as [->|(Hpq & c & Hc' & Ec)].
  - left. split; [done|].
    apply command_inv in E2 as [(_ & _ & e & Ee)|(S & T & _ & K)].
    { simpl in Ee. by rewrite (proj2 (RP _ "" _)) in Ee by done. }
    simpl in S, T, K. unfold join. rewrite T, Ht, K. simpl.
    rewrite bool_decide_eq_true_2 by (apply elem_of_app; right; by apply list_elem_of_singleton).
    done.
  - right. split; [done|].
    assert (I : ZSend c ∈ mCommandSocket q)
      by (rewrite Ec; apply elem_of_app; right; by apply list_elem_of_singleton).
    assert (Nt : ZSend "TERMINATE" ∉ mCommandSocket q).
    { rewrite Ec. intros [J|J]%elem_of_app; [by eapply Hs|].
      apply list_elem_of_singleton in J. injection J as <-. by destruct Hc'. }
    destruct (proj1 (RP (mCommandSocket q) c "TERMINATE") I) as [e Ee].
    unfold command, zdo in E2. simpl in E2. rewrite Ee in E2. simpl in E2.
    injection E2 as <- <-. unfold join. simpl. rewrite Hq, Ht.
    rewrite bool_decide_eq_false_2 by done. simpl.
    split; [done|]. split; [done|]. split; [done|]. eexists. right. by left.
Qed.

(** A proxy whose command socket keeps to the pattern. *)
Definition sendsOnce (s : socket) (c : zcall) : outcome unit :=
  match c with
  | ZSend _ =>
      if existsb (fun c => match c with ZSend _ => true | _ => false end) s
      then Throw (LibraryError "Operation cannot be accomplished in current state")
      else Ok tt
  | _ => Ok tt
  end.
Definition demoEnv (name : string) : ZmqEnv := mkZmq sendsOnce (fun _ _ => Ok (Some 1)).

Lemma demoEnv_pattern : request_pattern (demoEnv "command").
Proof.
  intros s a b. simpl. split.
  - intros I. eexists. replace (existsb _ s) with true; [done|].
    symmetry. apply existsb_exists. exists (ZSend a). split; [by apply list_elem_of_In|done].
  - intros N. replace (existsb _ s) with false; [done|].
    symmetry. apply not_true_iff_false. intros ([] & I%list_elem_of_In & X)%existsb_exists;
      try done. by apply N in I.
Qed.

Definition demoProxy : Process :=
  match newProcess demoEnv defaultOptions "0x1" 0 ≫= start demoEnv with
  | Ok p => p
  | _ => mkProcess NoThread "" (Service.mk "" None [] false false false)
           (Service.mk "" None [] false false false) [] [] [] [] NotRunning false
  end.
Definition demoPaused : Process :=
  match pause demoEnv demoProxy with Ok (p, _) => p | _ => demoProxy end.

Lemma resume_never_resumes_witness :
  steer demoEnv [false; true; true] demoProxy = Ok demoPaused /\
  mProxyState demoProxy = Running /\ mProxyState demoPaused = Paused.
Proof.
  assert (E : steer demoEnv [false; true; true] demoProxy = Ok demoPaused)
    by (vm_compute; reflexivity).
  split; [exact E|]. split; [reflexivity|].
  apply (proj1 (proj2 (resume_never_resumes demoEnv _ _ _ E)) eq_refl).
  intros X. vm_compute in X. discriminate X.
Defined.

Lemma stop_after_pause_blocks_witness :
  exists r l,
    steer demoEnv [false] demoProxy = Ok demoPaused /\
    stop demoEnv demoPaused = Ok (r, l) /\ mProxyThread r = JoinBlocks.
Proof.
  destruct (stop demoEnv demoPaused) as [[r l]|e|] eqn:St.
  - exists r, l. split; [reflexivity|]. split; [reflexivity|].
    assert (Hs : forall a, ZSend a ∉ mCommandSocket demoProxy).
    { intros a I. change (ZSend a ∈ [ZSetInt "linger" 0; ZConnect (mControlAddress demoProxy)]) in I.
      apply elem_of_cons in I as [I|I]; [discriminate I|].
      apply list_elem_of_singleton in I. discriminate I. }
    destruct (stop_after_pause_blocks demoEnv [false] demoProxy demoPaused r l demoEnv_pattern
                eq_refl eq_refl Hs eq_refl St) as [(X & _)|(_ & _ & J & _)].
    + discriminate X.
    + exact J.
  - vm_compute in St. discriminate St.
  - vm_compute in St. discriminate St.
Defined.
