(* ===== verification/SeedLink.v ===== *)
(** * The SEEDLink client

    broadcasts/dataPacket/seedLink: streamSelector.cpp, clientOptions.cpp and
    client.cpp.  libmseed and libslink are parameters: what [msr3_parse] finds
    at an offset of the buffer, what [sl_collect] returns on each pass of the
    polling loop, and the return codes of the calls that configure the
    connection. *)
From Stdlib Require Import ZArith Ascii String SpecFloat Lia.
From stdpp Require Import base tactics list gmap strings pretty.
From S2P Require Import Prelude Float64 Interfaces DataPacket Broadcast.

Open Scope string_scope.
Open Scope Z_scope.

(** ** Stream selectors *)
Module StreamSelector.
Inductive Type_ := All | Data | Event | Calibration | Blockette | Timing | Log.
#[global] Instance Type_eq_dec : EqDecision Type_.
Proof. solve_decision. Defined.

Record StreamSelectorImpl := mk {
  mNetwork : string;
  mStation : string;
  mChannel : string;
  mLocationCode : string;
  mType : Type_
}.
#[global] Instance impl_eq_dec : EqDecision StreamSelectorImpl.
Proof. solve_decision. Defined.

Definition new : StreamSelectorImpl := mk "" "*" "" "" All.
Definition clear (s : StreamSelectorImpl) : StreamSelectorImpl := new.

Definition setNetwork (network : string) (s : StreamSelectorImpl)
    : outcome StreamSelectorImpl :=
  throw_if (negb (Nat.eqb (String.length network) 2)) (InvalidArgument "Network size must 2");;
  Ok (mk (str_map toupper network) (mStation s) (mChannel s) (mLocationCode s) (mType s)).
Definition haveNetwork (s : StreamSelectorImpl) : bool := negb (str_empty (mNetwork s)).
Definition getNetwork (s : StreamSelectorImpl) : outcome string :=
  throw_if (negb (haveNetwork s)) (RuntimeError "Network not set");; Ok (mNetwork s).

Definition setStation (station : string) (s : StreamSelectorImpl)
    : outcome StreamSelectorImpl :=
  throw_if (str_empty station) (InvalidArgument "Station is empty");;
  Ok (mk (mNetwork s) (str_map toupper station) (mChannel s) (mLocationCode s) (mType s)).
Definition getStation (s : StreamSelectorImpl) : string := mStation s.

Definition setSelector (channel locationCode : string) (type : Type_)
    (s : StreamSelectorImpl) : StreamSelectorImpl :=
  mk (mNetwork s) (mStation s) channel locationCode type.

(** Location code and channel; empty when neither is set. *)
Definition locationChannel (s : StreamSelectorImpl) : string :=
  if str_empty (mLocationCode s) && str_empty (mChannel s) then ""
  else
    let locationChannel := if str_empty (mLocationCode s) then "??" else mLocationCode s in
    if str_empty (mChannel s) then locationChannel +:+ "*"
    else locationChannel +:+ mChannel s.

(** The letter of a type other than [All]. *)
Definition letter (t : Type_) : string :=
  match t with
  | All => "*" | Data => "D" | Timing => "T" | Log => "L" | Event => "E"
  | Blockette => "B" | Calibration => "C"
  end.

Definition getSelector (s : StreamSelectorImpl) : string :=
  let lc := locationChannel s in
  match mType s with
  | All => if str_empty lc then "" else lc +:+ mChannel s +:+ ".*"
  | t => if str_empty lc then "*." +:+ letter t else lc +:+ "." +:+ letter t
  end.
End StreamSelector.
Import StreamSelector (StreamSelectorImpl).

(** ** Client options *)
Module ClientOptions.
Record ClientOptionsImpl := mk {
  mAddress : string;
  mStateFile : string;
  mSelectors : list StreamSelectorImpl;
  mNetworkTimeOut : Z;        (* seconds *)
  mNetworkDelay : Z;          (* seconds *)
  mSEEDRecordSize : Z;
  mMaxQueueSize : Z;
  mStateFileInterval : Z;     (* uint16_t *)
  mPort : Z                   (* uint16_t *)
}.

Definition new : ClientOptionsImpl :=
  mk "rtserve.iris.washington.edu" "" [] 600 30 512 8192 100 18000.
Definition clear (o : ClientOptionsImpl) : ClientOptionsImpl := new.

Definition setAddress (address : string) (o : ClientOptionsImpl)
    : outcome ClientOptionsImpl :=
  throw_if (str_empty address) (InvalidArgument "Address is empty");;
  Ok (mk address (mStateFile o) (mSelectors o) (mNetworkTimeOut o) (mNetworkDelay o)
        (mSEEDRecordSize o) (mMaxQueueSize o) (mStateFileInterval o) (mPort o)).
Definition getAddress (o : ClientOptionsImpl) : string := mAddress o.

Definition setPort (port : Z) (o : ClientOptionsImpl) : ClientOptionsImpl :=
  mk (mAddress o) (mStateFile o) (mSelectors o) (mNetworkTimeOut o) (mNetworkDelay o)
     (mSEEDRecordSize o) (mMaxQueueSize o) (mStateFileInterval o) port.
Definition getPort (o : ClientOptionsImpl) : Z := mPort o.

(** [parent] is the parent path of the file name, [exists_] and [create]
    are the calls on the file system. *)
Definition setStateFile (parent : string -> string) (exists_ create : string -> bool)
    (stateFileName : string) (o : ClientOptionsImpl) : outcome ClientOptionsImpl :=
  let with_file f :=
    mk (mAddress o) f (mSelectors o) (mNetworkTimeOut o) (mNetworkDelay o)
       (mSEEDRecordSize o) (mMaxQueueSize o) (mStateFileInterval o) (mPort o) in
  if str_empty stateFileName then Ok (with_file "")
  else
    let parentPath := parent stateFileName in
    (if negb (str_empty parentPath) && negb (exists_ parentPath) then
       throw_if (negb (create parentPath)) (RuntimeError "Failed to create state file path")
     else Ok tt);;
    Ok (with_file stateFileName).
Definition haveStateFile (o : ClientOptionsImpl) : bool := negb (str_empty (mStateFile o)).
Definition getStateFile (o : ClientOptionsImpl) : outcome string :=
  throw_if (negb (haveStateFile o)) (RuntimeError "State file not set");; Ok (mStateFile o).

Definition setStateFileUpdateInterval (interval : Z) (o : ClientOptionsImpl)
    : ClientOptionsImpl :=
  mk (mAddress o) (mStateFile o) (mSelectors o) (mNetworkTimeOut o) (mNetworkDelay o)
     (mSEEDRecordSize o) (mMaxQueueSize o) interval (mPort o).
Definition getStateFileUpdateInterval (o : ClientOptionsImpl) : Z := mStateFileInterval o.

Definition setSEEDRecordSize (recordSize : Z) (o : ClientOptionsImpl)
    : outcome ClientOptionsImpl :=
  throw_if (negb (recordSize =? 512) && negb (recordSize =? 256) && negb (recordSize =? 128))
    (InvalidArgument ("Record size " +:+ pretty recordSize
                      +:+ " is invalid.  Can only use 128, 256, or 512"));;
  Ok (mk (mAddress o) (mStateFile o) (mSelectors o) (mNetworkTimeOut o) (mNetworkDelay o)
        recordSize (mMaxQueueSize o) (mStateFileInterval o) (mPort o)).
Definition getSEEDRecordSize (o : ClientOptionsImpl) : Z := mSEEDRecordSize o.

Definition setMaximumInternalQueueSize (maxSize : Z) (o : ClientOptionsImpl)
    : outcome ClientOptionsImpl :=
  throw_if (maxSize <? 1) (InvalidArgument "Maximum internal queue size must be postive");;
  Ok (mk (mAddress o) (mStateFile o) (mSelectors o) (mNetworkTimeOut o) (mNetworkDelay o)
        (mSEEDRecordSize o) maxSize (mStateFileInterval o) (mPort o)).
Definition getMaximumInternalQueueSize (o : ClientOptionsImpl) : Z := mMaxQueueSize o.

Definition setNetworkTimeOut (timeOut : Z) (o : ClientOptionsImpl)
    : outcome ClientOptionsImpl :=
  throw_if (timeOut <? 0) (InvalidArgument "Network time-out cannot be negative");;
  Ok (mk (mAddress o) (mStateFile o) (mSelectors o) timeOut (mNetworkDelay o)
        (mSEEDRecordSize o) (mMaxQueueSize o) (mStateFileInterval o) (mPort o)).
Definition getNetworkTimeOut (o : ClientOptionsImpl) : Z := mNetworkTimeOut o.

Definition setNetworkReconnectDelay (delay : Z) (o : ClientOptionsImpl)
    : outcome ClientOptionsImpl :=
  throw_if (delay <? 0) (InvalidArgument "Network delay cannot be negative");;
  Ok (mk (mAddress o) (mStateFile o) (mSelectors o) (mNetworkTimeOut o) delay
        (mSEEDRecordSize o) (mMaxQueueSize o) (mStateFileInterval o) (mPort o)).
Definition getNetworkReconnectDelay (o : ClientOptionsImpl) : Z := mNetworkDelay o.

(** [mySelector.getNetwork() == selector.getNetwork() && ...] *)
Definition sameSelector (a b : StreamSelectorImpl) : outcome bool :=
  na ← StreamSelector.getNetwork a;
  nb ← StreamSelector.getNetwork b;
  Ok (bool_decide (na = nb) &&
      bool_decide (StreamSelector.getStation a = StreamSelector.getStation b) &&
      bool_decide (StreamSelector.getSelector a = StreamSelector.getSelector b)).

Fixpoint checkDuplicate (l : list StreamSelectorImpl) (selector : StreamSelectorImpl)
    : outcome unit :=
  match l with
  | [] => Ok tt
  | mySelector :: l' =>
      same ← sameSelector mySelector selector;
      throw_if same (InvalidArgument "Duplicate selector");;
      checkDuplicate l' selector
  end.

Definition addStreamSelector (selector : StreamSelectorImpl) (o : ClientOptionsImpl)
    : outcome ClientOptionsImpl :=
  throw_if (negb (StreamSelector.haveNetwork selector)) (InvalidArgument "Network not set");;
  checkDuplicate (mSelectors o) selector;;
  Ok (mk (mAddress o) (mStateFile o) (mSelectors o ++ [selector])%list (mNetworkTimeOut o)
        (mNetworkDelay o) (mSEEDRecordSize o) (mMaxQueueSize o) (mStateFileInterval o)
        (mPort o)).
Definition getStreamSelectors (o : ClientOptionsImpl) : list StreamSelectorImpl :=
  mSelectors o.
End ClientOptions.
Import ClientOptions (ClientOptionsImpl).

(** ** miniSEED *)

(** What [ms_sid2nslc] makes of the source identifier: the return code
    and the four codes. *)
Record nslc := mkNslc {
  sidReturnCode : Z;
  sidNetwork : string;
  sidStation : string;
  sidLocation : string;
  sidChannel : string
}.

Record MS3Record := mkRecord {
  sid : nslc;
  samprate : double;
  starttime : Z;              (* nanoseconds *)
  numsamples : Z;
  sampletype : ascii;
  datasamples : option samples;
  reclen : Z
}.

Definition MS_NOERROR : Z := 0.

(** The return code of [msr3_parse] and the record, where one was made. *)
Definition parsed : Type := Z * option MS3Record.

(** The double 1.e-3. *)
Definition d_milli : double := S754_finite false 4611686018427388 (-62).

(** [locationWork] as the code rewrites it. *)
Definition fixLocation (work : string) : string :=
  let location := if str_empty work then "--" else work in
  if bool_decide (String.substring 0 2 location = "  ") then "--" else location.

(** The type of the samples a record announces. *)
Definition recordSamples (r : MS3Record) (nSamples : Z) (dataPacket : DataPacketImpl)
    : outcome DataPacketImpl :=
  if 0 <? nSamples then
    if bool_decide (sampletype r = "i"%char) || bool_decide (sampletype r = "f"%char) ||
       bool_decide (sampletype r = "d"%char)
    then setDataPointer nSamples (datasamples r) dataPacket
    else Throw (RuntimeError "Unhandled sample type")
  else Ok dataPacket.

(** One record. *)
Definition recordToPacket (r : MS3Record) : outcome DataPacketImpl :=
  let location := fixLocation (sidLocation (sid r)) in
  throw_if (negb (sidReturnCode (sid r) =? MS_NOERROR)) (RuntimeError "Failed to unpack SNCL");;
  dataPacket ← setNetwork (sidNetwork (sid r)) newPacket;
  dataPacket ← setStation (sidStation (sid r)) dataPacket;
  dataPacket ← setChannel (sidChannel (sid r)) dataPacket;
  dataPacket ← setLocationCode location dataPacket;
  dataPacket ← setSamplingRate (samprate r) dataPacket;
  startTime ← d_to_i64 (std_round (d_mul (d_of_Z (starttime r)) d_milli));
  dataPacket ← setStartTime startTime dataPacket;
  let nSamples := wrap_i32 (numsamples r) in
  recordSamples r nSamples dataPacket.

Section miniSEED.
Context (MINRECLEN : Z).

(** The loop, from an offset, for at most [fuel] records; [parse] is
    [msr3_parse] at an offset of the buffer, given the bytes left. *)
Fixpoint unpackRecords (fuel : nat) (parse : Z -> Z -> parsed) (bufferLength offset : Z)
    : option (outcome (list DataPacketImpl)) :=
  if wrap_u64 (bufferLength - offset) <=? MINRECLEN then Some (Ok [])
  else
    match fuel with
    | O => None
    | S fuel =>
        match parse offset (wrap_u64 (bufferLength - offset)) with
        | (returnCode, Some r) =>
            if returnCode =? MS_NOERROR then
              match recordToPacket r with
              | Ok dataPacket =>
                  match unpackRecords fuel parse bufferLength (wrap_u64 (offset + reclen r)) with
                  | Some rest => Some (ps ← rest; Ok (dataPacket :: ps))
                  | None => None
                  end
              | Throw e => Some (Throw e)
              | Undef => Some Undef
              end
            else Some (Throw (RuntimeError "libmseed error detected"))
        | (returnCode, None) =>
            if negb (returnCode =? MS_NOERROR)
            then Some (Throw (RuntimeError "libmseed error detected"))
            else Some (Throw (RuntimeError
                   ("Insufficient data.  Number of additional bytes estimated is "
                    +:+ pretty returnCode)))
        end
    end.

(** Fuel for one record per byte. *)
Definition miniSEEDToDataPackets (parse : Z -> Z -> parsed) (bufferSize : Z)
    : option (outcome (list DataPacketImpl)) :=
  let bufferLength := wrap_u64 bufferSize in
  unpackRecords (Z.to_nat bufferLength) parse bufferLength 0.
End miniSEED.

(** ** The client *)
Module Client.
(** [SLCD]: the streams added, the all-station mode, the terminate flag and
    the server address. *)
Record SLCD := mkSLCD {
  serverAddress : string;
  streams : list (string * string);
  allStations : bool;
  slTerminate : bool;
  idleTimeOut : Z;
  reconnectDelay : Z
}.

(** What the library answers while a client is configured: return codes, and
    the fields of the connection that the code reads back. *)
Record SLEnv := mkSLEnv {
  sl_link : Z;                           (* [link] of the old connection *)
  sl_initslcd : bool;                    (* not null *)
  sl_set_serveraddress : string -> Z;
  sl_add_stream : string -> string -> Z;
  sl_set_allstation_params : Z;
  sl_noblock : Z;                        (* [noblock] after [sl_set_blockingmode] *)
  sl_dialup : Z;                         (* [dialup] after [sl_set_dialupmode] *)
  sl_ping : Z
}.

(** The calls that end a connection. *)
Inductive slCall := SlDisconnect | SlSaveState (stateFile : string) | SlFree.

Record ClientImpl := mk {
  mSEEDLinkConnection : option SLCD;
  readerThread : bool;                   (* joinable *)
  mOptions : ClientOptionsImpl;
  mStateFile : string;
  mKeepRunning : bool;
  mConnected : bool;
  mStateFileUpdateInterval : Z;
  mSEEDRecordSize : Z;
  mHaveOptions : bool;
  mUseStateFile : bool;
  mInitialized : bool;
  slCalls : list slCall                  (* made by [disconnect], oldest first *)
}.

Definition fresh : ClientImpl :=
  mk None false ClientOptions.new "" true false 100 512 false false false [].

Definition with_connection (c : option SLCD) (p : ClientImpl) : ClientImpl :=
  mk c (readerThread p) (mOptions p) (mStateFile p) (mKeepRunning p) (mConnected p)
     (mStateFileUpdateInterval p) (mSEEDRecordSize p) (mHaveOptions p) (mUseStateFile p)
     (mInitialized p) (slCalls p).
Definition with_calls (l : list slCall) (p : ClientImpl) : ClientImpl :=
  mk (mSEEDLinkConnection p) (readerThread p) (mOptions p) (mStateFile p) (mKeepRunning p)
     (mConnected p) (mStateFileUpdateInterval p) (mSEEDRecordSize p) (mHaveOptions p)
     (mUseStateFile p) (mInitialized p) l.
Definition with_flags (thread keep connected : bool) (p : ClientImpl) : ClientImpl :=
  mk (mSEEDLinkConnection p) thread (mOptions p) (mStateFile p) keep connected
     (mStateFileUpdateInterval p) (mSEEDRecordSize p) (mHaveOptions p) (mUseStateFile p)
     (mInitialized p) (slCalls p).
Definition with_init (o : ClientOptionsImpl) (haveOptions initialized : bool)
    (p : ClientImpl) : ClientImpl :=
  mk (mSEEDLinkConnection p) (readerThread p) o (mStateFile p) (mKeepRunning p)
     (mConnected p) (mStateFileUpdateInterval p) (mSEEDRecordSize p) haveOptions
     (mUseStateFile p) initialized (slCalls p).
Definition with_state_file (size : Z) (file : option (string * Z)) (p : ClientImpl)
    : ClientImpl :=
  match file with
  | Some (f, i) =>
      mk (mSEEDLinkConnection p) (readerThread p) (mOptions p) f (mKeepRunning p)
         (mConnected p) i size (mHaveOptions p) true (mInitialized p) (slCalls p)
  | None =>
      mk (mSEEDLinkConnection p) (readerThread p) (mOptions p) (mStateFile p)
         (mKeepRunning p) (mConnected p) (mStateFileUpdateInterval p) size
         (mHaveOptions p) (mUseStateFile p) (mInitialized p) (slCalls p)
  end.

(** [link] is the field of the connection when it is read: the library's
    socket, which the library opens and closes, or -1. *)
Definition disconnect (link : Z) (p : ClientImpl) : ClientImpl :=
  let calls :=
    match mSEEDLinkConnection p with
    | None => []
    | Some _ =>
        (if negb (link =? -1) then [SlDisconnect] else [])
        ++ (if mUseStateFile p then [SlSaveState (mStateFile p)] else [])
        ++ [SlFree]
    end%list in
  with_calls (slCalls p ++ calls)%list (with_connection None p).

Definition terminate (p : ClientImpl) : ClientImpl :=
  match mSEEDLinkConnection p with
  | None => p
  | Some c =>
      with_connection (Some (mkSLCD (serverAddress c) (streams c) (allStations c) true
                               (idleTimeOut c) (reconnectDelay c))) p
  end.

Definition setRunning (running : bool) (p : ClientImpl) : ClientImpl :=
  let p := if negb running && mKeepRunning p then terminate p else p in
  with_flags (readerThread p) running (mConnected p) p.

(** Joining waits for the reader; leaving, it clears [mConnected]. *)
Definition stop (p : ClientImpl) : ClientImpl :=
  let p := setRunning false p in
  with_flags false (mKeepRunning p) (if readerThread p then false else mConnected p) p.

(** The destructor of the implementation. *)
Definition destructor (link : Z) (p : ClientImpl) : ClientImpl := disconnect link (stop p).

(** Whatever its state, a client that is destroyed leaves no reader and no
    connection behind.  The connection it had is freed once, last, after the
    socket was closed, where there was one, and the state saved, where a state
    file is used. *)
Lemma destructor_closes link p :
  readerThread (destructor link p) = false /\ mSEEDLinkConnection (destructor link p) = None /\
  mKeepRunning (destructor link p) = false /\
  exists calls, slCalls (destructor link p) = (slCalls p ++ calls)%list /\
    (mSEEDLinkConnection p = None -> calls = []) /\
    (is_Some (mSEEDLinkConnection p) ->
       exists before, calls = (before ++ [SlFree])%list /\ ~ (SlFree ∈ before) /\
         (SlDisconnect ∈ before <-> link <> -1) /\
         forall file, SlSaveState file ∈ before <->
                      mUseStateFile p = true /\ file = mStateFile p).
Proof.
  assert (K : forall q, stop p = q ->
    readerThread q = false /\ mKeepRunning q = false /\ slCalls q = slCalls p /\
    mUseStateFile q = mUseStateFile p /\ mStateFile q = mStateFile p /\
    (mSEEDLinkConnection q = None <-> mSEEDLinkConnection p = None)).
  { intros q <-. unfold stop, setRunning, terminate.
    destruct (mKeepRunning p); simpl; [|done]. by destruct (mSEEDLinkConnection p) eqn:E; simpl; rewrite ?E. }
  unfold destructor, disconnect. destruct (K _ eq_refl) as (K1 & K2 & K3 & K4 & K5 & K6).
  clear K. generalize dependent (stop p). intros q K1 K2 K3 K4 K5 K6. simpl.
  rewrite K3, K4, K5.
  do 3 (split; [done|]). eexists. split; [done|]. split; [by intros ->%K6|].
  intros [c Ec]. destruct (mSEEDLinkConnection q) as [d|]; [|by rewrite (proj1 K6 eq_refl) in Ec].
  eexists (_ ++ _)%list. rewrite (assoc_L app). split; [done|].
  destruct (Z.eqb_spec link (-1)); destruct (mUseStateFile p); simpl;
  (split; [set_solver|]); (split; [set_solver|]); intros f; set_solver.
Qed.

(** An exception leaves the client stopped. *)
Definition startImpl (p : ClientImpl) : ClientImpl * outcome unit :=
  let p := stop p in
  if negb (mInitialized p)
  then (p, Throw (RuntimeError "SEEDLink client not initialized"))
  else
    let p := setRunning true p in
    match mSEEDLinkConnection p with
    | None => (p, Undef)
    | Some c =>
        let p := with_connection
                   (Some (mkSLCD (serverAddress c) (streams c) (allStations c) false
                            (idleTimeOut c) (reconnectDelay c))) p in
        (with_flags true (mKeepRunning p) (mConnected p) p, Ok tt)
    end.

Section library.
Context (sl : SLEnv) (ndebug : bool).

(** One selector: added, or skipped with a warning. *)
Definition addSelector (acc : list (string * string) * list line)
    (selector : StreamSelectorImpl) : list (string * string) * list line :=
  let '(added, ls) := acc in
  match StreamSelector.getNetwork selector with
  | Ok network =>
      let station := StreamSelector.getStation selector in
      let stationID := network +:+ "_" +:+ station in
      let streamSelector := StreamSelector.getSelector selector in
      if sl_add_stream sl stationID streamSelector =? 0
      then ((added ++ [(stationID, streamSelector)])%list, ls)
      else (added, ls ++ [Warn ("Could not add selector because Failed to add selector: "
                           +:+ network +:+ " " +:+ station +:+ " " +:+ streamSelector)])%list
  | Throw e => (added, ls ++ [Warn ("Could not add selector because " +:+ what e)])%list
  | Undef => acc
  end.

(** [initialize]; the client is returned with the exception, if any.  The
    assertions that the two modes were set are in debug builds only, as is the
    ping. *)
Definition initialize (options : ClientOptionsImpl) (p : ClientImpl)
    : ClientImpl * outcome unit :=
  let p := with_init (mOptions p) false false
             (disconnect (sl_link sl) (with_init (mOptions p) false (mInitialized p) p)) in
  if negb (sl_initslcd sl)
  then (p, Throw (RuntimeError "Failed to create client handle"))
  else
    let address := ClientOptions.getAddress options +:+ ":"
                   +:+ pretty (ClientOptions.getPort options) in
    let connect ss all idle delay q :=
      with_connection (Some (mkSLCD address ss all false idle delay)) q in
    let p := connect [] false 0 0 p in
    if negb (sl_set_serveraddress sl address =? 0)
    then (p, Throw (InvalidArgument ("Failed to set server address " +:+ address)))
    else
      let p := with_state_file (ClientOptions.getSEEDRecordSize options)
                 (match ClientOptions.getStateFile options with
                  | Ok f => Some (f, ClientOptions.getStateFileUpdateInterval options)
                  | _ => None
                  end) p in
      let '(added, _) := foldl addSelector ([], [])
                           (ClientOptions.getStreamSelectors options) in
      let p := connect added false 0 0 p in
      if bool_decide (added = []) && negb (sl_set_allstation_params sl =? 0)
      then (p, Throw (RuntimeError "Failed to create a SEEDLink uni-station client"))
      else if negb ndebug && negb (sl_noblock sl =? 1) then (p, Undef)
      else if negb ndebug && negb (sl_dialup sl =? 0) then (p, Undef)
      else
        let p := connect added (bool_decide (added = []))
                   (wrap_i32 (ClientOptions.getNetworkTimeOut options))
                   (wrap_i32 (ClientOptions.getNetworkReconnectDelay options)) p in
        if negb ndebug && negb (sl_ping sl =? 0) && negb (sl_ping sl =? -1)
        then (p, Throw (RuntimeError "Failed to connect"))
        else (with_init options true true p, Ok tt).

(** The public operations. *)
Definition newClient (options : ClientOptionsImpl) : outcome ClientImpl :=
  let '(p, r) := initialize options fresh in r;; Ok p.

Definition connect (p : ClientImpl) : ClientImpl * outcome unit :=
  if negb (mHaveOptions p)
  then (p, Throw (RuntimeError "SEEDLink client not initialized"))
  else let p := stop p in initialize (mOptions p) p.
End library.

Definition isInitialized (p : ClientImpl) : bool := mInitialized p.
Definition isConnected (p : ClientImpl) : bool := mConnected p.

Definition start (p : ClientImpl) : ClientImpl * outcome unit :=
  if negb (isInitialized p)
  then (p, Throw (RuntimeError "SEEDLink client not initialized"))
  else startImpl p.

(** *** The polling loop *)

(** What a pass of [sl_collect] returns. *)
Inductive collected :=
  | SLPACKET (isMiniSEED : bool) (payloadlength : Z) (parse : Z -> Z -> parsed)
  | SLTOOLARGE
  | SLNOPACKET
  | SLTERMINATE
  | SLOTHER (code : Z).

Section polling.
Context (MINRECLEN : Z) {S : Type} (mAddPacketFunction : DataPacketImpl -> S -> S * outcome unit).

(** [for (auto &packet : packets) { try { callback(packet) } catch ... }] *)
Fixpoint propagate (packets : list DataPacketImpl) (s : S) : outcome (S * list line) :=
  match packets with
  | [] => Ok (s, [])
  | packet :: packets' =>
      let '(s, r) := mAddPacketFunction packet s in
      match r with
      | Undef => Undef
      | Ok _ => propagate packets' s
      | Throw e =>
          '(s, l) ← propagate packets' s;
          Ok (s, Warn ("Failed to propagate packet because " +:+ what e) :: l)
      end
  end.

Record polling := mkPolling {
  client : ClientImpl;
  updateStateFile : Z;
  savedStates : nat          (* calls of [sl_savestate] *)
}.

(** After a miniSEED payload, where a state file is used. *)
Definition countStateFile (w : polling) : polling :=
  if mUseStateFile (client w) then
    if mStateFileUpdateInterval (client w) <? updateStateFile w
    then mkPolling (client w) (0 + 1) (savedStates w + 1)
    else mkPolling (client w) (updateStateFile w + 1) (savedStates w)
  else w.

(** One pass; true says the loop goes on. *)
Definition pollStep (e : collected) (w : polling) (s : S)
    : option (outcome (polling * S * list line * bool)) :=
  match e with
  | SLPACKET true payloadlength parse =>
      packets ← miniSEEDToDataPackets MINRECLEN parse payloadlength;
      Some (match packets with
            | Ok ps => '(s, l) ← propagate ps s; Ok (countStateFile w, s, l, true)
            | Throw e =>
                Ok (countStateFile w, s,
                    [Warn ("Skipping packet.  Unpacking failed with: " +:+ what e)], true)
            | Undef => Undef
            end)
  | SLPACKET false _ _ => Some (Ok (w, s, [], true))
  | SLTOOLARGE => Some (Ok (w, s, [Warn "Payload too large"], true))
  | SLNOPACKET => Some (Ok (w, s, [], true))
  | SLTERMINATE =>
      Some (Ok (mkPolling (with_flags (readerThread (client w)) (mKeepRunning (client w))
                             false (client w)) (updateStateFile w) (savedStates w), s,
                [Info "SEEDLink terminate request received"], false))
  | SLOTHER code =>
      Some (Ok (w, s, [Warn ("Unhandled SEEDLink return value: " +:+ pretty code)], true))
  end.

(** [packetToCallback] over the passes until it ends. *)
Fixpoint pollLoop (es : list collected) (w : polling) (s : S)
    : option (outcome (polling * S)) :=
  match es with
  | [] => Some (Ok (w, s))
  | e :: es' =>
      if negb (mKeepRunning (client w)) then Some (Ok (w, s))
      else
        r ← pollStep e w s;
        match r with
        | Ok (w, s, _, true) => pollLoop es' w s
        | Ok (w, s, _, false) => Some (Ok (w, s))
        | Throw e => Some (Throw e)
        | Undef => Some Undef
        end
  end.

Definition packetToCallback (es : list collected) (p : ClientImpl) (s : S)
    : option (outcome (ClientImpl * S)) :=
  let p := with_flags (readerThread p) (mKeepRunning p) true p in
  r ← pollLoop es (mkPolling p 1 0) s;
  Some ('(w, s) ← r;
        Ok (with_flags (readerThread (client w)) (mKeepRunning (client w)) false (client w),
            s)).
End polling.
End Client.

(** ** Properties *)

(** *** Selectors *)
Import ClientOptions.

(** The key under which two selectors are duplicates. *)
Definition selectorKey (s : StreamSelectorImpl) : string * string * string :=
  (StreamSelector.mNetwork s, StreamSelector.mStation s, StreamSelector.getSelector s).

Lemma checkDuplicate_ok l s u :
  Forall (fun x => StreamSelector.haveNetwork x = true) l ->
  StreamSelector.haveNetwork s = true ->
  checkDuplicate l s = Ok u <-> selectorKey s ∉ (selectorKey <$> l).
Proof.
  intros F Hs. destruct u. induction F as [|x l Hx F IH]; simpl.
  - split; [|done]. intros _. apply not_elem_of_nil.
  - rewrite not_elem_of_cons, <- IH. clear IH.
    unfold sameSelector, StreamSelector.getNetwork, StreamSelector.getStation, selectorKey.
    rewrite Hx, Hs. simpl.
    destruct (bool_decide_reflect (StreamSelector.mNetwork x = StreamSelector.mNetwork s));
    destruct (bool_decide_reflect (StreamSelector.mStation x = StreamSelector.mStation s));
    destruct (bool_decide_reflect (StreamSelector.getSelector x = StreamSelector.getSelector s));
    simpl; (split; [intros E; try discriminate E; split; first [exact E|congruence]
                   |intros [N E]; first [exact E|exfalso; congruence]]).
Qed.

(** The selectors all have a network, and no two have the same key. *)
Definition selectors_ok (o : ClientOptionsImpl) : Prop :=
  Forall (fun x => StreamSelector.haveNetwork x = true) (mSelectors o) /\
  NoDup (selectorKey <$> mSelectors o).

Definition addAll (l : list StreamSelectorImpl) (o : ClientOptionsImpl)
    : outcome ClientOptionsImpl :=
  foldl (fun acc s => o ← acc; addStreamSelector s o) (Ok o) l.

Lemma addAll_fail l m : is_ok m = false ->
  is_ok (foldl (fun acc s => o ← acc; addStreamSelector s o) m l) = false.
Proof. revert m. induction l as [|s l IH]; intros m Hm; simpl; [done|]. apply IH. by destruct m. Qed.

Lemma addStreamSelector_ok s o o' :
  selectors_ok o -> addStreamSelector s o = Ok o' ->
  selectors_ok o' /\ mSelectors o' = (mSelectors o ++ [s])%list.
Proof.
  intros [F N] ([] & Hs%throw_if_ok & ([] & Hd & [= <-])%bind_ok)%bind_ok.
  apply negb_false_iff in Hs. apply (checkDuplicate_ok _ _ _ F Hs) in Hd.
  split; [|done]. split; simpl.
  - apply Forall_app. split; [done|]. by apply Forall_singleton.
  - rewrite fmap_app. apply NoDup_app. split; [done|]. split; [|apply NoDup_singleton].
    simpl. intros x Hx ->%list_elem_of_singleton. done.
Qed.

(** C21: adding selectors keeps them distinct: after any successful sequence
    of additions the options hold exactly the selectors added, in order, each
    with a network and no two with the same network, station and selector;
    and the next one is refused exactly when it has no network or repeats
    one. *)
Theorem selectors_distinct l o s :
  addAll l ClientOptions.new = Ok o ->
  getStreamSelectors o = l /\ selectors_ok o /\
  (is_ok (addStreamSelector s o) = true <->
   StreamSelector.haveNetwork s = true /\ selectorKey s ∉ (selectorKey <$> l)).
Proof.
  intros E.
  assert (P : forall l o0 o, selectors_ok o0 -> addAll l o0 = Ok o ->
                selectors_ok o /\ mSelectors o = (mSelectors o0 ++ l)%list).
  { clear. unfold addAll. intros l. induction l as [|x l IH]; intros o0 o S; simpl.
    - intros [= <-]. by rewrite app_nil_r.
    - intros E. destruct (addStreamSelector x o0) as [o1|e|] eqn:E1.
      + apply (addStreamSelector_ok _ _ _ S) in E1 as [S1 M1].
        apply (IH _ _ S1) in E as [So Mo]. split; [done|]. by rewrite Mo, M1, <- (assoc_L app).
      + pose proof (addAll_fail l (Throw e) eq_refl) as N. by rewrite E in N.
      + pose proof (addAll_fail l Undef eq_refl) as N. by rewrite E in N. }
  assert (S0 : selectors_ok ClientOptions.new) by (split; constructor).
  destruct (P l _ o S0 E) as [S M]. simpl in M. unfold getStreamSelectors.
  split; [done|]. split; [done|]. unfold addStreamSelector.
  destruct (StreamSelector.haveNetwork s) eqn:Hs; simpl; [|split; [done|by intros [? _]]].
  destruct S as [F N]. rewrite <- M, <- (checkDuplicate_ok _ _ tt F Hs).
  destruct (checkDuplicate (mSelectors o) s) as [[]| |]; simpl; (split; [|intros [_ ?]]); done.
Qed.

(** Two selectors of network UU, all channels and HHZ. *)
Definition demoSelectors : list StreamSelectorImpl :=
  [StreamSelector.mk "UU" "FORK" "" "" StreamSelector.All;
   StreamSelector.mk "UU" "FORK" "HHZ" "01" StreamSelector.Data].
Definition demoSelectorOptions : ClientOptionsImpl :=
  match addAll demoSelectors ClientOptions.new with Ok o => o | _ => ClientOptions.new end.

Lemma selectors_distinct_witness :
  addAll demoSelectors ClientOptions.new = Ok demoSelectorOptions /\
  getStreamSelectors demoSelectorOptions = demoSelectors /\
  is_ok (addStreamSelector (StreamSelector.mk "UU" "FORK" "HHZ" "01" StreamSelector.Data)
           demoSelectorOptions) <> true.
Proof.
  assert (E : addAll demoSelectors ClientOptions.new = Ok demoSelectorOptions)
    by (vm_compute; reflexivity).
  split; [exact E|].
  destruct (selectors_distinct demoSelectors demoSelectorOptions
              (StreamSelector.mk "UU" "FORK" "HHZ" "01" StreamSelector.Data) E) as (G & _ & A).
  split; [exact G|]. intros X%A. destruct X as [_ X]. apply X. right. left.
Defined.

(** A selector of every type but All is the location code (?? if not
    set), the channel (a star if not set) and the letter of the type; of type
    All it has the channel twice, so that with a channel it names another
    one. *)
Theorem selector_text s :
  let loc := if str_empty (StreamSelector.mLocationCode s) then "??"
             else StreamSelector.mLocationCode s in
  let chan := if str_empty (StreamSelector.mChannel s) then "*"
              else StreamSelector.mChannel s in
  let type := StreamSelector.letter (StreamSelector.mType s) in
  StreamSelector.mLocationCode s <> "" \/ StreamSelector.mChannel s <> "" ->
  (StreamSelector.mType s <> StreamSelector.All \/ StreamSelector.mChannel s = "" ->
   StreamSelector.getSelector s = loc +:+ chan +:+ "." +:+ type) /\
  (StreamSelector.mType s = StreamSelector.All -> StreamSelector.mChannel s <> "" ->
   StreamSelector.getSelector s = loc +:+ chan +:+ chan +:+ "." +:+ type /\
   StreamSelector.getSelector s <> loc +:+ chan +:+ "." +:+ type).
Proof.
  destruct s as [n st ch lo t]; simpl. intros Hne.
  assert (L : StreamSelector.locationChannel (StreamSelector.mk n st ch lo t) =
              (if str_empty lo then "??" else lo) +:+ (if str_empty ch then "*" else ch)).
  { unfold StreamSelector.locationChannel. simpl.
    destruct ch as [|c ch]; destruct lo as [|l lo]; [by destruct Hne|done..]. }
  assert (N : str_empty (StreamSelector.locationChannel (StreamSelector.mk n st ch lo t)) = false)
    by (rewrite L; by destruct lo).
  unfold StreamSelector.getSelector. rewrite N, L. simpl. split.
  - intros Ht. destruct t; try (by rewrite str_app_assoc). destruct Ht as [?| ->]; [done|].
    by rewrite str_app_assoc.
  - intros -> Hc. rewrite str_app_assoc. replace (str_empty ch) with false by (by destruct ch).
    split; [done|]. intros E. apply (f_equal String.length) in E.
    autorewrite with us8 in E. destruct ch; [done|]. simpl in E. lia.
Qed.

Lemma selector_text_witness :
  StreamSelector.getSelector (StreamSelector.mk "UU" "FORK" "HHZ" "01" StreamSelector.All) =
    "01HHZHHZ.*" /\
  StreamSelector.getSelector (StreamSelector.mk "UU" "FORK" "HHZ" "01" StreamSelector.Data) =
    "01HHZ.D".
Proof.
  split.
  - refine (proj1 (proj2 (selector_text
      (StreamSelector.mk "UU" "FORK" "HHZ" "01" StreamSelector.All) _) eq_refl _));
    [left|]; discriminate.
  - refine (proj1 (selector_text
      (StreamSelector.mk "UU" "FORK" "HHZ" "01" StreamSelector.Data) _) _);
    left; discriminate.
Defined.

(** *** Unpacking miniSEED *)

Lemma setData_codes x p q : setData x p = Ok q -> codes q = codes p.
Proof.
  intros (r & Hr & Hq)%bind_ok. apply updateEndTime_keeps in Hq as (-> & _).
  unfold setDataImpl in Hr. destruct (Nat.eqb (samples_length x) 0); [by injection Hr as <-|].
  apply updateEndTime_keeps in Hr as (-> & _). by destruct x.
Qed.

Lemma setDataPointer_setData n x p q :
  setDataPointer n x p = Ok q -> exists y, setData y p = Ok q.
Proof.
  unfold setDataPointer. intros ([] & _ & E)%bind_ok. destruct x as [a|]; [|done].
  destruct (_ <? n); [done|]. eauto.
Qed.

(** The four codes of a packet are set. *)
Definition named (p : DataPacketImpl) : Prop :=
  haveNetwork p && haveStation p && haveChannel p && haveLocationCode p = true.

Lemma recordToPacket_sound r p :
  recordToPacket r = Ok p -> reachable p /\ named p.
Proof.
  intros ([] & _ & (p1 & E1 & (p2 & E2 & (p3 & E3 & (p4 & E4 & E)%bind_ok)%bind_ok)%bind_ok)%bind_ok)%bind_ok.
  apply bind_ok in E as (p5 & E5 & (t & _ & (p6 & E6 & E)%bind_ok)%bind_ok).
  destruct (header_setters _ _ _ _ _ _ _ _ _ _ _ _ E1 E2 E3 E4 E5 E6) as (R & _ & Hh).
  unfold recordSamples in E. destruct (0 <? wrap_i32 (numsamples r)).
  2:{ injection E as <-. split; [done|]. by apply Hh. }
  destruct (_ || _); [|done].
  split.
  - by apply (reachable_mutate (MSetDataPointer (wrap_i32 (numsamples r)) (datasamples r)) p6).
  - apply setDataPointer_setData in E as [y E]. apply setData_codes in E. by apply Hh.
Qed.

(** A location code that the records leave blank: empty, or beginning with two
    blanks. *)
Definition blankLocation (s : string) : bool := str_empty s || String.prefix "  " s.

(** The samples of a packet with their type. *)
Definition dataOf (p : DataPacketImpl)
    : DataType * list Z * list Z * list spec_float * list double :=
  (mDataType p, mInteger32Data p, mInteger64Data p, mFloatData p, mDoubleData p).

(** The packet [p] carries what the record [r] holds. *)
Record carries (r : MS3Record) (p : DataPacketImpl) : Prop := mkCarries {
  ca_network : mNetwork p = convertString (sidNetwork (sid r));
  ca_station : mStation p = convertString (sidStation (sid r));
  ca_channel : mChannel p = convertString (sidChannel (sid r));
  ca_location : mLocationCode p =
    if blankLocation (sidLocation (sid r)) then "--" else convertString (sidLocation (sid r));
  ca_rate : mSamplingRate p = samprate r;
  (* nanoseconds become microseconds *)
  ca_start : d_to_i64 (std_round (d_mul (d_of_Z (starttime r)) d_milli))
             = Ok (mStartTimeMicroSeconds p);
  (* as many samples as the record announces, of its type *)
  ca_data : let n := wrap_i32 (numsamples r) in
    if 0 <? n
    then exists a, datasamples r = Some a /\ n <= Z.of_nat (samples_length a) /\
                   dataOf p = dataOf (storeData (samples_take (Z.to_nat n) a) newPacket)
    else dataOf p = dataOf newPacket
}.

Lemma fixLocation_spec l :
  convertString (fixLocation l) = if blankLocation l then "--" else convertString l.
Proof.
  unfold fixLocation, blankLocation. destruct l as [|a l]; [done|].
  cbn -[ascii_dec String.substring convertString].
  destruct (ascii_dec " " a) as [<-|Na].
  2:{ rewrite bool_decide_eq_false_2; [done|]. intros [= ->]. by apply Na. }
  destruct l as [|b l]; [done|].
  cbn -[ascii_dec String.substring convertString].
  destruct (ascii_dec " " b) as [<-|Nb].
  2:{ rewrite bool_decide_eq_false_2; [done|]. intros [= ->]. by apply Nb. }
  rewrite bool_decide_eq_true_2; by destruct l.
Qed.

(** What [setData] stores. *)
Lemma setData_stores x p q :
  samples_length x <> 0%nat -> setData x p = Ok q ->
  exists e, q = with_end e (storeData x (clearData p)).
Proof.
  intros L (r & E & F)%bind_ok. unfold setDataImpl in E.
  destruct (Nat.eqb_spec (samples_length x) 0); [done|].
  apply updateEndTime_shape in E as [e ->], F as [e' ->]. by exists e'.
Qed.

Lemma recordToPacket_carries r p : recordToPacket r = Ok p -> carries r p.
Proof.
  intros ([] & _ & (p1 & E1 & (p2 & E2 & (p3 & E3 & (p4 & E4 & E)%bind_ok)%bind_ok)%bind_ok)%bind_ok)%bind_ok.
  apply bind_ok in E as (p5 & E5 & (t & Et & (p6 & E6 & E)%bind_ok)%bind_ok).
  apply bind_ok in E1 as ([] & _ & [= <-]), E2 as ([] & _ & [= <-]),
    E3 as ([] & _ & [= <-]), E4 as ([] & _ & [= <-]), E5 as ([] & _ & E5).
  unfold setStartTime in E6.
  apply updateEndTime_shape in E5 as [e5 ->], E6 as [e6 ->].
  unfold recordSamples in E. destruct (0 <? wrap_i32 (numsamples r)) eqn:En.
  2:{ injection E as <-.
      apply mkCarries; [reflexivity|reflexivity|reflexivity|apply fixLocation_spec|reflexivity|exact Et|].
      cbv zeta. by rewrite En. }
  destruct (_ || _); [|done]. unfold setDataPointer in E.
  apply bind_ok in E as ([] & _ & E). destruct (datasamples r) as [a|] eqn:Ea; [|done].
  destruct (Z.ltb_spec (Z.of_nat (samples_length a)) (wrap_i32 (numsamples r))); [done|].
  apply setData_stores in E as [e ->].
  - assert (D : let n := wrap_i32 (numsamples r) in
              if 0 <? n
              then exists a', datasamples r = Some a' /\ n <= Z.of_nat (samples_length a') /\
                 dataOf (storeData (samples_take (Z.to_nat n) a) newPacket) =
                 dataOf (storeData (samples_take (Z.to_nat n) a') newPacket)
              else dataOf (storeData (samples_take (Z.to_nat n) a) newPacket) = dataOf newPacket)
      by (cbv zeta; rewrite En; by exists a).
    destruct a;
      (apply mkCarries; [reflexivity|reflexivity|reflexivity|apply fixLocation_spec|reflexivity|exact Et|exact D]).
  - apply Z.ltb_lt in En. destruct a; simpl in *; rewrite length_take; lia.
Qed.

(** So the samples of a packet can be counted in 32 bits. *)
Lemma carries_doubles r p :
  carries r p -> in_i32 (Z.of_nat (length (doubles p))) = true.
Proof.
  intros C. pose proof (ca_data _ _ C) as D. cbv zeta in D.
  pose proof (wrap_i32_in_range (numsamples r)) as B%in_i32_spec. apply in_i32_spec.
  assert (E : forall q, dataOf p = dataOf q -> doubles p = doubles q).
  { unfold dataOf, doubles. intros q [= -> -> -> -> ->]. done. }
  destruct (Z.ltb_spec 0 (wrap_i32 (numsamples r))).
  - destruct D as (a & _ & L & ->%E).
    assert (Z.of_nat (length (doubles (storeData
              (samples_take (Z.to_nat (wrap_i32 (numsamples r))) a) newPacket))) <=
            wrap_i32 (numsamples r))
      by (destruct a; unfold doubles; simpl; rewrite ?length_fmap, length_take; lia).
    lia.
  - apply E in D as ->. simpl. lia.
Qed.

Lemma unpackRecords_packets minlen fuel parse n offset ps :
  unpackRecords minlen fuel parse n offset = Some (Ok ps) ->
  Forall (fun p => exists r, recordToPacket r = Ok p) ps.
Proof.
  revert offset ps. induction fuel as [|fuel IH]; intros offset ps; cbn [unpackRecords];
    (destruct (wrap_u64 (n - offset) <=? minlen); [intros [= <-]; constructor|]); [done|].
  destruct (parse offset _) as [code [r|]]; [|by destruct (negb _)].
  destruct (code =? MS_NOERROR); [|done]. destruct (recordToPacket r) as [p|e|] eqn:Er; [|done..].
  destruct (unpackRecords minlen fuel parse n _) as [rest|] eqn:E; [|done].
  intros [= (ps' & -> & [= <-])%bind_ok]. constructor; [by exists r|]. by eapply IH.
Qed.

(** What the documentation of libmseed says of a record that was parsed:
    its length is positive and within the bytes given. *)
Definition parse_ok (parse : Z -> Z -> parsed) : Prop :=
  forall offset n r, parse offset n = (MS_NOERROR, Some r) -> 1 <= reclen r <= n.

Lemma wrap_u64_small z : 0 <= z < 2 ^ 64 -> wrap_u64 z = z.
Proof. intros ?. by apply Z.mod_small. Qed.

(** The records of a buffer of [n] bytes from an offset on, one after the
    other, until no more than [minlen] bytes are left. *)
Fixpoint recordsFrom (minlen : Z) (parse : Z -> Z -> parsed) (n offset : Z)
    (rs : list MS3Record) : Prop :=
  match rs with
  | [] => n - offset <= minlen
  | r :: rs' =>
      minlen < n - offset /\ parse offset (n - offset) = (MS_NOERROR, Some r) /\
      recordsFrom minlen parse n (offset + reclen r) rs'
  end.

Lemma unpackRecords_total minlen parse n fuel offset :
  0 <= minlen -> parse_ok parse -> 0 <= offset <= n -> n < 2 ^ 31 ->
  n - offset <= Z.of_nat fuel ->
  exists r, unpackRecords minlen fuel parse n offset = Some r /\
    forall ps, r = Ok ps ->
      Forall (fun p => reachable p /\ named p) ps /\ Z.of_nat (length ps) <= n - offset /\
      exists rs, recordsFrom minlen parse n offset rs /\ Forall2 carries rs ps.
Proof.
  intros Hm HP. revert offset. induction fuel as [|fuel IH]; intros offset Ho Hn Hf;
    (assert (W : wrap_u64 (n - offset) = n - offset)
      by (apply wrap_u64_small; change (2 ^ 64) with 18446744073709551616;
          change (2 ^ 31) with 2147483648 in Hn; lia)).
  - cbn [unpackRecords]. rewrite W. replace (n - offset <=? minlen) with true by lia.
    eexists. split; [done|]. intros ps [= <-]. split; [constructor|]. split; [simpl; lia|].
    exists []. simpl. split; [lia|constructor].
  - cbn [unpackRecords]. rewrite W. destruct (n - offset <=? minlen) eqn:El.
    { eexists. split; [done|]. intros ps [= <-]. split; [constructor|]. split; [simpl; lia|].
      exists []. simpl. split; [lia|constructor]. }
    destruct (parse offset (n - offset)) as [code [r|]] eqn:Ep.
    2:{ destruct (code =? MS_NOERROR); (eexists; split; [reflexivity|]; intros ps [=]). }
    destruct (code =? MS_NOERROR) eqn:Ec;
      [|eexists; split; [reflexivity|]; intros ps [=]].
    apply Z.eqb_eq in Ec as ->. pose proof (HP _ _ _ Ep) as Hr.
    destruct (recordToPacket r) as [p|e|] eqn:Er;
      [|eexists; split; [reflexivity|]; intros ps [=]..].
    assert (W' : wrap_u64 (offset + reclen r) = offset + reclen r)
      by (apply wrap_u64_small; change (2 ^ 64) with 18446744073709551616;
          change (2 ^ 31) with 2147483648 in Hn; lia).
    rewrite W'. destruct (IH (offset + reclen r)) as (rest & -> & P); [lia|done|lia|].
    eexists. split; [reflexivity|]. intros ps' Hps.
    apply bind_ok in Hps as (ps & -> & [= <-]).
    destruct (P ps eq_refl) as (F & L & rs & R & C). split.
    { constructor; [|done]. by apply (recordToPacket_sound r). }
    split; [simpl; lia|]. exists (r :: rs). split; [simpl; split; [lia|done]|].
    constructor; [by apply recordToPacket_carries|done].
Qed.


(** A record of three samples and no location code. *)
Definition demoRecord : MS3Record :=
  mkRecord (mkNslc 0 "UU" "FORK" "" "HHZ") (d_of_Z 100) 1700000000000000000 3 "i"%char
    (Some (Int32s [1; -2; 3])) 512.
Definition demoParse (offset n : Z) : parsed :=
  if 512 <=? n then (MS_NOERROR, Some demoRecord) else (-1, None).

Lemma demoParse_ok : parse_ok demoParse.
Proof.
  intros offset n r. unfold demoParse. destruct (Z.leb_spec 512 n); intros E; [|done].
  injection E as <-. simpl. lia.
Qed.

Lemma demoRecords_location offset rs ps :
  recordsFrom 40 demoParse 1024 offset rs -> Forall2 carries rs ps ->
  Forall (fun p => mLocationCode p = "--") ps.
Proof.
  intros R F. revert offset R. induction F as [|r p rs ps C F IH]; intros offset R; [constructor|].
  destruct R as (_ & E & R). constructor; [|by eapply IH].
  rewrite (ca_location _ _ C). unfold demoParse in E. destruct (512 <=? _); [|done].
  by injection E as <-.
Qed.


(** *** The life of a client *)
Import Client.

Inductive clientOp := OStart | OStop | OConnect (sl : SLEnv) (ndebug : bool).

Definition clientStep (op : clientOp) (p : ClientImpl) : ClientImpl * outcome unit :=
  match op with
  | OStart => start p
  | OStop => (stop p, Ok tt)
  | OConnect sl ndebug => connect sl ndebug p
  end.

(** An initialized client has a connection; the reader runs only on an
    initialized client that is told to keep running, and its connection has
    not been told to terminate. *)
Record client_ok (p : ClientImpl) : Prop := mkClientOk {
  co_connection : mInitialized p = true -> is_Some (mSEEDLinkConnection p);
  co_options : mHaveOptions p = true <-> mInitialized p = true;
  co_reader : readerThread p = true ->
    mInitialized p = true /\ mKeepRunning p = true /\
    exists c, mSEEDLinkConnection p = Some c /\ slTerminate c = false
}.

Lemma stop_ok p : client_ok p -> client_ok (stop p) /\ readerThread (stop p) = false /\
  mInitialized (stop p) = mInitialized p /\ mHaveOptions (stop p) = mHaveOptions p.
Proof.
  intros [C O R]. unfold stop, setRunning, terminate.
  destruct (mKeepRunning p); simpl; destruct (mSEEDLinkConnection p) eqn:E; simpl;
  (split; [split; simpl; [|done|done]|done]); try done; intros I; rewrite ?E; eauto.
Qed.

Lemma client_ok_off p :
  readerThread p = false -> mInitialized p = false -> mHaveOptions p = false -> client_ok p.
Proof. intros R I O. split; rewrite ?R, ?I, ?O; done. Qed.

Lemma client_ok_on p c :
  readerThread p = false -> mInitialized p = true -> mHaveOptions p = true ->
  mSEEDLinkConnection p = Some c -> client_ok p.
Proof. intros R I O C. split; rewrite ?R, ?I, ?O, ?C; done. Qed.

Lemma with_state_file_keeps n f p :
  readerThread (with_state_file n f p) = readerThread p /\
  mInitialized (with_state_file n f p) = mInitialized p /\
  mHaveOptions (with_state_file n f p) = mHaveOptions p.
Proof. by destruct f as [[? ?]|]. Qed.

(** The library sets the two modes it is asked to set. *)
Definition modes_set (sl : SLEnv) : Prop := sl_noblock sl = 1 /\ sl_dialup sl = 0.

Lemma initialize_ok sl ndebug o p :
  readerThread p = false ->
  client_ok (initialize sl ndebug o p).1 /\
  ((initialize sl ndebug o p).2 = Undef -> ndebug = false /\ ~ modes_set sl) /\
  ((initialize sl ndebug o p).2 = Ok tt -> mInitialized (initialize sl ndebug o p).1 = true).
Proof.
  intros Hr. unfold initialize.
  destruct (sl_initslcd sl); cbn [negb];
    [|split; [by apply client_ok_off|done]].
  destruct (sl_set_serveraddress sl _ =? 0); cbn [negb];
    [|split; [by apply client_ok_off|done]].
  destruct (foldl _ _ _) as [added ls].
  match goal with |- context [with_state_file ?n ?f ?q] =>
    destruct (with_state_file_keeps n f q) as (K1 & K2 & K3);
    set (q' := with_state_file n f q) in * end.
  simpl in K1, K2, K3. rewrite Hr in K1.
  destruct (bool_decide (added = []) && _);
    [split; [by apply client_ok_off|done]|].
  unfold modes_set. destruct (negb ndebug && negb (sl_noblock sl =? 1)) eqn:A1.
  { split; [by apply client_ok_off|]. split; [|done]. intros _.
    apply andb_true_iff in A1 as [?%negb_true_iff ?%negb_true_iff]. split; [done|lia]. }
  destruct (negb ndebug && negb (sl_dialup sl =? 0)) eqn:A2.
  { split; [by apply client_ok_off|]. split; [|done]. intros _.
    apply andb_true_iff in A2 as [?%negb_true_iff ?%negb_true_iff]. split; [done|lia]. }
  destruct (negb ndebug && _ && _); (split; [|done]);
    [by apply client_ok_off | by eapply client_ok_on].
Qed.

Lemma clientStep_ok op p :
  client_ok p -> client_ok (clientStep op p).1 /\
  ((clientStep op p).2 = Undef -> exists sl, op = OConnect sl false /\ ~ modes_set sl).
Proof.
  intros H. destruct op as [| |sl ndebug]; simpl.
  - unfold start, isInitialized. destruct (mInitialized p) eqn:I; simpl; [|done].
    destruct (stop_ok p H) as ([C O R] & _ & Si & _). unfold startImpl. rewrite Si, I.
    rewrite I in Si. destruct (C Si) as [c Ec].
    assert (E : mSEEDLinkConnection (setRunning true (stop p)) = Some c) by exact Ec.
    cbn [negb]. rewrite E. split; [|done].
    split; simpl; [by eexists|exact O|].
    intros _. split; [exact Si|]. split; [done|]. by eexists.
  - split; [by apply stop_ok|done].
  - unfold connect. destruct (mHaveOptions p) eqn:O; simpl; [|done].
    destruct (stop_ok p H) as (_ & Hr & _).
    destruct (initialize_ok sl ndebug (mOptions (stop p)) (stop p) Hr) as (? & U & _).
    split; [done|]. intros [-> ?]%U. by exists sl.
Qed.

(** C12: a client that was constructed is initialized, and no sequence of
    starts, stops and reconnections - each of which may throw - dereferences
    a missing connection or leaves a reader on a connection that was told to
    terminate: the invariant [client_ok] holds throughout.  The only thing that
    can go wrong without an exception is a reconnection in a debug build whose
    library does not set the blocking and the dial-up mode it is asked to set:
    an assertion fails. *)
Theorem client_lifecycle sl ndebug options p ops :
  newClient sl ndebug options = Ok p ->
  mInitialized p = true /\
  client_ok (foldl (fun p op => (clientStep op p).1) p ops) /\
  forall op, (clientStep op (foldl (fun p op => (clientStep op p).1) p ops)).2 = Undef ->
    exists sl', op = OConnect sl' false /\ ~ modes_set sl'.
Proof.
  unfold newClient. pose proof (initialize_ok sl ndebug options fresh eq_refl) as (H & _ & I).
  destruct (initialize sl ndebug options fresh) as [q r]. simpl in H, I.
  destruct r as [[]|e|]; [|done|done]. intros [= <-]. split; [by apply I|]. clear I.
  assert (K : client_ok (foldl (fun p op => (clientStep op p).1) q ops)).
  { revert q H. induction ops as [|op ops IH]; intros q H; simpl; [done|].
    apply IH. by apply clientStep_ok. }
  split; [done|]. intros op. by apply clientStep_ok.
Qed.

Definition demoSL : SLEnv := mkSLEnv 3 true (fun _ => 0) (fun _ _ => 0) 0 1 0 0.
Definition demoClient : ClientImpl :=
  match newClient demoSL true demoSelectorOptions with Ok p => p | _ => fresh end.

Lemma client_lifecycle_witness :
  newClient demoSL true demoSelectorOptions = Ok demoClient /\
  mInitialized demoClient = true /\
  client_ok (foldl (fun p op => (clientStep op p).1) demoClient
               [OStart; OConnect demoSL true; OStart; OStop]).
Proof.
  assert (E : newClient demoSL true demoSelectorOptions = Ok demoClient)
    by (vm_compute; reflexivity).
  split; [exact E|].
  destruct (client_lifecycle demoSL true demoSelectorOptions demoClient
              [OStart; OConnect demoSL true; OStart; OStop] E) as (I & K & _).
  split; [exact I | exact K].
Defined.

(** *** The state file *)
Lemma countStateFile_run n w :
  mUseStateFile (client w) = true -> 0 <= mStateFileUpdateInterval (client w) ->
  0 < updateStateFile w <= mStateFileUpdateInterval (client w) + 1 ->
  let w' := Nat.iter n countStateFile w in
  client w' = client w /\
  0 < updateStateFile w' <= mStateFileUpdateInterval (client w) + 1 /\
  Z.of_nat (savedStates w') * (mStateFileUpdateInterval (client w) + 1) + updateStateFile w' =
  Z.of_nat (savedStates w) * (mStateFileUpdateInterval (client w) + 1) + updateStateFile w
    + Z.of_nat n.
Proof.
  intros Hu Hi Hw. induction n as [|n IH]; [simpl; split; [done|lia]|].
  change (Nat.iter (S n) countStateFile w) with (countStateFile (Nat.iter n countStateFile w)).
  cbv zeta in *. destruct (Nat.iter n countStateFile w) as [p u k]. simpl in IH.
  destruct IH as (-> & B & E). unfold countStateFile. cbn [client updateStateFile savedStates].
  rewrite Hu.
  destruct (Z.ltb_spec (mStateFileUpdateInterval (client w)) u);
    cbn [client updateStateFile savedStates]; (split; [done|split; [lia|]]); nia.
Qed.

(** The state is saved once every [interval + 1] payloads, not once
    every [interval]: after [n] payloads of a new polling loop it was saved
    [n / (interval + 1)] times. *)
Theorem state_file_saves p n :
  mUseStateFile p = true -> 0 <= mStateFileUpdateInterval p ->
  Z.of_nat (savedStates (Nat.iter n countStateFile (mkPolling p 1 0))) =
  Z.of_nat n / (mStateFileUpdateInterval p + 1).
Proof.
  intros Hu Hi.
  destruct (countStateFile_run n (mkPolling p 1 0) Hu Hi ltac:(simpl; lia)) as (_ & B & E).
  simpl in *. apply (Z.div_unique_pos _ _ _
    (updateStateFile (Nat.iter n countStateFile (mkPolling p 1 0)) - 1)); lia.
Qed.

Definition demoStateClient : ClientImpl :=
  with_state_file 512 (Some ("state", 100)) demoClient.

Lemma state_file_saves_witness :
  Z.of_nat (savedStates (Nat.iter 1010 countStateFile (mkPolling demoStateClient 1 0))) = 10.
Proof.
  exact (state_file_saves demoStateClient 1010 eq_refl ltac:(by vm_compute)).
Defined.
