(* ===== verification/SeedLinkPublisher.v ===== *)
(** * The SEEDLink broadcaster

    broadcasts/dataPacket/seedLink/publisher.cpp: the program options and how
    they are read, the [Process] that hands the packets of the SEEDLink client
    to the proxy, one pass of its publishing loop with its metrics, starting
    and stopping, and [main].  The queue, the ini file, ZeroMQ, libslink, the
    string algorithms of boost and the gauges of OpenTelemetry are parameters. *)
From Stdlib Require Import ZArith Ascii String SpecFloat Lia.
From stdpp Require Import base tactics list gmap strings pretty.
From S2P Require Import Prelude Float64 JsonLib Interfaces DataPacket Broadcast SeedLink.
Import StreamSelector (StreamSelectorImpl).
Import ClientOptions (ClientOptionsImpl).

Open Scope string_scope.
Open Scope Z_scope.

Definition MAX_QUEUE_SIZE : Z := 1024.

(** ** Program options *)
Record ProgramOptions := mkOptions {
  seedLinkClientOptions : ClientOptionsImpl;
  prometheusURL : string;
  applicationName : string;
  openTelemetrySchema : string;
  openTelemetryVersion : string;
  proxyFrontendAddress : string;
  sendTimeOut : Z;                       (* milliseconds *)
  oldestPacket : Z;                      (* seconds *)
  logPublishingPerformanceInterval : Z;  (* seconds *)
  openTelemetryExportInterval : Z;       (* milliseconds *)
  openTelemetryTimeOut : Z;              (* milliseconds *)
  sendHighWaterMark : Z;
  verbosity : Z;
  preventFuturePackets : bool
}.

Definition defaultOptions : ProgramOptions :=
  mkOptions ClientOptions.new "localhost:9090" "seedlink_data_packet_broadcaster"
    "https://opentelemetry.io/schemas/1.2.0" "1.2.0" "tcp://127.0.0.1:5550"
    1000 (-1) 600 60000 500 4096 3 true.

(** *** boost/algorithm/string

    [split seps s] cuts [s] at every character of [seps] ([token_compress] is
    off), [trim] removes the white space at both ends. *)
Class StringAlgo := {
  split : string -> string -> list string;
  trim : string -> string
}.
Class StringAlgoLaws `{StringAlgo} := {
  split_length seps s :
    (sum_list (String.length <$> split seps s) + length (split seps s) =
     String.length s + 1)%nat;
  trim_length s : (String.length (trim s) <= String.length s)%nat
}.

Definition white : string := " " +:+ String (ascii_of_nat 9) "".

Section ini.
Context `{StringAlgo}.

(** [fields.at(i)] *)
Definition at_ (fields : list string) (i : nat) : outcome string :=
  match fields !! i with
  | Some f => Ok f
  | None => Throw (OutOfRange "vector::_M_range_check")
  end.

(** One selector of a line.  [splitSelector.size()] is the length of the
    text, not the number of fields. *)
Definition parseSelector (thisSplitSelector : string) : outcome StreamSelectorImpl :=
  let splitSelector := trim thisSplitSelector in
  let thisSelector := split white splitSelector in
  let size := String.length splitSelector in
  throw_if (str_empty splitSelector) (InvalidArgument "Empty selector");;
  network ← at_ thisSelector 0;
  selector ← StreamSelector.setNetwork (trim network) StreamSelector.new;
  selector ← (if (1 <? size)%nat then
                station ← at_ thisSelector 1;
                StreamSelector.setStation (trim station) selector
              else Ok selector);
  channel ← (if (2 <? size)%nat then c ← at_ thisSelector 2; Ok (trim c) else Ok "*");
  locationCode ← (if (3 <? size)%nat then l ← at_ thisSelector 3; Ok (trim l) else Ok "??");
  dataType ← (if (4 <? size)%nat then
                t ← at_ thisSelector 4;
                Ok (if decide (trim t = "D") then StreamSelector.Data
                    else StreamSelector.All)
              else Ok StreamSelector.All);
  Ok (StreamSelector.setSelector channel locationCode dataType selector).

(** The selectors of a line. *)
Fixpoint addSelectors (splitSelectors : list string) (clientOptions : ClientOptionsImpl)
    : outcome ClientOptionsImpl :=
  match splitSelectors with
  | [] => Ok clientOptions
  | s :: l =>
      selector ← parseSelector s;
      clientOptions ← ClientOptions.addStreamSelector selector clientOptions;
      addSelectors l clientOptions
  end.

Context {T : Type} `{PropertyTree T}.

(** [for (iSelector = first; iSelector < first + count; ++iSelector)] *)
Fixpoint readSelectors (propertyTree : T) (clientName : string) (first : Z) (count : nat)
    (clientOptions : ClientOptionsImpl) : outcome ClientOptionsImpl :=
  match count with
  | O => Ok clientOptions
  | S count =>
      clientOptions ←
        match pt_get propertyTree (clientName +:+ ".data_selector_" +:+ pretty first) with
        | Some selectorString => addSelectors (split ",|" selectorString) clientOptions
        | None => Ok clientOptions
        end;
      readSelectors propertyTree clientName (first + 1) count clientOptions
  end.

Definition getSEEDLinkOptions (propertyTree : T) (clientName : string)
    : outcome ClientOptionsImpl :=
  address ← match pt_get propertyTree (clientName +:+ ".address") with
            | Some a => Ok a
            | None => Throw (LibraryError ("No such node (" +:+ clientName +:+ ".address)"))
            end;
  let port := pt_u16 propertyTree (clientName +:+ ".port") 18000 in
  clientOptions ← ClientOptions.setAddress address ClientOptions.new;
  let clientOptions := ClientOptions.setPort port clientOptions in
  readSelectors propertyTree clientName 1 (Z.to_nat 32768) clientOptions.

(** [file] is [None] where the file does not exist, otherwise what
    [read_ini] makes of it. *)
Definition parseIniFile (file : option (outcome T)) : outcome ProgramOptions :=
  let options := defaultOptions in
  match file with
  | None => Ok options
  | Some read =>
      propertyTree ← read;
      let address := pt_string propertyTree "ZeroMQ.proxyFrontendAddress"
                       (proxyFrontendAddress options) in
      throw_if (str_empty address)
        (InvalidArgument "ZeroMQ.proxyFrontendAddress is empty");;
      throw_if (negb (starts_with "tcp://" address))
        (InvalidArgument "ZeroMQ.proxyFrontendAddresss must starts with tcp://");;
      let highWaterMark := pt_int propertyTree "ZeroMQ.sendHighWaterMark"
                             (sendHighWaterMark options) in
      throw_if (highWaterMark <? 0)
        (InvalidArgument "ZeroMQ.sendHighWaterMark cannot be negative");;
      let timeOut := pt_int propertyTree "ZeroMQ.sendTimeOutInMilliSeconds"
                       (wrap_i32 (sendTimeOut options)) in
      let timeOut := if timeOut <? 0 then -1 else timeOut in
      seedLink ← match pt_get propertyTree "SEEDLink.address" with
                 | Some _ => getSEEDLinkOptions propertyTree "SEEDLink"
                 | None => Ok (seedLinkClientOptions options)
                 end;
      let interval := pt_int propertyTree
                        "General.logPublishingPerformanceIntervalInSeconds"
                        (wrap_i32 (logPublishingPerformanceInterval options)) in
      Ok (mkOptions seedLink (prometheusURL options) (applicationName options)
            (openTelemetrySchema options) (openTelemetryVersion options) address timeOut
            (oldestPacket options) interval (openTelemetryExportInterval options)
            (openTelemetryTimeOut options) highWaterMark (verbosity options)
            (preventFuturePackets options))
  end.
End ini.

(** What the command line parser stores: [help] and the text of [ini]. *)
Record variables_map := mkVariables { vm_help : bool; vm_ini : option string }.

Definition parseCommandLineOptions (exists_file : string -> bool)
    (vm : outcome variables_map) : outcome (string * bool) :=
  vm ← vm;
  if vm_help vm then Ok ("", true)
  else
    match vm_ini vm with
    | None => Ok ("", false)
    | Some iniFile =>
        throw_if (negb (exists_file iniFile))
          (RuntimeError ("Initialization file: " +:+ iniFile +:+ " does not exist"));;
        Ok (iniFile, false)
    end.

(** ** The process *)
Inductive gauge := Propagated | Skipped.
#[export] Instance gauge_eq_dec : EqDecision gauge.
Proof. solve_decision. Defined.

Definition gaugeName (applicationName : string) (g : gauge) : string :=
  applicationName +:+ match g with
                      | Propagated => "-propagated_packets_gauge"
                      | Skipped => "-skipped_packets_gauge"
                      end.

(** [Record] takes an [int64_t]. *)
Definition as_i64 (z : Z) : Z := (z + 2 ^ 63) mod 2 ^ 64 - 2 ^ 63.

Section process.
Context (env : ZmqEnv) (sl : Client.SLEnv) (ndebug : bool) {J V : Type} `{JsonLib J V}.
Context {Q : Type} `{ReaderWriterQueue Q DataPacketImpl}.

Record Process := mkProcess {
  mPublisherThread : bool;             (* joinable *)
  mPacketPublisher : Publisher.PublisherImpl;
  mQueue : Q;
  mSEEDLinkClient : Client.ClientImpl;
  mLogPublishingPerformanceInterval : Z;
  mKeepRunning : bool;
  mStopRequested : bool
}.

Definition with_client (c : Client.ClientImpl) (p : Process) : Process :=
  mkProcess (mPublisherThread p) (mPacketPublisher p) (mQueue p) c
    (mLogPublishingPerformanceInterval p) (mKeepRunning p) (mStopRequested p).
Definition with_queue (pub : Publisher.PublisherImpl) (q : Q) (p : Process) : Process :=
  mkProcess (mPublisherThread p) pub q (mSEEDLinkClient p)
    (mLogPublishingPerformanceInterval p) (mKeepRunning p) (mStopRequested p).
Definition with_thread (thread keep : bool) (p : Process) : Process :=
  mkProcess thread (mPacketPublisher p) (mQueue p) (mSEEDLinkClient p)
    (mLogPublishingPerformanceInterval p) keep (mStopRequested p).
Definition with_stop (p : Process) : Process :=
  mkProcess (mPublisherThread p) (mPacketPublisher p) (mQueue p) (mSEEDLinkClient p)
    (mLogPublishingPerformanceInterval p) (mKeepRunning p) true.

Definition newProcess (o : ProgramOptions) : outcome Process :=
  pub ← Publisher.rethrow "Failed to initialize publisher socket because "
          (po ← PublisherOptions.new (proxyFrontendAddress o);
           po ← PublisherOptions.setHighWaterMark (sendHighWaterMark o) po;
           let po := PublisherOptions.setTimeOut (sendTimeOut o) po in
           Publisher.new env po);
  client ← Publisher.rethrow "Failed to create SEEDLink client because "
             (Client.newClient sl ndebug (seedLinkClientOptions o));
  Ok (mkProcess false pub (rq_new MAX_QUEUE_SIZE) client
        (logPublishingPerformanceInterval o) true false).

(** The SEEDLink client is left running. *)
Definition stop (p : Process) : Process := with_thread false false p.

(** The destructor stops the publishing thread; then the members go, the
    client before the queue its callback writes to.  The reset of the metrics
    is OpenTelemetry's. *)
Definition destructor (link : Z) (p : Process) : Process :=
  let p := stop p in with_client (Client.destructor link (mSEEDLinkClient p)) p.

Definition start (p : Process) : outcome Process :=
  let p := stop p in
  let p := with_thread true true p in
  let '(client, r) := Client.start (mSEEDLinkClient p) in
  r;; Ok (with_client client p).

(** The callback of the SEEDLink client. *)
Definition addPacketsFromAcquisitionCallback (packet : DataPacketImpl) (p : Process)
    : outcome (Process * list line) :=
  throw_if (negb (haveNetwork packet))
    (InvalidArgument "Packet does not have network code");;
  throw_if (negb (haveStation packet))
    (InvalidArgument "Packet does nto have station name");;
  throw_if (negb (haveChannel packet))
    (InvalidArgument "Packet does not have channel code");;
  throw_if (negb (haveSamplingRate packet))
    (InvalidArgument "Packet does not have sampling rate");;
  throw_if (getNumberOfSamples packet <? 1) (InvalidArgument "Packet has no data");;
  (let known := negb (bool_decide (getDataType packet = Unknown)) in
   if ndebug then throw_if (negb known) (RuntimeError "Data type not correctly set")
   else assert_ known);;
  let '(added, q) := try_enqueue packet (mQueue p) in
  Ok (with_queue (mPacketPublisher p) q p,
      if (added : bool) then [] else [Warn "Failed to add packet to queue"]).

(** *** The publishing loop *)

(** What the gauges of OpenTelemetry do with a value. *)
Context (record_ : gauge -> Z -> outcome unit).

(** The locals of [sendPacketsViaZeroMQ], and what was recorded. *)
Record locals := mkLocals {
  lastLogTime : Z;
  nextSendMetricTime : Z;
  nSentPackets : Z;
  nNotSentPackets : Z;
  nSentPacketsInLastMinute : Z;          (* uint64_t *)
  nNotSentPacketsInLastMinute : Z;       (* uint64_t *)
  recorded : list (gauge * Z)
}.
Definition localsAt (nowMuSeconds : Z) : locals :=
  mkLocals (us_to_s nowMuSeconds) (us_to_s nowMuSeconds + 60) 0 0 0 0 [].

(** The trimming at the top of the loop. *)
Definition removeExcess (q : Q) (k : locals) : Q * locals * list line :=
  if MAX_QUEUE_SIZE <? size_approx q then
    let '(q, nDeleted) := drainTo MAX_QUEUE_SIZE (length (rq_elems q)) q 0 in
    (q,
     mkLocals (lastLogTime k) (nextSendMetricTime k) (nSentPackets k)
       (nNotSentPackets k + nDeleted) (nSentPacketsInLastMinute k)
       (wrap_u64 (nNotSentPacketsInLastMinute k + nDeleted)) (recorded k),
     [Warn ("Overfull queue - deleted " +:+ pretty nDeleted +:+ " packets")])
  else (q, k, []).

(** A failed send counts in [nNotSentPackets] only. *)
Definition sendFirst (pub : Publisher.PublisherImpl) (q : Q) (k : locals)
    : outcome (Publisher.PublisherImpl * Q * locals * list line) :=
  match rq_peek q with
  | None => Ok (pub, q, k, [])
  | Some packet =>
      '(pub, k, l) ←
        match Publisher.send env (J:=J) packet pub with
        | Ok pub =>
            Ok (pub,
                mkLocals (lastLogTime k) (nextSendMetricTime k) (nSentPackets k + 1)
                  (nNotSentPackets k) (wrap_u64 (nSentPacketsInLastMinute k + 1))
                  (nNotSentPacketsInLastMinute k) (recorded k), [])
        | Throw e =>
            Ok (pub,
                mkLocals (lastLogTime k) (nextSendMetricTime k) (nSentPackets k)
                  (nNotSentPackets k + 1) (nSentPacketsInLastMinute k)
                  (nNotSentPacketsInLastMinute k) (recorded k),
                [Warn ("Failed to send message because " +:+ what e)])
        | Undef => Undef
        end;
      let '(popped, q) := rq_pop q in
      Ok (pub, q, k,
          l ++ (if (popped : bool) then [] else [Warn "Queue appears to be empty"]))%list
  end.

Definition logPerformance (interval nowSeconds : Z) (k : locals)
    : outcome (locals * list line) :=
  if 0 <? interval then
    next ← to_i64 (lastLogTime k + interval);
    if next <=? nowSeconds then
      Ok (mkLocals nowSeconds (nextSendMetricTime k) 0 0 (nSentPacketsInLastMinute k)
            (nNotSentPacketsInLastMinute k) (recorded k),
          [Info ("Sent " +:+ pretty (nSentPackets k) +:+ " packets in last "
                 +:+ pretty interval +:+ " seconds. (Failed to send "
                 +:+ pretty (nNotSentPackets k) +:+ " packets.)")])
    else Ok (k, [])
  else Ok (k, []).

(** [try { published->Record; notPublished->Record } catch ...] *)
Definition recordBoth (k : locals) : outcome (list (gauge * Z) * list line) :=
  let sent := as_i64 (nSentPacketsInLastMinute k) in
  let notSent := as_i64 (nNotSentPacketsInLastMinute k) in
  let failed e := [Warn ("Failed to publish metrics because " +:+ what e)] in
  match record_ Propagated sent with
  | Undef => Undef
  | Throw e => Ok ([], failed e)
  | Ok _ =>
      match record_ Skipped notSent with
      | Undef => Undef
      | Throw e => Ok ([(Propagated, sent)], failed e)
      | Ok _ => Ok ([(Propagated, sent); (Skipped, notSent)], [])
      end
  end.

Definition sendMetrics (nowSeconds : Z) (k : locals) : outcome (locals * list line) :=
  if nextSendMetricTime k <=? nowSeconds then
    '(values, l) ← recordBoth k;
    Ok (mkLocals (lastLogTime k) (nowSeconds + 60) (nSentPackets k) (nNotSentPackets k) 0 0
          (recorded k ++ values)%list, l)
  else Ok (k, []).

(** One pass of [sendPacketsViaZeroMQ]. *)
Definition sendStep (nowMuSeconds : Z) (p : Process) (k : locals)
    : outcome (Process * locals * list line) :=
  let '(q, k, l1) := removeExcess (mQueue p) k in
  '(pub, q, k, l2) ← sendFirst (mPacketPublisher p) q k;
  let nowSeconds := us_to_s nowMuSeconds in
  '(k, l3) ← logPerformance (mLogPublishingPerformanceInterval p) nowSeconds k;
  '(k, l4) ← sendMetrics nowSeconds k;
  Ok (with_queue pub q p, k, l1 ++ l2 ++ l3 ++ l4)%list.

(** [handleMainThread], given the polls of [mInterrupted] until the first
    that is true. *)
Fixpoint handleMainThread (interrupted : list bool) (p : Process) : Process :=
  if mStopRequested p then stop p
  else
    match interrupted with
    | [] => p                               (* still waiting *)
    | b :: rest => if (b : bool) then stop (with_stop p) else handleMainThread rest p
    end.

(** [signalHandler] and [catchSignals]: the flag [mInterrupted], and the
    signals the handler is installed for. *)
Definition signalHandler (_ : Z) (_ : bool) : bool := true.
Definition catchSignals : list Z := [SIGINT; SIGTERM].

(** The provider of metrics that is set for the program: none, or one whose
    exporter serves at an address.  To make an exporter may fail: the library
    binds to the address. *)
Inductive metrics := NoProvider | Serving (url : string).
Context (exporter : string -> outcome unit).

Definition initializeMetrics (options : ProgramOptions) : outcome metrics :=
  exporter (prometheusURL options);; Ok (Serving (prometheusURL options)).
Definition cleanupMetrics (_ : metrics) : metrics := NoProvider.

(** [main]: the exit status, the process it leaves to be destroyed and the
    metrics.  The metrics are initialized outside of any [try]: an exception
    there leaves [main]. *)
Definition main `{StringAlgo} {T} `{PropertyTree T} (exists_file : string -> bool)
    (vm : outcome variables_map) (read_ini : string -> outcome T) (delivered : list (list Z))
    : outcome (Z * option Process * metrics) :=
  match parseCommandLineOptions exists_file vm with
  | Undef => Undef
  | Throw _ => Ok (1, None, NoProvider)
  | Ok (_, true) => Ok (0, None, NoProvider)
  | Ok (iniFile, false) =>
      let file := if exists_file iniFile then Some (read_ini iniFile) else None in
      match parseIniFile file with
      | Undef => Undef
      | Throw _ => Ok (1, None, NoProvider)
      | Ok programOptions =>
          provider ← initializeMetrics programOptions;
          match newProcess programOptions with
          | Undef => Undef
          | Throw _ => Ok (1, None, provider)
          | Ok process =>
              match start process with
              | Undef => Undef
              | Throw _ => Ok (1, None, cleanupMetrics provider)
              | Ok process =>
                  let interrupted := pollFlag catchSignals signalHandler delivered false in
                  Ok (0, Some (handleMainThread interrupted process), cleanupMetrics provider)
              end
          end
      end
  end.

(** Polled until it is true, the flag stops the publishing thread. *)
Lemma handleMainThread_stops interrupted p :
  mStopRequested p = false ->
  handleMainThread interrupted p =
    if existsb (fun b => b) interrupted then stop (with_stop p) else p.
Proof.
  intros N. induction interrupted as [|b rest IH]; simpl; rewrite N; [done|]. by destruct b.
Qed.

(** What [main] does with an exporter that cannot be made: the exception is
    not caught, and the program ends with it. *)
Lemma main_uncaught `{StringAlgo} {T} `{PropertyTree T} exists_file vm read_ini delivered
    iniFile o e :
  parseCommandLineOptions exists_file vm = Ok (iniFile, false) ->
  parseIniFile (if exists_file iniFile then Some (read_ini iniFile) else None) = Ok o ->
  exporter (prometheusURL o) = Throw e ->
  main (T:=T) exists_file vm read_ini delivered = Throw e.
Proof. intros E1 E2 E3. unfold main, initializeMetrics. by rewrite E1, E2, E3. Qed.

Ltac leaves_none := by try (intros [= <- <- <-]; split; [auto|intros ? [=]]).

(** With one that can, [main] ends with status 0 only with the publishing
    thread stopped by SIGINT or SIGTERM, or still waiting; the metrics are
    cleaned up except where the process could not be made. *)
Lemma main_status `{StringAlgo} {T} `{PropertyTree T} exists_file vm read_ini delivered c p m :
  (forall url, exporter url = Ok tt) ->
  main (T:=T) exists_file vm read_ini delivered = Ok (c, p, m) ->
  (c = 0 \/ c = 1) /\
  (forall q, p = Some q -> c = 0 /\ m = NoProvider /\ mPublisherThread q = negb (mStopRequested q) /\
     (mStopRequested q = true <->
      exists signals s, signals ∈ delivered /\ s ∈ signals /\ (s = SIGINT \/ s = SIGTERM))).
Proof.
  intros Hx. unfold main.
  destruct (parseCommandLineOptions exists_file vm) as [[iniFile [|]]|x|]; try leaves_none.
  destruct (parseIniFile (if exists_file iniFile then Some (read_ini iniFile) else None))
    as [o|x|]; try leaves_none.
  unfold initializeMetrics. rewrite Hx. simpl.
  destruct (newProcess o) as [q|x|] eqn:En; try leaves_none.
  destruct (start q) as [q'|x|] eqn:Es; try leaves_none.
  intros [= <- <- <-]. split; [by left|]. intros r [= <-]. do 2 (split; [done|]).
  assert (Qs : mStopRequested q' = false /\ mPublisherThread q' = true).
  { unfold start in Es. destruct (Client.start _) as [cl r].
    apply bind_ok in Es as ([] & _ & [= <-]). simpl.
    by apply bind_ok in En as (? & _ & (? & _ & [= <-])%bind_ok). }
  destruct Qs as [Q1 Q2]. rewrite handleMainThread_stops by done.
  pose proof (pollFlag_raised catchSignals signalHandler delivered (fun _ _ => eq_refl)) as P.
  destruct (existsb _ _); simpl; rewrite ?Q1, ?Q2; (split; [done|]).
  - split; [|done]. intros _. destruct (proj1 P eq_refl) as (l & s & ? & ? & C).
    exists l, s. do 2 (split; [done|]). unfold catchSignals in C. set_solver.
  - split; [done|]. intros (l & s & ? & ? & C). exfalso.
    assert (X : false = true) by (apply P; exists l, s; unfold catchSignals; set_solver). done.
Qed.
End process.
Arguments Process : clear implicits.

(** ** Interleavings of the SEEDLink reader and the publishing loop *)
Inductive event := EPacket (p : DataPacketImpl) | EPass (nowMuSeconds : Z).
Definition offered (es : list event) : list DataPacketImpl :=
  omap (fun e => match e with EPacket p => Some p | EPass _ => None end) es.

(** What [addPacketsFromAcquisitionCallback] asks of a packet. *)
Definition publishable (p : DataPacketImpl) : bool :=
  haveNetwork p && haveStation p && haveChannel p && haveSamplingRate p
  && (1 <=? getNumberOfSamples p).

(** The sum of the values recorded with a gauge. *)
Definition gaugeSum (g : gauge) (l : list (gauge * Z)) : Z :=
  foldr (fun x z => (if decide (x.1 = g) then x.2 else 0) + z) 0 l.

Lemma gaugeSum_app g l l' : gaugeSum g (l ++ l')%list = gaugeSum g l + gaugeSum g l'.
Proof.
  induction l as [|x l IH]; [done|].
  change (gaugeSum g ((x :: l) ++ l')%list) with
    ((if decide (x.1 = g) then x.2 else 0) + gaugeSum g (l ++ l')%list).
  change (gaugeSum g (x :: l)) with ((if decide (x.1 = g) then x.2 else 0) + gaugeSum g l).
  rewrite IH. lia.
Qed.

(** Congruence modulo the width of the counters. *)
Definition eqm64 (a b : Z) : Prop := a mod 2 ^ 64 = b mod 2 ^ 64.
#[export] Instance eqm64_equiv : Equivalence eqm64.
Proof. split; unfold eqm64; repeat intros ?; congruence. Qed.
#[export] Instance eqm64_add : Proper (eqm64 ==> eqm64 ==> eqm64) Z.add.
Proof.
  intros a b E c d F. unfold eqm64 in *.
  by rewrite (Zplus_mod a c), (Zplus_mod b d), E, F.
Qed.
Lemma eqm64_wrap z : eqm64 (wrap_u64 z) z.
Proof. unfold eqm64, wrap_u64. by rewrite Zmod_mod. Qed.
Lemma eqm64_i64 z : eqm64 (as_i64 z) z.
Proof. unfold eqm64, as_i64. rewrite Zminus_mod_idemp_l. f_equal. lia. Qed.

Section interleavings.
Local Open Scope list_scope.
Context (env : ZmqEnv) (ndebug : bool) {J V : Type} `{JsonLib J V}.
Context {Q : Type} `{ReaderWriterQueueLaws Q DataPacketImpl}.
Context (record_ : gauge -> Z -> outcome unit).

Record world := mkWorld { wProcess : Process Q; wLocals : locals }.

(** The broadcaster by whole passes of its publishing thread, with packets
    offered between them; BroadcasterThreads takes the same code one access at
    a time.  An exception of the callback is caught by the reader of the
    client. *)
Definition worldStep (e : event) (w : world) : outcome world :=
  match e with
  | EPacket p =>
      match addPacketsFromAcquisitionCallback ndebug p (wProcess w) with
      | Ok (q, _) => Ok (mkWorld q (wLocals w))
      | Throw _ => Ok w
      | Undef => Undef
      end
  | EPass now =>
      '(p, k, _) ← sendStep env (J:=J) record_ now (wProcess w) (wLocals w);
      Ok (mkWorld p k)
  end.

Fixpoint worldRun (es : list event) (w : world) : outcome world :=
  match es with
  | [] => Ok w
  | e :: es' => w ← worldStep e w; worldRun es' w
  end.

Definition socketOf (w : world) : socket :=
  Publisher.mPublisherSocket (mPacketPublisher (wProcess w)).
Definition queueOf (w : world) : list DataPacketImpl := rq_elems (mQueue (wProcess w)).

(** The packets removed from an overfull queue in a run. *)
Definition overfull (w : world) : Z := Z.of_nat (excessOver MAX_QUEUE_SIZE (mQueue (wProcess w))).
Fixpoint overfulls (es : list event) (w : world) : Z :=
  match es with
  | [] => 0
  | e :: es' =>
      match e with EPass _ => overfull w | EPacket _ => 0 end +
      match worldStep e w with Ok w' => overfulls es' w' | _ => 0 end
  end.

Lemma add_inv p (q q' : Process Q) l :
  addPacketsFromAcquisitionCallback ndebug p q = Ok (q', l) ->
  publishable p = true /\ mPacketPublisher q' = mPacketPublisher q /\
  (rq_elems (mQueue q') = rq_elems (mQueue q) \/
   rq_elems (mQueue q') = rq_elems (mQueue q) ++ [p]).
Proof.
  unfold addPacketsFromAcquisitionCallback. intros E.
  apply bind_ok in E as (? & E1%throw_if_ok%negb_false_iff & E).
  apply bind_ok in E as (? & E2%throw_if_ok%negb_false_iff & E).
  apply bind_ok in E as (? & E3%throw_if_ok%negb_false_iff & E).
  apply bind_ok in E as (? & E4%throw_if_ok%negb_false_iff & E).
  apply bind_ok in E as (? & E5%throw_if_ok & E).
  apply bind_ok in E as (? & _ & E).
  unfold publishable. rewrite E1, E2, E3, E4. split; [simpl; lia|].
  pose proof (enqueue_elems p (mQueue q)) as Eq.
  destruct (try_enqueue p (mQueue q)) as [b q1]. by injection E as <- _.
Qed.

Lemma removeExcess_inv q k :
  exists q' k' l, removeExcess q k = (q', k', l) /\
    rq_elems q' = drop (excessOver MAX_QUEUE_SIZE q) (rq_elems q) /\
    nSentPacketsInLastMinute k' = nSentPacketsInLastMinute k /\
    recorded k' = recorded k /\
    eqm64 (nNotSentPacketsInLastMinute k')
          (nNotSentPacketsInLastMinute k + Z.of_nat (excessOver MAX_QUEUE_SIZE q)).
Proof.
  unfold removeExcess. destruct (MAX_QUEUE_SIZE <? size_approx q)%Z eqn:E.
  - destruct (drainTo_spec MAX_QUEUE_SIZE (length (rq_elems q)) q 0) as (q' & -> & E');
      [done|lia|].
    do 3 eexists. split; [reflexivity|]. simpl. split; [done|]. do 2 (split; [done|]).
    apply eqm64_wrap.
  - exists q, k, []. unfold excessOver, size_approx, MAX_QUEUE_SIZE in *.
    replace (length (rq_elems q) - Z.to_nat 1024)%nat with 0%nat by lia.
    rewrite drop_0. do 4 (split; [done|]). simpl. by rewrite Z.add_0_r.
Qed.

Lemma sendFirst_inv pub q k pub' q' k' l :
  sendFirst env (J:=J) pub q k = Ok (pub', q', k', l) ->
  rq_elems q' = drop 1 (rq_elems q) /\
  recorded k' = recorded k /\
  nNotSentPacketsInLastMinute k' = nNotSentPacketsInLastMinute k /\
  exists sent calls,
    Publisher.mPublisherSocket pub' = Publisher.mPublisherSocket pub ++ calls /\
    Forall2 (sends (J:=J)) sent calls /\
    (sent = [] \/ exists p rest, sent = [p] /\ rq_elems q = p :: rest) /\
    eqm64 (nSentPacketsInLastMinute k')
          (nSentPacketsInLastMinute k + Z.of_nat (length sent)).
Proof.
  unfold sendFirst, rq_peek. intros E. destruct (rq_elems q) as [|x rest] eqn:Eq.
  - injection E as <- <- <- _. rewrite Eq. do 3 (split; [done|]).
    exists [], []. rewrite app_nil_r. do 2 (split; [done|]). split; [by left|].
    simpl. by rewrite Z.add_0_r.
  - simpl in E. apply bind_ok in E as ([[pub1 k1] l1] & Ep & E).
    pose proof (rq_pop_elems q) as [Er _]. destruct (rq_pop q) as [popped q1].
    simpl in Er. rewrite Eq in Er. injection E as <- <- <- _. split; [done|].
    destruct (Publisher.send env x pub) as [pub2|e|] eqn:En; [| |done];
      injection Ep as <- <- _; simpl; (do 2 (split; [done|])).
    + apply send_inv in En as (c & Sc & ->). exists [x], [c].
      split; [done|]. split; [by repeat constructor|]. split; [right; eauto|].
      apply eqm64_wrap.
    + exists [], []. rewrite app_nil_r. do 2 (split; [done|]). split; [by left|].
      simpl. by rewrite Z.add_0_r.
Qed.

Lemma logPerformance_inv i n k k' l :
  logPerformance i n k = Ok (k', l) ->
  recorded k' = recorded k /\
  nSentPacketsInLastMinute k' = nSentPacketsInLastMinute k /\
  nNotSentPacketsInLastMinute k' = nNotSentPacketsInLastMinute k.
Proof.
  unfold logPerformance. destruct (0 <? i)%Z; [|by intros [= <- _]].
  intros (t & _ & E)%bind_ok. by destruct (t <=? n)%Z; injection E as <- _.
Qed.

(** What the gauges were given together with what they will be given. *)
Definition sentTotal (k : locals) : Z :=
  (gaugeSum Propagated (recorded k) + nSentPacketsInLastMinute k)%Z.
Definition notSentTotal (k : locals) : Z :=
  (gaugeSum Skipped (recorded k) + nNotSentPacketsInLastMinute k)%Z.

Lemma sendMetrics_inv n k k' l :
  (forall g z, record_ g z = Ok tt) -> sendMetrics record_ n k = Ok (k', l) ->
  eqm64 (sentTotal k') (sentTotal k) /\ eqm64 (notSentTotal k') (notSentTotal k).
Proof.
  intros Hr. unfold sendMetrics, recordBoth, sentTotal, notSentTotal.
  destruct (nextSendMetricTime k <=? n)%Z; [|by intros [= <- _]].
  rewrite !Hr. simpl mbind. intros [= <- _]. cbn [recorded nSentPacketsInLastMinute
    nNotSentPacketsInLastMinute]. rewrite !gaugeSum_app, !Z.add_0_r.
  assert (E1 : forall a b, gaugeSum Propagated [(Propagated, a); (Skipped, b)] = a)
    by (intros; unfold gaugeSum; simpl; lia).
  assert (E2 : forall a b, gaugeSum Skipped [(Propagated, a); (Skipped, b)] = b)
    by (intros; unfold gaugeSum; simpl; lia).
  rewrite E1, E2. split; apply eqm64_add; try apply eqm64_i64; reflexivity.
Qed.

(** The invariant of a run that offered [r] packets and removed [n] from an
    overfull queue. *)
Definition flow (s0 : socket) (k0 : locals) (r : list DataPacketImpl) (n : Z) (w : world)
    : Prop :=
  exists sent calls,
    socketOf w = s0 ++ calls /\ Forall2 (sends (J:=J)) sent calls /\
    (sent ++ queueOf w) `sublist_of` r /\
    Forall (fun p => publishable p = true) (sent ++ queueOf w) /\
    eqm64 (sentTotal (wLocals w)) (sentTotal k0 + Z.of_nat (length sent)) /\
    eqm64 (notSentTotal (wLocals w)) (notSentTotal k0 + n).

Lemma flow_packet s0 k0 r n w w' p :
  flow s0 k0 r n w -> worldStep (EPacket p) w = Ok w' -> flow s0 k0 (r ++ [p]) n w'.
Proof.
  intros (sent & calls & S & F & Sub & P & M) E. simpl in E. unfold queueOf, socketOf in *.
  destruct (addPacketsFromAcquisitionCallback _ _ _) as [[q l]|e|] eqn:Ea; [| |done];
    injection E as <-; exists sent, calls; unfold queueOf, socketOf.
  - apply add_inv in Ea as (Hp & Hs & Hq). simpl. rewrite Hs.
    split; [done|]. split; [done|]. destruct Hq as [-> | ->].
    + split; [by apply sublist_inserts_r|]. by split.
    + rewrite (assoc_L app). split; [by apply sublist_app|].
      split; [|done]. apply Forall_app. split; [done|by apply Forall_singleton].
  - split; [done|]. split; [done|]. split; [by apply sublist_inserts_r|]. by split.
Qed.

Lemma flow_pass s0 k0 r n w w' now :
  (forall g z, record_ g z = Ok tt) ->
  flow s0 k0 r n w -> worldStep (EPass now) w = Ok w' -> flow s0 k0 r (n + overfull w) w'.
Proof.
  intros Hr (sent & calls & S & F & Sub & P & M1 & M2) E. simpl in E.
  apply bind_ok in E as ([[p k] l] & E & [= <-]). unfold sendStep in E.
  destruct (removeExcess_inv (mQueue (wProcess w)) (wLocals w))
    as (q1 & k1 & l1 & Ee & Q1 & S1 & R1 & N1).
  rewrite Ee in E. apply bind_ok in E as ([[[pub2 q2] k2] l2] & E2 & E).
  apply bind_ok in E as ([k3 l3] & E3 & E). apply bind_ok in E as ([k4 l4] & E4 & [= <- <- <-]).
  apply sendFirst_inv in E2 as (Q2 & R2 & N2 & s & c & Sc & Fc & Hs & S2).
  apply logPerformance_inv in E3 as (R3 & S3 & N3).
  apply (sendMetrics_inv _ _ _ _ Hr) in E4 as [S4 N4].
  assert (Qs : exists m, s ++ rq_elems q2 = drop m (queueOf w) \/
                         s = [] /\ rq_elems q2 = drop m (queueOf w)).
  { unfold queueOf. rewrite Q1 in *. destruct Hs as [-> | (x & rest & -> & Eq)].
    - exists (excessOver MAX_QUEUE_SIZE (mQueue (wProcess w)) + 1)%nat. right.
      split; [done|]. rewrite Q2, drop_drop. done.
    - exists (excessOver MAX_QUEUE_SIZE (mQueue (wProcess w))). left.
      by rewrite Q2, Eq. }
  assert (Qd : exists m, s ++ rq_elems q2 = drop m (queueOf w))
    by (destruct Qs as [m [?|[-> ?]]]; by exists m).
  destruct Qd as [m Qd]. exists (sent ++ s), (calls ++ c).
  change (queueOf (mkWorld (with_queue pub2 q2 (wProcess w)) k4)) with (rq_elems q2).
  unfold socketOf in *. simpl. rewrite Sc, S, <- !(assoc_L app), Qd.
  split; [done|]. split; [by apply Forall2_app|].
  split; [etrans; [|exact Sub]; apply sublist_app; [done|apply sublist_drop]|].
  apply Forall_app in P as [P1 P2].
  split; [apply Forall_app; split; [done|by apply Forall_drop]|].
  unfold sentTotal, notSentTotal in *. rewrite R3, R2, R1 in *. rewrite S3, N3 in *.
  split.
  - rewrite S4, S2, S1, length_app, Nat2Z.inj_add, !Z.add_assoc, M1. reflexivity.
  - rewrite N4, N2, N1, !Z.add_assoc, M2. reflexivity.
Qed.

Lemma loop_flow_run es s0 k0 r n w w' :
  (forall g z, record_ g z = Ok tt) ->
  flow s0 k0 r n w -> worldRun es w = Ok w' ->
  flow s0 k0 (r ++ offered es) (n + overfulls es w) w'.
Proof.
  intros Hr. revert r n w. induction es as [|e es IH]; intros r n w Fl; simpl.
  - intros [= <-]. by rewrite app_nil_r, Z.add_0_r.
  - intros (w1 & E1 & E2)%bind_ok. destruct e as [p|now].
    + pose proof (IH _ _ _ (flow_packet _ _ _ _ _ _ _ Fl E1) E2) as G.
      simpl in E1. simpl. rewrite E1. by rewrite <- (assoc_L app) in G.
    + pose proof (IH _ _ _ (flow_pass _ _ _ _ _ _ _ Hr Fl E1) E2) as G.
      simpl in E1. simpl. rewrite E1. by rewrite Z.add_assoc.
Qed.
End interleavings.
Arguments mkWorld {Q}.

(** ** Properties *)

(** *** Selectors *)
Section selectors.
Context `{StringAlgoLaws}.

Lemma at_ok (l : list string) i f : at_ l i = Ok f <-> l !! i = Some f.
Proof. unfold at_. destruct (l !! i); split; congruence. Qed.

(** A text whose first field has two characters is longer than it has
    fields. *)
Lemma fields_short text n rest :
  split white text = n :: rest -> String.length (trim n) = 2%nat ->
  (length (n :: rest) + 1 <= String.length text)%nat.
Proof.
  intros E L. pose proof (split_length white text) as M. rewrite E in M.
  pose proof (trim_length n). simpl in *. lia.
Qed.

Lemma parseSelector_five n st ch lo ty rest text :
  split white (trim text) = n :: st :: ch :: lo :: ty :: rest ->
  String.length (trim n) = 2%nat -> trim st <> "" ->
  parseSelector text =
    Ok (StreamSelector.mk (str_map toupper (trim n)) (str_map toupper (trim st)) (trim ch)
          (trim lo) (if decide (trim ty = "D") then StreamSelector.Data
                     else StreamSelector.All)).
Proof.
  intros E L Hs. pose proof (fields_short _ _ _ E L) as M. simpl in M.
  unfold parseSelector. rewrite E.
  rewrite !(proj2 (Nat.ltb_lt _ (String.length (trim text)))) by lia.
  assert (N : str_empty (trim text) = false) by (destruct (trim text); [simpl in M; lia|done]).
  rewrite N. simpl. unfold StreamSelector.setNetwork. rewrite L. simpl.
  unfold StreamSelector.setStation. destruct (trim st); [done|]. reflexivity.
Qed.

(** A selector of the ini file is accepted exactly when it has all five
    fields, the first of two characters and the second not empty - the
    guards that make the last four optional compare the length of the text -
    and the stream selector has those fields. *)
Theorem selector_needs_five_fields text s :
  parseSelector text = Ok s <->
  exists n st ch lo ty rest,
    split white (trim text) = n :: st :: ch :: lo :: ty :: rest /\
    String.length (trim n) = 2%nat /\ trim st <> "" /\
    s = StreamSelector.mk (str_map toupper (trim n)) (str_map toupper (trim st)) (trim ch)
          (trim lo) (if decide (trim ty = "D") then StreamSelector.Data
                     else StreamSelector.All).
Proof.
  split.
  2:{ intros (n & st & ch & lo & ty & rest & E & L & Hs & ->). by eapply parseSelector_five. }
  intros E. pose proof E as E'. unfold parseSelector in E.
  apply bind_ok in E as (? & _ & E). apply bind_ok in E as (n & E0%at_ok & E).
  apply bind_ok in E as (s1 & E1 & E).
  destruct (split white (trim text)) as [|n' fields] eqn:Ef; [done|].
  simpl in E0. injection E0 as ->.
  unfold StreamSelector.setNetwork in E1. apply bind_ok in E1 as (? & L & _).
  apply throw_if_ok, negb_false_iff, Nat.eqb_eq in L.
  pose proof (fields_short _ _ _ Ef L) as M. simpl in M.
  destruct (Nat.ltb_spec 1 (String.length (trim text))); [|lia].
  apply bind_ok in E as (s2 & (st & E2%at_ok & E2')%bind_ok & E).
  destruct fields as [|st' fields]; [done|]. simpl in E2. injection E2 as ->. simpl in M.
  destruct (Nat.ltb_spec 2 (String.length (trim text))); [|lia].
  apply bind_ok in E as (? & (ch & E3%at_ok & _)%bind_ok & E).
  destruct fields as [|ch' fields]; [done|]. simpl in M.
  destruct (Nat.ltb_spec 3 (String.length (trim text))); [|lia].
  apply bind_ok in E as (? & (lo & E4%at_ok & _)%bind_ok & E).
  destruct fields as [|lo' fields]; [done|]. simpl in M.
  destruct (Nat.ltb_spec 4 (String.length (trim text))); [|lia].
  apply bind_ok in E as (? & (ty & E5%at_ok & _)%bind_ok & E).
  destruct fields as [|ty' fields]; [done|].
  apply bind_ok in E2' as (? & Hs%throw_if_ok & _).
  assert (Hs' : trim st <> "") by (intros Z; rewrite Z in Hs; done).
  do 6 eexists. split; [reflexivity|]. split; [done|]. split; [done|].
  rewrite (parseSelector_five _ _ _ _ _ _ _ Ef L Hs') in E'. by injection E' as <-.
Qed.
End selectors.

(** *** The run *)
Section properties.
Local Open Scope list_scope.
Context (env : ZmqEnv) (ndebug : bool) {J V : Type} `{JsonLib J V}.
Context {Q : Type} `{ReaderWriterQueueLaws Q DataPacketImpl}.
Context (record_ : gauge -> Z -> outcome unit).

Lemma flow_new sl o p now :
  newProcess (Q:=Q) env sl ndebug o = Ok p ->
  flow (J:=J) (socketOf (mkWorld p (localsAt now))) (localsAt now) [] 0
    (mkWorld p (localsAt now)).
Proof.
  intros En. apply bind_ok in En as (pub & _ & (client & _ & [= <-])%bind_ok).
  exists [], []. unfold queueOf, socketOf. simpl. rewrite app_nil_r, rq_new_elems.
  do 5 (split; [done|]). done.
Qed.

(** In any interleaving of the packets of the SEEDLink client with the
    passes of the publishing thread of a new process, what is sent and then
    what waits is a part of what the client offered, in order, and every
    packet of it has a network, a station, a channel, a sampling rate and
    samples.  The gauge of propagated packets adds up to the packets that
    were sent; the gauge of skipped packets adds up to those removed from an
    overfull queue, so that a packet that could not be sent is in neither. *)
Theorem broadcaster_run sl o p now es w :
  newProcess env sl ndebug o = Ok p ->
  (forall g z, record_ g z = Ok tt) ->
  worldRun env ndebug (J:=J) record_ es (mkWorld p (localsAt now)) = Ok w ->
  exists sent calls,
    socketOf w = socketOf (mkWorld p (localsAt now)) ++ calls /\
    Forall2 (sends (J:=J)) sent calls /\
    (sent ++ queueOf w) `sublist_of` offered es /\
    Forall (fun x => publishable x = true) (sent ++ queueOf w) /\
    eqm64 (sentTotal (wLocals w)) (Z.of_nat (length sent)) /\
    eqm64 (notSentTotal (wLocals w))
          (overfulls env ndebug (J:=J) record_ es (mkWorld p (localsAt now))).
Proof.
  intros En Hr E.
  pose proof (flow_new sl o p now En) as F.
  pose proof (loop_flow_run env ndebug record_ es _ _ _ _ _ _ Hr F E) as G.
  by rewrite Z.add_0_l in G.
Qed.
End properties.

(** ** Examples *)

(** Plain string algorithms. *)
Module PlainText.
Definition mem (c : ascii) (s : string) : bool :=
  bool_decide (c ∈ String.list_ascii_of_string s).
Fixpoint split (seps s : string) : list string :=
  match s with
  | EmptyString => [""]
  | String c s' =>
      match split seps s' with
      | [] => []
      | f :: l => if mem c seps then "" :: f :: l else String c f :: l
      end
  end.
Fixpoint trimLeft (s : string) : string :=
  match s with
  | EmptyString => ""
  | String c s' => if isspace c then trimLeft s' else s
  end.
Fixpoint trimRight (s : string) : string :=
  match s with
  | EmptyString => ""
  | String c s' =>
      let t := trimRight s' in
      if str_empty t && isspace c then "" else String c t
  end.

#[global] Instance plain : StringAlgo :=
  {| SeedLinkPublisher.split := split; trim s := trimRight (trimLeft s) |}.

Lemma split_cons seps s : exists f l, split seps s = f :: l.
Proof.
  induction s as [|c s (f & l & E)]; simpl; [by do 2 eexists|].
  rewrite E. destruct (mem c seps); by do 2 eexists.
Qed.
Lemma trimLeft_length s : (String.length (trimLeft s) <= String.length s)%nat.
Proof. induction s as [|c s IH]; simpl; [lia|]. destruct (isspace c); simpl; lia. Qed.
Lemma trimRight_length s : (String.length (trimRight s) <= String.length s)%nat.
Proof. induction s as [|c s IH]; simpl; [lia|]. destruct (_ && _); simpl; lia. Qed.

#[global] Instance plain_laws : StringAlgoLaws.
Proof.
  split.
  - intros seps s. simpl. induction s as [|c s IH]; [done|]. simpl.
    destruct (split_cons seps s) as (f & l & E). rewrite E in *.
    destruct (mem c seps); simpl in *; lia.
  - intros s. simpl. pose proof (trimRight_length (trimLeft s)).
    pose proof (trimLeft_length s). lia.
Qed.
End PlainText.

Example five_fields :
  parseSelector " UU FORK HH? 01 D " =
  Ok (StreamSelector.mk "UU" "FORK" "HH?" "01" StreamSelector.Data).
Proof. vm_compute. reflexivity. Qed.

(** The example of the comment in the code is not accepted, nor is a network
    with a station. *)
Example dotted : parseSelector "UU.FORK.HH?.01" = Throw (InvalidArgument "Network size must 2").
Proof. vm_compute. reflexivity. Qed.
Example two_fields :
  parseSelector "UU FORK" = Throw (OutOfRange "vector::_M_range_check").
Proof. vm_compute. reflexivity. Qed.

Definition demoBroadcasterIni : ListTree.tree :=
  [("ZeroMQ.proxyFrontendAddress", ListTree.EString "tcp://127.0.0.1:6000");
   ("SEEDLink.address", ListTree.EString "rtserve.iris.washington.edu");
   ("SEEDLink.data_selector_2", ListTree.EString "UU FORK HH? 01 D | UU CTU EN? 01 D")].
(** The first three of the 32768 names. *)
Example ini_selectors :
  ClientOptions.getStreamSelectors <$>
    readSelectors demoBroadcasterIni "SEEDLink" 1 3 ClientOptions.new =
  Ok [StreamSelector.mk "UU" "FORK" "HH?" "01" StreamSelector.Data;
      StreamSelector.mk "UU" "CTU" "EN?" "01" StreamSelector.Data].
Proof. vm_compute. reflexivity. Qed.

Abbreviation DemoQueue := (ListQueue.queue DataPacketImpl).
Definition demoBroadcaster : Process DemoQueue :=
  match newProcess willing demoSL true defaultOptions with
  | Ok p => p
  | _ => mkProcess false (Publisher.mk (PublisherOptions.mk "" 0 0 false) [] false)
           (ListQueue.mk 0 []) Client.fresh 0 false false
  end.

(** Two packets, then two passes of which the second is a minute later. *)
Definition demoRun : list event :=
  [EPacket demoPacket; EPacket newPacket; EPacket demoPacket;
   EPass 5000000; EPass 65000000].
Definition demoGauges (g : gauge) (z : Z) : outcome unit := Ok tt.
Definition demoAfter : world :=
  match worldRun willing true (J:=TinyJson.doc) demoGauges demoRun
          (mkWorld demoBroadcaster (localsAt 0)) with
  | Ok w => w
  | _ => mkWorld demoBroadcaster (localsAt 0)
  end.

Lemma selector_needs_five_fields_witness :
  parseSelector " UU FORK HH? 01 A " =
    Ok (StreamSelector.mk "UU" "FORK" "HH?" "01" StreamSelector.All) /\
  ~ exists s, parseSelector "UU FORK HH?" = Ok s.
Proof.
  split.
  - apply (proj2 (selector_needs_five_fields " UU FORK HH? 01 A " _)).
    exists "UU", "FORK", "HH?", "01", "A", []. by vm_compute.
  - intros [s E]. apply (proj1 (selector_needs_five_fields "UU FORK HH?" s)) in E
      as (n & st & ch & lo & ty & rest & E & _).
    vm_compute in E. discriminate E.
Defined.

Lemma broadcaster_run_witness :
  queueOf demoAfter = [] /\
  recorded (wLocals demoAfter) = [(Propagated, 2); (Skipped, 0)] /\
  exists sent calls,
    socketOf demoAfter =
      (socketOf (mkWorld demoBroadcaster (localsAt 0)) ++ calls)%list /\
    Forall2 (sends (J:=TinyJson.doc)) sent calls /\
    eqm64 2 (Z.of_nat (length sent)).
Proof.
  assert (N : newProcess willing demoSL true defaultOptions = Ok demoBroadcaster)
    by (vm_compute; reflexivity).
  assert (E : worldRun willing true (J:=TinyJson.doc) demoGauges demoRun
                (mkWorld demoBroadcaster (localsAt 0)) = Ok demoAfter)
    by (vm_compute; reflexivity).
  destruct (broadcaster_run willing true demoGauges demoSL defaultOptions demoBroadcaster 0
              demoRun demoAfter N (fun _ _ => eq_refl) E) as (sent & calls & S & F & _ & _ & G & _).
  split; [by vm_compute|]. split; [by vm_compute|].
  exists sent, calls. split; [exact S|]. split; [exact F|].
  assert (T : sentTotal (wLocals demoAfter) = 2) by (vm_compute; reflexivity).
  rewrite T in G. exact G.
Defined.
