(* ===== verification/WebServer.v ===== *)
(** * The HTTP and WebSocket server

    services/webServer: MIME types and paths, the answer to a request
    (server.hpp), messages and their JSON (messages/message.cpp,
    messages/error.cpp), the life of a connection from the detection of TLS
    to its end, the write queue of a WebSocket session, and the listener
    (listener.cpp).  Boost.Beast is not part of the repository: a response is
    a value of the interface [HttpMessage], and an asynchronous operation is
    started by the code and completed by the environment, with the error
    code of the environment's choice.  [CallbackHandler::process] is declared
    and not defined in the repository: it is a parameter. *)
From Stdlib Require Import ZArith Ascii String Lia.
From stdpp Require Import base tactics list gmap strings.
From S2P Require Import Prelude JsonLib Interfaces.

Open Scope string_scope.
Open Scope Z_scope.

(** ** MIME types and paths *)
Definition fileMap : gmap string string := list_to_map
  [(".htm", "text/html"); (".html", "text/html"); (".php", "text/html");
   (".css", "text/css"); (".txt", "text/plain"); (".js", "application/javascript");
   (".json", "application/json"); (".geojson", "application/json");
   (".xml", "application/xml"); (".swf", "application/x-shockwave-flash");
   (".flv", "video/x-flv"); (".png", "image/png"); (".jpe", "image/jpeg");
   (".jpeg", "image/jpeg"); (".jpg", "image/jpeg"); (".gif", "image/gif");
   (".bmp", "image/bmp"); (".ico", "image/vnd.microsoft.icon");
   (".tiff", "image/tiff"); (".tif", "image/tiff"); (".svg", "image/svg+xml");
   (".svgz", "image/svg+xml")].

(** [std::filesystem::path::filename]: what follows the last slash. *)
Fixpoint filename (s : string) : string :=
  match s with
  | EmptyString => EmptyString
  | String c s' =>
      if decide (c = "/"%char) then filename s'
      else if String.index 0 "/" s' is Some _ then filename s' else s
  end.

(** The text from the last dot on, if there is a dot. *)
Fixpoint last_dot (s : string) : option string :=
  match s with
  | EmptyString => None
  | String c s' =>
      match last_dot s' with
      | Some e => Some e
      | None => if decide (c = "."%char) then Some s else None
      end
  end.

(** [std::filesystem::path::extension]: a name that begins with its only dot
    has none, nor have "." and "..". *)
Definition extension (path : string) : string :=
  match filename path with
  | EmptyString => ""
  | String c name =>
      if decide (String c name = "..") then "" else default "" (last_dot name)
  end.

Definition getMIMEType (path : string) : string :=
  default "application/text" (fileMap !! extension path).

Fixpoint str_last (s : string) : option ascii :=
  match s with
  | EmptyString => None
  | String c s' => if str_empty s' then Some c else str_last s'
  end.

Fixpoint drop_last (s : string) : string :=
  match s with
  | EmptyString => EmptyString
  | String c s' => if str_empty s' then EmptyString else String c (drop_last s')
  end.

(** [back] of an empty string is undefined. *)
Definition createPath (base path : string) : outcome string :=
  back ← of_option (str_last base);
  let result := if decide (back = "/"%char) then drop_last base else base in
  Ok (result +:+ path).

Example extension_examples :
  extension "/a.b/c.json" = ".json" /\ extension "/a.b/c" = "" /\ extension "/.profile" = "" /\
  extension "/.." = "" /\ extension "x.tar.gz" = ".gz" /\ extension "a." = ".".
Proof. vm_compute. repeat split. Qed.

(** ** Requests and responses *)
Inductive verb := VOptions | VGet | VOther (name : string).

#[export] Instance verb_eq_dec : EqDecision verb.
Proof. solve_decision. Defined.

Record request := mkRequest {
  method : verb;
  version : Z;
  target : string;
  requestBody : string;
  requestKeepAlive : bool
}.

(** [boost::beast::http::response<string_body>] *)
Class HttpMessage (M : Type) := {
  m_new : Z -> Z -> M;                   (* response(status, version) *)
  m_set : string -> string -> M -> M;    (* set(field, value) *)
  m_set_keep_alive : bool -> M -> M;     (* keep_alive(b) *)
  m_set_body : string -> M -> M;         (* body() = s *)
  m_prepare_payload : M -> M;
  m_status : M -> Z;
  m_keep_alive : M -> bool;              (* keep_alive() *)
  m_body : M -> string
}.

Class HttpMessageLaws (M : Type) `{HttpMessage M} := {
  status_new s v : m_status (m_new s v) = s;
  status_set k v m : m_status (m_set k v m) = m_status m;
  status_keep b m : m_status (m_set_keep_alive b m) = m_status m;
  status_body s m : m_status (m_set_body s m) = m_status m;
  status_prepare m : m_status (m_prepare_payload m) = m_status m;
  (* the semantics of the connection are those set last *)
  keep_keep b m : m_keep_alive (m_set_keep_alive b m) = b;
  keep_body s m : m_keep_alive (m_set_body s m) = m_keep_alive m;
  keep_prepare m : m_keep_alive (m_prepare_payload m) = m_keep_alive m;
  body_body s m : m_body (m_set_body s m) = s;
  body_prepare m : m_body (m_prepare_payload m) = m_body m
}.

#[export] Hint Rewrite @status_new @status_set @status_keep @status_body @status_prepare
  @keep_keep @keep_body @keep_prepare @body_body @body_prepare using apply _ : us8.

Definition quoted (s : string) : string :=
  let q := String (ascii_of_nat 34) EmptyString in q +:+ s +:+ q.

Definition newline : string := String (ascii_of_nat 10) EmptyString.
Definition newlines : string := newline +:+ newline.

(** The exceptions of exception.cpp, each with its text; [what] is a C
    string. *)
Inductive serverException :=
  | InvalidPermission (message : string)
  | BadRequest (message : string)
  | Unimplemented (message : string)
  | NoContent (message : string)
  | NotFound (message : string).

Definition exceptionWhat (e : serverException) : string :=
  match e with
  | InvalidPermission m | BadRequest m | Unimplemented m | NoContent m | NotFound m => c_str m
  end.

Section handle.
Context {M : Type} `{HttpMessage M}.
Context (enable_cors : bool)             (* the macro ENABLE_CORS *)
        (beast_version : string).        (* BOOST_BEAST_VERSION_STRING *)

(** The beginning all the answers share. *)
Definition startResponse (status : Z) (r : request) : M :=
  let m := m_new status (version r) in
  if enable_cors then m_set "Access-Control-Allow-Origin" "*" m else m.

Definition badRequest (why : string) (r : request) : M * list line :=
  (m_prepare_payload
     (m_set_body ("{" +:+ quoted "status" +:+ ":" +:+ quoted "error" +:+ ", " +:+
                  quoted "reason" +:+ ":" +:+ quoted why +:+ "}")
        (m_set_keep_alive (requestKeepAlive r)
           (m_set "Content-Type" "application/json"
              (m_set "Server" beast_version (startResponse 400 r))))),
   [Info "Bad request"]).

Definition serverError (what : string) (r : request) : M * list line :=
  (m_prepare_payload
     (m_set_body ("{" +:+ quoted "status" +:+ ":" +:+ quoted "error" +:+ "," +:+
                  quoted "reason" +:+ ":" +:+ quoted what +:+ "}")
        (m_set_keep_alive (requestKeepAlive r)
           (m_set "Content-Type" "application/json"
              (m_set "Server" beast_version (startResponse 500 r))))),
   [Info "WebServer error"]).

(** The five that only commented out code calls.  A body is set on all but
    the answer without content. *)
Definition page (status : Z) (contentType : string) (body : option string) (r : request) : M :=
  let m := m_set_keep_alive (requestKeepAlive r)
             (m_set "Content-Type" contentType
                (m_set "Server" beast_version (startResponse status r))) in
  m_prepare_payload (match body with Some b => m_set_body b m | None => m end).

Definition reason (why : string) : string :=
  "{" +:+ quoted "status" +:+ ":" +:+ quoted "error" +:+ "," +:+
  quoted "reason" +:+ ":" +:+ quoted why +:+ "}".

Definition forbidden (why : string) (r : request) : M * list line :=
  (page 403 "application/json" (Some (reason why)) r, [Info "Forbidden"]).
Definition unimplemented (why : string) (r : request) : M * list line :=
  (page 501 "text/html" (Some why) r, [Info "Unimplemented"]).
Definition notFound (target : string) (r : request) : M * list line :=
  (page 404 "text/html"
     (Some ("Error 404: No data selected" +:+ newlines +:+ "Request:" +:+ newline +:+ target)) r, []).
Definition noContent (target : string) (r : request) : M * list line :=
  (page 204 "text/html" None r, []).
Definition unauthorized (target : string) (r : request) : M * list line :=
  (page 401 "application/json" (Some (reason target)) r, [Info "Unauthorized"]).

Definition allowedHeaders : string :=
  "Access-Control-Allow-Origin, Access-Control-Allow-Headers, " +:+
  "Access-Control-Allow-Methods, Connection, Origin, Accept, X-Requested-With, " +:+
  "Content-Type, Access-Control-Request-Method, Access-Control-Request-Headers, " +:+
  "Authorization".

Definition optionsHandler (r : request) : M * list line :=
  (m_prepare_payload
     (m_set_body ""
        (m_set_keep_alive (requestKeepAlive r)
           (m_set "Content-Type" "text/html"
              (m_set "Server" beast_version
                 (m_set "Connection" "close"
                    (m_set "Access-Control-Max-Age" "3600"
                       (m_set "Access-Control-Allow-Headers" allowedHeaders
                          (m_set "Access-Control-Allow-Methods" "GET,HEAD,OPTIONS,POST,PUT"
                             (m_set "Access-Control-Allow-Credentials" "true"
                                (startResponse 204 r)))))))))),
   []).

(** The call of the handler is commented out: a GET falls through to the
    last line. *)
Definition handleRequest (documentRoot : string) (r : request) : M * list line :=
  if decide (method r = VOptions) then optionsHandler r
  else if decide (method r <> VGet) then badRequest "Unknown HTTP-method" r
  else serverError "Unhandled method" r.

Context `{!HttpMessageLaws M}.

Lemma handleRequest_keep root r :
  m_keep_alive (handleRequest root r).1 = requestKeepAlive r.
Proof.
  unfold handleRequest, optionsHandler, badRequest, serverError.
  repeat case_decide; simpl; by autorewrite with us8.
Qed.

Lemma startResponse_status s r : m_status (startResponse s r) = s.
Proof. unfold startResponse. destruct enable_cors; by autorewrite with us8. Qed.

(** Every page has its status, keeps the connection as the request asks, and
    has the body it was given. *)
Lemma page_spec status contentType body r :
  m_status (page status contentType body r) = status /\
  m_keep_alive (page status contentType body r) = requestKeepAlive r /\
  forall b, body = Some b -> m_body (page status contentType body r) = b.
Proof.
  unfold page. destruct body as [b|]; autorewrite with us8; rewrite startResponse_status;
    (split; [done|split; [done|]]); intros b' [= <-]. by autorewrite with us8.
Qed.

Lemma handleRequest_status root r :
  m_status (handleRequest root r).1 =
    match method r with VOptions => 204 | VGet => 500 | VOther _ => 400 end.
Proof.
  unfold handleRequest, optionsHandler, badRequest, serverError.
  destruct (method r); simpl; autorewrite with us8; apply startResponse_status.
Qed.
End handle.

(** ** A connection

    At most one asynchronous operation should be under way; to make that a
    theorem the state keeps a list of them.  Each function that starts one
    appends it, and a completion takes its own off first. *)
Inductive errorCode :=
  | Success
  | EndOfStream
  | StreamTruncated
  | WebSocketClosed
  | Failed (description : string).

#[export] Instance errorCode_eq_dec : EqDecision errorCode.
Proof. solve_decision. Defined.

Definition ec_what (e : errorCode) : string :=
  match e with
  | Success => "Success"
  | EndOfStream => "end of stream"
  | StreamTruncated => "stream truncated"
  | WebSocketClosed => "The WebSocket stream was gracefully closed at both endpoints"
  | Failed d => d
  end.

(** The line written for an error that is not a truncated stream. *)
Definition complaint (text : string) (e : errorCode) : list line :=
  if decide (e = StreamTruncated) then [] else [Critical (text +:+ ec_what e)].

(** The first element with a property, and the others. *)
Fixpoint take_first {A} (p : A -> bool) (l : list A) : option (A * list A) :=
  match l with
  | [] => None
  | x :: l' =>
      if p x then Some (x, l')
      else match take_first p l' with
           | Some (y, l'') => Some (y, x :: l'')
           | None => None
           end
  end.

Module Session.

Inductive asyncop :=
  | OpDetect                      (* async_detect_ssl *)
  | OpDispatch (secure : bool)    (* dispatch of doRead, or of the handshake *)
  | OpHandshake
  | OpRead (body_limit : Z)
  | OpWrite (keepAlive : bool)
  | OpShutdown.

#[export] Instance asyncop_eq_dec : EqDecision asyncop.
Proof. solve_decision. Defined.

Section session.
Context {M : Type} `{HttpMessage M}.
Context (enable_cors : bool) (beast_version : string).

Record Connection := mk {
  mDocumentRoot : string;
  mSecure : bool;                 (* an SSLSession, otherwise a PlainSession *)
  mOutstanding : list asyncop;
  mExpires : option Z;            (* the time out, in seconds, set last *)
  mWritten : list M;              (* the messages given to async_write *)
  mShutdownSend : bool;           (* the plain socket was shut down *)
  mLog : list line
}.

Definition start_op (o : asyncop) (s : Connection) : Connection :=
  mk (mDocumentRoot s) (mSecure s) (mOutstanding s ++ [o])%list (mExpires s) (mWritten s)
     (mShutdownSend s) (mLog s).
Definition with_outstanding (l : list asyncop) (s : Connection) : Connection :=
  mk (mDocumentRoot s) (mSecure s) l (mExpires s) (mWritten s) (mShutdownSend s) (mLog s).
Definition expires_after (seconds : Z) (s : Connection) : Connection :=
  mk (mDocumentRoot s) (mSecure s) (mOutstanding s) (Some seconds) (mWritten s)
     (mShutdownSend s) (mLog s).
Definition log (l : list line) (s : Connection) : Connection :=
  mk (mDocumentRoot s) (mSecure s) (mOutstanding s) (mExpires s) (mWritten s)
     (mShutdownSend s) (mLog s ++ l)%list.

(** [make_shared<DetectSession>(...)->run()] *)
Definition detectRun (documentRoot : string) : Connection :=
  start_op OpDetect (expires_after 30 (mk documentRoot false [] None [] false [])).

(** [make_shared<SSLSession>(...)->run()] or [make_shared<PlainSession>(...)->run()]:
    a new stream, without a time out. *)
Definition sessionRun (secure : bool) (s : Connection) : Connection :=
  start_op (OpDispatch secure)
    (mk (mDocumentRoot s) secure (mOutstanding s) None (mWritten s) false (mLog s)).

Definition onDetect (e : errorCode) (result : bool) (s : Connection) : Connection :=
  if decide (e <> Success) then
    log (complaint "DetectSession::onDetect: Failed to detect; failed with: " e) s
  else sessionRun result s.

Definition doRead (s : Connection) : Connection :=
  start_op (OpRead 2048) (expires_after 30 s).

Definition onDispatch (secure : bool) (s : Connection) : Connection :=
  if secure then start_op OpHandshake (expires_after 30 s) else doRead s.

Definition onHandshake (e : errorCode) (s : Connection) : Connection :=
  if decide (e <> Success) then
    log (complaint "SSLSession::onHandhsake handshake failed with: " e) s
  else doRead s.

Definition closeConnection (s : Connection) : Connection :=
  if mSecure s then start_op OpShutdown (expires_after 30 s)
  else mk (mDocumentRoot s) (mSecure s) (mOutstanding s) (mExpires s) (mWritten s) true (mLog s).

Definition onShutdown (e : errorCode) (s : Connection) : Connection :=
  if decide (e <> Success) then log (complaint "SSLSession::onShutdown failed with: " e) s
  else s.

Definition sendResponse (message : M) (s : Connection) : Connection :=
  start_op (OpWrite (m_keep_alive message))
    (mk (mDocumentRoot s) (mSecure s) (mOutstanding s) (mExpires s)
        (mWritten s ++ [message])%list (mShutdownSend s) (mLog s)).

Definition onRead (e : errorCode) (r : request) (s : Connection) : Connection :=
  if decide (e = EndOfStream) then closeConnection s
  else if decide (e <> Success) then log (complaint "Session::onRead read failed with " e) s
  else
    let '(m, l) := handleRequest enable_cors beast_version (mDocumentRoot s) r in
    sendResponse m (log l s).

Definition onWrite (keepAlive : bool) (e : errorCode) (s : Connection) : Connection :=
  if decide (e <> Success) then log (complaint "Session::onWrite write failed with " e) s
  else if negb keepAlive then closeConnection s
  else doRead s.

(** A completion: which operation ended, and how. *)
Inductive completion :=
  | DoneDetect (e : errorCode) (result : bool)
  | DoneDispatch
  | DoneHandshake (e : errorCode)
  | DoneRead (e : errorCode) (r : request)   (* the request read, if [e] is [Success] *)
  | DoneWrite (e : errorCode)
  | DoneShutdown (e : errorCode).

Definition completes (c : completion) (o : asyncop) : bool :=
  match c, o with
  | DoneDetect _ _, OpDetect | DoneDispatch, OpDispatch _ | DoneHandshake _, OpHandshake
  | DoneRead _ _, OpRead _ | DoneWrite _, OpWrite _ | DoneShutdown _, OpShutdown => true
  | _, _ => false
  end.

Definition take_op (c : completion) (l : list asyncop) : option (asyncop * list asyncop) :=
  take_first (completes c) l.

Definition handler (c : completion) (o : asyncop) : Connection -> Connection :=
  match c, o with
  | DoneDetect e b, _ => onDetect e b
  | DoneDispatch, OpDispatch secure => onDispatch secure
  | DoneHandshake e, _ => onHandshake e
  | DoneRead e r, _ => onRead e r
  | DoneWrite e, OpWrite keepAlive => onWrite keepAlive e
  | DoneShutdown e, _ => onShutdown e
  | _, _ => id
  end.

Fixpoint sessionSteps (l : list completion) (s : Connection) : option Connection :=
  match l with
  | [] => Some s
  | c :: l' =>
      match take_op c (mOutstanding s) with
      | Some (o, rest) => sessionSteps l' (handler c o (with_outstanding rest s))
      | None => None
      end
  end.

(** The requests read, in order. *)
Fixpoint requests (l : list completion) : list request :=
  match l with
  | [] => []
  | DoneRead Success r :: l' => r :: requests l'
  | _ :: l' => requests l'
  end.

(** Where a connection can be: the operation under way, the requests read so
    far and the time out. *)
Inductive phase : list asyncop -> list request -> option Z -> Prop :=
  | phase_detect : phase [OpDetect] [] (Some 30)
  | phase_dispatch b : phase [OpDispatch b] [] None
  | phase_handshake : phase [OpHandshake] [] (Some 30)
  | phase_read rs : Forall (fun r => requestKeepAlive r = true) rs ->
      phase [OpRead 2048] rs (Some 30)
  | phase_write rs r : Forall (fun r => requestKeepAlive r = true) rs ->
      phase [OpWrite (requestKeepAlive r)] (rs ++ [r]) (Some 30)
  | phase_shutdown rs : Forall (fun r => requestKeepAlive r = true) (removelast rs) ->
      phase [OpShutdown] rs (Some 30)
  | phase_ended rs x : Forall (fun r => requestKeepAlive r = true) (removelast rs) ->
      phase [] rs x.

Definition answers (root : string) (rs : list request) : list M :=
  (fun r => (handleRequest enable_cors beast_version root r).1) <$> rs.

Definition connection_ok (root : string) (rs : list request) (s : Connection) : Prop :=
  mDocumentRoot s = root /\ phase (mOutstanding s) rs (mExpires s) /\
  mWritten s = answers root rs.

Context `{!HttpMessageLaws M}.

Lemma Forall_removelast {A} (P : A -> Prop) l : Forall P l -> Forall P (removelast l).
Proof.
  induction l as [|x l IH]; [done|]. intros [Hx Hl]%Forall_cons. simpl.
  destruct l; [done|]. apply Forall_cons. auto.
Qed.

Lemma answers_app root rs rs' : answers root (rs ++ rs')%list = (answers root rs ++ answers root rs')%list.
Proof. apply fmap_app. Qed.

(** What a closed or failed operation leaves behind. *)
Lemma connection_ended root rs s s' :
  mDocumentRoot s' = mDocumentRoot s -> mOutstanding s' = [] -> mWritten s' = mWritten s ->
  mDocumentRoot s = root -> mWritten s = answers root rs ->
  Forall (fun r => requestKeepAlive r = true) (removelast rs) ->
  connection_ok root rs s'.
Proof. intros E1 E2 E3 D W F. split; [by rewrite E1|]. rewrite E2, E3. split; [by constructor|done]. Qed.

Lemma connection_closed root rs s :
  mDocumentRoot s = root -> mOutstanding s = [] -> mWritten s = answers root rs ->
  Forall (fun r => requestKeepAlive r = true) (removelast rs) ->
  connection_ok root rs (closeConnection s).
Proof.
  intros D O W F. unfold closeConnection. destruct (mSecure s); split; try done; simpl; rewrite O.
  - split; [by constructor|done].
  - split; [by constructor|done].
Qed.

Lemma connection_reading root rs s :
  mDocumentRoot s = root -> mOutstanding s = [] -> mWritten s = answers root rs ->
  Forall (fun r => requestKeepAlive r = true) rs ->
  connection_ok root rs (doRead s).
Proof. intros D O W F. split; [done|]. simpl. rewrite O. split; [by constructor|done]. Qed.

Lemma connection_step root rs c o rest s :
  connection_ok root rs s -> take_op c (mOutstanding s) = Some (o, rest) ->
  connection_ok root (rs ++ requests [c])%list (handler c o (with_outstanding rest s)).
Proof.
  intros (D & P & W) T.
  assert (mOutstanding s = [o] /\ rest = [] /\ completes c o = true) as (O & -> & C).
  { unfold take_op in T. destruct P; simpl in T; repeat case_match; by simplify_eq. }
  rewrite O in P. clear T.
  assert (N : forall rs', rs' = [] -> (rs ++ rs')%list = rs) by (intros rs' ->; apply app_nil_r).
  destruct c as [e b| |e|e r|e|e], o; try done; simpl handler;
    unfold onDetect, onDispatch, onHandshake, onRead, onWrite, onShutdown.
  - inversion P; subst. rewrite N by done. case_decide.
    + by eapply connection_ended.
    + split; [done|]. split; [constructor|done].
  - inversion P; subst. rewrite N by done. destruct secure.
    + split; [done|]. split; [constructor|done].
    + by apply connection_reading.
  - inversion P; subst. rewrite N by done. case_decide; [by eapply connection_ended|].
    by apply connection_reading.
  - inversion P as [| | |rs0 F B E0 X| | |]; subst. case_decide; [|case_decide].
    + subst e. rewrite N by done. apply connection_closed; try done. by apply Forall_removelast.
    + rewrite N by (destruct e; simpl; congruence).
      eapply connection_ended; try done. by apply Forall_removelast.
    + assert (e = Success) as -> by (destruct (decide (e = Success)); tauto).
      pose proof (handleRequest_keep (M:=M) enable_cors beast_version (mDocumentRoot s) r) as K.
      change (mDocumentRoot (with_outstanding [] s)) with (mDocumentRoot s).
      destruct (handleRequest _ _ (mDocumentRoot s) r) as [m l] eqn:E. simpl in K.
      split; [done|]. simpl. rewrite K, answers_app, W. split.
      * rewrite <- X. by constructor.
      * simpl. by rewrite E.
  - inversion P as [| | | |rs0 r F| |]; subst. rewrite N by done.
    case_decide; [|destruct (requestKeepAlive r) eqn:K; simpl].
    + eapply connection_ended; try done. by rewrite removelast_last.
    + apply connection_reading; try done. by apply Forall_app_2; [|apply Forall_singleton].
    + apply connection_closed; try done. by rewrite removelast_last.
  - inversion P; subst. rewrite N by done. case_decide; by eapply connection_ended.
Qed.

Lemma connection_run root l rs s s' :
  connection_ok root rs s -> sessionSteps l s = Some s' ->
  connection_ok root (rs ++ requests l)%list s'.
Proof.
  revert rs s. induction l as [|c l IH]; intros rs s I; cbn [sessionSteps].
  - intros [= <-]. by rewrite app_nil_r.
  - destruct (take_op c (mOutstanding s)) as [[o rest]|] eqn:T; [|done]. intros E.
    replace (rs ++ requests (c :: l))%list with ((rs ++ requests [c]) ++ requests l)%list.
    + eapply IH; [|exact E]. by apply connection_step.
    + rewrite <- app_assoc. f_equal. by destruct c as [| | |[]| |].
Qed.

(** C16: whatever its completions bring, a connection has at most one
    asynchronous operation under way, answers the requests it reads once each
    and in order, reads on only after requests that keep the connection
    alive, and never answers with success: each answer is 204, 400 or 500
    for an OPTIONS, another or a GET request. *)
Theorem connection_serves root es s :
  sessionSteps es (detectRun root) = Some s ->
  (length (mOutstanding s) <= 1)%nat /\
  mWritten s = answers root (requests es) /\
  Forall (fun r => requestKeepAlive r = true) (removelast (requests es)) /\
  m_status <$> mWritten s =
    (fun r => match method r with VOptions => 204 | VGet => 500 | VOther _ => 400 end)
      <$> requests es.
Proof.
  intros E. apply (connection_run root es []) in E as (_ & P & W).
  2:{ split; [done|]. split; [constructor|done]. }
  simpl in P, W. split; [by destruct P; simpl; lia|]. split; [done|]. split.
  - destruct P; simpl; rewrite ?removelast_last; auto using Forall_removelast, Forall_nil_2.
  - rewrite W. unfold answers. rewrite <- list_fmap_compose. apply list_fmap_ext.
    intros i r _. by apply handleRequest_status.
Qed.
End session.
End Session.

(** A response that records what was set; the connection ends if the last
    word on it was to close. *)
Record tinyMessage := mkTiny {
  tinyStatus : Z;
  tinyFields : list (string * string);
  tinyKeepAlive : bool;
  tinyBody : string
}.

#[export] Instance tiny_message : HttpMessage tinyMessage := {|
  m_new s _ := mkTiny s [] true "";
  m_set k v m :=
    mkTiny (tinyStatus m) ((k, v) :: tinyFields m)
      (if decide (k = "Connection") then negb (bool_decide (v = "close")) else tinyKeepAlive m)
      (tinyBody m);
  m_set_keep_alive b m := mkTiny (tinyStatus m) (tinyFields m) b (tinyBody m);
  m_set_body s m := mkTiny (tinyStatus m) (tinyFields m) (tinyKeepAlive m) s;
  m_prepare_payload m := m;
  m_status := tinyStatus;
  m_keep_alive := tinyKeepAlive;
  m_body := tinyBody
|}.

#[export] Instance tiny_message_laws : HttpMessageLaws tinyMessage.
Proof. by constructor. Qed.

Section witnesses.
Import Session.

Definition demoGet (keep : bool) : request := mkRequest VGet 11 "/index.html" "" keep.
Definition demoOptions : request := mkRequest VOptions 11 "*" "" true.

(** A plain connection with two requests, the second of which closes it. *)
Definition demoCompletions : list completion :=
  [DoneDetect Success false; DoneDispatch; DoneRead Success demoOptions; DoneWrite Success;
   DoneRead Success (demoGet false); DoneWrite Success].

Lemma connection_serves_witness :
  exists s, sessionSteps (M:=tinyMessage) false "Beast" demoCompletions (detectRun "/srv") = Some s /\
    mOutstanding s = [] /\ mShutdownSend s = true /\
    m_status <$> mWritten s = [204; 500].
Proof.
  assert (exists s, sessionSteps (M:=tinyMessage) false "Beast" demoCompletions (detectRun "/srv")
                    = Some s /\ mOutstanding s = [] /\ mShutdownSend s = true)
    as (s & E & O & D) by (eexists; split; [vm_compute; reflexivity|done]).
  exists s. split; [exact E|]. split; [exact O|]. split; [exact D|].
  exact (proj2 (proj2 (proj2 (connection_serves false "Beast" "/srv" demoCompletions s E)))).
Defined.
End witnesses.

(** ** Messages

    [IMessage] is a class of four virtual getters, and a message is what
    they return. *)
Section messages.
Context {J V : Type} `{JsonLib J V}.

Record IMessage := mkMessage {
  getStatusCode : Z;
  getSuccess : bool;
  getMessage : option string;
  getData : option V
}.

(** The getters of the base class. *)
Definition baseMessage : IMessage := mkMessage 200 true None None.

Definition toJSON (message : IMessage) (indentIn : Z) : string :=
  let indent := if 0 <=? indentIn then indentIn else -1 in
  let object := j_set j_null_doc "success" (j_bool (getSuccess message)) in
  let object := j_set object "statusCode" (j_int (getStatusCode message)) in
  let object :=
    match getMessage message with
    | Some m => j_set object "message" (j_string m)
    | None => j_set object "message" j_null
    end in
  let object :=
    match getData message with
    | Some d => j_set object "data" d
    | None => j_set object "data" j_null
    end in
  dump indent object.

Record ErrorImpl := mkError {
  mMessage : string;
  mStatusCode : Z;
  mSuccess : bool
}.

Definition newError : ErrorImpl := mkError "" 400 false.
Definition setMessage (details : string) (e : ErrorImpl) : ErrorImpl :=
  mkError details (mStatusCode e) (mSuccess e).
Definition setStatusCode (code : Z) (e : ErrorImpl) : ErrorImpl :=
  mkError (mMessage e) code (mSuccess e).
(** [Error]'s own getters; [getData] is inherited. *)
Definition errorMessage (e : ErrorImpl) : IMessage :=
  mkMessage (mStatusCode e) (mSuccess e)
    (if negb (str_empty (mMessage e)) then Some (mMessage e) else None) None.

(** ** WebSocket sessions

    [process] returns an [std::optional<IMessage>]: an object of the base
    class itself, whatever it was made from, hence the [unit]; or it
    throws. *)
Definition processed : Type := exn + option unit.

Definition unhandledError : IMessage :=
  errorMessage (setMessage "server error - unhandled exception" (setStatusCode 500 newError)).

(** The text sent back, and what is logged.  The member template is never
    instantiated: it passes the optional itself to [toJSON], which takes an
    [IMessage] and to which an optional does not convert.  It is read here as
    it must be meant, with the optional dereferenced. *)
Definition responseTo (r : processed) : string * list line :=
  let failed e :=
    (toJSON unhandledError (-1),
     [Warn ("WebSocketSession::onRead reply failed with " +:+ what e)]) in
  match r with
  | inr (Some tt) => (toJSON baseMessage (-1), [])
  | inr None => failed (RuntimeError "Callback returned a NULL message")
  | inl e => failed e
  end.
End messages.

Module WebSocket.

Inductive readop := OpAccept | OpRead.

#[export] Instance readop_eq_dec : EqDecision readop.
Proof. solve_decision. Defined.

(** A session with the operations under way on its stream, the calls of
    [queueSend] posted to its strand, which runs them in order, and the
    messages given to [async_write]. *)
Record Session := mk {
  mReading : list readop;
  writesUnderWay : nat;
  mPosted : list string;
  mResponseQueue : list string;
  mHanded : list string;
  mLog : list line
}.

Definition log (l : list line) (s : Session) : Session :=
  mk (mReading s) (writesUnderWay s) (mPosted s) (mResponseQueue s) (mHanded s) (mLog s ++ l)%list.
Definition start_read (o : readop) (s : Session) : Session :=
  mk (mReading s ++ [o])%list (writesUnderWay s) (mPosted s) (mResponseQueue s) (mHanded s) (mLog s).
Definition with_reading (l : list readop) (s : Session) : Session :=
  mk l (writesUnderWay s) (mPosted s) (mResponseQueue s) (mHanded s) (mLog s).
Definition with_queue (q : list string) (s : Session) : Session :=
  mk (mReading s) (writesUnderWay s) (mPosted s) q (mHanded s) (mLog s).
Definition with_posted (q : list string) (s : Session) : Session :=
  mk (mReading s) (writesUnderWay s) q (mResponseQueue s) (mHanded s) (mLog s).
Definition end_write (s : Session) : Session :=
  mk (mReading s) (writesUnderWay s - 1) (mPosted s) (mResponseQueue s) (mHanded s) (mLog s).

(** [if (!mResponseQueue.empty()) { async_write(front) }] *)
Definition writeFront (s : Session) : Session :=
  match mResponseQueue s with
  | [] => s
  | m :: _ =>
      mk (mReading s) (S (writesUnderWay s)) (mPosted s) (mResponseQueue s) (mHanded s ++ [m])%list
         (mLog s)
  end.

Definition run : Session := start_read OpAccept (mk [] 0 [] [] [] []).

Definition onAccept (e : errorCode) (s : Session) : Session :=
  if decide (e <> Success) then
    log [Critical ("WebSocketSession::onAccept failed with " +:+ ec_what e)] s
  else start_read OpRead s.

Definition reply (responseString : string) (s : Session) : Session :=
  with_posted (mPosted s ++ [responseString])%list s.

Definition onRead {J V} `{JsonLib J V} (e : errorCode) (r : processed) (s : Session) : Session :=
  if decide (e = WebSocketClosed) then log [Info "WebSocketSession::onRead socket closed"] s
  else if decide (e <> Success) then
    log [Warn ("WebSocketSession::onRead failed with " +:+ ec_what e)] s
  else
    let '(m, l) := responseTo r in
    start_read OpRead (reply m (log l s)).

Definition queueSend (response : string) (s : Session) : Session :=
  let s := with_queue (mResponseQueue s ++ [response])%list s in
  if (1 <? length (mResponseQueue s))%nat then s else writeFront s.

Definition onWrite (e : errorCode) (s : Session) : Session :=
  if decide (e <> Success) then
    log [Critical ("WebSocketSession::onWrite failed with " +:+ ec_what e)] s
  else writeFront (with_queue (tail (mResponseQueue s)) s).

Inductive completion :=
  | DoneAccept (e : errorCode)
  | DoneRead (e : errorCode) (r : processed)
  | DonePosted                      (* the strand runs the next [queueSend] *)
  | DoneWrite (e : errorCode).

Definition wsStep {J V} `{JsonLib J V} (c : completion) (s : Session) : option Session :=
  match c with
  | DoneAccept e =>
      '(_, l) ← take_first (fun o => bool_decide (o = OpAccept)) (mReading s);
      Some (onAccept e (with_reading l s))
  | DoneRead e r =>
      '(_, l) ← take_first (fun o => bool_decide (o = OpRead)) (mReading s);
      Some (onRead e r (with_reading l s))
  | DonePosted =>
      match mPosted s with
      | [] => None
      | m :: l => Some (queueSend m (with_posted l s))
      end
  | DoneWrite e =>
      match writesUnderWay s with
      | O => None
      | S _ => Some (onWrite e (end_write s))
      end
  end.

Fixpoint wsSteps {J V} `{JsonLib J V} (l : list completion) (s : Session) : option Session :=
  match l with
  | [] => Some s
  | c :: l' => s' ← wsStep c s; wsSteps l' s'
  end.

(** The replies to the messages read. *)
Definition repliesTo {J V} `{JsonLib J V} (c : completion) : list string :=
  match c with
  | DoneRead Success r => [(responseTo r).1]
  | _ => []
  end.

Definition write_failed (c : completion) : bool :=
  match c with DoneWrite e => negb (bool_decide (e = Success)) | _ => false end.

Section proofs.
Context {J V : Type} `{JsonLib J V}.

Record session_ok (rs : list string) (s : Session) : Prop := {
  ok_reading : (length (mReading s) <= 1)%nat;
  ok_writing : (writesUnderWay s <= 1)%nat;
  ok_front : (writesUnderWay s <= length (mResponseQueue s))%nat;
  ok_order : (mHanded s ++ tail (mResponseQueue s) ++ mPosted s)%list = rs
}.

Lemma take_first_one {A} (p : A -> bool) l x l' :
  (length l <= 1)%nat -> take_first p l = Some (x, l') -> l' = [].
Proof.
  destruct l as [|y [|z l]]; simpl; [done| |lia].
  intros _. destruct (p y); [|done]. by intros [= _ <-].
Qed.

(** What [writeFront] does when no write is under way. *)
Lemma writeFront_ok s :
  writesUnderWay s = 0%nat ->
  mReading (writeFront s) = mReading s /\ mPosted (writeFront s) = mPosted s /\
  mResponseQueue (writeFront s) = mResponseQueue s /\
  writesUnderWay (writeFront s) = Nat.min 1 (length (mResponseQueue s)) /\
  (mHanded (writeFront s) ++ tail (mResponseQueue s))%list =
    (mHanded s ++ mResponseQueue s)%list.
Proof.
  intros Z. unfold writeFront. destruct (mResponseQueue s) as [|m q] eqn:Q; simpl.
  - rewrite ?Z, ?Q. done.
  - rewrite ?Z, ?Q. repeat split. by rewrite <- app_assoc.
Qed.

Lemma queueSend_ok rs m l s :
  mPosted s = m :: l -> session_ok rs s -> session_ok rs (queueSend m (with_posted l s)).
Proof.
  intros P [R W F O]. unfold queueSend. simpl. rewrite length_app. simpl.
  destruct (mResponseQueue s) as [|q0 q] eqn:Q; simpl in *.
  - assert (writesUnderWay s = 0%nat) as W0 by lia. unfold writeFront. simpl.
    split; simpl; [done|rewrite W0; lia..|]. rewrite <- O, P. by rewrite <- app_assoc.
  - destruct (1 <? S (length q + 1))%nat eqn:B; [|apply Nat.ltb_ge in B; lia].
    split; simpl; [done|done|lia|]. rewrite <- O, P. by rewrite <- (app_assoc q).
Qed.

Lemma onWrite_ok rs e s n :
  writesUnderWay s = S n -> session_ok rs s -> session_ok rs (onWrite e (end_write s)).
Proof.
  intros E [R W F O]. assert (n = 0%nat) as -> by lia. unfold onWrite. case_decide.
  - split; simpl; [done|lia..|done].
  - set (s1 := with_queue _ _).
    assert (writesUnderWay s1 = 0%nat) as Z by (simpl; lia).
    destruct (writeFront_ok s1 Z) as (E1 & E2 & E3 & E4 & E5).
    split; rewrite ?E1, ?E2, ?E3, ?E4; [done|lia..|].
    rewrite app_assoc. rewrite E5. rewrite <- app_assoc. exact O.
Qed.

Lemma wsStep_ok rs c s s' :
  session_ok rs s -> wsStep c s = Some s' -> session_ok (rs ++ repliesTo c)%list s'.
Proof.
  intros I. destruct c as [e|e r| |e]; simpl.
  - destruct (take_first _ (mReading s)) as [[o l]|] eqn:T; [|done]. simpl. intros [= <-].
    destruct I as [R W F O]. apply take_first_one in T as ->; [|done].
    rewrite app_nil_r. unfold onAccept. by case_decide; split; simpl; try done; lia.
  - destruct (take_first _ (mReading s)) as [[o l]|] eqn:T; [|done]. simpl. intros [= <-].
    destruct I as [R W F O]. apply take_first_one in T as ->; [|done].
    unfold onRead. case_decide; [|case_decide].
    + subst e. rewrite app_nil_r. by split; simpl; try done; lia.
    + destruct e; try done; rewrite app_nil_r; by split; simpl; try done; lia.
    + assert (e = Success) as -> by (destruct (decide (e = Success)); tauto).
      destruct (responseTo r) as [m l'] eqn:E. simpl.
      split; simpl; try done; try lia. rewrite <- O. by rewrite <- !app_assoc.
  - destruct (mPosted s) as [|m l] eqn:P; [done|]. intros [= <-].
    rewrite app_nil_r. by apply queueSend_ok.
  - destruct (writesUnderWay s) as [|n] eqn:W; [done|]. intros [= <-].
    rewrite app_nil_r. by eapply onWrite_ok.
Qed.

Lemma wsSteps_ok rs l s s' :
  session_ok rs s -> wsSteps l s = Some s' -> session_ok (rs ++ (l ≫= repliesTo))%list s'.
Proof.
  revert rs s. induction l as [|c l IH]; intros rs s I; simpl.
  - intros [= <-]. by rewrite app_nil_r.
  - destruct (wsStep c s) as [s1|] eqn:E; [|done]. simpl. intros E'.
    rewrite app_assoc. eapply IH; [|exact E']. by eapply wsStep_ok.
Qed.

(** While no write fails, one is under way exactly when something waits. *)
Lemma wsStep_busy c s s' :
  writesUnderWay s = Nat.min 1 (length (mResponseQueue s)) -> write_failed c = false ->
  wsStep c s = Some s' ->
  writesUnderWay s' = Nat.min 1 (length (mResponseQueue s')).
Proof.
  intros B. destruct c as [e|e r| |e]; simpl; intros Wf.
  - destruct (take_first _ (mReading s)) as [[o l]|]; [|done]. simpl. intros [= <-].
    unfold onAccept. by case_decide.
  - destruct (take_first _ (mReading s)) as [[o l]|]; [|done]. simpl. intros [= <-].
    unfold onRead. case_decide; [done|]. case_decide; [done|]. by destruct (responseTo r).
  - destruct (mPosted s) as [|m l]; [done|]. intros [= <-].
    unfold queueSend, writeFront. simpl. rewrite length_app. simpl.
    destruct (mResponseQueue s) as [|q0 q] eqn:Q; simpl in *; [by rewrite B|].
    destruct (1 <? S (length q + 1))%nat eqn:E; [|apply Nat.ltb_ge in E; lia]. done.
  - destruct (writesUnderWay s) as [|n] eqn:W; [done|]. intros [= <-]. unfold onWrite.
    apply negb_false_iff, bool_decide_eq_true in Wf. subst e. simpl.
    set (s1 := with_queue _ _). assert (writesUnderWay s1 = 0%nat) as Z by (simpl; lia).
    destruct (writeFront_ok s1 Z) as (_ & _ & E3 & E4 & _). by rewrite E3, E4.
Qed.

(** After a failed write nothing is handed over any more. *)
Lemma wsStep_stuck c s s' :
  writesUnderWay s = 0%nat -> mResponseQueue s <> [] -> wsStep c s = Some s' ->
  writesUnderWay s' = 0%nat /\ mHanded s' = mHanded s /\
  exists more, mResponseQueue s' = (mResponseQueue s ++ more)%list.
Proof.
  intros Z N. destruct c as [e|e r| |e]; simpl.
  - destruct (take_first _ (mReading s)) as [[o l]|]; [|done]. simpl. intros [= <-].
    unfold onAccept. case_decide; repeat split; try done; exists []; by rewrite app_nil_r.
  - destruct (take_first _ (mReading s)) as [[o l]|]; [|done]. simpl. intros [= <-].
    unfold onRead. case_decide; [|case_decide; [|destruct (responseTo r)]];
      repeat split; try done; exists []; by rewrite app_nil_r.
  - destruct (mPosted s) as [|m l]; [done|]. intros [= <-].
    unfold queueSend. simpl. rewrite length_app. simpl.
    destruct (mResponseQueue s) as [|q0 q] eqn:Q; [done|]. simpl.
    destruct (1 <? S (length q + 1))%nat eqn:E; [|apply Nat.ltb_ge in E; lia].
    repeat split; try done. by exists [m].
  - by rewrite Z.
Qed.

Lemma wsSteps_stuck l s s' :
  writesUnderWay s = 0%nat -> mResponseQueue s <> [] -> wsSteps l s = Some s' ->
  mHanded s' = mHanded s /\ mResponseQueue s' <> [].
Proof.
  revert s. induction l as [|c l IH]; intros s Z N; simpl; [by intros [= <-]|].
  destruct (wsStep c s) as [s1|] eqn:E; [|done]. simpl. intros E'.
  destruct (wsStep_stuck _ _ _ Z N E) as (Z1 & H1 & more & Q1).
  destruct (IH s1 Z1) as [H2 Q2]; [|done|by rewrite H2].
  rewrite Q1. by destruct (mResponseQueue s).
Qed.

Lemma wsSteps_busy l s s' :
  writesUnderWay s = Nat.min 1 (length (mResponseQueue s)) ->
  Forall (fun c => write_failed c = false) l -> wsSteps l s = Some s' ->
  writesUnderWay s' = Nat.min 1 (length (mResponseQueue s')).
Proof.
  revert s. induction l as [|c l IH]; intros s B F; simpl; [by intros [= <-]|].
  apply Forall_cons in F as [Fc F].
  destruct (wsStep c s) as [s1|] eqn:E; [|done]. simpl. intros E'.
  eapply IH; [|exact F|exact E']. by eapply wsStep_busy.
Qed.

Lemma wsSteps_app l1 l2 s : wsSteps (l1 ++ l2)%list s = wsSteps l1 s ≫= wsSteps l2.
Proof.
  revert s. induction l1 as [|c l1 IH]; intros s; simpl; [done|].
  destruct (wsStep c s); simpl; [apply IH|done].
Qed.

(** C15: in every interleaving of reads, posted sends and completed writes a
    WebSocket session has at most one read and one write under way, never
    pops an empty queue, and hands its replies over in the order of the
    messages they answer: what it handed over, what waits behind the front
    of the queue and what is still posted are together the replies so far.
    While no write fails none is lost: when none is under way the queue is
    empty.  After one that fails the session hands over nothing more,
    although it goes on reading and queueing. *)
Theorem replies_in_order es s :
  wsSteps es run = Some s ->
  (length (mReading s) <= 1 /\ writesUnderWay s <= 1 /\ writesUnderWay s <= length (mResponseQueue s))%nat /\
  (mHanded s ++ tail (mResponseQueue s) ++ mPosted s)%list = es ≫= repliesTo /\
  (Forall (fun c => write_failed c = false) es -> writesUnderWay s = 0%nat -> mResponseQueue s = []) /\
  (forall before c after s0, es = (before ++ c :: after)%list -> write_failed c = true ->
     wsSteps before run = Some s0 -> mHanded s = mHanded s0).
Proof.
  intros E. assert (I : session_ok [] run) by (split; simpl; [lia..|done]).
  destruct (wsSteps_ok _ _ _ _ I E) as [R W F O].
  split; [done|]. split; [exact O|]. split.
  - intros Hf Z. pose proof (wsSteps_busy _ run _ eq_refl Hf E) as B. rewrite Z in B.
    by destruct (mResponseQueue s).
  - intros before c after s0 -> Hf E0. rewrite wsSteps_app, E0 in E. simpl in E.
    destruct (wsStep c s0) as [s1|] eqn:E1; [|done]. simpl in E.
    destruct (wsSteps_ok _ _ _ _ I E0) as [R0 W0 F0 _].
    destruct c as [| | |e]; try done. simpl in Hf, E1.
    destruct (writesUnderWay s0) as [|n] eqn:Z; [done|]. injection E1 as <-.
    unfold onWrite in E. rewrite decide_True in E.
    + assert (mResponseQueue s0 <> []) as N by (intros Q; rewrite Q in F0; simpl in F0; lia).
      apply wsSteps_stuck in E as [-> _]; [done|simpl; lia|exact N].
    + intros ->. by rewrite bool_decide_true in Hf.
Qed.
End proofs.
End WebSocket.

Section ws_witness.
Import WebSocket.

Definition demoTraffic : list completion :=
  [DoneAccept Success; DoneRead Success (inr (Some tt)); DonePosted;
   DoneRead Success (inr None); DonePosted; DoneWrite Success;
   DoneRead Success (inl (RuntimeError "x")); DonePosted; DoneWrite (Failed "reset");
   DoneRead Success (inr (Some tt)); DonePosted].

Lemma replies_in_order_witness :
  exists s s0,
    wsSteps (J:=TinyJson.doc) demoTraffic run = Some s /\
    wsSteps (J:=TinyJson.doc) (take 8 demoTraffic) run = Some s0 /\
    length (mResponseQueue s) = 3%nat /\ mHanded s = mHanded s0 /\
    (mHanded s ++ tail (mResponseQueue s) ++ mPosted s)%list =
      demoTraffic ≫= repliesTo (J:=TinyJson.doc).
Proof.
  destruct (wsSteps (J:=TinyJson.doc) demoTraffic run) as [s|] eqn:E; [|vm_compute in E; done].
  destruct (wsSteps (J:=TinyJson.doc) (take 8 demoTraffic) run) as [s0|] eqn:E0;
    [|vm_compute in E0; done].
  exists s, s0. split; [done|]. split; [done|].
  split; [vm_compute in E; injection E as <-; reflexivity|].
  destruct (replies_in_order demoTraffic s E) as (_ & O & _ & K).
  split; [|exact O]. by apply (K (take 8 demoTraffic) (DoneWrite (Failed "reset")) _ s0 eq_refl).
Defined.
End ws_witness.

(** ** The listener *)
Module Listener.

Inductive acceptorCall := Open | SetOption | Bind | Listen.

Section listener.
Context {M : Type} `{HttpMessage M}.

Record Listener := mk {
  mDocumentRoot : string;
  mAcceptor : list acceptorCall;                 (* the calls that succeeded *)
  mAccepting : nat;                              (* calls of [async_accept] under way *)
  mSessions : list (Session.Connection (M:=M));  (* the sessions launched *)
  mLog : list line
}.

(** The constructor's calls on its acceptor, with what is logged when one
    fails; a failure ends the constructor and is not reported otherwise. *)
Definition acceptorCalls : list (acceptorCall * string) :=
  [(Open, "Listener failed to open; failed with: ");
   (SetOption, "Listener failed to set reuse_address option; failed with: ");
   (Bind, "Listener failed to bind; failed with: ");
   (Listen, "Listener failed to listen; failed with: ")].

Fixpoint callAcceptor (env : acceptorCall -> errorCode) (l : list (acceptorCall * string))
    (done : list acceptorCall) : list acceptorCall * list line :=
  match l with
  | [] => (done, [])
  | (c, text) :: l' =>
      if decide (env c <> Success) then (done, complaint text (env c))
      else callAcceptor env l' (done ++ [c])%list
  end.

Definition new (env : acceptorCall -> errorCode) (documentRoot : string) : Listener :=
  let '(calls, l) := callAcceptor env acceptorCalls [] in
  mk documentRoot calls 0 [] l.

Definition doAccept (p : Listener) : Listener :=
  mk (mDocumentRoot p) (mAcceptor p) (S (mAccepting p)) (mSessions p) (mLog p).

Definition run (p : Listener) : Listener := doAccept p.

Definition onAccept (e : errorCode) (p : Listener) : Listener :=
  doAccept
    (if decide (e <> Success) then
       mk (mDocumentRoot p) (mAcceptor p) (mAccepting p) (mSessions p)
          (mLog p ++ complaint "Listener::onAccept: accept failed with: " e)%list
     else
       mk (mDocumentRoot p) (mAcceptor p) (mAccepting p)
          (mSessions p ++ [Session.detectRun (mDocumentRoot p)])%list (mLog p)).

(** An accept completes. *)
Definition accepted (p : Listener) (e : errorCode) : Listener :=
  onAccept e (mk (mDocumentRoot p) (mAcceptor p) (pred (mAccepting p)) (mSessions p) (mLog p)).

(** However the constructor and the accepts end, there is one accept under
    way, and one session for each that succeeded: a listener whose port could
    not be bound accepts again after each failure, for ever. *)
Lemma accepts_again env root es :
  let p := foldl accepted (run (new env root)) es in
  mAccepting p = 1%nat /\
  mSessions p = (fun _ => Session.detectRun root) <$> filter (fun e => e = Success) es.
Proof.
  cut (forall p, mAccepting p = 1%nat -> mDocumentRoot p = root ->
         mAccepting (foldl accepted p es) = 1%nat /\
         mSessions (foldl accepted p es) =
           (mSessions p ++ ((fun _ => Session.detectRun root) <$> filter (fun e => e = Success) es))%list).
  { intros C. unfold run, new. destruct (callAcceptor env acceptorCalls []) as [calls l].
    by apply (C (doAccept (mk root calls 0 [] l))). }
  induction es as [|e es IH]; intros p A R; simpl; [by rewrite app_nil_r|].
  destruct (IH (accepted p e)) as [A' S'].
  - unfold accepted, onAccept. by case_decide; simpl; rewrite A.
  - unfold accepted, onAccept. by case_decide.
  - split; [exact A'|]. rewrite S', filter_cons. unfold accepted, onAccept.
    repeat case_decide; try tauto; simpl; rewrite ?R, <- ?app_assoc; done.
Qed.
End listener.
End Listener.
