(* ===== verification/WebSessions.v ===== *)
(** * The objects of a web connection

    services/webServer/server.hpp: what the sessions of a connection are made
    of, and what each hands to the next.  [DetectSession] owns the socket and
    the bytes it read to tell TLS from plain text; it moves both into an
    [SSLSession] or a [PlainSession], with the document root and the callback
    handler; the handshake consumes the bytes it used; and the WebSocket
    sessions keep a stream, a handler and an identifier.  WebServer.v has the
    life of these objects, as operations that are started and completed. *)
From Stdlib Require Import ZArith Ascii String Lia.
From stdpp Require Import base tactics list strings.
From S2P Require Import Prelude JsonLib Interfaces WebServer.

Open Scope string_scope.
Open Scope Z_scope.

(** [boost::beast::flat_buffer], as the bytes in it; [consume] of more than
    there is empties it. *)
Definition consume (n : nat) (buffer : list Byte.byte) : list Byte.byte := drop n buffer.

Section sessions.
Context {H : Type}.                  (* a callback handler *)
Context {S : Type}.                  (* a socket *)

(** The handler is a [shared_ptr], which may be null. *)
Record DetectSession := mkDetect {
  dStream : option S;                (* none once it was released *)
  dDocumentRoot : string;
  dBuffer : list Byte.byte;
  dCallbackHandler : option H
}.

(** [Session] with the stream of the class derived from it. *)
Record HttpSession := mkHttp {
  hSecure : bool;
  hStream : S;
  hDocumentRoot : string;
  hBuffer : list Byte.byte;
  hCallbackHandler : option H
}.

Definition newDetectSession (socket : S) (documentRoot : string) (callbackHandler : option H)
    : DetectSession := mkDetect (Some socket) documentRoot [] callbackHandler.

Definition newSession (secure : bool) (socket : S) (buffer : list Byte.byte) (documentRoot : string)
    (callbackHandler : option H) : HttpSession :=
  mkHttp secure socket documentRoot buffer callbackHandler.
Definition newPlainSession := newSession false.
Definition newSSLSession := newSession true.

(** The detection leaves what it read in the buffer. *)
Definition detected (bytes : list Byte.byte) (d : DetectSession) : DetectSession :=
  mkDetect (dStream d) (dDocumentRoot d) (dBuffer d ++ bytes)%list (dCallbackHandler d).

(** [onDetect]: the session that is launched, if one is, and what is left of
    the detector.  To release a socket twice is not something the code can
    do: the detector is completed once. *)
Definition onDetect (e : errorCode) (result : bool) (d : DetectSession)
    : outcome (DetectSession * option HttpSession) :=
  if decide (e <> Success) then Ok (d, None)
  else
    socket ← of_option (dStream d);
    let d' := mkDetect None (dDocumentRoot d) [] (dCallbackHandler d) in
    Ok (d', Some ((if result then newSSLSession else newPlainSession)
                    socket (dBuffer d) (dDocumentRoot d) (dCallbackHandler d))).

(** [onHandshake]: the bytes the handshake used are gone, and a request is
    read from what is left. *)
Definition onHandshake (e : errorCode) (bytesUsed : nat) (h : HttpSession) : HttpSession :=
  if decide (e <> Success) then h
  else mkHttp (hSecure h) (hStream h) (hDocumentRoot h) (consume bytesUsed (hBuffer h))
         (hCallbackHandler h).

(** What the first [doRead] of a session finds in its buffer: a plain session
    reads at once, a secure one after its handshake. *)
Definition firstRead (e : errorCode) (bytesUsed : nat) (h : HttpSession) : option (list Byte.byte) :=
  if hSecure h then
    if decide (e <> Success) then None else Some (hBuffer (onHandshake e bytesUsed h))
  else Some (hBuffer h).

(** No byte of the client is lost or read twice between the detector and the
    first request: a plain session starts with all that the detector read, a
    secure one with all of it but what the handshake used; socket, document
    root and handler are those of the listener, and the detector keeps no
    socket. *)
Lemma bytes_handed_over socket root handler bytes result e bytesUsed d h :
  onDetect Success result (detected bytes (newDetectSession socket root handler)) = Ok (d, Some h) ->
  (bytesUsed <= length bytes)%nat ->
  dStream d = None /\ hSecure h = result /\ hStream h = socket /\ hDocumentRoot h = root /\
  hCallbackHandler h = handler /\
  (result = false -> firstRead e bytesUsed h = Some bytes) /\
  (result = true -> e = Success ->
   exists rest, firstRead e bytesUsed h = Some rest /\ bytes = (take bytesUsed bytes ++ rest)%list /\
                length rest = (length bytes - bytesUsed)%nat).
Proof.
  intros E L. unfold onDetect in E. rewrite decide_False in E by tauto. simpl in E.
  injection E as <- <-. destruct result; simpl; (do 5 (split; [done|])); split; try done.
  intros _ ->. unfold firstRead, onHandshake, consume. simpl.
  exists (drop bytesUsed bytes). by rewrite take_drop, length_drop.
Qed.

(** A detector that fails launches nothing. *)
Lemma failed_detection e result d : e <> Success -> onDetect e result d = Ok (d, None).
Proof. intros N. unfold onDetect. by rewrite decide_True. Qed.

(** ** WebSocket sessions *)
Record WebSocketSession := mkWebSocket {
  wSecure : bool;
  mWebSocket : S;
  mCallbackHandler : option H;
  mSessionIdentifier : string;
  mServiceName : string
}.

Definition newWebSocketSession (secure : bool) (sessionIdentifier : string) (stream : S)
    (callbackHandler : option H) : WebSocketSession :=
  mkWebSocket secure stream callbackHandler sessionIdentifier "us8".
Definition newPlainWebSocketSession := newWebSocketSession false.
Definition newSSLWebSocketSession := newWebSocketSession true.

Definition ws (s : WebSocketSession) : S := mWebSocket s.
Definition getCallbackHandler (s : WebSocketSession) : option H := mCallbackHandler s.

(** The destructors. *)
Definition destroyed (s : WebSocketSession) : line :=
  Info ((if wSecure s then "SSLWebSocketSession: Terminating session for: "
         else "PlainWebSocketSession: Terminating session for ") +:+ mSessionIdentifier s).

(** What [doAccept] sets on the stream before it accepts, and the server
    name the handshake carries. *)
Inductive streamOption :=
  | SuggestedServerTimeout
  | Decorator (server : string)
  | Deflate (client_enable server_enable : bool).
Definition acceptOptions (beast_version : string) : list streamOption :=
  [SuggestedServerTimeout; Decorator (beast_version +:+ " KUS8"); Deflate false true].

(** [onRead]: the handler of the session is called with the message; a null
    handler is undefined. *)
Definition process {J V} `{JsonLib J V} (call : H -> string -> processed) (message : string)
    (s : WebSocketSession) : outcome (string * list line) :=
  handler ← of_option (getCallbackHandler s); Ok (responseTo (call handler message)).

(** Plain and secure sessions differ in their stream and their last line
    only: they answer alike. *)
Lemma process_either {J V} `{JsonLib J V} (call : H -> string -> processed) message secure id stream h :
  process call message (newWebSocketSession secure id stream h) =
  process call message (newWebSocketSession (negb secure) id stream h).
Proof. done. Qed.
End sessions.
Arguments DetectSession : clear implicits.
Arguments HttpSession : clear implicits.
Arguments WebSocketSession : clear implicits.

(** A client whose first bytes are those of a TLS hello of two bytes, with a
    request behind them. *)
Example demo_launch :
  let bytes := [Byte.x16; Byte.x03; Byte.x47] in
  match onDetect Success true (detected bytes (newDetectSession 7%nat "/srv" (Some tt))) with
  | Ok (d, Some h) => dStream d = None /\ hStream h = 7%nat /\ firstRead Success 2 h = Some [Byte.x47]
  | _ => False
  end.
Proof. vm_compute. repeat split. Qed.
