(* ===== verification/Schedules.v ===== *)
(** * Schedules, fairness and progress

    A system of threads is a function that performs one action on a state.
    Its runs under a scheduler that never ends are schedules: functions from
    times to actions.  A thread is treated fairly when from every time on it
    still has a turn.  A statement of progress is a [leads_to]: what holds at
    one time is followed by what holds at a later one, unless the run stops
    before in undefined behaviour.  The rule that proves them asks for a
    measure, well-founded, that no action increases and that the actions of
    the thread treated fairly decrease.  The last section is about runs of one
    thread on its own, with what it logs. *)
From Stdlib Require Import ZArith Lia.
From stdpp Require Import base tactics list.
From S2P Require Import Prelude Interfaces.

Open Scope nat_scope.

Section schedules.
Context {S A : Type} (act : A -> S -> outcome S).

Definition schedule : Type := nat -> A.

(** The state at a time. *)
Fixpoint stateAt (σ : schedule) (s : S) (n : nat) : outcome S :=
  match n with
  | O => Ok s
  | Datatypes.S n => s' ← stateAt σ s n; act (σ n) s'
  end.

(** The actions from one time to another. *)
Definition segment (σ : schedule) (n m : nat) : list A := σ <$> seq n (m - n).

(** The same run over a list of actions. *)
Fixpoint actions (l : list A) (s : S) : outcome S :=
  match l with
  | [] => Ok s
  | a :: l' => s' ← act a s; actions l' s'
  end.

Lemma actions_app l l' s : actions (l ++ l') s = s' ← actions l s; actions l' s'.
Proof.
  revert s. induction l as [|a l IH]; intros s; simpl; [done|].
  destruct (act a s); simpl; [apply IH|done..].
Qed.

Lemma segment_snoc σ n m : n <= m -> segment σ n (Datatypes.S m) = segment σ n m ++ [σ m].
Proof.
  intros L. unfold segment. replace (Datatypes.S m - n) with (m - n + 1) by lia.
  rewrite seq_app, fmap_app. simpl. by replace (n + (m - n)) with m by lia.
Qed.
Lemma segment_nil σ n : segment σ n n = [].
Proof. unfold segment. by rewrite Nat.sub_diag. Qed.

Lemma stateAt_actions σ s n : stateAt σ s n = actions (segment σ 0 n) s.
Proof.
  induction n as [|n IH]; [done|].
  rewrite segment_snoc by lia. rewrite actions_app, <- IH. simpl.
  destruct (stateAt σ s n); simpl; [|done..]. by destruct (act (σ n) _).
Qed.

Lemma stateAt_add σ s n m s' :
  stateAt σ s n = Ok s' ->
  stateAt σ s (n + m) = actions (segment σ n (n + m)) s'.
Proof.
  intros E. induction m as [|m IH].
  - by rewrite Nat.add_0_r, segment_nil, E.
  - rewrite Nat.add_succ_r, segment_snoc by lia. simpl. rewrite IH, actions_app.
    destruct (actions _ s'); simpl; [|done..]. by destruct (act _ _).
Qed.

(** A schedule that comes back to a state at which the rest of it is the
    same is defined at all times. *)
Lemma stateAt_periodic σ s n p s' :
  0 < p -> stateAt σ s n = Ok s' -> stateAt σ s (n + p) = Ok s' ->
  (forall k, n <= k -> σ (k + p) = σ k) ->
  forall m, exists x, stateAt σ s m = Ok x.
Proof.
  intros P E E' Per.
  assert (Shift : forall k, stateAt σ s (n + p + k) = stateAt σ s (n + k)).
  { induction k as [|k IH]; [by rewrite !Nat.add_0_r, E, E'|].
    rewrite !Nat.add_succ_r. simpl. rewrite IH.
    by replace (n + p + k) with (n + k + p) by lia; rewrite Per by lia. }
  assert (Down : forall k x, stateAt σ s (Datatypes.S k) = Ok x ->
                   exists y, stateAt σ s k = Ok y).
  { intros k x. simpl. destruct (stateAt σ s k); [eauto|done..]. }
  assert (Before : forall j k x, stateAt σ s (k + j) = Ok x -> exists y, stateAt σ s k = Ok y).
  { induction j as [|j IH]; intros k x Ek; [rewrite Nat.add_0_r in Ek; eauto|].
    rewrite Nat.add_succ_r in Ek. apply Down in Ek as [y Ey]. eauto. }
  assert (Far : forall j, stateAt σ s (n + j * p) = Ok s').
  { induction j as [|j IH]; [by rewrite Nat.add_0_r|].
    replace (n + Datatypes.S j * p) with (n + p + j * p) by lia. by rewrite Shift. }
  intros m. destruct (Nat.le_exists_sub m (n + m * p)) as (j & Ej & _); [nia|].
  apply (Before j m s'). rewrite Nat.add_comm, <- Ej. apply Far.
Qed.

(** ** Fairness *)
Definition fair (mine : A -> Prop) (σ : schedule) : Prop :=
  forall n, exists m, n <= m /\ mine (σ m).

(** ** Progress *)
Section progress.
Context (σ : schedule) (s : S).

(** At some time from [n] on the run has stopped or [P] holds. *)
Definition eventually (n : nat) (P : nat -> S -> Prop) : Prop :=
  exists m, n <= m /\
    ((forall x, stateAt σ s m <> Ok x) \/ exists x, stateAt σ s m = Ok x /\ P m x).

Definition leads_to (P Q : nat -> S -> Prop) : Prop :=
  forall n x, stateAt σ s n = Ok x -> P n x -> eventually n Q.

Lemma eventually_now n x (P : nat -> S -> Prop) :
  stateAt σ s n = Ok x -> P n x -> eventually n P.
Proof. intros E H. exists n. split; [done|]. right. eauto. Qed.

Lemma eventually_later n m P : n <= m -> eventually m P -> eventually n P.
Proof. intros L (k & Lk & H). exists k. split; [lia|done]. Qed.

Lemma leads_to_trans P Q R : leads_to P Q -> leads_to Q R -> leads_to P R.
Proof.
  intros H K n x E Px. destruct (H n x E Px) as (m & L & [St|(y & Ey & Qy)]).
  - exists m. eauto.
  - by eapply eventually_later, K.
Qed.

Lemma leads_to_mono (P P' Q Q' : nat -> S -> Prop) :
  (forall n x, P' n x -> P n x) -> (forall n x, Q n x -> Q' n x) ->
  leads_to P Q -> leads_to P' Q'.
Proof.
  intros HP HQ H n x E Px. destruct (H n x E (HP _ _ Px)) as (m & L & [St|(y & Ey & Qy)]);
    exists m; eauto 6.
Qed.

Lemma leads_to_or P P' Q : leads_to P Q -> leads_to P' Q -> leads_to (fun n x => P n x \/ P' n x) Q.
Proof. intros H H' n x E [Px|Px]; eauto. Qed.

Lemma eventually_mono n P Q :
  (forall m x, n <= m -> stateAt σ s m = Ok x -> P m x -> Q m x) ->
  eventually n P -> eventually n Q.
Proof. intros H (m & L & [St|(x & E & Px)]); exists m; eauto 6. Qed.

Lemma eventually_defined n (P : nat -> S -> Prop) :
  (forall m, exists x, stateAt σ s m = Ok x) ->
  eventually n P -> exists m x, n <= m /\ stateAt σ s m = Ok x /\ P m x.
Proof.
  intros D (m & L & [St|(x & E & Px)]); [|eauto].
  destruct (D m) as [x E]. by apply St in E.
Qed.

(** An invariant of the steps from a time on. *)
Lemma always_from (I : nat -> S -> Prop) n m x y :
  (forall k u v, n <= k -> I k u -> act (σ k) u = Ok v -> I (Datatypes.S k) v) ->
  n <= m -> stateAt σ s n = Ok x -> stateAt σ s m = Ok y -> I n x -> I m y.
Proof.
  intros St L E. revert y. induction L as [|m L IH]; intros y E' Ix; [congruence|].
  simpl in E'. apply bind_ok in E' as (u & Eu & Ev). eapply St; eauto.
Qed.

(** *** The rule

    [I n x k]: at time [n] the state [x] has measure [k]. *)
Context {M : Type} (lt : relation M) (lt_wf : well_founded lt) (mine : A -> Prop).

Lemma progress_wf (I : nat -> S -> M -> Prop) (Q : nat -> S -> Prop) :
  fair mine σ ->
  (forall n x k, I n x k ->
     Q n x \/
     forall x', act (σ n) x = Ok x' ->
       exists k', I (Datatypes.S n) x' k' /\ (k' = k \/ lt k' k) /\ (mine (σ n) -> lt k' k)) ->
  forall k n x, stateAt σ s n = Ok x -> I n x k -> eventually n Q.
Proof.
  intros F Step k. induction (lt_wf k) as [k _ IH]. intros n x E Ix.
  destruct (F n) as (m & L & Hm). remember (m - n) as d eqn:Ed.
  revert n x E Ix L Ed. induction d as [|d IHd]; intros n x E Ix L Ed;
    destruct (Step n x k Ix) as [Qx|St]; eauto using eventually_now.
  - replace m with n in Hm by lia. destruct (act (σ n) x) as [x'|e|] eqn:Ea.
    + destruct (St x' eq_refl) as (k' & Ix' & _ & D). apply (eventually_later n (Datatypes.S n)); [lia|].
      eapply IH; [by apply D| |exact Ix']. simpl. by rewrite E.
    + exists (Datatypes.S n). split; [lia|]. left. simpl. rewrite E. simpl. by rewrite Ea.
    + exists (Datatypes.S n). split; [lia|]. left. simpl. rewrite E. simpl. by rewrite Ea.
  - destruct (act (σ n) x) as [x'|e|] eqn:Ea.
    + assert (E' : stateAt σ s (Datatypes.S n) = Ok x') by (simpl; by rewrite E).
      destruct (St x' eq_refl) as (k' & Ix' & [->|D] & _);
        apply (eventually_later n (Datatypes.S n)); [lia| |lia|].
      * apply (IHd _ _ E' Ix'); lia.
      * eapply IH; eauto.
    + exists (Datatypes.S n). split; [lia|]. left. simpl. rewrite E. simpl. by rewrite Ea.
    + exists (Datatypes.S n). split; [lia|]. left. simpl. rewrite E. simpl. by rewrite Ea.
Qed.
End progress.

(** With a natural number as the measure. *)
Lemma progress σ s (mine : A -> Prop) (I : nat -> S -> nat -> Prop) (Q : nat -> S -> Prop) :
  fair mine σ ->
  (forall n x k, I n x k ->
     Q n x \/
     forall x', act (σ n) x = Ok x' ->
       exists k', I (Datatypes.S n) x' k' /\ k' <= k /\ (mine (σ n) -> k' < k)) ->
  forall k n x, stateAt σ s n = Ok x -> I n x k -> eventually σ s n Q.
Proof.
  intros F Step. apply (progress_wf σ s Nat.lt Nat.lt_wf_0 mine I Q F).
  intros n x k Ix. destruct (Step n x k Ix) as [Qx|St]; [by left|]. right.
  intros x' E. destruct (St x' E) as (k' & Ix' & L & D). exists k'. split; [done|].
  split; [unfold Nat.lt; lia|done].
Qed.
End schedules.

(** A pair of naturals, the first more important. *)
Definition lex (a b : nat * nat) : Prop := a.1 < b.1 \/ (a.1 = b.1 /\ a.2 < b.2).

Lemma lex_wf : well_founded lex.
Proof.
  intros [a b]. revert b. induction (Nat.lt_wf_0 a) as [a _ IHa]. intros b.
  induction (Nat.lt_wf_0 b) as [b _ IHb]. constructor.
  intros [a' b'] [L|[Ea L]]; simpl in *; [by apply IHa|]. subst a'. by apply IHb.
Qed.

(** ** Round robin: turns in a fixed cycle are fair *)
Definition cycle {A} (l : list A) (d : A) : schedule :=
  fun n => nth (n mod length l) l d.

Lemma cycle_fair {A} (mine : A -> Prop) (l : list A) d i a :
  l !! i = Some a -> mine a -> fair mine (cycle l d).
Proof.
  intros E Ha n. assert (L : i < length l) by (by apply lookup_lt_Some in E).
  exists (n * length l + i). split; [nia|]. unfold cycle.
  rewrite Nat.add_comm, Nat.Div0.mod_add, Nat.mod_small by done.
  by rewrite (nth_lookup_Some _ _ _ _ E).
Qed.

(** The same after [k] times of one action. *)
Definition after {A} (k : nat) (a : A) (σ : schedule (A := A)) : schedule :=
  fun n => if decide (n < k) then a else σ n.

Lemma after_turn {A} k (a : A) σ n : k <= n -> after k a σ n = σ n.
Proof. intros L. unfold after. destruct (decide (n < k)); [lia|done]. Qed.

Lemma after_fair {A} (mine : A -> Prop) k a σ : fair mine σ -> fair mine (after k a σ).
Proof.
  intros F n. destruct (F (k + n)) as (m & L & Hm). exists m. split; [lia|].
  by rewrite after_turn by lia.
Qed.

(** ** Runs of one thread on its own, with what it logs *)
Section runs.
Local Open Scope list_scope.
Context {S : Type} (step : S -> outcome (S * list line)).

Fixpoint runs (n : nat) (s : S) : outcome (S * list line) :=
  match n with
  | O => Ok (s, [])
  | Datatypes.S n =>
      '(s, l) ← step s; '(s, l') ← runs n s; Ok (s, l ++ l')
  end.

(** What is logged first comes first. *)
Definition logged (l : list line) (r : outcome (S * list line)) : outcome (S * list line) :=
  '(s, l') ← r; Ok (s, l ++ l').

Lemma logged_nil r : logged [] r = r.
Proof. by destruct r as [[]| |]. Qed.
Lemma logged_logged l l' r : logged l (logged l' r) = logged (l ++ l') r.
Proof. destruct r as [[]| |]; simpl; [|done..]. by rewrite (assoc_L app). Qed.

Lemma runs_step n s s' l : step s = Ok (s', l) -> runs (1 + n) s = logged l (runs n s').
Proof. intros E. simpl. by rewrite E. Qed.

Lemma runs_app n m s s' l : runs n s = Ok (s', l) -> runs (n + m) s = logged l (runs m s').
Proof.
  revert s l. induction n as [|n IH]; intros s l; simpl.
  - intros [= -> <-]. by rewrite logged_nil.
  - intros ([s1 l1] & E1 & ([s2 l2] & E2 & [= <- <-])%bind_ok)%bind_ok.
    rewrite E1. simpl. rewrite (IH _ _ E2). exact (logged_logged l1 l2 _).
Qed.

(** The inner loop that removes what is too much: a test for an overfull queue
    at [loop], a removal at [pop], and [warn] after it. *)
Lemma drain_runs {Q A} `{ReaderWriterQueueLaws Q A} limit (loop pop warn : Z -> Q -> S) :
  (forall n q, step (loop n q) = Ok (if (limit <? size_approx q)%Z then pop n q else warn n q, [])) ->
  (forall n q, step (pop n q) =
     Ok (if (rq_pop q).1 then loop (n + 1)%Z (rq_pop q).2 else warn n (rq_pop q).2, [])) ->
  (0 <= limit)%Z ->
  forall fuel m q, length (rq_elems q) <= fuel ->
  exists n, runs n (loop m q) =
    Ok (warn (drainTo limit fuel q m).2 (drainTo limit fuel q m).1, []).
Proof.
  intros Hl Hp L. induction fuel as [|fuel IH]; intros m q Lq.
  - exists 1. simpl. rewrite Hl. unfold size_approx.
    destruct (Z.ltb_spec limit (Z.of_nat (length (rq_elems q)))); [lia|done].
  - cbn [drainTo]. destruct (limit <? size_approx q)%Z eqn:Eo.
    + pose proof (rq_pop_elems q) as [Er Ep]. destruct (rq_pop q) as [popped q'] eqn:Eq.
      assert (Ep' : step (pop m q) = Ok (if popped then loop (m + 1)%Z q' else warn m q', []))
        by (rewrite Hp, Eq; done).
      simpl in *. destruct popped.
      * destruct (IH (m + 1)%Z q') as [n En]; [rewrite Er, length_drop; lia|].
        exists (1 + (1 + n)). rewrite (runs_step _ _ (pop m q) []); [|by rewrite Hl, Eo].
        rewrite (runs_step _ _ _ _ Ep'), !logged_nil. exact En.
      * exists 2. simpl. rewrite Hl, Eo. simpl. by rewrite Ep'.
    + exists 1. simpl. by rewrite Hl, Eo.
Qed.
End runs.
