(* ===== verification/Lines.v ===== *)
(** * Two threads in a line

    The sanitizer and the broadcaster have the same shape: one thread takes
    packets from where they come in, drops some and puts the rest on a queue,
    and a second thread takes them from the queue and sends them.  Here is the
    argument that such a line makes progress, for any two threads: if a turn
    of a thread that has something to do either takes its first item away or
    brings it nearer to that, and nothing but a turn of its own delays it,
    then under a fair scheduler whatever is in the line at one time has left
    it at a later one. *)
From Stdlib Require Import Lia.
From stdpp Require Import base tactics list.
From S2P Require Import Prelude Interfaces Schedules.

Open Scope nat_scope.

(** A step of a thread on what waits for it, and what it hands on: it comes
    nearer to its next item, or takes it and perhaps hands it on. *)
Inductive takes {P} (l l' : list P) (r r' : nat) (on : list P) : Prop :=
  | takes_none : l' = l -> on = [] -> (l <> [] -> r' < r) -> takes l l' r r' on
  | takes_one x : l = x :: l' -> on = [] \/ on = [x] -> takes l l' r r' on.

Section line.
Local Open Scope list_scope.
Context {S A P : Type} (act : A -> S -> outcome S) (σ : schedule (A := A)) (s0 : S).

(** What waits for the first thread, and what waits for the second; the
    steps each has to make before it takes its next item, fewer than
    [bound]; its actions; what comes in at a time; and what holds as long as
    the line runs. *)
Context (first second : S -> list P) (rank1 rank2 : S -> nat) (bound : nat).
Context (mine1 mine2 : A -> Prop) (arrived : nat -> list P) (running : S -> Prop).
Hypothesis rank1_bound : forall s, rank1 s < bound.
Hypothesis rank2_bound : forall s, rank2 s < bound.

Definition inLine (s : S) : list P := second s ++ first s.
Definition arrivedIn (n m : nat) : list P := concat (arrived <$> seq n (m - n)).

(** A thread is nearer to its next item. *)
Definition nearer (r r' : nat) (mine : Prop) : Prop := r' <= r /\ (mine -> r' < r).

(** What one action at time [m] does to the line. *)
Inductive moved (m : nat) (s s' : S) : Prop :=
  | line_stays new :
      second s' = second s -> first s' = first s ++ new -> new `sublist_of` arrived m ->
      (first s <> [] -> nearer (rank1 s) (rank1 s') (mine1 (σ m))) ->
      (second s <> [] -> nearer (rank2 s) (rank2 s') (mine2 (σ m))) -> moved m s s'
  | line_first x passed_on :
      first s = x :: first s' -> second s' = second s ++ passed_on ->
      passed_on = [] \/ passed_on = [x] -> nearer (rank2 s) (rank2 s') (mine2 (σ m)) ->
      moved m s s'
  | line_second x :
      second s = x :: second s' -> first s' = first s ->
      nearer (rank1 s) (rank1 s') (mine1 (σ m)) -> moved m s s'.

Lemma moved_first m s s' on :
  takes (first s) (first s') (rank1 s) (rank1 s') on -> second s' = second s ++ on ->
  rank2 s' = rank2 s -> ~ mine2 (σ m) -> moved m s s'.
Proof.
  intros [E1 -> N|x E1 O] E2 E3 Nm.
  - apply (line_stays m s s' []); rewrite ?app_nil_r in *; [done|done|apply sublist_nil_l| |].
    + intros Z. specialize (N Z). split; [lia|auto].
    + intros _. rewrite E3. by split.
  - apply (line_first m s s' x on); [done..|]. rewrite E3. by split.
Qed.

Lemma moved_second m s s' :
  takes (second s) (second s') (rank2 s) (rank2 s') [] -> first s' = first s ->
  rank1 s' = rank1 s -> ~ mine1 (σ m) -> moved m s s'.
Proof.
  intros [E1 _ N|x E1 _] E2 E3 Nm.
  - apply (line_stays m s s' []); rewrite ?app_nil_r; [done|done|apply sublist_nil_l| |].
    + intros _. rewrite E3. by split.
    + intros Z. specialize (N Z). split; [lia|auto].
  - apply (line_second m s s' x); [done..|]. rewrite E3. by split.
Qed.

Lemma moved_arrives m s s' new :
  second s' = second s -> first s' = first s ++ new -> new `sublist_of` arrived m ->
  rank1 s' = rank1 s -> rank2 s' = rank2 s -> ~ mine1 (σ m) -> ~ mine2 (σ m) -> moved m s s'.
Proof. intros E1 E2 N R1 R2 N1 N2. by apply (line_stays m s s' new); [..|rewrite R1|rewrite R2]. Qed.

Hypothesis step_moves : forall m s s',
  stateAt act σ s0 m = Ok s -> running s -> act (σ m) s = Ok s' -> running s' /\ moved m s s'.

Lemma arrivedIn_snoc n m : n <= m -> arrivedIn n (Datatypes.S m) = arrivedIn n m ++ arrived m.
Proof.
  intros L. unfold arrivedIn. replace (Datatypes.S m - n) with (m - n + 1) by lia.
  rewrite seq_app, fmap_app, concat_app. simpl. rewrite app_nil_r.
  by replace (n + (m - n)) with m by lia.
Qed.

(** The first [o] in the line are those that were there at time [n]; what
    follows them has arrived since. *)
Record old (n o m : nat) (s : S) : Prop := mkOld {
  old_time : n <= m;
  old_at : stateAt act σ s0 m = Ok s;
  old_running : running s;
  old_length : o <= length (inLine s);
  old_rest : drop o (inLine s) `sublist_of` arrivedIn n m
}.

Lemma old_grows n o m (s s' : S) new :
  n <= m -> stateAt act σ s0 (Datatypes.S m) = Ok s' -> running s' -> o <= length (inLine s') ->
  drop o (inLine s') `sublist_of` arrivedIn n m ++ new -> new `sublist_of` arrived m ->
  old n o (Datatypes.S m) s'.
Proof.
  intros L At R O D N. split; [lia|done..|]. rewrite arrivedIn_snoc by done.
  etrans; [exact D|]. by apply sublist_app.
Qed.

(** Taking out an item at place [i] of a list: of the first [o] there are one
    fewer if it is one of them. *)
Lemma drop_without (l l' : list P) x o :
  drop (if decide (length l < o) then o - 1 else o) (l ++ l') `sublist_of`
  drop o (l ++ x :: l').
Proof.
  destruct (decide _) as [G|G].
  - rewrite !drop_app_ge by lia.
    by replace (o - length l) with (Datatypes.S (o - 1 - length l)) by lia.
  - rewrite !drop_app_le by lia. apply sublist_app; [done|]. by apply sublist_cons.
Qed.

(** Of the old items those in front of the first thread. *)
Abbreviation ahead o s := (o - length (second s)).

(** An action leaves the old items where they are and brings the threads
    nearer to them, or one of them moves on. *)
Lemma old_step n o m s s' :
  old n o m s -> act (σ m) s = Ok s' ->
  exists o', old n o' (Datatypes.S m) s' /\ o' <= o /\ ahead o' s' <= ahead o s /\
    (ahead o' s' < ahead o s \/
     (0 < ahead o s -> nearer (rank1 s) (rank1 s') (mine1 (σ m)))) /\
    (o' < o \/ o' = o /\
     (0 < o <= length (second s) -> nearer (rank2 s) (rank2 s') (mine2 (σ m)))).
Proof.
  intros [L At R O D] E. destruct (step_moves m s s' At R E) as [R' M].
  assert (At' : stateAt act σ s0 (Datatypes.S m) = Ok s') by (simpl; by rewrite At).
  unfold inLine in *.
  rewrite length_app in O.
  destruct M as [new E2 E1 N N1 N2|x on E1 E2 Eo N2|x E2 E1 N1].
  - exists o. split; [|rewrite E2; split_and!; [done|done|right|right]].
    + eapply (old_grows n o m s s' new); [done..| | |done]; unfold inLine;
        rewrite E1, E2, (assoc_L app); [rewrite !length_app; lia|].
      rewrite drop_app_le by (rewrite length_app; lia). by apply sublist_app.
    + intros W. apply N1. intros Z. rewrite Z in O. simpl in O. lia.
    + split; [done|]. intros W. apply N2. intros Z. rewrite Z in W. simpl in W. lia.
  - rewrite E1 in D, O. simpl in O. destruct Eo as [-> | ->].
    + exists (if decide (length (second s) < o) then o - 1 else o). rewrite app_nil_r in E2. split.
      * eapply (old_grows n _ m s s' []); [done..| | |apply sublist_nil_l]; unfold inLine; rewrite E2.
        -- rewrite length_app. destruct (decide _); lia.
        -- rewrite app_nil_r. etrans; [apply drop_without|exact D].
      * rewrite E2. destruct (decide _);
          (split; [lia|]; split; [lia|]; split); [left; lia|left; lia|right; lia|right; auto].
    + exists o. split.
      * eapply (old_grows n _ m s s' []); [done..| | |apply sublist_nil_l]; unfold inLine;
          rewrite E2, <- (assoc_L app), ?length_app, ?app_nil_r; simpl; [lia|done].
      * rewrite E2, length_app. simpl. split_and!; [lia|lia| |right; auto].
        destruct (decide (length (second s) < o)); [left|right]; lia.
  - rewrite E2 in D, O. simpl in O. exists (o - 1). split.
    + eapply (old_grows n _ m s s' []); [done..| | |apply sublist_nil_l]; unfold inLine; rewrite E1.
      * rewrite length_app. lia.
      * rewrite app_nil_r. etrans; [|exact D]. destruct o as [|o]; simpl; [by apply sublist_cons|].
        by rewrite Nat.sub_0_r.
    + rewrite E2. simpl. split_and!; [lia|lia|right; auto|].
      destruct o; [right; split; [done|lia]|left; lia].
Qed.

(** A measure [bound * w + r] goes down when [w] does, or when [r] does. *)
Lemma measure_down w w' r r' (mine : Prop) :
  r' < bound -> w' <= w -> w' < w \/ nearer r r' mine ->
  bound * w' + r' <= bound * w + r /\ (mine -> bound * w' + r' < bound * w + r).
Proof.
  intros B L [Lt|[Le St]]; [assert (bound * w' + bound <= bound * w) by nia; lia|].
  assert (bound * w' <= bound * w) by nia. split; [lia|]. intros Hm. specialize (St Hm). lia.
Qed.

(** The old items pass the first thread. *)
Lemma old_pass_first n :
  fair mine1 σ ->
  leads_to act σ s0 (fun m s => exists o, old n o m s)
    (fun m s => exists o, old n o m s /\ o <= length (second s)).
Proof.
  intros F m s E [o O].
  apply (progress act σ s0 mine1
    (fun m s k => exists o, old n o m s /\ k = bound * ahead o s + rank1 s) _ F) with
    (k := bound * ahead o s + rank1 s) (x := s); [|done|eauto].
  clear m s E o O. intros m s k (o & O & ->).
  destruct (decide (o <= length (second s))) as [L|L]; [by left; eauto|].
  right. intros s' E. destruct (old_step n o m s s' O E) as (o' & O' & _ & La & M & _).
  exists (bound * ahead o' s' + rank1 s'). split; [eauto|].
  apply measure_down; [done|done|]. destruct M as [?|M]; [by left|right; apply M; lia].
Qed.

(** They pass the second. *)
Lemma old_pass_second n :
  fair mine2 σ ->
  leads_to act σ s0 (fun m s => exists o, old n o m s /\ o <= length (second s))
    (fun m s => old n 0 m s).
Proof.
  intros F m s E [o [O Lo]].
  apply (progress act σ s0 mine2
    (fun m s k => exists o, old n o m s /\ o <= length (second s) /\
       k = bound * o + rank2 s) _ F) with (k := bound * o + rank2 s) (x := s); [|done|eauto].
  clear m s E o O Lo. intros m s k (o & O & Lo & ->).
  destruct (decide (o = 0)) as [->|Z]; [by left|].
  right. intros s' E. destruct (old_step n o m s s' O E) as (o' & O' & Lo' & La & _ & M).
  exists (bound * o' + rank2 s'). split; [exists o'; split; [done|]; split; [lia|done]|].
  apply measure_down; [done|done|]. destruct M as [?|[-> M]]; [by left|right; apply M; lia].
Qed.

Lemma running_always m s : running s0 -> stateAt act σ s0 m = Ok s -> running s.
Proof.
  intros R. revert s. induction m as [|m IH]; intros s; simpl; [by intros [= <-]|].
  intros (s1 & E1 & E2)%bind_ok. by apply (step_moves m s1 s E1 (IH _ E1)).
Qed.

(** Whatever is in the line has left it some time later. *)
Lemma line_progress n :
  running s0 -> fair mine1 σ -> fair mine2 σ ->
  eventually act σ s0 n (fun m s => inLine s `sublist_of` arrivedIn n m).
Proof.
  intros R F1 F2. destruct (stateAt act σ s0 n) as [s|e|] eqn:E;
    [|by exists n; split; [done|left; rewrite E]..].
  apply (eventually_mono _ _ _ _ (fun m s => old n 0 m s)); [by intros m x _ _ [_ _ _ _ D]|].
  apply (leads_to_trans _ _ _ _ _ _ (old_pass_first n F1) (old_pass_second n F2) n s E).
  exists (length (inLine s)). split; [done|done|by eapply running_always|done|].
  rewrite drop_all. apply sublist_nil_l.
Qed.
End line.
