(* ===== verification/Ownership.v ===== *)
(** * Objects and the implementations they own

    Every class of the library holds its data behind a
    [std::unique_ptr<...Impl> pImpl] and defines the same special members:
    a copy constructor and a move constructor that assign, a copy assignment
    that makes a new implementation from the other's, a move assignment that
    takes the other's, each with a guard against assigning an object to
    itself.  The other files pass implementations as values.  Here the
    objects are modelled with their pointers and the heap the pointers go to,
    and the store is shown to implement values, so that the other files may.
    An object that was moved from holds a null pointer, and using it, or
    copying it, is undefined.

    The last section lists the classes with what differs between them. *)
From Stdlib Require Import ZArith String Lia.
From stdpp Require Import base tactics list gmap.
From S2P Require Import Prelude Interfaces DataPacket PacketTests DuplicateTest.
From S2P Require Import Broadcast Authentication SeedLink WebServer.

Section objects.
Context {Impl : Type}.

(** An object and a piece of the heap are known by their addresses. *)
Record store := mkStore {
  heap : gmap positive Impl;
  objects : gmap positive (option positive)      (* [pImpl] of each object *)
}.

(** What differs between the classes: the implementation the default
    constructor (and [clear]) makes, and the one copy assignment makes from
    the other's. *)
Record specialMembers := mkMembers {
  sm_default : option Impl;
  sm_copy : Impl -> Impl
}.

(** *** The operations *)

(** The pointer of an object that is alive. *)
Definition pImpl (o : positive) (st : store) : outcome (option positive) :=
  of_option (objects st !! o).

(** [*o.pImpl] *)
Definition deref (o : positive) (st : store) : outcome Impl :=
  p ← pImpl o st; l ← of_option p; of_option (heap st !! l).

(** The heap once what an object owns is deleted. *)
Definition freed (o : positive) (st : store) : gmap positive Impl :=
  match objects st !! o with
  | Some (Some l) => delete l (heap st)
  | _ => heap st
  end.

(** [o.pImpl = std::make_unique<Impl> (i)]: what the pointer held before is
    deleted. *)
Definition install (o : positive) (i : Impl) (st : store) : store :=
  let l := fresh (dom (heap st)) in
  mkStore (<[l := i]> (freed o st)) (<[o := Some l]> (objects st)).

(** [o.pImpl = std::move(other.pImpl)] *)
Definition steal (o other : positive) (p : option positive) (st : store) : store :=
  mkStore (freed o st) (<[o := p]> (<[other := None]> (objects st))).

(** A constructor runs on an object whose pointer is null. *)
Definition declare (o : positive) (st : store) : outcome store :=
  match objects st !! o with
  | None => Ok (mkStore (heap st) (<[o := None]> (objects st)))
  | Some _ => Undef                                     (* the address is taken *)
  end.

Context (members : specialMembers).

Definition construct (o : positive) (i : Impl) (st : store) : outcome store :=
  st ← declare o st; Ok (install o i st).

(** [o = other] *)
Definition copyAssign (o other : positive) (st : store) : outcome store :=
  if decide (other = o) then _ ← pImpl o st; Ok st
  else _ ← pImpl o st; i ← deref other st; Ok (install o (sm_copy members i) st).

(** [o = std::move(other)] *)
Definition moveAssign (o other : positive) (st : store) : outcome store :=
  if decide (other = o) then _ ← pImpl o st; Ok st
  else _ ← pImpl o st; p ← pImpl other st; Ok (steal o other p st).

Definition copyConstruct (o other : positive) (st : store) : outcome store :=
  st ← declare o st; copyAssign o other st.
Definition moveConstruct (o other : positive) (st : store) : outcome store :=
  st ← declare o st; moveAssign o other st.

Definition clear (o : positive) (st : store) : outcome store :=
  i ← of_option (sm_default members); _ ← pImpl o st; Ok (install o i st).

(** A member function that changes the implementation. *)
Definition update (o : positive) (f : Impl -> outcome Impl) (st : store) : outcome store :=
  p ← pImpl o st; l ← of_option p; i ← of_option (heap st !! l); i ← f i;
  Ok (mkStore (<[l := i]> (heap st)) (objects st)).

Definition destroy (o : positive) (st : store) : outcome store :=
  _ ← pImpl o st; Ok (mkStore (freed o st) (delete o (objects st))).

Inductive command :=
  | Construct (o : positive) (i : Impl)
  | CopyConstruct (o other : positive)
  | MoveConstruct (o other : positive)
  | CopyAssign (o other : positive)
  | MoveAssign (o other : positive)
  | Clear (o : positive)
  | Update (o : positive) (f : Impl -> outcome Impl)
  | Destroy (o : positive).

Definition exec (c : command) (st : store) : outcome store :=
  match c with
  | Construct o i => construct o i st
  | CopyConstruct o other => copyConstruct o other st
  | MoveConstruct o other => moveConstruct o other st
  | CopyAssign o other => copyAssign o other st
  | MoveAssign o other => moveAssign o other st
  | Clear o => clear o st
  | Update o f => update o f st
  | Destroy o => destroy o st
  end.

Fixpoint execAll (l : list command) (st : store) : outcome store :=
  match l with
  | [] => Ok st
  | c :: l' => st ← exec c st; execAll l' st
  end.

(** *** The same operations on values

    An object is its implementation, or nothing once it was moved from. *)
Abbreviation values := (gmap positive (option Impl)).

Definition value (o : positive) (v : values) : outcome (option Impl) := of_option (v !! o).
Definition vdeclare (o : positive) (v : values) : outcome values :=
  match v !! o with None => Ok (<[o := None]> v) | Some _ => Undef end.
Definition vcopy (o other : positive) (v : values) : outcome values :=
  if decide (other = o) then _ ← value o v; Ok v
  else _ ← value o v; w ← value other v; i ← of_option w; Ok (<[o := Some i]> v).
Definition vmove (o other : positive) (v : values) : outcome values :=
  if decide (other = o) then _ ← value o v; Ok v
  else _ ← value o v; w ← value other v; Ok (<[o := w]> (<[other := None]> v)).

Definition vexec (c : command) (v : values) : outcome values :=
  match c with
  | Construct o i => v ← vdeclare o v; Ok (<[o := Some i]> v)
  | CopyConstruct o other => v ← vdeclare o v; vcopy o other v
  | MoveConstruct o other => v ← vdeclare o v; vmove o other v
  | CopyAssign o other => vcopy o other v
  | MoveAssign o other => vmove o other v
  | Clear o => i ← of_option (sm_default members); _ ← value o v; Ok (<[o := Some i]> v)
  | Update o f => w ← value o v; i ← of_option w; i ← f i; Ok (<[o := Some i]> v)
  | Destroy o => _ ← value o v; Ok (delete o v)
  end.

Fixpoint vexecAll (l : list command) (v : values) : outcome values :=
  match l with
  | [] => Ok v
  | c :: l' => v ← vexec c v; vexecAll l' v
  end.

(** *** The store implements the values *)

(** Pointers go to the heap, no two objects share one, and nothing on the
    heap is without an owner. *)
Record store_ok (st : store) : Prop := mkStoreOk {
  ok_valid o l : objects st !! o = Some (Some l) -> is_Some (heap st !! l);
  ok_unique o o' l :
    objects st !! o = Some (Some l) -> objects st !! o' = Some (Some l) -> o = o';
  ok_owned l : is_Some (heap st !! l) -> exists o, objects st !! o = Some (Some l)
}.

Definition valuesOf (st : store) : values :=
  (fun p => p ≫= fun l => heap st !! l) <$> objects st.

Lemma valuesOf_lookup st o :
  valuesOf st !! o = (fun p => p ≫= fun l => heap st !! l) <$> objects st !! o.
Proof. apply lookup_fmap. Qed.

Lemma valuesOf_empty : store_ok (mkStore ∅ ∅) /\ valuesOf (mkStore ∅ ∅) = ∅.
Proof.
  split; [|apply fmap_empty].
  split; intros *; simpl; rewrite ?lookup_empty; done.
Qed.

Lemma freed_spec st o l :
  (freed o st !! l = heap st !! l /\ objects st !! o <> Some (Some l)) \/
  (freed o st !! l = None /\ objects st !! o = Some (Some l)).
Proof.
  unfold freed. destruct (objects st !! o) as [[l'|]|] eqn:E; [|by left..].
  destruct (decide (l' = l)) as [->|N].
  - right. by rewrite lookup_delete_eq.
  - left. rewrite lookup_delete_ne by done. split; [done|]. intros [= ->]. done.
Qed.

(** Other objects do not lose their implementation when one does. *)
Lemma freed_other st o o' l :
  store_ok st -> o' <> o -> objects st !! o' = Some (Some l) ->
  freed o st !! l = heap st !! l.
Proof.
  intros S N E. destruct (freed_spec st o l) as [[? _]|[_ E']]; [done|].
  exfalso. apply N. exact (ok_unique _ S _ _ _ E E').
Qed.

Lemma freed_owned st o l :
  store_ok st -> is_Some (freed o st !! l) ->
  exists o', o' <> o /\ objects st !! o' = Some (Some l).
Proof.
  intros S I. destruct (freed_spec st o l) as [[E N]|[E _]]; [|rewrite E in I; by destruct I].
  rewrite E in I. destruct (ok_owned _ S _ I) as [o' E']. exists o'. split; [congruence|done].
Qed.

Lemma install_values st o i :
  store_ok st -> valuesOf (install o i st) = <[o := Some i]> (valuesOf st).
Proof.
  intros S. apply map_eq. intros o'. rewrite valuesOf_lookup. simpl.
  destruct (decide (o' = o)) as [->|N].
  - rewrite (lookup_insert_eq (valuesOf st)), lookup_insert_eq. simpl. by rewrite lookup_insert_eq.
  - rewrite (lookup_insert_ne (valuesOf st)), lookup_insert_ne, valuesOf_lookup by done.
    destruct (objects st !! o') as [[l|]|] eqn:E; simpl; [|done..]. f_equal.
    rewrite lookup_insert_ne; [by eapply freed_other|].
    intros <-. destruct (ok_valid _ S _ _ E) as [x Ex].
    assert (heap st !! fresh (dom (heap st)) = None) by apply not_elem_of_dom_1, is_fresh.
    congruence.
Qed.

Lemma install_ok st o i : store_ok st -> store_ok (install o i st).
Proof.
  intros S. pose proof (not_elem_of_dom_1 _ _ (is_fresh (dom (heap st)))) as Fr.
  assert (Nw : forall o', objects st !! o' <> Some (Some (fresh (dom (heap st))))).
  { intros o' E. destruct (ok_valid _ S _ _ E). congruence. }
  split; simpl.
  - intros o' l. destruct (decide (o' = o)) as [->|N].
    + rewrite lookup_insert_eq. intros [= <-]. rewrite lookup_insert_eq. eauto.
    + rewrite lookup_insert_ne by done. intros E. rewrite lookup_insert_ne by (intros <-; by eapply Nw).
      rewrite (freed_other st o o' l S N E). by eapply ok_valid.
  - intros o1 o2 l. rewrite !lookup_insert. repeat case_decide; subst; try done.
    + intros [= <-] E. by apply Nw in E.
    + intros E [= <-]. by apply Nw in E.
    + by apply (ok_unique _ S).
  - intros l. rewrite lookup_insert. case_decide as D.
    + intros _. exists o. rewrite lookup_insert_eq. by subst.
    + intros I. destruct (freed_owned st o l S I) as (o' & N & E). exists o'.
      by rewrite lookup_insert_ne.
Qed.

(** A move gives the target what the source held, and the source nothing. *)
Lemma steal_values st o other q :
  store_ok st -> other <> o -> objects st !! other = Some q ->
  valuesOf (steal o other q st) =
    <[o := q ≫= fun l => heap st !! l]> (<[other := None]> (valuesOf st)).
Proof.
  intros S N E. apply map_eq. intros o'. rewrite valuesOf_lookup. simpl.
  destruct (decide (o' = o)) as [->|N1].
  - rewrite (lookup_insert_eq (<[other:=None]> (valuesOf st))), lookup_insert_eq. simpl.
    destruct q as [l|]; simpl; [|done]. by rewrite (freed_other st o other l).
  - rewrite (lookup_insert_ne (<[other:=None]> (valuesOf st))), lookup_insert_ne by done.
    destruct (decide (o' = other)) as [->|N2].
    + by rewrite (lookup_insert_eq (valuesOf st)), lookup_insert_eq.
    + rewrite (lookup_insert_ne (valuesOf st)), lookup_insert_ne, valuesOf_lookup by done.
      destruct (objects st !! o') as [[l|]|] eqn:E'; simpl; [|done..]. f_equal.
      by eapply freed_other.
Qed.

Lemma steal_ok st o other q :
  store_ok st -> other <> o -> objects st !! other = Some q -> store_ok (steal o other q st).
Proof.
  intros S N E. split; simpl.
  - intros o' l. rewrite !lookup_insert. repeat case_decide; subst; try done.
    + intros [= ->]. rewrite (freed_other st o' other l) by done. by eapply ok_valid.
    + intros E'. rewrite (freed_other st o o' l) by done. by eapply ok_valid.
  - intros o1 o2 l. rewrite !lookup_insert. repeat case_decide; subst; try done.
    + intros [= ->] E'. exfalso. by pose proof (ok_unique _ S _ _ _ E E').
    + intros E' [= ->]. exfalso. by pose proof (ok_unique _ S _ _ _ E E').
    + by apply (ok_unique _ S).
  - intros l I. destruct (freed_owned st o l S I) as (o' & N' & E').
    destruct (decide (o' = other)) as [->|N2].
    + exists o. rewrite lookup_insert_eq. congruence.
    + exists o'. by rewrite !lookup_insert_ne.
Qed.

Lemma declare_spec st o :
  store_ok st ->
  match declare o st with
  | Ok st' => store_ok st' /\ vdeclare o (valuesOf st) = Ok (valuesOf st') /\
              forall o' l, objects st' !! o' = Some (Some l) -> o' <> o
  | Throw _ => False
  | Undef => vdeclare o (valuesOf st) = Undef
  end.
Proof.
  intros S. unfold declare, vdeclare. rewrite valuesOf_lookup.
  destruct (objects st !! o) as [q|] eqn:E; simpl; [done|].
  split; [|split].
  - split; simpl.
    + intros o' l. rewrite lookup_insert. case_decide; [done|]. apply (ok_valid _ S).
    + intros o1 o2 l. rewrite !lookup_insert. repeat case_decide; try done.
      apply (ok_unique _ S).
    + intros l I. destruct (ok_owned _ S _ I) as [o' E']. exists o'.
      rewrite lookup_insert_ne; [done|]. intros <-. congruence.
  - f_equal. symmetry. apply map_eq. intros o'. rewrite valuesOf_lookup. simpl.
    rewrite !lookup_insert. case_decide; [done|]. by rewrite valuesOf_lookup.
  - simpl. intros o' l. rewrite lookup_insert. case_decide; congruence.
Qed.

Lemma destroy_ok st o :
  store_ok st -> store_ok (mkStore (freed o st) (delete o (objects st))).
Proof.
  intros S. split; simpl.
  - intros o' l. rewrite lookup_delete. case_decide; [done|]. intros E.
    rewrite (freed_other st o o' l) by done. by eapply ok_valid.
  - intros o1 o2 l. rewrite !lookup_delete. repeat case_decide; try done.
    apply (ok_unique _ S).
  - intros l I. destruct (freed_owned st o l S I) as (o' & N' & E'). exists o'.
    by rewrite lookup_delete_ne.
Qed.

Lemma destroy_values st o :
  store_ok st ->
  valuesOf (mkStore (freed o st) (delete o (objects st))) = delete o (valuesOf st).
Proof.
  intros S. apply map_eq. intros o'. rewrite valuesOf_lookup. simpl.
  rewrite !lookup_delete. case_decide; [done|]. rewrite valuesOf_lookup.
  destruct (objects st !! o') as [[l|]|] eqn:E'; simpl; [|done..]. f_equal.
  by eapply freed_other.
Qed.

Lemma write_ok st o l i :
  store_ok st -> objects st !! o = Some (Some l) ->
  store_ok (mkStore (<[l := i]> (heap st)) (objects st)).
Proof.
  intros S E. split; simpl.
  - intros o' l' E'. rewrite lookup_insert. case_decide; [eauto|]. by eapply ok_valid.
  - apply (ok_unique _ S).
  - intros l'. rewrite lookup_insert. case_decide; [subst; eauto|]. apply (ok_owned _ S).
Qed.

Lemma write_values st o l i :
  store_ok st -> objects st !! o = Some (Some l) ->
  valuesOf (mkStore (<[l := i]> (heap st)) (objects st)) = <[o := Some i]> (valuesOf st).
Proof.
  intros S E. apply map_eq. intros o'. rewrite valuesOf_lookup. simpl.
  destruct (decide (o' = o)) as [->|N].
  - rewrite (lookup_insert_eq (valuesOf st)), E. simpl. by rewrite lookup_insert_eq.
  - rewrite (lookup_insert_ne (valuesOf st)), valuesOf_lookup by done.
    destruct (objects st !! o') as [[l'|]|] eqn:E'; simpl; [|done..]. f_equal.
    rewrite lookup_insert_ne; [done|]. intros <-. apply N.
    exact (ok_unique _ S _ _ _ E' E).
Qed.

(** The outcome of a command, on the store and on the values. *)
Definition agree (r : outcome store) (v : outcome values) : Prop :=
  match r with
  | Ok st => store_ok st /\ v = Ok (valuesOf st)
  | Throw e => v = Throw e
  | Undef => v = Undef
  end.

Lemma copyAssign_agree st o other :
  (forall i, sm_copy members i = i) -> store_ok st ->
  agree (copyAssign o other st) (vcopy o other (valuesOf st)).
Proof.
  intros C S. unfold copyAssign, vcopy, deref, pImpl, value. rewrite !valuesOf_lookup.
  case_decide as D; destruct (objects st !! o) as [q|]; simpl; [done..| |done].
  destruct (objects st !! other) as [[l|]|] eqn:E; simpl; [|done..].
  destruct (ok_valid _ S _ _ E) as [i Ei]. rewrite Ei. simpl. rewrite C.
  split; [by apply install_ok|]. by rewrite install_values.
Qed.

Lemma moveAssign_agree st o other :
  store_ok st -> agree (moveAssign o other st) (vmove o other (valuesOf st)).
Proof.
  intros S. unfold moveAssign, vmove, pImpl, value. rewrite !valuesOf_lookup.
  case_decide as D; destruct (objects st !! o) as [q|]; simpl; [done..| |done].
  destruct (objects st !! other) as [q'|] eqn:E; simpl; [|done].
  split; [by apply steal_ok|]. by rewrite steal_values.
Qed.

Lemma exec_agree c st :
  (forall i, sm_copy members i = i) -> store_ok st ->
  agree (exec c st) (vexec c (valuesOf st)).
Proof.
  intros C S. destruct c as [o i|o other|o other|o other|o other|o|o f|o]; simpl.
  - unfold construct. pose proof (declare_spec st o S) as D.
    destruct (declare o st) as [st'| |]; simpl; [|done|by rewrite D].
    destruct D as (S' & -> & _). simpl. split; [by apply install_ok|].
    by rewrite install_values.
  - unfold copyConstruct. pose proof (declare_spec st o S) as D.
    destruct (declare o st) as [st'| |]; simpl; [|done|by rewrite D].
    destruct D as (S' & -> & _). by apply copyAssign_agree.
  - unfold moveConstruct. pose proof (declare_spec st o S) as D.
    destruct (declare o st) as [st'| |]; simpl; [|done|by rewrite D].
    destruct D as (S' & -> & _). by apply moveAssign_agree.
  - by apply copyAssign_agree.
  - by apply moveAssign_agree.
  - unfold clear, pImpl, value. destruct (sm_default members) as [i|]; simpl; [|done].
    rewrite valuesOf_lookup. destruct (objects st !! o); simpl; [|done].
    split; [by apply install_ok|]. by rewrite install_values.
  - unfold update, pImpl, value. rewrite valuesOf_lookup.
    destruct (objects st !! o) as [[l|]|] eqn:E; simpl; [|done..].
    destruct (ok_valid _ S _ _ E) as [i Ei]. rewrite Ei. simpl.
    destruct (f i) as [j| |]; simpl; [|done..].
    split; [by eapply write_ok|]. by erewrite write_values.
  - unfold destroy, pImpl, value. rewrite valuesOf_lookup.
    destruct (objects st !! o) as [q|]; simpl; [|done].
    split; [by apply destroy_ok|]. by rewrite destroy_values.
Qed.

Lemma execAll_agree l st :
  (forall i, sm_copy members i = i) -> store_ok st ->
  agree (execAll l st) (vexecAll l (valuesOf st)).
Proof.
  intros C. revert st. induction l as [|c l IH]; intros st S; simpl; [done|].
  pose proof (exec_agree c st C S) as A.
  destruct (exec c st) as [st'| |]; simpl in A; simpl; [|by rewrite A..].
  destruct A as [S' ->]. by apply IH.
Qed.

Lemma deref_values st o : deref o st = (w ← value o (valuesOf st); of_option w).
Proof.
  unfold deref, pImpl, value. rewrite valuesOf_lookup.
  by destruct (objects st !! o) as [[l|]|].
Qed.

(** *** A command leaves the objects it does not write alone *)

(** A copy names its source without writing it; a move writes both. *)
Definition writes (c : command) : list positive :=
  match c with
  | Construct o _ | CopyConstruct o _ | CopyAssign o _ | Clear o | Update o _ | Destroy o => [o]
  | MoveConstruct o other | MoveAssign o other => [o; other]
  end.

Lemma vdeclare_frame o v v' x : vdeclare o v = Ok v' -> x <> o -> v' !! x = v !! x.
Proof.
  unfold vdeclare. destruct (v !! o); [done|]. intros [= <-] N. by rewrite lookup_insert_ne.
Qed.

Lemma vcopy_frame o other v v' x : vcopy o other v = Ok v' -> x <> o -> v' !! x = v !! x.
Proof.
  unfold vcopy. intros E N. case_decide; ok_inv; subst; [done|]. by rewrite lookup_insert_ne.
Qed.

Lemma vmove_frame o other v v' x :
  vmove o other v = Ok v' -> x <> o -> x <> other -> v' !! x = v !! x.
Proof.
  unfold vmove. intros E N N'. case_decide; ok_inv; subst; [done|]. by rewrite !lookup_insert_ne.
Qed.

Lemma vexec_frame c v v' x : vexec c v = Ok v' -> x ∉ writes c -> v' !! x = v !! x.
Proof.
  destruct c as [o i|o other|o other|o other|o other|o|o f|o]; simpl; intros E N;
    rewrite ?not_elem_of_cons in N; destruct_and? N; ok_inv; subst.
  - rewrite lookup_insert_ne by done. by eapply vdeclare_frame.
  - erewrite vcopy_frame by done. by eapply vdeclare_frame.
  - erewrite vmove_frame by done. by eapply vdeclare_frame.
  - by eapply vcopy_frame.
  - by eapply vmove_frame.
  - rewrite lookup_insert_ne by done; done.
  - rewrite lookup_insert_ne by done; done.
  - rewrite lookup_delete_ne by done; done.
Qed.
End objects.
Arguments store : clear implicits.
Arguments specialMembers : clear implicits.
Arguments command : clear implicits.


Definition emptyStore {Impl} : store Impl := mkStore ∅ ∅.

(** ** The classes *)

(** Copy construction of an implementation whose members are copied one by
    one by the compiler. *)
Definition memberwise {Impl} (impl : Impl) : Impl := impl.

Definition dataPacketMembers : specialMembers DataPacketImpl :=
  mkMembers None memberwise.

Definition testFutureMembers : specialMembers Future.TestFutureDataPacketImpl :=
  mkMembers None Future.copy.
Definition testExpiredMembers : specialMembers Expired.TestExpiredDataPacketImpl :=
  mkMembers None Expired.copy.

(** The copy constructor of the implementation assigns to a default one. *)
Definition testDuplicateMembers (C : Type) : specialMembers (TestDuplicateDataPacketImpl C) :=
  mkMembers None (DuplicateTest.copy DuplicateTest.newDefault).

Definition publisherOptionsMembers : specialMembers PublisherOptions.PublisherOptionsImpl :=
  mkMembers None memberwise.
Definition subscriberOptionsMembers (S : Type) :
    specialMembers (SubscriberOptions.SubscriberOptionsImpl S) :=
  mkMembers None memberwise.

Definition userNameAndPasswordMembers : specialMembers Credential.UserNameAndPassword :=
  mkMembers (Some (Credential.mkUser "" "" false)) memberwise.
Definition keyPairMembers : specialMembers Credential.KeyPair :=
  mkMembers None memberwise.

(** These two implementations have no members. *)
Definition grasslandsMembers : specialMembers unit := mkMembers None memberwise.
Definition grasslandsClientMembers : specialMembers unit := mkMembers None memberwise.

Definition grasslandsServerMembers : specialMembers GrasslandsServer.GrasslandsServerImpl :=
  mkMembers None memberwise.
Definition strawhouseServerMembers : specialMembers StrawhouseServer.StrawhouseServerImpl :=
  mkMembers None memberwise.
Definition stonehouseClientMembers : specialMembers StonehouseClient.StonehouseClientImpl :=
  mkMembers None StonehouseClient.copy.
Definition stonehouseServerMembers : specialMembers StonehouseServer.StonehouseServerImpl :=
  mkMembers None StonehouseServer.copy.

Definition streamSelectorMembers : specialMembers StreamSelector.StreamSelectorImpl :=
  mkMembers (Some StreamSelector.new) memberwise.
Definition clientOptionsMembers : specialMembers ClientOptions.ClientOptionsImpl :=
  mkMembers (Some ClientOptions.new) memberwise.

Definition errorMembers : specialMembers ErrorImpl := mkMembers None memberwise.

(** The classes of the library that can be copied. *)
Inductive libraryClass : Type -> Type :=
  | DataPacket : libraryClass DataPacketImpl
  | TestFutureDataPacket : libraryClass Future.TestFutureDataPacketImpl
  | TestExpiredDataPacket : libraryClass Expired.TestExpiredDataPacketImpl
  | TestDuplicateDataPacket (C : Type) : libraryClass (TestDuplicateDataPacketImpl C)
  | PublisherOptions : libraryClass PublisherOptions.PublisherOptionsImpl
  | SubscriberOptions (owner : Type) :
      libraryClass (SubscriberOptions.SubscriberOptionsImpl owner)
  | UserNameAndPassword : libraryClass Credential.UserNameAndPassword
  | KeyPair : libraryClass Credential.KeyPair
  | Grasslands : libraryClass unit
  | GrasslandsClient : libraryClass unit
  | GrasslandsServer : libraryClass GrasslandsServer.GrasslandsServerImpl
  | StrawhouseServer : libraryClass StrawhouseServer.StrawhouseServerImpl
  | StonehouseClient : libraryClass StonehouseClient.StonehouseClientImpl
  | StonehouseServer : libraryClass StonehouseServer.StonehouseServerImpl
  | StreamSelector : libraryClass StreamSelector.StreamSelectorImpl
  | ClientOptions : libraryClass ClientOptions.ClientOptionsImpl
  | Error : libraryClass ErrorImpl.

Definition membersOf {Impl} (c : libraryClass Impl) : specialMembers Impl :=
  match c with
  | DataPacket => dataPacketMembers
  | TestFutureDataPacket => testFutureMembers
  | TestExpiredDataPacket => testExpiredMembers
  | TestDuplicateDataPacket C => testDuplicateMembers C
  | PublisherOptions => publisherOptionsMembers
  | SubscriberOptions owner => subscriberOptionsMembers owner
  | UserNameAndPassword => userNameAndPasswordMembers
  | KeyPair => keyPairMembers
  | Grasslands => grasslandsMembers
  | GrasslandsClient => grasslandsClientMembers
  | GrasslandsServer => grasslandsServerMembers
  | StrawhouseServer => strawhouseServerMembers
  | StonehouseClient => stonehouseClientMembers
  | StonehouseServer => stonehouseServerMembers
  | StreamSelector => streamSelectorMembers
  | ClientOptions => clientOptionsMembers
  | Error => errorMembers
  end.

(** [DataPacket::clone] and [createInstance]: the object the returned
    pointer goes to. *)
Definition clone (this result : positive) (st : store DataPacketImpl) :
    outcome (store DataPacketImpl) := copyConstruct dataPacketMembers result this st.
Definition createInstance (result : positive) (st : store DataPacketImpl) :
    outcome (store DataPacketImpl) := construct result newPacket st.

(** No class forgets a member in its copy. *)
Lemma copies_are_equal {Impl} (c : libraryClass Impl) i : sm_copy (membersOf c) i = i.
Proof. destruct c; by destruct i. Qed.

(** C40: the objects of every copyable class behave as values: for every
    program of constructions, copies, moves, [clear]s, member calls and
    destructions, run from nothing, the outcome with pointers and heap is the
    outcome with values, undefined behaviour for undefined behaviour and
    exception for exception; and afterwards every pointer is valid, no two
    objects share an implementation and none leaks.  In particular a copy
    is independent of its original. *)
Theorem objects_are_values {Impl} (c : libraryClass Impl) (l : list (command Impl)) :
  match execAll (membersOf c) l emptyStore with
  | Ok st => store_ok st /\ vexecAll (membersOf c) l ∅ = Ok (valuesOf st) /\
      forall cmd st' o, exec (membersOf c) cmd st = Ok st' -> o ∉ writes cmd ->
        deref o st' = deref o st
  | Throw e => vexecAll (membersOf c) l ∅ = Throw e
  | Undef => vexecAll (membersOf c) l ∅ = Undef
  end.
Proof.
  destruct (valuesOf_empty (Impl := Impl)) as [S0 V0].
  pose proof (execAll_agree (membersOf c) l emptyStore (copies_are_equal c) S0) as A.
  unfold emptyStore in A at 2. rewrite V0 in A.
  destruct (execAll (membersOf c) l emptyStore) as [st| |]; [|done..].
  destruct A as [S A]. split; [done|split; [done|]]. intros cmd st' o E N.
  pose proof (exec_agree (membersOf c) cmd st (copies_are_equal c) S) as A'.
  rewrite E in A'. destruct A' as [S' E']. apply vexec_frame with (x := o) in E'; [|done].
  rewrite !deref_values. unfold value. by rewrite E'.
Qed.


(** A copy keeps its value when the original is changed or destroyed. *)
Definition demoCopy : list (command DataPacketImpl) :=
  [Construct 1%positive newPacket; CopyConstruct 2%positive 1%positive;
   Update 1%positive (fun p => Ok (with_start 7 p)); CopyAssign 1%positive 1%positive;
   MoveConstruct 3%positive 1%positive].
Example copy_keeps_its_value :
  (st ← execAll dataPacketMembers demoCopy emptyStore;
   i ← deref 2%positive st; j ← deref 3%positive st; Ok (mStartTimeMicroSeconds i, mStartTimeMicroSeconds j))
  = Ok (0, 7).
Proof. vm_compute. reflexivity. Qed.

(** An object that was moved from can be assigned to and destroyed, but not
    copied or used. *)
Example moved_from_copied :
  execAll dataPacketMembers (demoCopy ++ [CopyAssign 2%positive 1%positive]) emptyStore = Undef.
Proof. vm_compute. reflexivity. Qed.
Example moved_from_assigned :
  is_ok (execAll dataPacketMembers
    (demoCopy ++ [CopyAssign 1%positive 2%positive; Destroy 3%positive]) emptyStore) = true.
Proof. vm_compute. reflexivity. Qed.
