(* ===== verification/SanitizerThreads.v ===== *)
(** * The threads of the sanitizer, one memory access at a time

    Sanitizer takes a pass of a loop as one step.  Here [checkPackets] and
    [publishGoodPackets] of sanitizer/sanitizer.cpp are run by program
    counter: each test of the flag, each look at a queue, each change of a
    queue, each packet tested or sent is a step of its own, and the callback
    of the subscriber, the two threads and [stop] interleave between any two
    of them.  The abstract relay says what the three together promise; they
    refine it, the passes of Sanitizer are runs of one thread on its own, and
    once the flag is down both threads come to an end. *)
From Stdlib Require Import ZArith Ascii String SpecFloat Lia.
From stdpp Require Import base tactics list gmap strings pretty relations.
From S2P Require Import Prelude Float64 JsonLib Interfaces.
From S2P Require Import DataPacket PacketTests DuplicateTest Broadcast Sanitizer Schedules.

Open Scope string_scope.
Open Scope Z_scope.

(** ** The two threads *)

(** Where [checkPackets] is: at the head of the loop, at the test for an
    overfull queue, in the inner loop, before the warning, before
    [try_dequeue], with a packet to test, with a packet that passed, before
    the report, past the loop. *)
Inductive checkerPc :=
  | CWhile | CIf | CLoop (nDeleted : Z) | CPop (nDeleted : Z) | CWarn (nDeleted : Z)
  | CDequeue | CTest (packet : DataPacketImpl) | CEnqueue (packet : DataPacketImpl)
  | CReport | CDone.

(** Where [publishGoodPackets] is; [PSend] holds what [peek] points to. *)
Inductive publisherPc :=
  | PWhile | PIf | PLoop (nDeleted : Z) | PPop (nDeleted : Z) | PWarn (nDeleted : Z)
  | PPeek | PSend (packet : DataPacketImpl) | PRemove | PReport | PDone.

Section threads.
Context (env : ZmqEnv) {J V : Type} `{JsonLib J V}.
Context {C : Type} `{CircularBuffer C DataPacketHeader}.
Context {Q : Type} `{ReaderWriterQueue Q DataPacketImpl}.
Abbreviation process := (Process C Q).

Definition overfull (q : Q) : bool := MAX_QUEUE_SIZE <? size_approx q.

Definition checked (k : counters) : counters :=
  mkCounters (lastLogTime k) (nDone k + 1) (nNotDone k).
Definition unable (n : Z) (k : counters) : counters :=
  mkCounters (lastLogTime k) (nDone k) (nNotDone k + n).

Definition checkerStep (c : clocks) (pc : checkerPc) (p : process) (k : counters)
    : outcome (checkerPc * process * counters * list line) :=
  match pc with
  | CWhile => Ok (if mKeepRunning p then CIf else CDone, p, k, [])
  | CIf => Ok (if overfull (mPacketsToCheckQueue p) then CLoop 0 else CDequeue, p, k, [])
  | CLoop n =>
      Ok (if overfull (mPacketsToCheckQueue p) then CPop n else CWarn n, p, k, [])
  | CPop n =>
      let '(popped, q) := rq_pop (mPacketsToCheckQueue p) in
      Ok (if (popped : bool) then CLoop (n + 1) else CWarn n,
          with_queues q (mMessagesToPublishQueue p) p, k, [])
  | CWarn n =>
      Ok (CDequeue, p, unable n k,
          [Warn ("Overfull input queue - deleted " +:+ pretty n +:+ " packets")])
  | CDequeue =>
      match try_dequeue (mPacketsToCheckQueue p) with
      | None => Ok (CReport, p, k, [])
      | Some (packet, q) =>
          Ok (CTest packet, with_queues q (mMessagesToPublishQueue p) p, k, [])
      end
  | CTest packet =>
      let '(ts, r, l) := scrutinize c packet (mTesters p) in
      let p := with_testers ts p in
      match r with
      | Ok true => Ok (CEnqueue packet, p, k, l)
      | Ok false => Ok (CReport, p, checked k, l)
      | Throw e =>
          Ok (CReport, p, k,
              l ++ [Warn ("Failed to scrutinize packet because " +:+ what e)])%list
      | Undef => Undef
      end
  | CEnqueue packet =>
      Ok (CReport,
          with_queues (mPacketsToCheckQueue p)
            (try_enqueue packet (mMessagesToPublishQueue p)).2 p, checked k, [])
  | CReport =>
      '(k, l) ← performance "Checked" "check" (mLogPublishingPerformanceInterval p) (atEnd c) k;
      Ok (CWhile, p, k, l)
  | CDone => Ok (CDone, p, k, [])
  end.

Definition publisherStep (nowMuSeconds : Z) (pc : publisherPc) (p : process) (k : counters)
    : outcome (publisherPc * process * counters * list line) :=
  match pc with
  | PWhile => Ok (if mKeepRunning p then PIf else PDone, p, k, [])
  | PIf => Ok (if overfull (mMessagesToPublishQueue p) then PLoop 0 else PPeek, p, k, [])
  | PLoop n =>
      Ok (if overfull (mMessagesToPublishQueue p) then PPop n else PWarn n, p, k, [])
  | PPop n =>
      let '(popped, q) := rq_pop (mMessagesToPublishQueue p) in
      Ok (if (popped : bool) then PLoop (n + 1) else PWarn n,
          with_queues (mPacketsToCheckQueue p) q p, k, [])
  | PWarn n =>
      Ok (PPeek, p, unable n k,
          [Warn ("Overfull publisher queue - deleted " +:+ pretty n +:+ " packets")])
  | PPeek =>
      Ok (match rq_peek (mMessagesToPublishQueue p) with
          | None => PReport
          | Some packet => PSend packet
          end, p, k, [])
  | PSend packet =>
      match Publisher.send env (J:=J) packet (mPacketPublisher p) with
      | Ok pub => Ok (PRemove, with_publisher pub p, checked k, [])
      | Throw e =>
          Ok (PRemove, p, unable 1 k, [Warn ("Failed to send message because " +:+ what e)])
      | Undef => Undef
      end
  | PRemove =>
      let '(popped, q) := rq_pop (mMessagesToPublishQueue p) in
      Ok (PReport, with_queues (mPacketsToCheckQueue p) q p, k,
          if (popped : bool) then [] else [Warn "Publisher queue appears to be empty"])
  | PReport =>
      '(k, l) ← performance "Sent" "send" (mLogPublishingPerformanceInterval p) nowMuSeconds k;
      Ok (PWhile, p, k, l)
  | PDone => Ok (PDone, p, k, [])
  end.

(** *** Together *)
Record threads := mkThreads {
  tProcess : process;
  tChecker : checkerPc;
  tChecked : counters;
  tPublisher : publisherPc;
  tSent : counters
}.

(** A packet comes in, a thread makes a step, or [stop] lowers the flag. *)
Inductive action :=
  | AReceive (packet : DataPacketImpl)
  | AChecker (c : clocks)
  | APublisher (nowMuSeconds : Z)
  | AStop.

Definition lowerFlag (p : process) : process :=
  with_threads (mPacketSubscriber p) (mTesterThread p) (mPublisherThread p) false p.

Definition act (a : action) (t : threads) : outcome threads :=
  let p := tProcess t in
  match a with
  | AReceive packet =>
      let '(q, r) := inputPacketsToQueueCallback packet (mPacketsToCheckQueue p) in
      r;; Ok (mkThreads (with_queues q (mMessagesToPublishQueue p) p)
                (tChecker t) (tChecked t) (tPublisher t) (tSent t))
  | AChecker c =>
      '(pc, p, k, _) ← checkerStep c (tChecker t) p (tChecked t);
      Ok (mkThreads p pc k (tPublisher t) (tSent t))
  | APublisher now =>
      '(pc, p, k, _) ← publisherStep now (tPublisher t) p (tSent t);
      Ok (mkThreads p (tChecker t) (tChecked t) pc k)
  | AStop => Ok (mkThreads (lowerFlag p) (tChecker t) (tChecked t) (tPublisher t) (tSent t))
  end.

Fixpoint actAll (l : list action) (t : threads) : outcome threads :=
  match l with
  | [] => Ok t
  | a :: l' => t ← act a t; actAll l' t
  end.
End threads.
Arguments threads : clear implicits.

(** ** The abstract relay

    Packets arrive, wait to be checked, are accepted, wait to be sent, are
    sent; any of them may be lost on the way. *)
Record relay := mkRelay {
  received : list DataPacketImpl;
  unchecked : list DataPacketImpl;
  accepted : list DataPacketImpl;
  sent : list DataPacketImpl
}.

Section relay.
Local Open Scope list_scope.
Context (good : DataPacketImpl -> Prop).

Inductive relayStep : relay -> relay -> Prop :=
  | relay_receive r u a s p : relayStep (mkRelay r u a s) (mkRelay (r ++ [p]) (u ++ [p]) a s)
  | relay_refuse r u a s p : relayStep (mkRelay r u a s) (mkRelay (r ++ [p]) u a s)
  | relay_skip r u a s p : relayStep (mkRelay r (p :: u) a s) (mkRelay r u a s)
  | relay_accept r u a s p :
      good p -> relayStep (mkRelay r (p :: u) a s) (mkRelay r u (a ++ [p]) s)
  | relay_full r u a s p : relayStep (mkRelay r u (a ++ [p]) s) (mkRelay r u a s)
  | relay_drop r u a s p : relayStep (mkRelay r u (p :: a) s) (mkRelay r u a s)
  | relay_send r u a s p : relayStep (mkRelay r u (p :: a) s) (mkRelay r u a (s ++ [p])).

(** Every packet is in one place, in the order of arrival; what is past the
    checks is good. *)
Record relay_ok (ρ : relay) : Prop := mkRelayOk {
  ro_order : (sent ρ ++ accepted ρ ++ unchecked ρ) `sublist_of` received ρ;
  ro_good : Forall good (sent ρ ++ accepted ρ)
}.

Lemma relayStep_ok ρ ρ' : relayStep ρ ρ' -> relay_ok ρ -> relay_ok ρ'.
Proof.
  intros S [O G]. destruct S; split; simpl in *;
    rewrite ?Forall_app, ?Forall_cons, ?Forall_nil in *;
    try (intuition; done).
  - rewrite !(assoc_L app). apply sublist_app; [|done]. by rewrite <- (assoc_L app).
  - by apply sublist_inserts_r.
  - etrans; [|exact O]. do 2 (apply sublist_app; [done|]). by apply sublist_cons.
  - by rewrite <- (assoc_L app a).
  - etrans; [|exact O]. apply sublist_app; [done|]. apply sublist_app; [|done].
    by apply sublist_inserts_r.
  - etrans; [|exact O]. apply sublist_app; [done|]. by apply sublist_cons.
  - by rewrite <- (assoc_L app s).
Qed.

Lemma relay_run_ok ρ ρ' : rtc relayStep ρ ρ' -> relay_ok ρ -> relay_ok ρ'.
Proof. induction 1; eauto using relayStep_ok. Qed.
End relay.

(** ** The threads refine the relay *)
Definition clocksIn (l : list action) : list clocks :=
  omap (fun a => match a with AChecker c => Some c | _ => None end) l.
Definition arrivals (l : list action) : list DataPacketImpl :=
  omap (fun a => match a with AReceive p => Some p | _ => None end) l.

(** What a thread holds that is in no queue. *)
Definition underTest (pc : checkerPc) : list DataPacketImpl :=
  match pc with CTest p => [p] | _ => [] end.
Definition passed (pc : checkerPc) : list DataPacketImpl :=
  match pc with CEnqueue p => [p] | _ => [] end.
(** The front of the queue once its packet was sent is dead. *)
Definition alive (pc : publisherPc) (l : list DataPacketImpl) : list DataPacketImpl :=
  match pc with PRemove => drop 1 l | _ => l end.

Section refinement.
Local Open Scope list_scope.
Context (env : ZmqEnv) {J V : Type} `{JsonLib J V}.
Context {C : Type} `{CircularBuffer C DataPacketHeader}.
Context {Q : Type} `{ReaderWriterQueueLaws Q DataPacketImpl}.
Abbreviation process := (Process C Q).

Definition toCheck (p : process) : list DataPacketImpl := rq_elems (mPacketsToCheckQueue p).
Definition toPublish (p : process) : list DataPacketImpl := rq_elems (mMessagesToPublishQueue p).
Definition socketOf (p : process) : socket := Publisher.mPublisherSocket (mPacketPublisher p).

(** What the publishing thread peeked at stays at the front of its queue:
    no other thread takes anything from it. *)
Definition fronted (pc : publisherPc) (l : list DataPacketImpl) : Prop :=
  match pc with
  | PSend p => head l = Some p
  | PRemove => l <> []
  | _ => True
  end.

Record relays (s0 : socket) (lim : option Z * option Z) (ρ : relay) (t : threads C Q) : Prop :=
  mkRelays {
  rl_limits : limits (mTesters (tProcess t)) = lim;
  rl_fronted : fronted (tPublisher t) (toPublish (tProcess t));
  rl_unchecked : unchecked ρ = underTest (tChecker t) ++ toCheck (tProcess t);
  rl_accepted :
    accepted ρ = alive (tPublisher t) (toPublish (tProcess t)) ++ passed (tChecker t);
  rl_sent : exists calls, socketOf (tProcess t) = s0 ++ calls /\
                          Forall2 (sends (J:=J)) (sent ρ) calls
}.

(** One move of the abstract relay, or none. *)
Definition moves (good : DataPacketImpl -> Prop) (ρ ρ' : relay) : Prop :=
  ρ' = ρ \/ relayStep good ρ ρ'.

Lemma fronted_app pc l x : fronted pc l -> fronted pc (l ++ [x]).
Proof.
  destruct pc, l; simpl; try done.
Qed.
Lemma alive_app pc l x : fronted pc l -> alive pc (l ++ [x]) = alive pc l ++ [x].
Proof. by destruct pc, l. Qed.

Lemma relays_receive s0 lim good ρ t t' p :
  relays s0 lim ρ t -> act env (J:=J) (AReceive p) t = Ok t' ->
  exists ρ', moves good ρ ρ' /\ relays s0 lim ρ' t' /\ received ρ' = received ρ ++ [p].
Proof.
  intros [L F U A (calls & S & B)] [= <-]. destruct ρ as [r u a s]. simpl in *.
  destruct (enqueue_elems p (mPacketsToCheckQueue (tProcess t))) as [E|E].
  - exists (mkRelay (r ++ [p]) u a s). split; [right; apply relay_refuse|]. split; [|done].
    split; simpl; [done|done| |done|eauto]. unfold toCheck in *. simpl. by rewrite E.
  - exists (mkRelay (r ++ [p]) (u ++ [p]) a s). split; [right; apply relay_receive|].
    split; [|done]. split; simpl; [done|done| |done|eauto].
    unfold toCheck in *. simpl. by rewrite E, U, (assoc_L app).
Qed.

(** The packet under test is accepted, or skipped. *)
Lemma relays_tests s0 lim cs ρ p x k0 pp ks c ts o l k :
  relays s0 lim ρ (mkThreads p (CTest x) k0 pp ks) -> c ∈ cs ->
  scrutinize c x (mTesters p) = (ts, o, l) ->
  exists ρ', moves (within lim cs) ρ ρ' /\
    relays s0 lim ρ' (mkThreads (with_testers ts p)
      (match o with Ok true => CEnqueue x | _ => CReport end) k pp ks) /\ received ρ' = received ρ.
Proof.
  intros [L F U A B] I Es. destruct ρ as [r u a s]. simpl in *. subst u.
  apply scrutinize_inv in Es as [Lt Wt]. rewrite L in Lt, Wt.
  assert (Skip : exists ρ', moves (within lim cs) (mkRelay r (x :: toCheck p) a s) ρ' /\
    relays s0 lim ρ' (mkThreads (with_testers ts p) CReport k pp ks) /\ received ρ' = r).
  { exists (mkRelay r (toCheck p) a s). split; [right; apply relay_skip|]. by split; [split|]. }
  destruct o as [[]|e|]; [|exact Skip..].
  exists (mkRelay r (toCheck p) (a ++ [x]) s). split.
  - right. apply relay_accept. eapply within_mono; [|by apply Wt].
    by intros y ->%list_elem_of_singleton.
  - split; [|done]. split; simpl; try done. by rewrite A, app_nil_r.
Qed.

(** It is on the queue, or lost when that is full. *)
Lemma relays_enqueues s0 lim good ρ p x k0 pp ks k :
  relays s0 lim ρ (mkThreads p (CEnqueue x) k0 pp ks) ->
  exists ρ', moves good ρ ρ' /\
    relays s0 lim ρ' (mkThreads (with_queues (mPacketsToCheckQueue p)
      (try_enqueue x (mMessagesToPublishQueue p)).2 p) CReport k pp ks) /\ received ρ' = received ρ.
Proof.
  intros [L F U A B]. destruct ρ as [r u a s]. unfold toPublish in *. simpl in *. subst a.
  destruct (enqueue_elems x (mMessagesToPublishQueue p)) as [E|E].
  - exists (mkRelay r u (alive pp (toPublish p)) s). split; [right; apply relay_full|].
    split; [|done]. by split; simpl; unfold toPublish; simpl; rewrite ?E, ?app_nil_r.
  - eexists. split; [by left|]. split; [|done]. split; simpl; unfold toPublish; simpl;
      rewrite ?E, ?app_nil_r; try done; [by apply fronted_app|by rewrite alive_app].
Qed.

Lemma relays_checker s0 lim cs ρ t t' c :
  relays s0 lim ρ t -> c ∈ cs -> act env (J:=J) (AChecker c) t = Ok t' ->
  exists ρ', moves (within lim cs) ρ ρ' /\ relays s0 lim ρ' t' /\ received ρ' = received ρ.
Proof.
  intros R I ([[[pc p] k] l] & E & [= <-])%bind_ok.
  destruct t as [p0 pc0 k0 pp ks]. simpl in *.
  assert (Stay : underTest pc = underTest pc0 -> passed pc = passed pc0 -> p = p0 ->
    exists ρ', moves (within lim cs) ρ ρ' /\
      relays s0 lim ρ' (mkThreads p pc k pp ks) /\ received ρ' = received ρ).
  { intros E1 E2 ->. exists ρ. split; [by left|]. split; [|done].
    destruct R as [L F U A B]. by split; simpl in *; rewrite ?E1, ?E2. }
  destruct pc0; simpl in E.
  - injection E as <- <- <- <-. by apply Stay; destruct (mKeepRunning p0).
  - injection E as <- <- <- <-. by apply Stay; destruct (overfull _).
  - injection E as <- <- <- <-. by apply Stay; destruct (overfull _).
  - pose proof (rq_pop_elems (mPacketsToCheckQueue p0)) as [Er Ep].
    destruct (rq_pop _) as [popped q]. injection E as <- <- <- <-. simpl in *.
    destruct R as [L F U A B], ρ as [r u a s]. unfold toCheck in U. simpl in *.
    destruct (rq_elems (mPacketsToCheckQueue p0)) as [|x rest] eqn:Eq; subst popped u.
    + exists (mkRelay r [] a s). split; [by left|]. split; [|done].
      by split; simpl; unfold toCheck; simpl; rewrite ?Er.
    + exists (mkRelay r rest a s). split; [right; apply relay_skip|]. split; [|done].
      simpl in Er. rewrite drop_0 in Er. by split; simpl; unfold toCheck; simpl; rewrite ?Er.
  - injection E as <- <- <- <-. by apply Stay.
  - destruct (rq_elems (mPacketsToCheckQueue p0)) as [|x rest] eqn:Eq.
    + rewrite (try_dequeue_nil _ Eq) in E. injection E as <- <- <- <-. by apply Stay.
    + destruct (try_dequeue_cons x rest _ Eq) as (q & Ed & Er). rewrite Ed in E.
      injection E as <- <- <- <-. exists ρ. split; [by left|]. split; [|done].
      destruct R as [L F U A B]. unfold toCheck in U. simpl in *. rewrite Eq in U.
      by split; simpl; unfold toCheck; simpl; rewrite ?Er.
  - destruct (scrutinize c packet (mTesters p0)) as [[ts o] l1] eqn:Es.
    destruct (relays_tests _ _ _ _ _ _ _ _ _ _ _ _ _ k R I Es) as (ρ' & M & R' & Ec).
    exists ρ'. by destruct o as [[]|e|]; [| | |done]; injection E as <- <- <- <-.
  - injection E as <- <- <- <-. by eapply relays_enqueues.
  - apply bind_ok in E as ([k' l'] & _ & [= <- <- <- <-]). by apply Stay.
  - injection E as <- <- <- <-. by apply Stay.
Qed.

Lemma relays_publisher s0 lim good ρ t t' now :
  relays s0 lim ρ t -> act env (J:=J) (APublisher now) t = Ok t' ->
  exists ρ', moves good ρ ρ' /\ relays s0 lim ρ' t' /\ received ρ' = received ρ.
Proof.
  intros [L F U A (calls & S & B)] ([[[pc p] k] l] & E & [= <-])%bind_ok.
  destruct t as [p0 pc1 k1 pc0 k0]. destruct ρ as [r u a s]. simpl in *.
  assert (Stay : fronted pc (toPublish p0) -> alive pc (toPublish p0) = alive pc0 (toPublish p0) ->
    p = p0 -> exists ρ', moves good (mkRelay r u a s) ρ' /\
      relays s0 lim ρ' (mkThreads p pc1 k1 pc k) /\ received ρ' = r).
  { intros F' A' ->. exists (mkRelay r u a s). split; [by left|]. split; [|done].
    split; simpl; [done|done|done| |eauto]. by rewrite A'. }
  destruct pc0; simpl in E, A, F.
  - injection E as <- <- <- <-. by apply Stay; destruct (mKeepRunning p0).
  - injection E as <- <- <- <-. by apply Stay; destruct (overfull _).
  - injection E as <- <- <- <-. by apply Stay; destruct (overfull _).
  - pose proof (rq_pop_elems (mMessagesToPublishQueue p0)) as [Er Ep].
    destruct (rq_pop _) as [popped q]. injection E as <- <- <- <-. simpl in *.
    unfold toPublish in A. destruct (rq_elems (mMessagesToPublishQueue p0)) as [|x rest] eqn:Eq.
    + exists (mkRelay r u a s). split; [by left|]. split; [|done].
      split; simpl; unfold toPublish; simpl; rewrite ?Er; destruct popped; simpl; eauto.
    + exists (mkRelay r u (rest ++ passed pc1) s). rewrite A.
      split; [right; apply relay_drop|]. split; [|done]. simpl in Er. rewrite drop_0 in Er.
      split; simpl; unfold toPublish; simpl; rewrite ?Er; destruct popped; simpl; eauto.
  - injection E as <- <- <- <-. by apply Stay.
  - injection E as <- <- <- <-. apply Stay; [|by destruct (rq_peek _)|done].
    unfold rq_peek, toPublish. by destruct (rq_elems (mMessagesToPublishQueue p0)) eqn:Eq;
      rewrite ?Eq.
  - destruct (toPublish p0) as [|x rest] eqn:Eq; [done|]. injection F as ->.
    destruct (Publisher.send env packet (mPacketPublisher p0)) as [pub|e|] eqn:En;
      [| |done]; injection E as <- <- <- <-.
    + apply send_inv in En as (cl & Sc & Es).
      exists (mkRelay r u (rest ++ passed pc1) (s ++ [packet])). rewrite A.
      split; [right; apply relay_send|]. split; [|done]. unfold toPublish in Eq.
      split; simpl; unfold toPublish; simpl; rewrite ?Eq, ?drop_0; try done.
      exists (calls ++ [cl]). unfold socketOf. simpl. rewrite Es. unfold socketOf in S.
      split; [by rewrite S, (assoc_L app)|]. by apply Forall2_app; [|constructor].
    + exists (mkRelay r u (rest ++ passed pc1) s). rewrite A.
      split; [right; apply relay_drop|]. split; [|done]. unfold toPublish in Eq.
      split; simpl; unfold toPublish; simpl; rewrite ?Eq, ?drop_0; eauto.
  - pose proof (rq_pop_elems (mMessagesToPublishQueue p0)) as [Er Ep].
    destruct (rq_pop _) as [popped q]. injection E as <- <- <- <-. simpl in *.
    exists (mkRelay r u a s). split; [by left|]. split; [|done].
    split; simpl; unfold toPublish; simpl; rewrite ?Er; eauto.
  - apply bind_ok in E as ([k' l'] & _ & [= <- <- <- <-]). by apply Stay.
  - injection E as <- <- <- <-. by apply Stay.
Qed.

Lemma relays_act s0 lim cs ρ t t' a :
  relays s0 lim ρ t -> clocksIn [a] ⊆ cs -> act env (J:=J) a t = Ok t' ->
  exists ρ', moves (within lim cs) ρ ρ' /\ relays s0 lim ρ' t' /\
             received ρ' = received ρ ++ arrivals [a].
Proof.
  intros R I E. destruct a as [p|c|now|]; simpl.
  - by eapply relays_receive.
  - rewrite app_nil_r. eapply relays_checker; [exact R| |exact E]. apply I. by left.
  - rewrite app_nil_r. by eapply relays_publisher.
  - rewrite app_nil_r. injection E as <-. exists ρ. split; [by left|]. split; [|done].
    destruct R. by split.
Qed.

Lemma relays_run s0 lim cs ρ t l t' :
  relays s0 lim ρ t -> clocksIn l ⊆ cs -> actAll env (J:=J) l t = Ok t' ->
  exists ρ', rtc (relayStep (within lim cs)) ρ ρ' /\ relays s0 lim ρ' t' /\
             received ρ' = received ρ ++ arrivals l.
Proof.
  revert ρ t. induction l as [|a l IH]; intros ρ t R I; simpl.
  - intros [= <-]. exists ρ. by rewrite app_nil_r.
  - intros (t1 & E1 & E2)%bind_ok.
    destruct (relays_act s0 lim cs ρ t t1 a R) as (ρ1 & M & R1 & Ea); [|done|].
    { intros x Hx. apply I. destruct a; simpl in Hx; [by inversion Hx| |by inversion Hx..].
      apply list_elem_of_singleton in Hx as ->. by left. }
    destruct (IH ρ1 t1 R1) as (ρ2 & S & R2 & El); [|done|].
    { intros x Hx. apply I. destruct a; simpl; rewrite ?elem_of_cons; auto. }
    exists ρ2. split; [|split; [done|]].
    + destruct M as [->|M]; [done|]. by eapply rtc_l.
    + rewrite El, Ea, <- (assoc_L app). by destruct a.
Qed.

Definition emptyRelay : relay := mkRelay [] [] [] [].

(** Both threads at the head of their loops, nothing in the queues. *)
Definition started (t : threads C Q) : Prop :=
  tChecker t = CWhile /\ tPublisher t = PWhile /\
  toCheck (tProcess t) = [] /\ toPublish (tProcess t) = [].

Lemma started_relays t :
  started t -> relays (socketOf (tProcess t)) (limits (mTesters (tProcess t))) emptyRelay t.
Proof.
  intros (Ec & Ep & Qc & Qp). split; rewrite ?Ec, ?Ep; simpl; [done|done| | |].
  - by rewrite Qc.
  - by rewrite Qp.
  - exists []. by rewrite app_nil_r.
Qed.

Lemma threads_refine_relay_aux l t t' :
  started t -> actAll env (J:=J) l t = Ok t' ->
  exists ρ, rtc (relayStep (within (limits (mTesters (tProcess t))) (clocksIn l))) emptyRelay ρ /\
    relays (socketOf (tProcess t)) (limits (mTesters (tProcess t))) ρ t' /\
    received ρ = arrivals l /\
    relay_ok (within (limits (mTesters (tProcess t))) (clocksIn l)) ρ.
Proof.
  intros S E.
  destruct (relays_run _ _ (clocksIn l) _ _ _ _ (started_relays t S) (reflexivity _) E)
    as (ρ & M & R & Er).
  exists ρ. split; [done|]. split; [done|]. split; [done|].
  eapply relay_run_ok; [exact M|]. by split; simpl.
Qed.

(** C6: however the memory accesses of the two threads, the callback and
    [stop] interleave, the sanitizer is the abstract relay: its run is
    matched by a run of the relay that receives the same packets, loses
    some, accepts only packets within the limits at a check, and sends what
    the publisher's socket was made to send.  So what is sent is, in order
    and without repetition, a part of what was received, all within limits;
    and no packet is both waiting and sent. *)
Theorem threads_refine_relay l t t' :
  started t -> actAll env (J:=J) l t = Ok t' ->
  exists ρ, rtc (relayStep (within (limits (mTesters (tProcess t))) (clocksIn l))) emptyRelay ρ /\
    relays (socketOf (tProcess t)) (limits (mTesters (tProcess t))) ρ t' /\
    received ρ = arrivals l /\
    relay_ok (within (limits (mTesters (tProcess t))) (clocksIn l)) ρ.
Proof. apply threads_refine_relay_aux. Qed.
End refinement.

(** ** A pass of Sanitizer is a run of one thread on its own *)
Section passes.
Local Open Scope list_scope.
Context (env : ZmqEnv) {J V : Type} `{JsonLib J V}.
Context {C : Type} `{CircularBuffer C DataPacketHeader}.
Context {Q : Type} `{ReaderWriterQueueLaws Q DataPacketImpl}.
Abbreviation process := (Process C Q).

Definition checkerAlone (c : clocks) (s : checkerPc * process * counters)
    : outcome (checkerPc * process * counters * list line) :=
  checkerStep c s.1.1 s.1.2 s.2.
Definition publisherAlone (now : Z) (s : publisherPc * process * counters)
    : outcome (publisherPc * process * counters * list line) :=
  publisherStep env (J:=J) now s.1.1 s.1.2 s.2.

Lemma with_queues_id (p : process) :
  with_queues (mPacketsToCheckQueue p) (mMessagesToPublishQueue p) p = p.
Proof. by destruct p. Qed.
Lemma unable_0 k : unable 0 k = k.
Proof. destruct k. unfold unable. simpl. by rewrite Z.add_0_r. Qed.

(** The inner loops. *)
Lemma checker_drains c m p k :
  exists n, runs (checkerAlone c) n (CLoop m, p, k) =
    Ok (CWarn (drainTo MAX_QUEUE_SIZE (length (toCheck p)) (mPacketsToCheckQueue p) m).2,
        with_queues (drainTo MAX_QUEUE_SIZE (length (toCheck p)) (mPacketsToCheckQueue p) m).1
          (mMessagesToPublishQueue p) p, k, []).
Proof.
  destruct (drain_runs (checkerAlone c) MAX_QUEUE_SIZE
    (fun n q => (CLoop n, with_queues q (mMessagesToPublishQueue p) p, k))
    (fun n q => (CPop n, with_queues q (mMessagesToPublishQueue p) p, k))
    (fun n q => (CWarn n, with_queues q (mMessagesToPublishQueue p) p, k)))
    with (fuel := length (toCheck p)) (q := mPacketsToCheckQueue p) (m := m) as [n E]; try done.
  - intros n q. unfold checkerAlone. simpl. unfold overfull. by destruct (MAX_QUEUE_SIZE <? size_approx q).
  - intros n q. unfold checkerAlone. simpl. by destruct (rq_pop q) as [[] q'].
  - exists n. by rewrite with_queues_id in E.
Qed.

Lemma publisher_drains now m p k :
  exists n, runs (publisherAlone now) n (PLoop m, p, k) =
    Ok (PWarn (drainTo MAX_QUEUE_SIZE (length (toPublish p)) (mMessagesToPublishQueue p) m).2,
        with_queues (mPacketsToCheckQueue p)
          (drainTo MAX_QUEUE_SIZE (length (toPublish p)) (mMessagesToPublishQueue p) m).1 p, k, []).
Proof.
  destruct (drain_runs (publisherAlone now) MAX_QUEUE_SIZE
    (fun n q => (PLoop n, with_queues (mPacketsToCheckQueue p) q p, k))
    (fun n q => (PPop n, with_queues (mPacketsToCheckQueue p) q p, k))
    (fun n q => (PWarn n, with_queues (mPacketsToCheckQueue p) q p, k)))
    with (fuel := length (toPublish p)) (q := mMessagesToPublishQueue p) (m := m) as [n E]; try done.
  - intros n q. unfold publisherAlone. simpl. unfold overfull. by destruct (MAX_QUEUE_SIZE <? size_approx q).
  - intros n q. unfold publisherAlone. simpl. by destruct (rq_pop q) as [[] q'].
  - exists n. by rewrite with_queues_id in E.
Qed.

(** From the head of the loop past the test for an overfull queue. *)
Lemma checker_trims c p k :
  mKeepRunning p = true ->
  exists n, runs (checkerAlone c) n (CWhile, p, k) =
    let '(q, d, l) := trim "input" (mPacketsToCheckQueue p) in
    Ok (CDequeue, with_queues q (mMessagesToPublishQueue p) p, unable d k, l).
Proof.
  intros K. unfold trim. destruct (MAX_QUEUE_SIZE <? size_approx (mPacketsToCheckQueue p)) eqn:Eo.
  - destruct (checker_drains c 0 p k) as [n En].
    unfold drain. unfold toCheck in En.
    destruct (drainTo _ _ (mPacketsToCheckQueue p) 0) as [q d]. simpl in En.
    exists (2 + (n + 1))%nat. simpl. unfold checkerAlone at 1 2. simpl. rewrite K. simpl.
    unfold overfull. rewrite Eo. simpl. by rewrite (runs_app _ _ _ _ _ _ En).
  - exists 2%nat. simpl. unfold checkerAlone. simpl. rewrite K. simpl. unfold overfull.
    rewrite Eo. by rewrite with_queues_id, unable_0.
Qed.

Lemma publisher_trims now p k :
  mKeepRunning p = true ->
  exists n, runs (publisherAlone now) n (PWhile, p, k) =
    let '(q, d, l) := trim "publisher" (mMessagesToPublishQueue p) in
    Ok (PPeek, with_queues (mPacketsToCheckQueue p) q p, unable d k, l).
Proof.
  intros K. unfold trim. destruct (MAX_QUEUE_SIZE <? size_approx (mMessagesToPublishQueue p)) eqn:Eo.
  - destruct (publisher_drains now 0 p k) as [n En].
    unfold drain. unfold toPublish in En.
    destruct (drainTo _ _ (mMessagesToPublishQueue p) 0) as [q d]. simpl in En.
    exists (2 + (n + 1))%nat. simpl. unfold publisherAlone at 1 2. simpl. rewrite K. simpl.
    unfold overfull. rewrite Eo. simpl. by rewrite (runs_app _ _ _ _ _ _ En).
  - exists 2%nat. simpl. unfold publisherAlone. simpl. rewrite K. simpl. unfold overfull.
    rewrite Eo. by rewrite with_queues_id, unable_0.
Qed.

Lemma check_pass_runs c p k :
  mKeepRunning p = true ->
  exists n, runs (checkerAlone c) n (CWhile, p, k) =
    '(p', k', l) ← checkStep c p k; Ok (CWhile, p', k', l).
Proof.
  intros K. destruct (checker_trims c p k K) as [n En]. unfold checkStep.
  destruct (trim "input" (mPacketsToCheckQueue p)) as [[q d] l1]. fold (unable d k).
  destruct (try_dequeue q) as [[packet q']|] eqn:Ed.
  - destruct (scrutinize c packet (mTesters p)) as [[ts [[]|e|]] l] eqn:Es.
    1: exists (n + 4)%nat. 2,3,4: exists (n + 3)%nat.
    all: rewrite (runs_app _ _ _ _ _ _ En); simpl; unfold checkerAlone; simpl;
      rewrite Ed; simpl; rewrite Es; simpl; try done;
      destruct (performance _ _ _ _ _) as [[k' l']| |]; simpl; try done;
      by rewrite ?(assoc_L app), ?app_nil_r.
  - exists (n + 2)%nat. rewrite (runs_app _ _ _ _ _ _ En). simpl. unfold checkerAlone. simpl.
    rewrite Ed. simpl. destruct (performance _ _ _ _ _) as [[k' l']| |]; simpl; [|done..].
    by rewrite ?app_nil_r.
Qed.

Lemma publish_pass_runs now p k :
  mKeepRunning p = true ->
  exists n, runs (publisherAlone now) n (PWhile, p, k) =
    '(p', k', l) ← publishStep env (J:=J) now p k; Ok (PWhile, p', k', l).
Proof.
  intros K. destruct (publisher_trims now p k K) as [n En]. unfold publishStep.
  destruct (trim "publisher" (mMessagesToPublishQueue p)) as [[q d] l1]. fold (unable d k).
  destruct (rq_peek q) as [packet|] eqn:Ed.
  - exists (n + 4)%nat. rewrite (runs_app _ _ _ _ _ _ En). simpl. unfold publisherAlone. simpl.
    rewrite Ed. simpl.
    destruct (Publisher.send env packet (mPacketPublisher p)) as [pub|e|]; simpl; [..|done];
      destruct (rq_pop q) as [popped q']; simpl;
      destruct (performance _ _ _ _ _) as [[k' l']| |]; simpl; try done;
      by rewrite ?(assoc_L app), ?app_nil_r.
  - exists (n + 2)%nat. rewrite (runs_app _ _ _ _ _ _ En). simpl. unfold publisherAlone. simpl.
    rewrite Ed. simpl. destruct (performance _ _ _ _ _) as [[k' l']| |]; simpl; [|done..].
    by rewrite ?app_nil_r.
Qed.

(** A pass of a loop as Sanitizer takes it, in one step, is a run of
    that thread on its own from the head of its loop back to it, to the same
    process, counters and log lines, and to undefined behaviour where the
    pass has it. *)
Theorem passes_are_runs c now (p : process) k :
  mKeepRunning p = true ->
  (exists n, runs (checkerAlone c) n (CWhile, p, k) =
     '(p', k', l) ← checkStep c p k; Ok (CWhile, p', k', l)) /\
  (exists n, runs (publisherAlone now) n (PWhile, p, k) =
     '(p', k', l) ← publishStep env (J:=J) now p k; Ok (PWhile, p', k', l)).
Proof. intros K. split; [by apply check_pass_runs | by apply publish_pass_runs]. Qed.
End passes.

(** ** Both threads end once the flag is down *)

(** How many steps a thread has left when nothing else happens. *)
Definition checkerLeft (pc : checkerPc) (queued : nat) : nat :=
  match pc with
  | CDone => 0
  | CWhile => 1
  | CReport => 2
  | CEnqueue _ => 3
  | CTest _ => 4
  | CDequeue => 5
  | CWarn _ => 6
  | CPop _ => 7 + 2 * queued
  | CLoop _ => 8 + 2 * queued
  | CIf => 9 + 2 * queued
  end.
Definition publisherLeft (pc : publisherPc) (queued : nat) : nat :=
  match pc with
  | PDone => 0
  | PWhile => 1
  | PReport => 2
  | PRemove => 3
  | PSend _ => 4
  | PPeek => 5
  | PWarn _ => 6
  | PPop _ => 7 + 2 * queued
  | PLoop _ => 8 + 2 * queued
  | PIf => 9 + 2 * queued
  end.

(** The packets the checking thread may still hand over: one at most. *)
Definition mayEnqueue (pc : checkerPc) : nat :=
  match pc with CDone | CWhile | CReport => 0 | _ => 1 end.

Definition checkerSteps (l : list action) : nat := length (clocksIn l).
Definition publisherSteps (l : list action) : nat :=
  length (omap (fun a => match a with APublisher now => Some now | _ => None end) l).

Section termination.
Local Open Scope nat_scope.
Context (env : ZmqEnv) {J V : Type} `{JsonLib J V}.
Context {C : Type} `{CircularBuffer C DataPacketHeader}.
Context {Q : Type} `{ReaderWriterQueueLaws Q DataPacketImpl}.
Abbreviation process := (Process C Q).

Definition checkerBudget (t : threads C Q) : nat :=
  checkerLeft (tChecker t) (length (toCheck (tProcess t))).
Definition publisherBudget (t : threads C Q) : nat :=
  publisherLeft (tPublisher t) (length (toPublish (tProcess t))) + 2 * mayEnqueue (tChecker t).

Lemma enqueue_length (x : DataPacketImpl) (q : Q) :
  length (rq_elems (try_enqueue x q).2) <= S (length (rq_elems q)).
Proof. destruct (enqueue_elems x q) as [-> | ->]; rewrite ?length_app; simpl; lia. Qed.

Lemma pop_length (q : Q) popped q' :
  rq_pop q = (popped, q') ->
  length (rq_elems q') = length (rq_elems q) - 1 /\ (popped = true -> 0 < length (rq_elems q)).
Proof.
  intros E. pose proof (rq_pop_elems q) as [L P]. rewrite E in L, P. simpl in L, P.
  rewrite L, length_drop. split; [done|]. intros ->. destruct (rq_elems q); [done|simpl; lia].
Qed.

Ltac settle := simpl; repeat split; try done; try lia.

(** A step of the checking thread brings it nearer to its end, and adds to
    the other queue only what it was about to hand over. *)
Lemma checkerStep_left c pc (p : process) k pc' p' k' l :
  checkerStep c pc p k = Ok (pc', p', k', l) -> mKeepRunning p = false ->
  mKeepRunning p' = false /\
  checkerLeft pc' (length (toCheck p')) <= pred (checkerLeft pc (length (toCheck p))) /\
  length (toPublish p') + mayEnqueue pc' <= length (toPublish p) + mayEnqueue pc.
Proof.
  intros E K. unfold toCheck, toPublish.
  destruct pc as [| |n|n|n| |x|x| |]; simpl in E.
  - rewrite K in E. injection E as <- <- <- <-. settle.
  - injection E as <- <- <- <-. destruct (overfull _); settle.
  - injection E as <- <- <- <-. destruct (overfull _); settle.
  - destruct (rq_pop _) as [popped q] eqn:Eq. injection E as <- <- <- <-. simpl.
    apply pop_length in Eq as [Eq P]. split; [done|]. destruct popped; simpl; [|lia].
    specialize (P eq_refl). rewrite Eq. lia.
  - injection E as <- <- <- <-. settle.
  - destruct (try_dequeue _) as [[y q]|]; injection E as <- <- <- <-; settle.
  - destruct (scrutinize c x (mTesters p)) as [[ts [[]|e|]] l1]; try done;
      injection E as <- <- <- <-; settle.
  - injection E as <- <- <- <-. simpl.
    pose proof (enqueue_length x (mMessagesToPublishQueue p)). settle.
  - apply bind_ok in E as ([k1 l1] & _ & [= <- <- <- <-]). settle.
  - injection E as <- <- <- <-. settle.
Qed.

Lemma publisherStep_left now pc (p : process) k pc' p' k' l :
  publisherStep env (J:=J) now pc p k = Ok (pc', p', k', l) -> mKeepRunning p = false ->
  mKeepRunning p' = false /\
  publisherLeft pc' (length (toPublish p')) <= pred (publisherLeft pc (length (toPublish p))) /\
  toCheck p' = toCheck p.
Proof.
  intros E K. unfold toCheck, toPublish.
  destruct pc as [| |n|n|n| |x| | |]; simpl in E.
  - rewrite K in E. injection E as <- <- <- <-. settle.
  - injection E as <- <- <- <-. destruct (overfull _); settle.
  - injection E as <- <- <- <-. destruct (overfull _); settle.
  - destruct (rq_pop _) as [popped q] eqn:Eq. injection E as <- <- <- <-. simpl.
    apply pop_length in Eq as [Eq P]. split; [done|]. split; [|done]. destruct popped; simpl; [|lia].
    specialize (P eq_refl). rewrite Eq. lia.
  - injection E as <- <- <- <-. settle.
  - injection E as <- <- <- <-. destruct (rq_peek _); settle.
  - destruct (Publisher.send env x (mPacketPublisher p)); try done;
      injection E as <- <- <- <-; settle.
  - destruct (rq_pop _) as [popped q] eqn:Eq. injection E as <- <- <- <-. settle.
  - apply bind_ok in E as ([k1 l1] & _ & [= <- <- <- <-]). settle.
  - injection E as <- <- <- <-. settle.
Qed.

Lemma checkerLeft_grows pc n : checkerLeft pc (S n) <= checkerLeft pc n + 2.
Proof. destruct pc; simpl; lia. Qed.
Lemma publisherLeft_grows pc n m n' m' :
  n' + m' <= n + m -> m' <= m ->
  publisherLeft pc n' + 2 * m' <= publisherLeft pc n + 2 * m.
Proof. destruct pc; simpl; lia. Qed.
Lemma checkerLeft_done pc n : checkerLeft pc n = 0 -> pc = CDone.
Proof. destruct pc; simpl; lia || done. Qed.
Lemma publisherLeft_done pc n : publisherLeft pc n = 0 -> pc = PDone.
Proof. destruct pc; simpl; lia || done. Qed.
Lemma checkerLeft_mono pc n n' : n' <= n -> checkerLeft pc n' <= checkerLeft pc n.
Proof. destruct pc; simpl; lia. Qed.

Lemma checkerStep_pending c pc (p : process) k pc' p' k' l :
  checkerStep c pc p k = Ok (pc', p', k', l) -> mKeepRunning p = false ->
  mayEnqueue pc' <= mayEnqueue pc.
Proof.
  intros E K. destruct pc; simpl in *; try (destruct pc'; simpl; lia).
  - rewrite K in E. injection E as <- <- <- <-. done.
  - apply bind_ok in E as ([k1 l1] & _ & [= <- <- <- <-]). done.
  - injection E as <- <- <- <-. done.
Qed.

(** One action against the budgets. *)
Lemma act_budgets a (t t' : threads C Q) :
  mKeepRunning (tProcess t) = false -> act env (J:=J) a t = Ok t' ->
  mKeepRunning (tProcess t') = false /\
  (tChecker t' = CDone \/
   checkerBudget t' + checkerSteps [a] <= checkerBudget t + 2 * length (arrivals [a])) /\
  (tPublisher t' = PDone \/
   publisherBudget t' + publisherSteps [a] <= publisherBudget t).
Proof.
  intros K E. destruct t as [p cpc ck ppc pk].
  destruct a as [x|c|now|]; unfold checkerBudget, publisherBudget, checkerSteps, publisherSteps; simpl in *.
  - injection E as <-. simpl. split; [done|].
    pose proof (enqueue_length x (mPacketsToCheckQueue p)) as L.
    split; right; unfold toCheck, toPublish in *; simpl; [|lia].
    pose proof (checkerLeft_mono cpc _ _ L). pose proof (checkerLeft_grows cpc (length (rq_elems (mPacketsToCheckQueue p)))).
    lia.
  - apply bind_ok in E as ([[[pc1 p1] k1] l1] & E & [= <-]). simpl.
    pose proof (checkerStep_pending _ _ _ _ _ _ _ _ E K) as G.
    apply checkerStep_left in E as (K' & L & M); [|done]. split; [done|].
    pose proof (publisherLeft_grows ppc _ _ _ _ M G). split; [|right; lia].
    destruct (checkerLeft pc1 (length (toCheck p1))) eqn:Z0; [left; by eapply checkerLeft_done|].
    right. lia.
  - apply bind_ok in E as ([[[pc1 p1] k1] l1] & E & [= <-]). simpl.
    apply publisherStep_left in E as (K' & L & M); [|done]. split; [done|].
    rewrite M. split; [right; lia|].
    destruct (publisherLeft pc1 (length (toPublish p1))) eqn:Z0; [left; by eapply publisherLeft_done|].
    right. lia.
  - injection E as <-. simpl. unfold toCheck, toPublish. simpl. split; [done|]. split; right; lia.
Qed.

Lemma act_done a (t t' : threads C Q) :
  act env (J:=J) a t = Ok t' ->
  (tChecker t = CDone -> tChecker t' = CDone) /\ (tPublisher t = PDone -> tPublisher t' = PDone).
Proof.
  intros E. destruct t as [p cpc ck ppc pk]. destruct a as [x|c|now|]; simpl in *.
  - by injection E as <-.
  - apply bind_ok in E as ([[[pc1 p1] k1] l1] & E & [= <-]). simpl. split; [|done].
    intros ->. by injection E as <- _ _ _.
  - apply bind_ok in E as ([[[pc1 p1] k1] l1] & E & [= <-]). simpl. split; [done|].
    intros ->. by injection E as <- _ _ _.
  - by injection E as <-.
Qed.

Lemma run_budgets l (t t' : threads C Q) :
  mKeepRunning (tProcess t) = false -> actAll env (J:=J) l t = Ok t' ->
  (tChecker t' = CDone \/
   checkerBudget t' + checkerSteps l <= checkerBudget t + 2 * length (arrivals l)) /\
  (tPublisher t' = PDone \/
   publisherBudget t' + publisherSteps l <= publisherBudget t).
Proof.
  revert t. induction l as [|a l IH]; intros t K; cbn [actAll].
  - intros [= <-]. split; right; unfold checkerSteps, publisherSteps; simpl; lia.
  - intros (t1 & E1 & E2)%bind_ok.
    destruct (act_budgets a t t1 K E1) as (K1 & Bc & Bp).
    destruct (IH t1 K1 E2) as [Ic Ip]. clear IH.
    assert (D : (tChecker t1 = CDone -> tChecker t' = CDone) /\
                (tPublisher t1 = PDone -> tPublisher t' = PDone)).
    { clear -E2. revert t1 E2. induction l as [|b l IH]; intros t1; simpl.
      - by intros [= <-].
      - intros (t2 & E & E2)%bind_ok. apply act_done in E as []. apply IH in E2 as []. auto. }
    destruct D as [Dc Dp].
    assert (Sum : checkerSteps (a :: l) = checkerSteps [a] + checkerSteps l /\
                  publisherSteps (a :: l) = publisherSteps [a] + publisherSteps l /\
                  length (arrivals (a :: l)) = length (arrivals [a]) + length (arrivals l)).
    { unfold checkerSteps, publisherSteps. by destruct a. }
    destruct Sum as (-> & -> & ->). split.
    + destruct Bc as [Bc|Bc]; [left; auto|]. destruct Ic as [Ic|Ic]; [by left|]. right. lia.
    + destruct Bp as [Bp|Bp]; [left; auto|]. destruct Ip as [Ip|Ip]; [by left|]. right. lia.
Qed.

(** C37: once [stop] has lowered the flag both threads end, so that joining
    them returns: the checking thread after at most nine steps, two more for
    each packet that waits and two for each packet that still arrives (the
    subscriber is not joined first); the publishing thread after at most
    eleven steps and two more for each packet that waits, whatever the other
    threads do meanwhile. *)
Theorem stop_ends_threads l (t t' : threads C Q) :
  actAll env (J:=J) (AStop :: l) t = Ok t' ->
  (9 + 2 * (length (toCheck (tProcess t)) + length (arrivals l)) <= checkerSteps l ->
   tChecker t' = CDone) /\
  (11 + 2 * length (toPublish (tProcess t)) <= publisherSteps l -> tPublisher t' = PDone).
Proof.
  simpl. intros E. apply run_budgets in E as [Bc Bp]; [|done].
  unfold checkerBudget, publisherBudget, toCheck, toPublish in *. simpl in *. split; intros L.
  - destruct Bc as [Bc|Bc]; [done|]. eapply checkerLeft_done.
    assert (M : checkerLeft (tChecker t) (length (rq_elems (mPacketsToCheckQueue (tProcess t)))) <=
                9 + 2 * length (rq_elems (mPacketsToCheckQueue (tProcess t))))
      by (destruct (tChecker t); simpl; lia).
    instantiate (1 := length (rq_elems (mPacketsToCheckQueue (tProcess t')))). lia.
  - destruct Bp as [Bp|Bp]; [done|]. eapply publisherLeft_done.
    assert (M : publisherLeft (tPublisher t) (length (rq_elems (mMessagesToPublishQueue (tProcess t)))) <=
                9 + 2 * length (rq_elems (mMessagesToPublishQueue (tProcess t))))
      by (destruct (tPublisher t); simpl; lia).
    assert (M' : mayEnqueue (tChecker t) <= 1) by (destruct (tChecker t); simpl; lia).
    instantiate (1 := length (rq_elems (mMessagesToPublishQueue (tProcess t')))). lia.
Qed.
End termination.

(** ** A run over lists *)
Definition demoThreads : threads DemoBuffer DemoQueue :=
  mkThreads (with_threads (mPacketSubscriber demoProcess) true true true demoProcess)
    CWhile (countersAt 0) PWhile (countersAt 0).

Definition checkerTicks (n : nat) : list action := replicate n (AChecker demoClocks).
Definition publisherTicks (n : nat) : list action := replicate n (APublisher 1700000061000000).

(** Two packets come in, the second while the first is tested; the publisher
    looks at its queue before and after the first is handed over; [stop]
    falls between sending and removing it. *)
Definition demoActions : list action :=
  ([AReceive slowPacket] ++ publisherTicks 2 ++ checkerTicks 3 ++ [AReceive slowPacket]
   ++ checkerTicks 2 ++ publisherTicks 2 ++ [AStop])%list.
Definition demoDrain : list action :=
  (checkerTicks 9 ++ [AReceive slowPacket] ++ publisherTicks 13 ++ checkerTicks 9)%list.

Definition demoThreadsAt (l : list action) : threads DemoBuffer DemoQueue :=
  match actAll willing (J:=TinyJson.doc) l demoThreads with Ok t => t | _ => demoThreads end.

Lemma threads_refine_relay_witness :
  started demoThreads /\
  tPublisher (demoThreadsAt demoActions) = PRemove /\
  mKeepRunning (tProcess (demoThreadsAt demoActions)) = false /\
  length (socketOf (tProcess (demoThreadsAt demoActions))) =
    S (length (socketOf (tProcess demoThreads))) /\
  exists ρ, relays (J:=TinyJson.doc) (socketOf (tProcess demoThreads))
              (limits (mTesters (tProcess demoThreads))) ρ (demoThreadsAt demoActions) /\
            received ρ = [slowPacket; slowPacket].
Proof.
  assert (E : actAll willing (J:=TinyJson.doc) demoActions demoThreads =
              Ok (demoThreadsAt demoActions)) by (vm_compute; reflexivity).
  assert (S : started demoThreads) by (vm_compute; auto).
  split; [exact S|]. split; [vm_compute; reflexivity|]. split; [vm_compute; reflexivity|].
  split; [vm_compute; reflexivity|].
  destruct (threads_refine_relay willing demoActions demoThreads _ S E) as (ρ & _ & R & A & _).
  exists ρ. split; [exact R | exact A].
Defined.

Lemma stop_ends_threads_witness :
  is_ok (actAll willing (J:=TinyJson.doc) (AStop :: demoDrain) demoThreads) = true /\
  forall t', actAll willing (J:=TinyJson.doc) (AStop :: demoDrain) demoThreads = Ok t' ->
    tChecker t' = CDone /\ tPublisher t' = PDone.
Proof.
  split; [vm_compute; reflexivity|]. intros t' E.
  destruct (stop_ends_threads willing demoDrain demoThreads t' E) as [C P].
  split; [apply C | apply P]; apply Nat.leb_le; vm_compute; reflexivity.
Defined.

Lemma passes_are_runs_witness :
  let p := tProcess (demoThreadsAt (firstn 6 demoActions)) in
  mKeepRunning p = true /\
  exists n, runs (checkerAlone demoClocks) n (CWhile, p, countersAt 0) =
    '(p', k', l) ← checkStep demoClocks p (countersAt 0); Ok (CWhile, p', k', l).
Proof.
  intros p. assert (K : mKeepRunning p = true) by (vm_compute; reflexivity).
  split; [exact K|].
  exact (proj1 (passes_are_runs willing (J:=TinyJson.doc) demoClocks 0 p (countersAt 0) K)).
Defined.
