(* ===== verification/SanitizerProgress.v ===== *)
(** * The sanitizer makes progress

    SanitizerThreads runs the loops of sanitizer/sanitizer.cpp one access at
    a time.  Here a scheduler interleaves them for ever and gives each of the
    two threads a turn from time to time.  As long as the flag is up, whatever
    is inside the sanitizer at some moment has left it at a later one: neither
    an overfull queue nor packets that never stop arriving hold a packet
    back.  The measure counts the old packets on each side of the checks and,
    for the thread that has to move, the steps to its next removal. *)
From Stdlib Require Import ZArith Ascii String SpecFloat Lia.
From stdpp Require Import base tactics list gmap strings pretty relations.
From S2P Require Import Prelude Float64 JsonLib Interfaces.
From S2P Require Import DataPacket PacketTests DuplicateTest Broadcast Sanitizer.
From S2P Require Import Schedules Lines SanitizerThreads.

Open Scope nat_scope.

Section progress.
Local Open Scope list_scope.
Context (env : ZmqEnv) {J V : Type} `{JsonLib J V}.
Context {C : Type} `{CircularBuffer C DataPacketHeader}.
Context {Q : Type} `{ReaderWriterQueueLaws Q DataPacketImpl}.
Abbreviation process := (Process C Q).
Abbreviation state := (threads C Q).
Abbreviation act := (act env (J:=J) (C:=C) (Q:=Q)).

(** What waits to be checked or is being checked, what was checked and waits
    to be published, and both. *)
Definition toTest (pc : checkerPc) (p : process) : list DataPacketImpl :=
  passed pc ++ underTest pc ++ toCheck p.
Definition checkedSide (t : state) : list DataPacketImpl :=
  alive (tPublisher t) (toPublish (tProcess t)).
Definition uncheckedSide (t : state) : list DataPacketImpl := toTest (tChecker t) (tProcess t).
Definition inside (t : state) : list DataPacketImpl := checkedSide t ++ uncheckedSide t.

(** Both threads are in their loops and stay there. *)
Record running (t : state) : Prop := mkRunning {
  ru_flag : mKeepRunning (tProcess t) = true;
  ru_checker : tChecker t <> CDone;
  ru_publisher : tPublisher t <> PDone;
  ru_fronted : fronted (tPublisher t) (toPublish (tProcess t))
}.

(** Steps to the next removal, at most. *)
Definition checkerRank (pc : checkerPc) : nat :=
  match pc with
  | CReport => 7 | CWhile => 6 | CIf => 5 | CLoop _ => 4 | CPop _ | CWarn _ => 3
  | CDequeue => 2 | CTest _ => 1 | CEnqueue _ => 0 | CDone => 0
  end.
Definition publisherRank (pc : publisherPc) : nat :=
  match pc with
  | PRemove => 7 | PReport => 6 | PWhile => 5 | PIf => 4 | PLoop _ => 3 | PPop _ | PWarn _ => 2
  | PPeek => 1 | PSend _ => 0 | PDone => 0
  end.

(** *** What a step of a thread takes *)
Ltac takes_nothing := apply takes_none; simpl; done || lia.
Ltac takes y := by apply (takes_one _ _ _ _ _ y); auto.
Ltac hands_on l := split; [done|]; exists l; rewrite ?app_nil_r; split; [|done].
Ltac hands_nothing := hands_on (@nil DataPacketImpl).

Lemma checkerStep_takes c pc (p : process) k pc' p' k' l :
  checkerStep c pc p k = Ok (pc', p', k', l) -> mKeepRunning p = true -> pc <> CDone ->
  (mKeepRunning p' = true /\ pc' <> CDone) /\
  exists on, takes (toTest pc p) (toTest pc' p') (checkerRank pc) (checkerRank pc') on /\
    toPublish p' = toPublish p ++ on.
Proof.
  intros E K D. unfold toTest, toCheck, toPublish.
  destruct pc as [| |n|n|n| |x|x| |]; simpl in E.
  - rewrite K in E. injection E as <- <- <- <-. hands_nothing. takes_nothing.
  - injection E as <- <- <- <-. destruct (overfull _); hands_nothing; takes_nothing.
  - injection E as <- <- <- <-. destruct (overfull _); hands_nothing; takes_nothing.
  - pose proof (rq_pop_elems (mPacketsToCheckQueue p)) as [Er Ep].
    destruct (rq_pop _) as [popped q]. injection E as <- <- <- <-. simpl in *. rewrite Er.
    destruct (rq_elems (mPacketsToCheckQueue p)) as [|x rest]; subst popped; hands_nothing;
      [takes_nothing|]. simpl. rewrite drop_0. takes x.
  - injection E as <- <- <- <-. hands_nothing. takes_nothing.
  - destruct (rq_elems (mPacketsToCheckQueue p)) as [|x rest] eqn:Eq.
    + rewrite (try_dequeue_nil _ Eq) in E. injection E as <- <- <- <-. rewrite Eq.
      hands_nothing. takes_nothing.
    + destruct (try_dequeue_cons x rest _ Eq) as (q & Ed & Er). rewrite Ed in E.
      injection E as <- <- <- <-. simpl. rewrite Er. hands_nothing. takes_nothing.
  - destruct (scrutinize c x (mTesters p)) as [[ts [[]|e|]] l1]; [| | |done];
      injection E as <- <- <- <-; hands_nothing; [takes_nothing|takes x..].
  - injection E as <- <- <- <-. simpl.
    destruct (enqueue_elems x (mMessagesToPublishQueue p)) as [-> | ->];
      [hands_nothing|hands_on [x]]; takes x.
  - apply bind_ok in E as ([k1 l1] & _ & [= <- <- <- <-]). hands_nothing. takes_nothing.
  - done.
Qed.

Lemma publisherStep_takes now pc (p : process) k pc' p' k' l :
  publisherStep env (J:=J) now pc p k = Ok (pc', p', k', l) ->
  mKeepRunning p = true -> pc <> PDone -> fronted pc (toPublish p) ->
  (mKeepRunning p' = true /\ pc' <> PDone /\ fronted pc' (toPublish p') /\ toCheck p' = toCheck p) /\
  takes (alive pc (toPublish p)) (alive pc' (toPublish p')) (publisherRank pc) (publisherRank pc') [].
Proof.
  intros E K D F. unfold toPublish, toCheck in *.
  destruct pc as [| |n|n|n| |x| | |]; simpl in E, F.
  - rewrite K in E. injection E as <- <- <- <-. split; [done|]. takes_nothing.
  - injection E as <- <- <- <-. destruct (overfull _); (split; [done|]); takes_nothing.
  - injection E as <- <- <- <-. destruct (overfull _); (split; [done|]); takes_nothing.
  - pose proof (rq_pop_elems (mMessagesToPublishQueue p)) as [Er Ep].
    destruct (rq_pop _) as [popped q]. injection E as <- <- <- <-. simpl in *. rewrite Er.
    destruct (rq_elems (mMessagesToPublishQueue p)) as [|x rest]; subst popped; (split; [done|]);
      [takes_nothing|]. simpl. rewrite drop_0. takes x.
  - injection E as <- <- <- <-. split; [done|]. takes_nothing.
  - unfold rq_peek in E. destruct (rq_elems (mMessagesToPublishQueue p)) as [|x rest] eqn:Eq;
      injection E as <- <- <- <-; rewrite Eq; (split; [done|]); takes_nothing.
  - destruct (rq_elems (mMessagesToPublishQueue p)) as [|y rest] eqn:Eq; [done|].
    destruct (Publisher.send env x (mPacketPublisher p)) as [pub|e|]; [| |done];
      injection E as <- <- <- <-; simpl; rewrite Eq; (split; [done|]); simpl; rewrite drop_0; takes y.
  - pose proof (rq_pop_elems (mMessagesToPublishQueue p)) as [Er Ep].
    destruct (rq_pop _) as [popped q]. injection E as <- <- <- <-. simpl in *. rewrite Er.
    split; [done|]. takes_nothing.
  - apply bind_ok in E as ([k1 l1] & _ & [= <- <- <- <-]). split; [done|]. takes_nothing.
  - done.
Qed.

(** *** The sanitizer is a line *)
Context (σ : schedule (A := action)) (t0 : state).
Hypothesis never_stops : forall m, σ m <> AStop.

Definition isChecker (a : action) : Prop := match a with AChecker _ => True | _ => False end.
Definition isPublisher (a : action) : Prop := match a with APublisher _ => True | _ => False end.

Lemma sanitizer_line m (t t' : state) :
  running t -> act (σ m) t = Ok t' ->
  running t' /\
  moved σ uncheckedSide checkedSide (fun t => checkerRank (tChecker t))
    (fun t => publisherRank (tPublisher t)) isChecker isPublisher (fun k => arrivals [σ k]) m t t'.
Proof.
  intros [K Dc Dp F] E. pose proof (never_stops m) as Ns.
  destruct (σ m) as [p|c|now|] eqn:Ea; [| | |done].
  - injection E as <-. split; [by split|].
    assert (A : arrivals [σ m] = [p]) by (by rewrite Ea).
    destruct (enqueue_elems p (mPacketsToCheckQueue (tProcess t))) as [Eq|Eq];
      [apply moved_arrives with []|apply moved_arrives with [p]]; rewrite ?A, ?Ea; try (done || by intros []);
      unfold uncheckedSide, toTest, toCheck; simpl; rewrite ?Eq;
      [by rewrite app_nil_r|apply sublist_nil_l|by rewrite !(assoc_L app)].
  - apply bind_ok in E as ([[[pc p] k] l] & E & [= <-]).
    apply checkerStep_takes in E as ((K' & D') & on & T & Eo); [|done..].
    unfold checkedSide. split.
    + split; simpl; try done. rewrite Eo. destruct T as [_ -> _|x _ [-> | ->]];
        rewrite ?app_nil_r; [done..|by apply fronted_app].
    + apply moved_first with on; simpl; rewrite ?Ea; try (done || by intros []). rewrite Eo.
      destruct T as [_ -> _|x _ [-> | ->]]; rewrite ?app_nil_r; [done..|by apply alive_app].
  - apply bind_ok in E as ([[[pc p] k] l] & E & [= <-]).
    apply publisherStep_takes in E as ((K' & D' & F' & Ec) & T); [|done..].
    split; [by split|]. apply moved_second; simpl; rewrite ?Ea; try (done || by intros []).
    unfold uncheckedSide, toTest. simpl. by rewrite Ec.
Qed.

Lemma arrivedIn_arrivals n m :
  arrivedIn (fun k => arrivals [σ k]) n m = arrivals (segment σ n m).
Proof.
  unfold arrivedIn, segment. induction (seq n (m - n)) as [|k l IH]; [done|].
  cbn [fmap list_fmap concat]. rewrite IH. by destruct (σ k).
Qed.

Lemma started_running : started t0 -> mKeepRunning (tProcess t0) = true -> running t0.
Proof. intros (Ec & Ep & _ & _) K. by split; rewrite ?Ec, ?Ep. Qed.

(** C35: while nobody stops it, the sanitizer makes progress: under every
    scheduler that gives both threads a turn again and again, whatever is
    inside it at a time - waiting to be checked, under test, waiting to be
    published - has left it at a later one, however many packets go on
    arriving (or else the run has stopped in undefined behaviour). *)
Theorem sanitizer_makes_progress n :
  started t0 -> mKeepRunning (tProcess t0) = true ->
  fair isChecker σ -> fair isPublisher σ ->
  eventually act σ t0 n (fun m t => inside t `sublist_of` arrivals (segment σ n m)).
Proof.
  intros St K Fc Fp.
  eapply eventually_mono;
    [|apply (line_progress act σ t0 uncheckedSide checkedSide (fun t => checkerRank (tChecker t))
        (fun t => publisherRank (tPublisher t)) 8 isChecker isPublisher (fun k => arrivals [σ k]) running);
      try done].
  - intros m t _ _ D. rewrite <- arrivedIn_arrivals. exact D.
  - intros t. destruct (tChecker t); simpl; lia.
  - intros t. destruct (tPublisher t); simpl; lia.
  - intros m t t' _. apply sanitizer_line.
  - exact (started_running St K).
Qed.
End progress.

(** ** A schedule that never ends

    A packet comes in, then the threads take turns for ever. *)
Definition demoTurns : list action := [AChecker demoClocks; APublisher 1700000061000000%Z].
Definition demoSchedule : schedule (A := action) := after 1 (AReceive slowPacket) (cycle demoTurns AStop).

Lemma cycle_two_cases n : cycle demoTurns AStop n = AChecker demoClocks \/
  cycle demoTurns AStop n = APublisher 1700000061000000%Z.
Proof.
  unfold cycle. pose proof (Nat.mod_upper_bound n 2 ltac:(lia)) as B. simpl length.
  destruct (n mod 2) as [|[|k]]; [by left|by right|lia].
Qed.

Lemma demoSchedule_never_stops m : demoSchedule m <> AStop.
Proof.
  unfold demoSchedule. destruct (decide (m < 1)) as [L|L]; [unfold after; by rewrite decide_True|].
  rewrite after_turn by lia.
  by destruct (cycle_two_cases m) as [-> | ->].
Qed.

Definition demoProgressAt (n : nat) : outcome (threads DemoBuffer DemoQueue) :=
  stateAt (act willing (J:=TinyJson.doc)) demoSchedule demoThreads n.

Lemma demo_defined m : exists t, demoProgressAt m = Ok t.
Proof.
  unfold demoProgressAt.
  destruct (stateAt (act willing (J:=TinyJson.doc)) demoSchedule demoThreads 31) as [t|e|] eqn:D; [|exfalso; revert D; vm_compute; discriminate..].
  apply (stateAt_periodic (act willing (J:=TinyJson.doc)) demoSchedule demoThreads 31 8 t);
    [lia|exact D| |].
  - rewrite <- D. vm_compute. reflexivity.
  - intros k L. unfold demoSchedule. rewrite !after_turn by lia. unfold cycle. simpl length.
    by replace (k + 8) with (k + 4 * 2) by lia; rewrite Nat.Div0.mod_add.
Qed.

(** The packet is inside after it came in, and is gone some time later. *)
Lemma sanitizer_makes_progress_witness :
  (exists t, demoProgressAt 1 = Ok t /\ inside t = [slowPacket]) /\
  exists m t, 1 <= m /\ demoProgressAt m = Ok t /\ inside t = [].
Proof.
  split; [eexists; split; vm_compute; reflexivity|].
  assert (St : started demoThreads) by (vm_compute; auto).
  assert (K : mKeepRunning (tProcess demoThreads) = true) by (vm_compute; reflexivity).
  pose proof (sanitizer_makes_progress willing (J:=TinyJson.doc) demoSchedule demoThreads
    demoSchedule_never_stops 1 St K (after_fair _ _ _ _ (cycle_fair isChecker demoTurns _ 0 _ eq_refl I))
    (after_fair _ _ _ _ (cycle_fair isPublisher demoTurns _ 1 _ eq_refl I))) as Ev.
  pose proof demo_defined as Def. unfold demoProgressAt in Def.
  apply (eventually_defined _ _ _ _ _ Def) in Ev as (m & t & L & E & D).
  exists m, t. split; [exact L|]. split; [exact E|].
  assert (Z : arrivals (segment demoSchedule 1 m) = []).
  { unfold segment. assert (G : forall k n, 0 < n -> arrivals (demoSchedule <$> seq n k) = []).
    { induction k as [|k IH]; intros n Ln; [done|]. simpl. unfold demoSchedule at 1. rewrite after_turn by lia.
      unfold arrivals. simpl. destruct (cycle_two_cases n) as [-> | ->]; apply IH; lia. }
    apply G. lia. }
  rewrite Z in D. apply sublist_nil_r in D. exact D.
Defined.
