(* ===== verification/SubscriberThreads.v ===== *)
(** * The thread of a subscriber and those who start and stop it

    broadcasts/dataPacket/subscriber.cpp: [listen] runs in a thread of its
    own, by program counter; [start], [stop] and the destructor are called by
    another, and wait for the listener at the join.  The socket is used by
    the listener only, at [recv], which waits for a message for as long as
    the receive time-out says: for ever if it is -1.  The messages wait in the
    socket, which outlives the listeners, so that [stop], which starts a new
    one, loses none of them. *)
From Stdlib Require Import ZArith Ascii String SpecFloat Lia.
From stdpp Require Import base tactics list gmap strings pretty relations.
From S2P Require Import Prelude Float64 JsonLib Interfaces.
From S2P Require Import DataPacket Broadcast Schedules.

Open Scope string_scope.
Open Scope Z_scope.

(** Where [listen] is: before its first lines, at the head of the loop, at
    [recv], with the parts of a message (none after a time-out), past the
    loop.  [LNone]: there is no thread that could be joined. *)
Inductive listenerPc :=
  | LNone | LEnter | LWhile | LRecv | LHandle (parts : list string) | LDone.

Definition joinable (pc : listenerPc) : bool := match pc with LNone => false | _ => true end.

(** What is called, and where the caller is: outside, at the store to the
    flag, at the join, about to make a thread, with the object destroyed. *)
Inductive call := Start | Stop | Destroy.
Inductive callerPc := CIdle | CLower (c : call) | CJoin (c : call) | CSpawn | CGone.

Section threads.
Context (ndebug : bool) {J V : Type} `{JsonLib J V} {T : Type}.
Abbreviation impl := (Subscriber.SubscriberImpl T).

Record system := mkSystem {
  subscriber : impl;
  listener : listenerPc;
  locals : Subscriber.listening;
  caller : callerPc;
  inbox : list (list string);      (* what waits in the socket *)
  handled : list (list string);    (* what the listeners took out of it *)
  target : T                       (* what the callback works on *)
}.

Definition with_listener (pc : listenerPc) (s : system) : system :=
  mkSystem (subscriber s) pc (locals s) (caller s) (inbox s) (handled s) (target s).
Definition with_caller (pc : callerPc) (p : impl) (l : listenerPc) (s : system) : system :=
  mkSystem p l (locals s) pc (inbox s) (handled s) (target s).

(** The time-out the constructor gave the socket. *)
Definition waitsForEver (p : impl) : bool :=
  wrap_i32 (SubscriberOptions.getTimeOut (Subscriber.mOptions p)) =? -1.

(** An exception that leaves [listen] ends the program. *)
Definition listenerStep (nowMuSeconds : Z) (s : system) : outcome system :=
  match listener s with
  | LNone | LDone => Ok s
  | LEnter =>
      match SubscriberOptions.getCallback (Subscriber.mOptions (subscriber s)) with
      | Ok _ =>
          Ok (mkSystem (subscriber s) LWhile (Subscriber.listenStart nowMuSeconds) (caller s)
                (inbox s) (handled s) (target s))
      | _ => Undef
      end
  | LWhile =>
      Ok (with_listener (if Subscriber.mKeepRunning (subscriber s) then LRecv else LDone) s)
  | LRecv =>
      match inbox s with
      | parts :: rest =>
          Ok (mkSystem (subscriber s) (LHandle parts) (locals s) (caller s) rest
                (handled s ++ [parts])%list (target s))
      | [] => Ok (if waitsForEver (subscriber s) then s else with_listener (LHandle []) s)
      end
  | LHandle parts =>
      match Subscriber.listenStep (J:=J) ndebug (subscriber s) nowMuSeconds parts (locals s)
              (target s) with
      | Ok (l, t, _) =>
          Ok (mkSystem (subscriber s) LWhile l (caller s) (inbox s) (handled s) t)
      | _ => Undef
      end
  end.

Definition set_flag (b : bool) (p : impl) : impl :=
  Subscriber.mk (Subscriber.mOptions p) (Subscriber.mSubscriberSocket p)
    (Subscriber.threadRunning p) (Subscriber.threadsStarted p) b (Subscriber.mInitialized p).
Definition joined (p : impl) : impl :=
  Subscriber.mk (Subscriber.mOptions p) (Subscriber.mSubscriberSocket p)
    false (Subscriber.threadsStarted p) (Subscriber.mKeepRunning p) (Subscriber.mInitialized p).

(** [start] and [stop] are both [pImpl->start()], which throws if there is no
    socket, and else calls [pImpl->stop()], raises the flag and makes a
    thread; to assign to a thread that can be joined ends the program.  The
    destructor is [pImpl->stop()] and the end of the members. *)
Definition callerStep (c : call) (s : system) : outcome system :=
  let p := subscriber s in
  match caller s with
  | CIdle =>
      match c with
      | Destroy => Ok (with_caller (CLower Destroy) p (listener s) s)
      | _ => Ok (if Subscriber.mInitialized p then with_caller (CLower c) p (listener s) s else s)
      end
  | CLower c => Ok (with_caller (CJoin c) (set_flag false p) (listener s) s)
  | CJoin c =>
      let after := match c with Destroy => CGone | _ => CSpawn end in
      if Subscriber.threadRunning p then
        match listener s with
        | LDone => Ok (with_caller after (joined p) LNone s)
        | _ => Ok s
        end
      else Ok (with_caller after p (listener s) s)
  | CSpawn =>
      if Subscriber.threadRunning p then Undef
      else Ok (with_caller CIdle
                 (Subscriber.mk (Subscriber.mOptions p) (Subscriber.mSubscriberSocket p) true
                    (1 + Subscriber.threadsStarted p) true (Subscriber.mInitialized p))
                 LEnter s)
  | CGone => Ok s
  end.

(** A message reaches the socket, the listener has a turn, or the caller,
    which makes the call [c] if it is outside. *)
Inductive action :=
  | AArrive (parts : list string)
  | AListener (nowMuSeconds : Z)
  | ACaller (c : call).

Definition act (a : action) (s : system) : outcome system :=
  match a with
  | AArrive parts =>
      Ok (mkSystem (subscriber s) (listener s) (locals s) (caller s) (inbox s ++ [parts])%list
            (handled s) (target s))
  | AListener now =>
      match listener s, caller s with
      | LRecv, CGone => Undef                       (* the socket is closed *)
      | _, _ => listenerStep now s
      end
  | ACaller c => callerStep c s
  end.

Definition begin (p : impl) (t : T) : system :=
  mkSystem p LNone (Subscriber.listenStart 0) CIdle [] [] t.

Definition arrivals (l : list action) : list (list string) :=
  omap (fun a => match a with AArrive parts => Some parts | _ => None end) l.

(** What the callback makes of a message. *)
Definition delivered (callback : DataPacketImpl -> T -> T * outcome unit) (t : T)
    (parts : list string) : T :=
  match parts with
  | [messageType; payload] =>
      match Subscriber.propagate (J:=J) callback messageType payload t with
      | Some (t', _) => t'
      | None => t
      end
  | _ => t
  end.

(** *** The invariant *)

(** The message in the hands of the listener. *)
Definition inHand (pc : listenerPc) : list (list string) :=
  match pc with LHandle (p :: parts) => [p :: parts] | _ => [] end.

Record sane (cb : DataPacketImpl -> T -> T * outcome unit) (t0 : T) (arrived : list (list string))
    (s : system) : Prop := mkSane {
  sa_callback : SubscriberOptions.getCallback (Subscriber.mOptions (subscriber s)) = Ok cb;
  sa_init : Subscriber.mInitialized (subscriber s) = true;
  (* a thread can be joined exactly when there is one *)
  sa_thread : Subscriber.threadRunning (subscriber s) = joinable (listener s);
  (* where the caller makes a thread or is gone, there is none *)
  sa_caller : match caller s with CSpawn | CGone => listener s = LNone | _ => True end;
  sa_flag : match caller s with
            | CJoin _ | CSpawn | CGone => Subscriber.mKeepRunning (subscriber s) = false
            | CIdle | CLower _ => listener s <> LNone -> Subscriber.mKeepRunning (subscriber s) = true
            end;
  (* a thread that nobody stops is in its loop *)
  sa_running : match caller s with
               | CIdle | CLower _ => listener s <> LDone
               | _ => True
               end;
  (* once a call has returned, a thread is left behind *)
  sa_started : match caller s with
               | CIdle | CLower _ =>
                   (0 < Subscriber.threadsStarted (subscriber s))%nat -> listener s <> LNone
               | _ => True
               end;
  sa_messages : arrived = (handled s ++ inbox s)%list;
  sa_nonempty : Forall (fun m => m <> []) arrived;
  sa_target : exists done, handled s = (done ++ inHand (listener s))%list /\
                           target s = foldl (delivered cb) t0 done
}.

Section runs.
Local Open Scope list_scope.
Context (cb : DataPacketImpl -> T -> T * outcome unit) (t0 : T).

Lemma listenStep_delivered now p parts l t l' t' ls :
  SubscriberOptions.getCallback (Subscriber.mOptions p) = Ok cb ->
  Subscriber.listenStep (J:=J) ndebug p now parts l t = Ok (l', t', ls) ->
  t' = delivered cb t parts.
Proof.
  intros Hc. unfold Subscriber.listenStep, delivered. rewrite Hc. simpl.
  destruct parts as [|a [|b [|c parts]]]; [by intros [= _ <- _]|..].
  - destruct ndebug; [by intros [= _ <- _]|done].
  - destruct (Subscriber.propagate cb a b t) as [[t1 r]|]; [|by intros [= _ <- _]].
    intros ([l1 w] & _ & E)%bind_ok. apply bind_ok in E as (due & _ & E).
    by destruct due; injection E as _ <- _.
  - destruct ndebug; [by intros [= _ <- _]|done].
Qed.

Ltac stays c := split; simpl in *; try done; try (destruct c; simpl in *; by auto); eauto.

Lemma listenerStep_sane arrived now s s' :
  sane cb t0 arrived s -> listenerStep now s = Ok s' -> sane cb t0 arrived s'.
Proof.
  intros [Hc Hi Ht Hk Hf Hr Hs Hm Hn (done & Hd & Htg)] E.
  destruct s as [p pc k c ib hd t]. simpl in *. unfold listenerStep in E. simpl in E.
  destruct pc as [| | | |parts|]; simpl in E.
  - injection E as <-. stays c.
  - rewrite Hc in E. injection E as <-. stays c.
  - injection E as <-. destruct (Subscriber.mKeepRunning p) eqn:K; stays c.
    all: destruct c; try done; discriminate (Hf ltac:(discriminate)).
  - destruct ib as [|m ib].
    + injection E as <-. destruct (waitsForEver p); stays c.
    + injection E as <-. stays c.
      * by rewrite <- (assoc_L app).
      * exists done. split; [|done]. rewrite Hm, !Forall_app, Forall_cons in Hn.
        destruct m; [by destruct Hn as (_ & ? & _)|]. simpl. rewrite app_nil_r in Hd. by rewrite Hd.
  - destruct (Subscriber.listenStep ndebug p now parts k t) as [[[l1 t1] ls]|e|] eqn:El;
      [|done..]. injection E as <-. apply listenStep_delivered in El; [|done]. stays c.
    exists hd. rewrite app_nil_r. split; [done|]. rewrite Hd, foldl_app, <- Htg, El.
    by destruct parts.
  - injection E as <-. stays c.
Qed.

Lemma callerStep_sane arrived c s :
  sane cb t0 arrived s -> exists s', callerStep c s = Ok s' /\ sane cb t0 arrived s'.
Proof.
  intros [Hc Hi Ht Hk Hf Hr Hs Hm Hn Hd].
  destruct s as [p pc k cl ib hd t]. simpl in *. unfold callerStep. simpl.
  destruct cl as [|c'|c'| |].
  - destruct c; [rewrite Hi|rewrite Hi|]; (eexists; split; [done|]); by split.
  - eexists. split; [done|]. by split.
  - rewrite Ht. destruct pc; simpl; eexists; (split; [done|]).
    + destruct c'; by split.
    + by split.
    + by split.
    + by split.
    + by split.
    + destruct Hd as (done & Hd & Htg). destruct c'; (split; simpl; try done; eauto).
  - rewrite Ht, Hk. simpl. eexists. split; [done|].
    destruct Hd as (done & Hd & Htg). rewrite Hk in Hd. split; simpl; try done; eauto.
  - eexists. split; [done|]. by split.
Qed.

Lemma act_sane arrived a s s' :
  sane cb t0 arrived s -> Forall (fun m => m <> []) (arrivals [a]) -> act a s = Ok s' ->
  sane cb t0 (arrived ++ arrivals [a]) s'.
Proof.
  intros I N E. destruct a as [parts|now|c]; unfold arrivals in *; simpl in *.
  - injection E as <-. destruct I as [Hc Hi Ht Hk Hf Hr Hs Hm Hn Hd].
    split; simpl; try done.
    + by rewrite Hm, (assoc_L app).
    + by apply Forall_app.
  - rewrite app_nil_r. assert (Es : listenerStep now s = Ok s') by (by destruct (listener s), (caller s)).
    by eapply listenerStep_sane.
  - rewrite app_nil_r. destruct (callerStep_sane _ c s I) as (s1 & E1 & I1). congruence.
Qed.

Lemma actions_sane arrived l s s' :
  sane cb t0 arrived s -> Forall (fun m => m <> []) (arrivals l) -> actions act l s = Ok s' ->
  sane cb t0 (arrived ++ arrivals l) s'.
Proof.
  revert arrived s. induction l as [|a l IH]; intros arrived s I N; cbn [actions].
  - intros [= <-]. by rewrite app_nil_r.
  - intros (s1 & E1 & E2)%bind_ok.
    assert (Sp : arrivals (a :: l) = arrivals [a] ++ arrivals l) by (by destruct a).
    rewrite Sp in *. apply Forall_app in N as [N1 N2].
    rewrite (assoc_L app). eapply IH; [|done|exact E2]. by eapply act_sane.
Qed.

Lemma begin_sane env o p :
  Subscriber.new env o = Ok p -> SubscriberOptions.getCallback o = Ok cb ->
  sane cb t0 [] (begin p t0).
Proof.
  intros (k & _ & [= <-])%bind_ok Hc. split; simpl; try done; [lia|by exists []].
Qed.

(** C34: [Subscriber::stop] does not stop, and loses nothing: however the
    caller, the listeners and the arriving messages interleave, the callback
    has been applied to the messages in the order they arrived, each once,
    whatever number of listeners took them, and the rest waits in the socket
    or is in the hands of the listener; there is never more than one; whenever
    the caller is outside a call, after a first [start] or [stop], a listener
    is in its loop with the flag up; and the object is destroyed only when
    there is none. *)
Theorem restarts_lose_nothing env o p l s :
  Subscriber.new env o = Ok p -> SubscriberOptions.getCallback o = Ok cb ->
  Forall (fun m => m <> []) (arrivals l) ->
  actions act l (begin p t0) = Ok s ->
  (exists done, arrivals l = done ++ inHand (listener s) ++ inbox s /\
                target s = foldl (delivered cb) t0 done) /\
  (caller s = CIdle -> (0 < Subscriber.threadsStarted (subscriber s))%nat ->
   Subscriber.mKeepRunning (subscriber s) = true /\ listener s <> LNone /\ listener s <> LDone) /\
  (caller s = CGone -> listener s = LNone).
Proof.
  intros En Hc N E.
  pose proof (actions_sane [] l _ s (begin_sane env o p En Hc) N E) as I.
  destruct I as [_ _ _ Hk Hf Hr Hs Hm _ (done & Hd & Htg)].
  split; [exists done; by rewrite (assoc_L app), <- Hd|]. split.
  - intros Ec L. rewrite Ec in *. auto.
  - intros Ec. by rewrite Ec in Hk.
Qed.
End runs.

(** *** The calls return *)
Section returns.
Local Open Scope nat_scope.
Context (cb : DataPacketImpl -> T -> T * outcome unit) (t0 : T).
Context (σ : schedule (A := action)) (s0 : system) (w : bool).

Definition isListener (a : action) : Prop := match a with AListener _ => True | _ => False end.
Definition isCaller (a : action) : Prop := match a with ACaller _ => True | _ => False end.
Definition isArrival (a : action) : Prop := match a with AArrive _ => True | _ => False end.

Hypothesis whole : forall m, Forall (fun p => p <> []) (arrivals [σ m]).

Definition inv (s : system) : Prop :=
  (exists arrived, sane cb t0 arrived s) /\ waitsForEver (subscriber s) = w.

Definition callRank (pc : callerPc) : nat :=
  match pc with CLower _ => 3 | CJoin _ => 2 | CSpawn => 1 | CIdle | CGone => 0 end.
Definition listenerLeft (pc : listenerPc) : nat :=
  match pc with
  | LRecv => 3 | LEnter | LHandle _ => 2 | LWhile => 1 | LNone | LDone => 0
  end.

(** The listener waits for a message that may never come. *)
Definition stuck (s : system) : Prop := listener s = LRecv /\ inbox s = [] /\ w = true.
Definition ended (s : system) : Prop := listener s = LNone \/ listener s = LDone.

Lemma stuck_dec s : {stuck s} + {~ stuck s}.
Proof. unfold stuck. destruct (listener s), (inbox s), w; (by left) || (right; by intros (? & ? & ?)). Qed.

Lemma calling_step n s s' :
  inv s -> 0 < callRank (caller s) -> act (σ n) s = Ok s' ->
  inv s' /\ callRank (caller s') <= callRank (caller s) /\
  (isCaller (σ n) -> (callRank (caller s) = 2 -> ended s) ->
   callRank (caller s') < callRank (caller s)) /\
  (callRank (caller s) = 2 -> callRank (caller s') = 2 ->
   (ended s -> ended s') /\ (~ stuck s -> ~ stuck s') /\ (isArrival (σ n) -> ~ stuck s') /\
   (~ stuck s -> listenerLeft (listener s') <= listenerLeft (listener s) /\
    (isListener (σ n) -> 0 < listenerLeft (listener s) ->
     listenerLeft (listener s') < listenerLeft (listener s)))).
Proof.
  intros [[ar I] W] Pos E. pose proof (act_sane cb t0 ar _ _ _ I (whole n) E) as I'.
  assert (Same : Subscriber.mOptions (subscriber s') = Subscriber.mOptions (subscriber s) ->
                 inv s') by (intros Eo; split; [eauto|]; unfold waitsForEver in *; by rewrite Eo).
  destruct I as [Hc Hi Ht Hk Hf Hr Hs Hm Hn Hd].
  destruct s as [p pc k c ib hd t]. unfold stuck, ended in *. simpl in *.
  destruct (σ n) as [parts|now|c1]; simpl in E.
  - injection E as <-. simpl in *. split; [by apply Same|]. split; [done|]. split; [done|].
    intros _ _. split; [done|]. split; [intros _ (_ & X & _); by destruct ib|].
    split; [intros _ (_ & X & _); by destruct ib|]. intros _. split; [done|done].
  - assert (El : listenerStep now (mkSystem p pc k c ib hd t) = Ok s') by (by destruct pc, c).
    clear E. unfold listenerStep in El. simpl in El.
    destruct pc as [| | | |parts|]; simpl in El.
    + injection El as <-. simpl in *. split; [by apply Same|]. repeat split; auto; done.
    + rewrite Hc in El. injection El as <-. simpl in *. split; [by apply Same|].
      split; [done|]. split; [done|]. intros _ _. split; [by intros [?|?]|].
      split; [by intros _ [? _]|]. split; [done|]. intros _. split; [lia|intros; lia].
    + injection El as <-. simpl in *. split; [by apply Same|]. split; [done|]. split; [done|].
      intros R2 _. assert (K : Subscriber.mKeepRunning p = false) by (by destruct c).
      rewrite K. split; [by right|]. split; [by intros _ [? _]|]. split; [done|].
      intros _. simpl. split; [lia|intros; lia].
    + destruct ib as [|m ib].
      * injection El as <-. rewrite W in *. destruct w; simpl in *.
        -- split; [by apply Same|]. split; [done|]. split; [done|]. intros _ _.
           split; [done|]. split; [done|]. split; [done|]. intros X. by destruct X.
        -- split; [by apply Same|]. split; [done|]. split; [done|]. intros _ _.
           split; [by intros [?|?]|]. split; [by intros _ [? _]|]. split; [done|].
           intros _. split; [lia|intros; lia].
      * injection El as <-. simpl in *. split; [by apply Same|]. split; [done|]. split; [done|].
        intros _ _. split; [by intros [?|?]|]. split; [by intros _ [? _]|]. split; [done|].
        intros _. split; [lia|intros; lia].
    + destruct (Subscriber.listenStep ndebug p now parts k t) as [[[l1 t1] ls]|e|];
        [|done..]. injection El as <-. simpl in *. split; [by apply Same|].
      split; [done|]. split; [done|]. intros _ _. split; [by intros [?|?]|].
      split; [by intros _ [? _]|]. split; [done|]. intros _. split; [lia|intros; lia].
    + injection El as <-. simpl in *. split; [by apply Same|]. repeat split; auto; done.
  - unfold callerStep in E. simpl in E. destruct c as [|c|c| |]; simpl in *; try lia.
    + injection E as <-. simpl in *. split; [by apply Same|]. repeat split; auto; lia.
    + rewrite Ht in E. destruct pc; simpl in *; injection E as <-; simpl in *;
        (split; [by apply Same|]);
        try (destruct c; simpl; repeat split; auto; try lia; intros; by exfalso; auto).
      all: repeat split; auto; try lia; try done.
      all: intros _ X; by destruct (X eq_refl).
    + destruct (Subscriber.threadRunning p); [done|]. injection E as <-. simpl in *.
      split; [by apply Same|]. repeat split; auto; try lia.
Qed.

Abbreviation rank s := (callRank (caller s)).
Hypothesis fair_listener : fair isListener σ.
Hypothesis fair_caller : fair isCaller σ.
Hypothesis fair_arrivals : w = true -> fair isArrival σ.

(** A message comes for a listener that waits for one. *)
Lemma unstuck :
  leads_to act σ s0 (fun _ s => inv s /\ rank s = 2)
    (fun _ s => inv s /\ (rank s < 2 \/ rank s = 2 /\ ~ stuck s)).
Proof.
  intros n s E [I R]. destruct (stuck_dec s) as [St|St]; [|by apply (eventually_now _ _ _ _ s); auto].
  destruct St as (Sl & Si & Sw).
  apply (progress act σ s0 isArrival
    (fun _ s k => inv s /\ (k = 0 /\ (rank s < 2 \/ rank s = 2 /\ ~ stuck s) \/ k = 1 /\ rank s = 2))
    _ (fair_arrivals Sw)) with (k := 1) (x := s); [|done|split; [done|by right]].
  clear n s E I R Sl Si. intros n s k (I & [[-> D]|[-> R]]); [by left|]. right. intros s' E.
  destruct (calling_step n s s' I ltac:(lia) E) as (I' & Rk & _ & Nx).
  destruct (decide (rank s' = 2)) as [R'|R'].
  - destruct (Nx R R') as (_ & _ & A & _). destruct (stuck_dec s') as [St|St].
    + exists 1. split; [split; [done|by right]|]. split; [done|]. intros Hm. by destruct (A Hm).
    + exists 0. split; [split; [done|left; auto]|]. split; [lia|]. intros. lia.
  - exists 0. split; [split; [done|left; split; [done|lia]]|]. split; [lia|]. intros. lia.
Qed.

(** A listener with the flag down and a message, if it needs one, ends. *)
Lemma listener_ends :
  leads_to act σ s0 (fun _ s => inv s /\ (rank s < 2 \/ rank s = 2 /\ ~ stuck s))
    (fun _ s => inv s /\ (rank s < 2 \/ rank s = 2 /\ ended s)).
Proof.
  intros n s E [I D].
  apply (progress act σ s0 isListener
    (fun _ s k => inv s /\ (k = 0 /\ rank s < 2 \/
                            k = listenerLeft (listener s) /\ rank s = 2 /\ ~ stuck s))
    _ fair_listener) with (k := if decide (rank s < 2) then 0 else listenerLeft (listener s)) (x := s);
    [|done|split; [done|destruct (decide _), D as [D|D]; auto; lia]].
  clear n s E I D. intros n s k (I & [[-> R]|(-> & R & St)]); [left; auto|].
  destruct (decide (listenerLeft (listener s) = 0)) as [Z|Z].
  { left. split; [done|]. right. split; [done|]. unfold ended. destruct (listener s); auto; done. }
  right. intros s' E. destruct (calling_step n s s' I ltac:(lia) E) as (I' & Rk & _ & Nx).
  destruct (decide (rank s' = 2)) as [R'|R'].
  - destruct (Nx R R') as (_ & Ns & _ & L). specialize (L St) as [L1 L2].
    exists (listenerLeft (listener s')). split; [split; [done|right; auto]|]. split; [done|].
    intros Hm. apply L2; [done|lia].
  - exists 0. split; [split; [done|left; split; [done|lia]]|]. split; [lia|]. intros. lia.
Qed.

(** The caller takes its next step. *)
Lemma caller_moves r :
  leads_to act σ s0 (fun _ s => inv s /\ (rank s < S r \/ rank s = S r /\ (S r = 2 -> ended s)))
    (fun _ s => inv s /\ rank s <= r).
Proof.
  intros n s E [I D].
  apply (progress act σ s0 isCaller
    (fun _ s k => inv s /\ (k = 0 /\ rank s <= r \/
                            k = 1 /\ rank s = S r /\ (S r = 2 -> ended s)))
    _ fair_caller) with (k := if decide (rank s <= r) then 0 else 1) (x := s);
    [|done|split; [done|destruct (decide _), D as [D|D]; auto; lia]].
  clear n s E I D. intros n s k (I & [[-> R]|(-> & R & Ed)]); [left; auto|].
  right. intros s' E. destruct (calling_step n s s' I ltac:(lia) E) as (I' & Rk & C & Nx).
  destruct (decide (rank s' = S r)) as [R'|R'].
  - exists 1. split; [split; [done|right]|split; [done|]].
    + split; [done|]. split; [done|]. intros R2. apply Nx; [lia..|]. by apply Ed.
    + intros Hm. rewrite R' in C. rewrite R in C. specialize (C Hm Ed). lia.
  - exists 0. split; [split; [done|left; split; [done|lia]]|]. split; [lia|]. intros. lia.
Qed.

Lemma call_returns n s :
  stateAt act σ s0 n = Ok s -> inv s ->
  eventually act σ s0 n (fun _ s => caller s = CIdle \/ caller s = CGone).
Proof.
  intros E I.
  assert (G : forall r, leads_to act σ s0 (fun _ s => inv s /\ rank s <= r) (fun _ s => rank s = 0)).
  { induction r as [|r IH].
    - intros m x Ex [_ R]. apply (eventually_now _ _ _ _ x); [done|]. cbv beta. lia.
    - refine (leads_to_trans _ _ _ _ _ _ (leads_to_trans _ _ _ _ _ _ _ (caller_moves r)) IH).
      destruct (decide (S r = 2)) as [R2|R2].
      + rewrite R2. intros m x Ex [Ix Rx]. destruct (decide (rank x = 2)) as [R'|R'].
        * eapply eventually_mono;
            [|exact (leads_to_trans _ _ _ _ _ _ unstuck listener_ends m x Ex (conj Ix R'))].
          intros k y _ _ [Iy [D|[D1 D2]]]; auto.
        * apply (eventually_now _ _ _ _ x); [done|]. split; [done|left; lia].
      + intros m x Ex [Ix Rx]. apply (eventually_now _ _ _ _ x); [done|]. split; [done|].
        destruct (decide (rank x = S r)); [right|left; lia]. by split. }
  eapply eventually_mono; [|apply (G (rank s) n s E)]; [|done].
  intros m x _ _ R. cbv beta in R. destruct (caller x); simpl in R; auto; lia.
Qed.
End returns.

(** With an infinite time-out and no message, the join does not return. *)
Lemma waits_for_ever (σ : schedule (A := action)) s0 n s c :
  stateAt act σ s0 n = Ok s -> caller s = CJoin c -> Subscriber.threadRunning (subscriber s) = true ->
  listener s = LRecv -> inbox s = [] -> waitsForEver (subscriber s) = true ->
  (forall m, (n <= m)%nat -> ~ isArrival (σ m)) ->
  forall m, (n <= m)%nat -> stateAt act σ s0 m = Ok s.
Proof.
  intros E Ec Et El Ei Ew Na m L. induction L as [|m L IH]; [done|].
  simpl. rewrite IH. simpl. specialize (Na m L). destruct (σ m) as [parts|now|c']; simpl.
  - by destruct Na.
  - rewrite El, Ec. unfold listenerStep. by rewrite El, Ei, Ew.
  - unfold callerStep. by rewrite Ec, Et, El.
Qed.

(** Nobody changes the options. *)
Lemma act_options a s s' :
  act a s = Ok s' -> Subscriber.mOptions (subscriber s') = Subscriber.mOptions (subscriber s).
Proof.
  destruct s as [q pc k c ib hd t].
  destruct a as [parts|now|c1]; simpl; intros E; [by injection E as <-|..].
  - assert (El : pc = LRecv /\ c = CGone \/ listenerStep now (mkSystem q pc k c ib hd t) = Ok s')
      by (destruct pc, c; auto).
    destruct El as [[-> ->]|El]; [done|]. clear E. unfold listenerStep in El. simpl in El.
    destruct pc; simpl in El; try by injection El as <-.
    + by destruct (SubscriberOptions.getCallback _); [injection El as <-|..].
    + destruct ib; injection El as <-; [by destruct (waitsForEver q)|done].
    + by destruct (Subscriber.listenStep _ _ _ _ _ _) as [[[]]| |]; [injection El as <-|..].
  - unfold callerStep in E. simpl in E. destruct c as [|c|c| |]; simpl in E.
    + destruct c1; destruct (Subscriber.mInitialized q); by injection E as <-.
    + by injection E as <-.
    + destruct (Subscriber.threadRunning q), pc; by injection E as <-.
    + destruct (Subscriber.threadRunning q); [done|]. by injection E as <-.
    + by injection E as <-.
Qed.

(** C29: when [start], [stop] and the destructor return: under every scheduler
    that gives the caller and the listener turns, whatever call has been
    entered at a time has returned at a later one, if the receive time-out is
    finite or messages keep arriving (or the run has stopped); but with an
    infinite time-out, a caller at the join whose listener waits at an empty
    socket stays there for ever when no message comes. *)
Theorem subscriber_calls_return cb env o p (t0 : T) (σ : schedule (A := action)) n :
  Subscriber.new env o = Ok p -> SubscriberOptions.getCallback o = Ok cb ->
  (forall m, Forall (fun p => p <> []) (arrivals [σ m])) ->
  (fair isListener σ -> fair isCaller σ ->
   (waitsForEver p = true -> fair isArrival σ) ->
   eventually act σ (begin p t0) n (fun _ s => caller s = CIdle \/ caller s = CGone)) /\
  (forall s c, waitsForEver p = true -> stateAt act σ (begin p t0) n = Ok s ->
   caller s = CJoin c -> listener s = LRecv -> inbox s = [] ->
   (forall m, (n <= m)%nat -> ~ isArrival (σ m)) ->
   forall m, (n <= m)%nat -> stateAt act σ (begin p t0) m = Ok s).
Proof.
  intros En Hc N.
  assert (I : forall n s, stateAt act σ (begin p t0) n = Ok s -> inv cb t0 (waitsForEver p) s).
  { clear n. induction n as [|n IH]; intros s; simpl.
    - intros [= <-]. split; [exists []; by eapply begin_sane|done].
    - intros (s1 & E1 & E2)%bind_ok. destruct (IH s1 E1) as [[ar I] W]. split.
      + eexists. by eapply act_sane.
      + unfold waitsForEver in *. by rewrite (act_options _ _ _ E2). }
  split.
  - intros Fl Fc Fa. destruct (stateAt act σ (begin p t0) n) as [s|e|] eqn:E;
      [|by exists n; split; [done|left; rewrite E]..].
    by eapply (call_returns cb t0 σ (begin p t0) (waitsForEver p)); eauto.
  - intros s c W E Ec El Ei Na. destruct (I n s E) as [[ar Sn] Ew].
    destruct Sn as [_ _ Ht _ _ _ _ _ _ _].
    apply (waits_for_ever _ _ n s c); try done; [by rewrite Ht, El|congruence].
Qed.
End threads.
Arguments system : clear implicits.

(** ** Runs over lists *)
Definition demoMessage : list string :=
  match Publisher.mPublisherSocket demoSent with
  | l => match last l with Some (ZSendMultipart parts) => parts | _ => [] end
  end.

Definition listens (n : nat) : list action := replicate n (AListener 1700000060000000).
Definition calls (c : call) (n : nat) : list action := replicate n (ACaller c).

(** A message comes before the first listener, a second while [stop] waits
    for it at the join; the second listener takes the second message. *)
Definition demoCalls : list action :=
  ([AArrive demoMessage] ++ calls Start 4 ++ listens 3 ++ calls Stop 2 ++ [AArrive demoMessage]
   ++ listens 2 ++ calls Stop 2 ++ listens 4)%list.
Definition demoState (l : list action) : system (list DataPacketImpl) :=
  match actions (act true (J:=TinyJson.doc)) l (begin demoSubscriber []) with
  | Ok s => s
  | _ => begin demoSubscriber []
  end.

Lemma restarts_lose_nothing_witness :
  caller (demoState demoCalls) = CIdle /\
  Subscriber.threadsStarted (subscriber (demoState demoCalls)) = 2%nat /\
  Subscriber.mKeepRunning (subscriber (demoState demoCalls)) = true /\
  exists done, arrivals demoCalls = (done ++ [])%list /\
    target (demoState demoCalls) = foldl (delivered (J:=TinyJson.doc) collect) [] done.
Proof.
  assert (E : actions (act true (J:=TinyJson.doc)) demoCalls (begin demoSubscriber []) =
              Ok (demoState demoCalls)) by (vm_compute; reflexivity).
  assert (Ec : caller (demoState demoCalls) = CIdle) by (vm_compute; reflexivity).
  assert (Et : Subscriber.threadsStarted (subscriber (demoState demoCalls)) = 2%nat)
    by (vm_compute; reflexivity).
  assert (Ei : (inHand (listener (demoState demoCalls)) ++ inbox (demoState demoCalls))%list = [])
    by (vm_compute; reflexivity).
  assert (N : Forall (fun m => m <> []) (arrivals demoCalls))
    by (vm_compute; repeat constructor; discriminate).
  destruct (restarts_lose_nothing true (J:=TinyJson.doc) collect [] willing demoOptions
              demoSubscriber demoCalls _ eq_refl eq_refl N E) as ((done & A & T) & R & _).
  split; [exact Ec|]. split; [exact Et|]. split; [apply R; [exact Ec | rewrite Et; lia]|].
  exists done. rewrite Ei in A. split; [exact A | exact T].
Defined.

(** Round robin with a finite time-out; and a subscriber that waits for ever
    at a socket where nothing arrives. *)
Definition demoTurns : list action := [AListener 1700000060000000; ACaller Stop].
Definition patientSubscriber : Subscriber.SubscriberImpl (list DataPacketImpl) :=
  match Subscriber.new willing (SubscriberOptions.setTimeOut (-5) demoOptions) with
  | Ok p => p | _ => demoSubscriber end.

(** The patient listener gets to the socket; then [stop] is called. *)
Definition patientSchedule : schedule (A := action) :=
  fun n => if (n <? 4)%nat then ACaller Start
           else if (n <? 6)%nat then AListener 1700000060000000 else cycle demoTurns (ACaller Stop) n.

Lemma demoTurns_cases n : cycle demoTurns (ACaller Stop) n = AListener 1700000060000000 \/
                          cycle demoTurns (ACaller Stop) n = ACaller Stop.
Proof.
  unfold cycle. pose proof (Nat.mod_upper_bound n 2 ltac:(lia)) as B. simpl length.
  destruct (n mod 2)%nat as [|[|k]]; [by left|by right|lia].
Qed.

Lemma subscriber_calls_return_witness :
  eventually (act true (J:=TinyJson.doc)) (cycle demoTurns (ACaller Stop)) (begin demoSubscriber [])
    5 (fun _ s => caller s = CIdle \/ caller s = CGone) /\
  exists s, caller s = CJoin Stop /\
    forall m, (10 <= m)%nat ->
      stateAt (act true (J:=TinyJson.doc)) patientSchedule (begin patientSubscriber []) m = Ok s.
Proof.
  split.
  - refine (proj1 (subscriber_calls_return true (J:=TinyJson.doc) collect willing demoOptions
              demoSubscriber [] (cycle demoTurns (ACaller Stop)) 5 eq_refl eq_refl _) _ _ _).
    + intros m. destruct (demoTurns_cases m) as [-> | ->]; constructor.
    + exact (cycle_fair isListener demoTurns _ 0 _ eq_refl I).
    + exact (cycle_fair isCaller demoTurns _ 1 _ eq_refl I).
    + intros X. vm_compute in X. discriminate X.
  - assert (Quiet : forall m, arrivals [patientSchedule m] = [] /\ ~ isArrival (patientSchedule m)).
    { intros m. unfold patientSchedule. destruct (m <? 4)%nat; [by split; [|intros []]|].
      destruct (m <? 6)%nat; [by split; [|intros []]|].
      destruct (demoTurns_cases m) as [-> | ->]; by split; [|intros []]. }
    destruct (stateAt (act true (J:=TinyJson.doc)) patientSchedule (begin patientSubscriber []) 10)
      as [s|e|] eqn:E; [|exfalso; revert E; vm_compute; discriminate..].
    assert (Es : caller s = CJoin Stop /\ listener s = LRecv /\ inbox s = []).
    { assert (G : match stateAt (act true (J:=TinyJson.doc)) patientSchedule
                          (begin patientSubscriber []) 10 with
                  | Ok s => caller s = CJoin Stop /\ listener s = LRecv /\ inbox s = []
                  | _ => False end) by (vm_compute; auto).
      by rewrite E in G. }
    destruct Es as (Ec & El & Ei). exists s. split; [exact Ec|].
    refine (proj2 (subscriber_calls_return true (J:=TinyJson.doc) collect willing
              (SubscriberOptions.setTimeOut (-5) demoOptions) patientSubscriber []
              patientSchedule 10 ltac:(vm_compute; reflexivity) eq_refl _) s Stop _ E Ec El Ei _).
    + intros m. rewrite (proj1 (Quiet m)). constructor.
    + vm_compute. reflexivity.
    + intros m _. exact (proj2 (Quiet m)).
Defined.
