(* ===== verification/BroadcasterThreads.v ===== *)
(** * The threads of the broadcaster, one memory access at a time

    The process of broadcasts/dataPacket/seedLink/publisher.cpp runs three
    threads: the main thread, which waits for a signal, stops the publishing
    thread and then destroys the process member by member; the publishing
    thread [sendPacketsViaZeroMQ]; and the reader of the SEEDLink client,
    [packetToCallback] of client.cpp, whose callback fills the queue.  They
    share the queue, the connection and the flags.  Here each access to them
    is a step and the threads interleave between any two steps.  The queue,
    the publisher and the connection can be dead; a step that uses a dead one
    is undefined, and none ever does: unlike the sanitizer, the broadcaster
    goes down in order. *)
From Stdlib Require Import ZArith Ascii String SpecFloat Lia.
From stdpp Require Import base tactics list gmap strings pretty relations.
From S2P Require Import Prelude Float64 JsonLib Interfaces.
From S2P Require Import DataPacket Broadcast SeedLink SeedLinkPublisher.
From S2P Require Import Schedules SanitizerThreads.
Import Client (ClientImpl, mSEEDLinkConnection, readerThread, mUseStateFile,
  mStateFileUpdateInterval, with_flags, with_connection, terminate, disconnect, collected,
  SLPACKET, SLTOOLARGE, SLNOPACKET, SLTERMINATE, SLOTHER).

Open Scope string_scope.
Open Scope Z_scope.

(** ** Where the threads are *)

(** [sendPacketsViaZeroMQ]: as for the sanitizer; after the queue the clock is
    read, the performance logged and the metrics sent. *)
Inductive publisherPc :=
  | PWhile | PIf | PLoop (nDeleted : Z) | PPop (nDeleted : Z) | PWarn (nDeleted : Z)
  | PPeek | PSend (packet : DataPacketImpl) | PRemove | PLog | PMetrics (nowSeconds : Z)
  | PDone.

(** [packetToCallback]: before the loop, at its head, before [sl_collect],
    with a payload to unpack, with packets to hand over, before the state
    file, after the loop. *)
Inductive readerPc :=
  | RConnected | RRecover | RWhile | RCollect
  | RUnpack (payloadlength : Z) (parse : Z -> Z -> parsed)
  | RPropagate (packets : list DataPacketImpl)
  | RStateFile | RLeave | RDone.

(** The main thread after [start]: waiting for a signal; in [stop], at the
    store to the flag and at the join; in the destructor, at its [stop], then
    in the destructor of the client ([setRunning], its two halves, the join,
    [disconnect]), and at the members after it. *)
Inductive mainPc :=
  | MWait | MLower | MJoin | MDestroy | MFlag | MTerminate | MStore | MClientJoin
  | MDisconnect | MQueue | MPublisher | MDone.

(** The field [link] of the connection when the destructor of the client reads
    it: the library's socket, or -1. *)
Class Link := link : Z.

Section threads.
Context (env : ZmqEnv) (ndebug : bool) (MINRECLEN : Z) {J V : Type} `{JsonLib J V}.
Context {Q : Type} `{ReaderWriterQueue Q DataPacketImpl}.
Context (record_ : gauge -> Z -> outcome unit) {LK : Link}.
Abbreviation process := (Process Q).

Record system := mkSystem {
  theProcess : process;
  thePublisher : publisherPc;
  theLocals : locals;
  theReader : readerPc;
  theUpdates : Z;              (* [updateStateFile] *)
  theSaved : nat;              (* calls of [sl_savestate] by the reader *)
  theMain : mainPc;
  theQueueLives : bool;
  thePublisherLives : bool
}.

(** *** The publishing thread *)
Definition overfull (q : Q) : bool := MAX_QUEUE_SIZE <? size_approx q.

Definition notSent (n : Z) (k : locals) : locals :=
  mkLocals (lastLogTime k) (nextSendMetricTime k) (nSentPackets k)
    (nNotSentPackets k + n) (nSentPacketsInLastMinute k)
    (wrap_u64 (nNotSentPacketsInLastMinute k + n)) (recorded k).
Definition oneSent (k : locals) : locals :=
  mkLocals (lastLogTime k) (nextSendMetricTime k) (nSentPackets k + 1)
    (nNotSentPackets k) (wrap_u64 (nSentPacketsInLastMinute k + 1))
    (nNotSentPacketsInLastMinute k) (recorded k).
Definition oneFailed (k : locals) : locals :=
  mkLocals (lastLogTime k) (nextSendMetricTime k) (nSentPackets k)
    (nNotSentPackets k + 1) (nSentPacketsInLastMinute k)
    (nNotSentPacketsInLastMinute k) (recorded k).

Definition with_q (q : Q) (p : process) : process := with_queue (mPacketPublisher p) q p.

Definition publisherStep (nowMuSeconds : Z) (pc : publisherPc) (p : process) (k : locals)
    : outcome (publisherPc * process * locals * list line) :=
  match pc with
  | PWhile => Ok (if mKeepRunning p then PIf else PDone, p, k, [])
  | PIf => Ok (if overfull (mQueue p) then PLoop 0 else PPeek, p, k, [])
  | PLoop n => Ok (if overfull (mQueue p) then PPop n else PWarn n, p, k, [])
  | PPop n =>
      let '(popped, q) := rq_pop (mQueue p) in
      Ok (if (popped : bool) then PLoop (n + 1) else PWarn n, with_q q p, k, [])
  | PWarn n =>
      Ok (PPeek, p, notSent n k,
          [Warn ("Overfull queue - deleted " +:+ pretty n +:+ " packets")])
  | PPeek =>
      Ok (match rq_peek (mQueue p) with None => PLog | Some packet => PSend packet end, p, k, [])
  | PSend packet =>
      match Publisher.send env (J:=J) packet (mPacketPublisher p) with
      | Ok pub => Ok (PRemove, with_queue pub (mQueue p) p, oneSent k, [])
      | Throw e =>
          Ok (PRemove, p, oneFailed k, [Warn ("Failed to send message because " +:+ what e)])
      | Undef => Undef
      end
  | PRemove =>
      let '(popped, q) := rq_pop (mQueue p) in
      Ok (PLog, with_q q p, k,
          if (popped : bool) then [] else [Warn "Queue appears to be empty"])
  | PLog =>
      let nowSeconds := us_to_s nowMuSeconds in
      '(k, l) ← logPerformance (mLogPublishingPerformanceInterval p) nowSeconds k;
      Ok (PMetrics nowSeconds, p, k, l)
  | PMetrics nowSeconds =>
      '(k, l) ← sendMetrics record_ nowSeconds k; Ok (PWhile, p, k, l)
  | PDone => Ok (PDone, p, k, [])
  end.

(** Which steps use the queue and the publisher. *)
Definition usesQueue (pc : publisherPc) : bool :=
  match pc with PIf | PLoop _ | PPop _ | PPeek | PSend _ | PRemove => true | _ => false end.
Definition usesPublisher (pc : publisherPc) : bool :=
  match pc with PSend _ => true | _ => false end.

(** *** The reader *)
Definition setConnected (b : bool) (p : process) : process :=
  let c := mSEEDLinkClient p in
  with_client (with_flags (readerThread c) (Client.mKeepRunning c) b c) p.

(** The callback, with an exception logged: what becomes of one packet. *)
Definition handOver (packet : DataPacketImpl) (p : process) : outcome (process * list line) :=
  match addPacketsFromAcquisitionCallback ndebug packet p with
  | Ok r => Ok r
  | Throw e => Ok (p, [Warn ("Failed to propagate packet because " +:+ what e)])
  | Undef => Undef
  end.

(** [e] is what [sl_collect] returns when the step calls it.  A payload that
    the library never gets to the end of keeps the thread where it is. *)
Definition readerStep (e : collected) (pc : readerPc) (p : process) (updates : Z) (saved : nat)
    : outcome (readerPc * process * Z * nat * list line) :=
  let c := mSEEDLinkClient p in
  match pc with
  | RConnected => Ok (RRecover, setConnected true p, updates, saved, [])
  | RRecover => Ok (RWhile, p, updates, saved, [])
  | RWhile => Ok (if Client.mKeepRunning c then RCollect else RLeave, p, updates, saved, [])
  | RCollect =>
      match e with
      | SLPACKET true payloadlength parse =>
          Ok (RUnpack payloadlength parse, p, updates, saved, [])
      | SLPACKET false _ _ => Ok (RWhile, p, updates, saved, [])
      | SLTOOLARGE => Ok (RWhile, p, updates, saved, [Warn "Payload too large"])
      | SLNOPACKET => Ok (RWhile, p, updates, saved, [])
      | SLTERMINATE =>
          Ok (RLeave, setConnected false p, updates, saved,
              [Info "SEEDLink terminate request received"])
      | SLOTHER code =>
          Ok (RWhile, p, updates, saved,
              [Warn ("Unhandled SEEDLink return value: " +:+ pretty code)])
      end
  | RUnpack payloadlength parse =>
      match miniSEEDToDataPackets MINRECLEN parse payloadlength with
      | None => Ok (RUnpack payloadlength parse, p, updates, saved, [])
      | Some (Ok packets) => Ok (RPropagate packets, p, updates, saved, [])
      | Some (Throw e) =>
          Ok (RStateFile, p, updates, saved,
              [Warn ("Skipping packet.  Unpacking failed with: " +:+ what e)])
      | Some Undef => Undef
      end
  | RPropagate [] => Ok (RStateFile, p, updates, saved, [])
  | RPropagate (packet :: packets) =>
      '(p, l) ← handOver packet p; Ok (RPropagate packets, p, updates, saved, l)
  | RStateFile =>
      Ok (if mUseStateFile c then
            if mStateFileUpdateInterval c <? updates
            then (RWhile, p, 0 + 1, S saved, [])
            else (RWhile, p, updates + 1, saved, [])
          else (RWhile, p, updates, saved, []))
  | RLeave => Ok (RDone, setConnected false p, updates, saved, [])
  | RDone => Ok (RDone, p, updates, saved, [])
  end.

(** Which steps use the connection and the queue. *)
Definition usesConnection (c : ClientImpl) (pc : readerPc) : bool :=
  match pc with
  | RCollect => true
  | RRecover | RStateFile => mUseStateFile c
  | _ => false
  end.
Definition fillsQueue (pc : readerPc) : bool :=
  match pc with RPropagate (_ :: _) => true | _ => false end.

(** *** The main thread

    A join returns once its thread has; until then the step changes nothing.
    [signalled] says whether a signal has come when the thread looks. *)
Definition mainStep (signalled : bool) (s : system) : system :=
  let p := theProcess s in
  let c := mSEEDLinkClient p in
  let to pc p := mkSystem p (thePublisher s) (theLocals s) (theReader s) (theUpdates s)
                   (theSaved s) pc (theQueueLives s) (thePublisherLives s) in
  match theMain s with
  | MWait => if signalled then to MLower (with_stop p) else s
  | MLower => to MJoin (with_thread (mPublisherThread p) false p)
  | MJoin =>
      match thePublisher s with
      | PDone => to MDestroy (with_thread false (mKeepRunning p) p)
      | _ => s
      end
  | MDestroy => to MFlag (with_thread (mPublisherThread p) false p)
  | MFlag => to (if Client.mKeepRunning c then MTerminate else MStore) p
  | MTerminate => to MStore (with_client (terminate c) p)
  | MStore =>
      to MClientJoin (with_client (with_flags (readerThread c) false (Client.mConnected c) c) p)
  | MClientJoin =>
      match theReader s with
      | RDone =>
          to MDisconnect
            (with_client (with_flags false (Client.mKeepRunning c) (Client.mConnected c) c) p)
      | _ => s
      end
  | MDisconnect => to MQueue (with_client (disconnect link c) p)
  | MQueue =>
      mkSystem p (thePublisher s) (theLocals s) (theReader s) (theUpdates s) (theSaved s)
        MPublisher false (thePublisherLives s)
  | MPublisher =>
      mkSystem p (thePublisher s) (theLocals s) (theReader s) (theUpdates s) (theSaved s)
        MDone (theQueueLives s) false
  | MDone => s
  end.

(** *** Together *)
Inductive action :=
  | APublisher (nowMuSeconds : Z)
  | AReader (e : collected)
  | AMain (signalled : bool).

Definition connected (p : process) : bool :=
  match mSEEDLinkConnection (mSEEDLinkClient p) with Some _ => true | None => false end.

(** The step of a thread uses nothing that is dead. *)
Definition publisherUsesLive (s : system) : bool :=
  implb (usesQueue (thePublisher s)) (theQueueLives s)
  && implb (usesPublisher (thePublisher s)) (thePublisherLives s).
Definition readerUsesLive (s : system) : bool :=
  implb (usesConnection (mSEEDLinkClient (theProcess s)) (theReader s)) (connected (theProcess s))
  && implb (fillsQueue (theReader s)) (theQueueLives s).

Definition act (a : action) (s : system) : outcome system :=
  match a with
  | APublisher now =>
      assert_ (publisherUsesLive s);;
      '(pc, p, k, _) ← publisherStep now (thePublisher s) (theProcess s) (theLocals s);
      Ok (mkSystem p pc k (theReader s) (theUpdates s) (theSaved s) (theMain s)
            (theQueueLives s) (thePublisherLives s))
  | AReader e =>
      assert_ (readerUsesLive s);;
      '(pc, p, u, n, _) ← readerStep e (theReader s) (theProcess s) (theUpdates s) (theSaved s);
      Ok (mkSystem p (thePublisher s) (theLocals s) pc u n (theMain s)
            (theQueueLives s) (thePublisherLives s))
  | AMain signalled => Ok (mainStep signalled s)
  end.

(** What [start] leaves behind: both threads at their beginnings, the main
    thread about to wait. *)
Definition begin (nowMuSeconds : Z) (p : process) : system :=
  mkSystem p PWhile (localsAt nowMuSeconds) RConnected 1 0 MWait true true.
End threads.
Arguments system : clear implicits.

(** ** What the threads do with the packets *)

(** The packets unpacked and not handed over yet. *)
Definition toHand (pc : readerPc) : list DataPacketImpl :=
  match pc with RPropagate packets => packets | _ => [] end.

(** The front of the queue once its packet was sent is dead. *)
Definition aliveQ (pc : publisherPc) (l : list DataPacketImpl) : list DataPacketImpl :=
  match pc with PRemove => drop 1 l | _ => l end.
Definition frontedQ (pc : publisherPc) (l : list DataPacketImpl) : Prop :=
  match pc with
  | PSend p => head l = Some p
  | PRemove => l <> []
  | _ => True
  end.

(** Removed from an overfull queue and not counted yet. *)
Definition uncounted (pc : publisherPc) : Z :=
  match pc with PLoop n | PPop n | PWarn n => n | _ => 0 end.

Lemma frontedQ_app pc l x : frontedQ pc l -> frontedQ pc (l ++ [x])%list.
Proof. by destruct pc, l. Qed.
Lemma aliveQ_app pc l x : frontedQ pc l -> aliveQ pc (l ++ [x])%list = (aliveQ pc l ++ [x])%list.
Proof. by destruct pc, l. Qed.

Section refinement.
Local Open Scope list_scope.
Context (env : ZmqEnv) (ndebug : bool) (MINRECLEN : Z) {J V : Type} `{JsonLib J V}.
Context {Q : Type} `{ReaderWriterQueueLaws Q DataPacketImpl}.
Context (record_ : gauge -> Z -> outcome unit) {LK : Link}.
Abbreviation process := (Process Q).
Abbreviation system := (system Q).
Abbreviation act := (act env ndebug MINRECLEN (J:=J) (Q:=Q) record_).

Definition queued (p : process) : list DataPacketImpl := rq_elems (mQueue p).
Definition socketOf (p : process) : socket := Publisher.mPublisherSocket (mPacketPublisher p).

(** The packets a step unpacks, and those it removes from an overfull queue. *)
Definition unpackedBy (a : action) (s : system) : list DataPacketImpl :=
  match a, theReader s with
  | AReader _, RUnpack n parse =>
      match miniSEEDToDataPackets MINRECLEN parse n with Some (Ok ps) => ps | _ => [] end
  | _, _ => []
  end.
Definition removedBy (a : action) (s : system) : Z :=
  match a, thePublisher s with
  | APublisher _, PPop _ => if (rq_pop (mQueue (theProcess s))).1 then 1 else 0
  | _, _ => 0
  end.

Fixpoint unpacked (l : list action) (s : system) : list DataPacketImpl :=
  match l with
  | [] => []
  | a :: l' =>
      unpackedBy a s ++ match act a s with Ok s' => unpacked l' s' | _ => [] end
  end.
Fixpoint removed (l : list action) (s : system) : Z :=
  match l with
  | [] => 0
  | a :: l' => (removedBy a s + match act a s with Ok s' => removed l' s' | _ => 0 end)%Z
  end.

(** The relay of SanitizerThreads, whose check is that of the callback. *)
Abbreviation good := (fun p => publishable p = true).

Record relaysB (s0 : socket) (k0 : locals) (n : Z) (ρ : relay) (s : system) : Prop :=
  mkRelaysB {
  rb_fronted : frontedQ (thePublisher s) (queued (theProcess s));
  rb_unchecked : unchecked ρ = toHand (theReader s);
  rb_accepted : accepted ρ = aliveQ (thePublisher s) (queued (theProcess s));
  rb_sent : exists calls, socketOf (theProcess s) = s0 ++ calls /\
                          Forall2 (sends (J:=J)) (sent ρ) calls;
  rb_propagated : eqm64 (sentTotal (theLocals s)) (sentTotal k0 + Z.of_nat (length (sent ρ)));
  rb_skipped : eqm64 (notSentTotal (theLocals s) + uncounted (thePublisher s))
                     (notSentTotal k0 + n)
}.

(** The relay receives a list of packets, one after the other. *)
Lemma relay_receives g r u a s l :
  rtc (relayStep g) (mkRelay r u a s) (mkRelay (r ++ l) (u ++ l) a s).
Proof.
  revert r u. induction l as [|x l IH]; intros r u; [by rewrite !app_nil_r|].
  eapply rtc_l; [apply relay_receive|]. specialize (IH (r ++ [x]) (u ++ [x])).
  by rewrite <- !(assoc_L app) in IH.
Qed.

Lemma oneSent_totals k :
  eqm64 (sentTotal (oneSent k)) (sentTotal k + 1) /\ notSentTotal (oneSent k) = notSentTotal k.
Proof.
  split; [|done]. unfold sentTotal. simpl. rewrite <- Z.add_assoc.
  apply eqm64_add; [done|apply eqm64_wrap].
Qed.
Lemma notSent_totals n k :
  sentTotal (notSent n k) = sentTotal k /\
  eqm64 (notSentTotal (notSent n k)) (notSentTotal k + n).
Proof.
  split; [done|]. unfold notSentTotal. simpl. rewrite <- Z.add_assoc.
  apply eqm64_add; [done|apply eqm64_wrap].
Qed.

Hypothesis record_works : forall g z, record_ g z = Ok tt.

(** A step that leaves the queue, the socket and the packets to hand over. *)
Lemma relaysB_stays s0 k0 n ρ p pc k rd up sv mn ql pl p' pc' k' rd' up' sv' mn' ql' pl' :
  relaysB s0 k0 n ρ (mkSystem p pc k rd up sv mn ql pl) ->
  mQueue p' = mQueue p -> mPacketPublisher p' = mPacketPublisher p -> toHand rd' = toHand rd ->
  frontedQ pc' (queued p) -> aliveQ pc' (queued p) = aliveQ pc (queued p) ->
  eqm64 (sentTotal k') (sentTotal k) ->
  eqm64 (notSentTotal k' + uncounted pc') (notSentTotal k + uncounted pc) ->
  relaysB s0 k0 n ρ (mkSystem p' pc' k' rd' up' sv' mn' ql' pl').
Proof.
  intros [F U A B G1 G2] Eq Ep Er F' A' S1 S2. unfold queued, socketOf in *. simpl in *.
  split; unfold queued, socketOf; simpl; rewrite ?Eq, ?Ep, ?Er, ?A', ?S1, ?S2; done.
Qed.
Lemma relaysB_same s0 k0 n ρ p pc k rd up sv mn ql pl p' rd' up' sv' mn' ql' pl' :
  relaysB s0 k0 n ρ (mkSystem p pc k rd up sv mn ql pl) ->
  mQueue p' = mQueue p -> mPacketPublisher p' = mPacketPublisher p -> toHand rd' = toHand rd ->
  relaysB s0 k0 n ρ (mkSystem p' pc k rd' up' sv' mn' ql' pl').
Proof. intros R ? ? ?. eapply relaysB_stays; [exact R|done..| | | |]; try done.
  apply (rb_fronted _ _ _ _ _ R). Qed.

(** The front of the queue is removed because there are too many. *)
Lemma relaysB_pop s0 k0 n ρ p m k rd up sv mn ql pl (popped : bool) q :
  relaysB s0 k0 n ρ (mkSystem p (PPop m) k rd up sv mn ql pl) ->
  rq_pop (mQueue p) = (popped, q) ->
  exists ρ', moves good ρ ρ' /\
    relaysB s0 k0 (n + if popped then 1 else 0) ρ'
      (mkSystem (with_q q p) (if popped then PLoop (m + 1) else PWarn m) k rd up sv mn ql pl) /\
    received ρ' = received ρ.
Proof.
  intros [F U A B G1 G2] Eq. pose proof (rq_pop_elems (mQueue p)) as [Er Ep].
  rewrite Eq in Er, Ep. unfold queued, socketOf in *. simpl in *.
  destruct ρ as [r u a st]. simpl in *. destruct (rq_elems (mQueue p)) as [|x rest]; subst popped.
  - exists (mkRelay r u a st). split; [by left|]. split; [|done].
    split; unfold queued; simpl; rewrite ?Er; eauto. by rewrite Z.add_0_r.
  - exists (mkRelay r u rest st). rewrite A. split; [right; apply relay_drop|].
    split; [|done]. simpl in Er. rewrite drop_0 in Er.
    split; unfold queued; simpl; rewrite ?Er; eauto. by rewrite (Z.add_assoc _ m 1), G2, Z.add_assoc.
Qed.

(** It is sent, or the publisher throws. *)
Lemma relaysB_send s0 k0 n ρ p x k rd up sv mn ql pl pub :
  relaysB s0 k0 n ρ (mkSystem p (PSend x) k rd up sv mn ql pl) ->
  Publisher.send env (J:=J) x (mPacketPublisher p) = Ok pub ->
  exists ρ', moves good ρ ρ' /\
    relaysB s0 k0 n ρ' (mkSystem (with_queue pub (mQueue p) p) PRemove (oneSent k) rd up sv mn ql pl) /\
    received ρ' = received ρ.
Proof.
  intros [F U A (calls & Sk & B) G1 G2] En. destruct ρ as [r u a st].
  unfold queued, socketOf in *. simpl in *.
  destruct (rq_elems (mQueue p)) as [|y rest] eqn:Eq; [done|]. injection F as ->.
  apply send_inv in En as (cl & Sc & Es). destruct (oneSent_totals k) as [T1 T2].
  exists (mkRelay r u rest (st ++ [x])). rewrite A. split; [right; apply relay_send|].
  split; [|done]. split; unfold queued; simpl; rewrite ?Eq, ?drop_0; try done.
  - exists (calls ++ [cl]). unfold socketOf. simpl. rewrite Es.
    split; [by rewrite Sk, (assoc_L app)|]. by apply Forall2_app; [|constructor].
  - rewrite T1, G1, length_app, Nat2Z.inj_add, Z.add_assoc. done.
Qed.
Lemma relaysB_fails s0 k0 n ρ p x k rd up sv mn ql pl :
  relaysB s0 k0 n ρ (mkSystem p (PSend x) k rd up sv mn ql pl) ->
  exists ρ', moves good ρ ρ' /\
    relaysB s0 k0 n ρ' (mkSystem p PRemove (oneFailed k) rd up sv mn ql pl) /\
    received ρ' = received ρ.
Proof.
  intros [F U A B G1 G2]. destruct ρ as [r u a st]. unfold queued, socketOf in *. simpl in *.
  destruct (rq_elems (mQueue p)) as [|y rest] eqn:Eq; [done|].
  exists (mkRelay r u rest st). rewrite A. split; [right; apply relay_drop|].
  split; [|done]. by split; unfold queued; simpl; rewrite ?Eq, ?drop_0.
Qed.

(** It is removed once it was tried. *)
Lemma relaysB_removes s0 k0 n ρ p k rd up sv mn ql pl :
  relaysB s0 k0 n ρ (mkSystem p PRemove k rd up sv mn ql pl) ->
  relaysB s0 k0 n ρ (mkSystem (with_q (rq_pop (mQueue p)).2 p) PLog k rd up sv mn ql pl).
Proof.
  intros [F U A B G1 G2]. pose proof (rq_pop_elems (mQueue p)) as [Er _].
  unfold queued, socketOf in *. simpl in *.
  by split; unfold queued; simpl; rewrite ?Er.
Qed.

Ltac publisher_stays := eexists; split; [by left|]; split; [|reflexivity]; rewrite Z.add_0_r;
  eapply relaysB_stays; [eassumption|..]; try done.

Lemma relaysB_publisher s0 k0 n ρ s s' now :
  relaysB s0 k0 n ρ s -> act (APublisher now) s = Ok s' ->
  exists ρ', moves good ρ ρ' /\ relaysB s0 k0 (n + removedBy (APublisher now) s) ρ' s' /\
             received ρ' = received ρ.
Proof.
  intros R E. simpl in E.
  apply bind_ok in E as (_ & _ & ([[[pc p] k] l] & E & [= <-])%bind_ok).
  destruct s as [p0 pc0 k1 rd up sv mn ql pl]. pose proof (rb_fronted _ _ _ _ _ R) as F.
  unfold removedBy. simpl in *. destruct pc0; simpl in E, F.
  - injection E as <- <- <- <-. destruct (mKeepRunning p0); publisher_stays.
  - injection E as <- <- <- <-. destruct (overfull _); publisher_stays.
  - injection E as <- <- <- <-. destruct (overfull _); publisher_stays.
  - destruct (rq_pop (mQueue p0)) as [popped q] eqn:Eq. injection E as <- <- <- <-.
    by eapply relaysB_pop.
  - injection E as <- <- <- <-. publisher_stays. simpl. rewrite Z.add_0_r. apply notSent_totals.
  - injection E as <- <- <- <-. unfold rq_peek. unfold queued in *.
    destruct (rq_elems (mQueue p0)) eqn:Eq; publisher_stays; unfold queued; by rewrite Eq.
  - rewrite Z.add_0_r. destruct (Publisher.send env packet (mPacketPublisher p0)) as [pub|e|] eqn:En;
      [| |done]; injection E as <- <- <- <-; [by eapply relaysB_send|by eapply relaysB_fails].
  - pose proof (relaysB_removes _ _ _ _ _ _ _ _ _ _ _ _ R) as R'.
    destruct (rq_pop (mQueue p0)) as [popped q]. injection E as <- <- <- <-.
    exists ρ. split; [by left|]. rewrite Z.add_0_r. by split.
  - apply bind_ok in E as ([k2 l2] & E & [= <- <- <- <-]).
    apply logPerformance_inv in E as (Rc & S1 & S2).
    publisher_stays; unfold sentTotal, notSentTotal; by rewrite Rc, ?S1, ?S2.
  - apply bind_ok in E as ([k2 l2] & E & [= <- <- <- <-]).
    apply (sendMetrics_inv _ _ _ _ _ record_works) in E as [S1 S2].
    publisher_stays. simpl. by rewrite S2.
  - injection E as <- <- <- <-. publisher_stays.
Qed.

(** A packet handed over is on the queue, or skipped. *)
Lemma relaysB_hands s0 k0 n ρ p x rest p' l pb k up sv mn ql pl :
  relaysB s0 k0 n ρ (mkSystem p pb k (RPropagate (x :: rest)) up sv mn ql pl) ->
  handOver ndebug x p = Ok (p', l) ->
  exists ρ', rtc (relayStep good) ρ ρ' /\
    relaysB s0 k0 n ρ' (mkSystem p' pb k (RPropagate rest) up sv mn ql pl) /\
    received ρ' = received ρ.
Proof.
  intros [F U A B G1 G2] E. destruct ρ as [r u a st]. unfold queued, socketOf in *. simpl in *.
  subst u. unfold handOver in E.
  destruct (addPacketsFromAcquisitionCallback ndebug x p) as [[p2 l2]|ex|] eqn:Ea; [| |done].
  - injection E as -> ->. destruct (add_inv _ _ _ _ _ Ea) as (Gx & Ep & [Eq|Eq]).
    + exists (mkRelay r rest a st). split; [apply rtc_once, relay_skip|]. split; [|done].
      split; unfold queued, socketOf; simpl; rewrite ?Eq, ?Ep; done.
    + exists (mkRelay r rest (a ++ [x]) st). split; [by apply rtc_once, relay_accept|].
      split; [|done]. split; unfold queued, socketOf; simpl; rewrite ?Eq, ?Ep; try done.
      * by apply frontedQ_app.
      * by rewrite A, aliveQ_app.
  - injection E as <- <-. exists (mkRelay r rest a st).
    split; [apply rtc_once, relay_skip|]. by split; [split|].
Qed.

Ltac reader_stays := eexists; split; [reflexivity|]; split; [by eapply relaysB_same|];
  by rewrite app_nil_r.

Lemma relaysB_reader s0 k0 n ρ s s' e :
  relaysB s0 k0 n ρ s -> act (AReader e) s = Ok s' ->
  exists ρ', rtc (relayStep good) ρ ρ' /\ relaysB s0 k0 n ρ' s' /\
             received ρ' = received ρ ++ unpackedBy (AReader e) s.
Proof.
  intros R E. simpl in E.
  apply bind_ok in E as (_ & _ & ([[[[pc p] u'] n'] l] & E & [= <-])%bind_ok).
  destruct s as [p0 pb k1 pc0 up sv mn ql pl]. unfold unpackedBy. simpl in *.
  destruct pc0 as [| | | |len parse|[|x rest]| | |]; simpl in E.
  - injection E as <- <- <- <- <-. reader_stays.
  - injection E as <- <- <- <- <-. reader_stays.
  - injection E as <- <- <- <- <-. destruct (Client.mKeepRunning _); reader_stays.
  - destruct e as [[] ? ?| | | |]; injection E as <- <- <- <- <-; reader_stays.
  - destruct (miniSEEDToDataPackets MINRECLEN parse len) as [[ps|x|]|] eqn:Em;
      [| |done|]; injection E as <- <- <- <- <-; [|reader_stays..].
    destruct ρ as [r u a st]. exists (mkRelay (r ++ ps) (u ++ ps) a st).
    split; [apply relay_receives|]. destruct R as [F U A B G1 G2]. simpl in *. subst u.
    by split; [split|].
  - injection E as <- <- <- <- <-. reader_stays.
  - apply bind_ok in E as ([p1 l1] & E & [= <- <- <- <- <-]). rewrite app_nil_r.
    by eapply relaysB_hands.
  - destruct (mUseStateFile _); [destruct (_ <? up)%Z|]; injection E as <- <- <- <- <-; reader_stays.
  - injection E as <- <- <- <- <-. reader_stays.
  - injection E as <- <- <- <- <-. reader_stays.
Qed.

Lemma mainStep_same b (s : system) :
  mQueue (theProcess (mainStep b s)) = mQueue (theProcess s) /\
  mPacketPublisher (theProcess (mainStep b s)) = mPacketPublisher (theProcess s) /\
  thePublisher (mainStep b s) = thePublisher s /\ theLocals (mainStep b s) = theLocals s /\
  theReader (mainStep b s) = theReader s.
Proof.
  destruct s as [p pb k rd u n [] ql pl]; unfold mainStep; simpl; try done.
  - by destruct b.
  - by destruct pb.
  - by destruct rd.
Qed.

Lemma relaysB_act s0 k0 n ρ s s' a :
  relaysB s0 k0 n ρ s -> act a s = Ok s' ->
  exists ρ', rtc (relayStep good) ρ ρ' /\ relaysB s0 k0 (n + removedBy a s) ρ' s' /\
             received ρ' = received ρ ++ unpackedBy a s.
Proof.
  intros R E. destruct a as [now|e|b].
  - destruct (relaysB_publisher _ _ _ _ _ _ _ R E) as (ρ' & M & R' & Er).
    exists ρ'. simpl unpackedBy. rewrite app_nil_r. split; [|by split].
    destruct M as [->|M]; [done|by apply rtc_once].
  - destruct (relaysB_reader _ _ _ _ _ _ _ R E) as (ρ' & M & R' & Er).
    exists ρ'. simpl removedBy. rewrite Z.add_0_r. by split.
  - injection E as <-. exists ρ. simpl. rewrite app_nil_r, Z.add_0_r. split; [done|].
    split; [|done]. pose proof (mainStep_same b s) as (Eq & Ep & E1 & E2 & E3).
    destruct R as [F U A B G1 G2].
    split; unfold queued, socketOf in *; rewrite ?Eq, ?Ep, ?E1, ?E2, ?E3; done.
Qed.

Lemma relaysB_run s0 k0 n ρ l s s' :
  relaysB s0 k0 n ρ s -> actions act l s = Ok s' ->
  exists ρ', rtc (relayStep good) ρ ρ' /\ relaysB s0 k0 (n + removed l s) ρ' s' /\
             received ρ' = received ρ ++ unpacked l s.
Proof.
  revert n ρ s. induction l as [|a l IH]; intros n ρ s R; cbn [actions unpacked removed].
  - intros [= <-]. exists ρ. by rewrite app_nil_r, Z.add_0_r.
  - intros (s1 & E1 & E2)%bind_ok. rewrite E1.
    destruct (relaysB_act _ _ _ _ _ _ _ R E1) as (ρ1 & M1 & R1 & Er1).
    destruct (IH _ _ _ R1 E2) as (ρ2 & M2 & R2 & Er2). exists ρ2.
    split; [by etrans|]. rewrite Z.add_assoc. split; [done|].
    by rewrite Er2, Er1, <- (assoc_L app).
Qed.

Lemma begin_relays sl o p now :
  newProcess (Q:=Q) env sl ndebug o = Ok p ->
  relaysB (socketOf p) (localsAt now) 0 emptyRelay (begin now p).
Proof.
  intros En. apply bind_ok in En as (pub & _ & (client & _ & [= <-])%bind_ok).
  split; unfold queued, socketOf; simpl; rewrite ?rq_new_elems; try done.
  - exists []. by rewrite app_nil_r.
Qed.

(** [start] changes neither the queue nor the socket. *)
Lemma start_relays s0 k0 n ρ p p' now :
  start p = Ok p' -> relaysB s0 k0 n ρ (begin now p) -> relaysB s0 k0 n ρ (begin now p').
Proof.
  unfold start. destruct (Client.start _) as [c r]. intros (_ & _ & [= <-])%bind_ok R.
  by eapply relaysB_same.
Qed.

(** C7: the broadcaster is a relay whose check is that of its callback: let
    its three threads interleave in any way, one access at a time, from the
    moment it was started.  Then there is a run of the abstract relay that
    receives the packets unpacked from what the server sent and sends what
    the publisher's socket was made to send: what is sent and then what waits
    is, in order and without repetition, a part of what was unpacked, and
    every packet of it has its codes, a sampling rate and samples.  The gauge
    of propagated packets adds up to the packets sent; the gauge of skipped
    packets to those removed from an overfull queue, so that a packet that
    could not be sent is in neither. *)
Theorem broadcaster_refines_relay sl o p0 p now l s :
  newProcess (Q:=Q) env sl ndebug o = Ok p0 -> start p0 = Ok p ->
  actions act l (begin now p) = Ok s ->
  exists ρ, rtc (relayStep good) emptyRelay ρ /\ relay_ok good ρ /\
    received ρ = unpacked l (begin now p) /\
    relaysB (socketOf p0) (localsAt now) (removed l (begin now p)) ρ s.
Proof.
  intros En Es E.
  pose proof (start_relays _ _ _ _ _ _ _ Es (begin_relays sl o p0 now En)) as R.
  destruct (relaysB_run _ _ _ _ _ _ _ R E) as (ρ & M & R' & Er). exists ρ.
  split; [done|]. split; [eapply relay_run_ok; [exact M|]; by split; simpl|]. by split.
Qed.
End refinement.

(** ** Going down in order *)

(** How far the main thread has got. *)
Definition mainRank (pc : mainPc) : nat :=
  match pc with
  | MWait => 11 | MLower => 10 | MJoin => 9 | MDestroy => 8 | MFlag => 7 | MTerminate => 6
  | MStore => 5 | MClientJoin => 4 | MDisconnect => 3 | MQueue => 2 | MPublisher => 1 | MDone => 0
  end%nat.

Section order.
Local Open Scope nat_scope.
Context (env : ZmqEnv) (ndebug : bool) (MINRECLEN : Z) {J V : Type} `{JsonLib J V}.
Context {Q : Type} `{ReaderWriterQueueLaws Q DataPacketImpl}.
Context (record_ : gauge -> Z -> outcome unit) {LK : Link}.
Abbreviation process := (Process Q).
Abbreviation system := (system Q).
Abbreviation act := (act env ndebug MINRECLEN (J:=J) (Q:=Q) record_).

(** What is dead, and which flags are down, goes by how far the main thread
    has got; a thread that was joined has ended. *)
Record orderly (s : system) : Prop := mkOrderly {
  or_publisher : mainRank (theMain s) < 9 -> thePublisher s = PDone;
  or_reader : mainRank (theMain s) < 4 -> theReader s = RDone;
  or_connection : connected (theProcess s) = bool_decide (3 <= mainRank (theMain s));
  or_queue : theQueueLives s = bool_decide (2 <= mainRank (theMain s));
  or_live : thePublisherLives s = bool_decide (1 <= mainRank (theMain s));
  or_flag : mainRank (theMain s) <= 9 -> mKeepRunning (theProcess s) = false;
  or_clientFlag :
    mainRank (theMain s) <= 4 -> Client.mKeepRunning (mSEEDLinkClient (theProcess s)) = false
}.

Lemma orderly_uses_live s : orderly s -> publisherUsesLive s = true /\ readerUsesLive s = true.
Proof.
  intros [Pb Rd Cn Ql Pl _ _]. unfold publisherUsesLive, readerUsesLive. rewrite Cn, Ql, Pl.
  split; apply andb_true_iff; split.
  - destruct (decide (mainRank (theMain s) < 9)) as [L|L]; [by rewrite (Pb L)|].
    rewrite bool_decide_eq_true_2 by lia. by destruct (usesQueue _).
  - destruct (decide (mainRank (theMain s) < 9)) as [L|L]; [by rewrite (Pb L)|].
    rewrite bool_decide_eq_true_2 by lia. by destruct (usesPublisher _).
  - destruct (decide (mainRank (theMain s) < 4)) as [L|L]; [by rewrite (Rd L)|].
    rewrite bool_decide_eq_true_2 by lia. by destruct (usesConnection _ _).
  - destruct (decide (mainRank (theMain s) < 4)) as [L|L]; [by rewrite (Rd L)|].
    rewrite bool_decide_eq_true_2 by lia. by destruct (fillsQueue _).
Qed.

(** The publishing thread touches neither the client nor the flag. *)
Lemma publisherStep_keeps now pc (p : process) k pc' p' k' l :
  publisherStep env (J:=J) record_ now pc p k = Ok (pc', p', k', l) ->
  mKeepRunning p' = mKeepRunning p /\ mSEEDLinkClient p' = mSEEDLinkClient p /\
  (pc = PDone -> pc' = PDone).
Proof.
  intros E. destruct pc; simpl in E; try by injection E as <- <- <- <-.
  - destruct (rq_pop _) as [popped q]. by injection E as <- <- <- <-.
  - destruct (Publisher.send _ _ _); [| |done]; by injection E as <- <- <- <-.
  - destruct (rq_pop _) as [popped q]. by injection E as <- <- <- <-.
  - by apply bind_ok in E as ([? ?] & _ & [= <- <- <- <-]).
  - by apply bind_ok in E as ([? ?] & _ & [= <- <- <- <-]).
Qed.

Lemma handOver_keeps x (p p' : process) l :
  handOver ndebug x p = Ok (p', l) ->
  mKeepRunning p' = mKeepRunning p /\ mSEEDLinkClient p' = mSEEDLinkClient p /\
  length (queued p') <= S (length (queued p)).
Proof.
  unfold handOver.
  destruct (addPacketsFromAcquisitionCallback ndebug x p) as [[p1 l1]|e|] eqn:Ea; [| |done].
  - intros [= -> ->]. pose proof (add_inv _ _ _ _ _ Ea) as (_ & _ & Eq). split; [|split].
    1,2: revert Ea; unfold addPacketsFromAcquisitionCallback; intros Ea;
      repeat (apply bind_ok in Ea as (? & _ & Ea));
      destruct (try_enqueue x (mQueue p)); by injection Ea as <- _.
    unfold queued. destruct Eq as [-> | ->]; rewrite ?length_app; simpl; lia.
  - intros [= <- <-]. auto.
Qed.

Lemma readerStep_keeps e pc (p : process) u n pc' p' u' n' l :
  readerStep ndebug MINRECLEN e pc p u n = Ok (pc', p', u', n', l) ->
  mKeepRunning p' = mKeepRunning p /\ connected p' = connected p /\
  Client.mKeepRunning (mSEEDLinkClient p') = Client.mKeepRunning (mSEEDLinkClient p) /\
  (pc = RDone -> pc' = RDone).
Proof.
  intros E. destruct pc as [| | | |len parse|[|x rest]| | |]; simpl in E;
    try by injection E as <- <- <- <- <-.
  - by destruct e as [[] ? ?| | | |]; injection E as <- <- <- <- <-.
  - by destruct (miniSEEDToDataPackets _ _ _) as [[| |]|]; [| |done|];
      injection E as <- <- <- <- <-.
  - apply bind_ok in E as ([p1 l1] & E & [= <- <- <- <- <-]).
    apply handOver_keeps in E as (K & Cl & _). unfold connected. by rewrite Cl.
  - destruct (mUseStateFile _); [destruct (_ <? u)%Z|]; by injection E as <- <- <- <- <-.
Qed.

Lemma terminate_keeps c :
  match mSEEDLinkConnection (terminate c) with Some _ => true | None => false end =
  match mSEEDLinkConnection c with Some _ => true | None => false end.
Proof. unfold terminate. by destruct (mSEEDLinkConnection c) eqn:E; simpl; rewrite ?E. Qed.

Ltac in_order := split; unfold connected in *; simpl in *; auto; try lia.

Lemma mainStep_orderly b s : orderly s -> orderly (mainStep b s).
Proof.
  intros [Pb Rd Cn Ql Pl Kf Kc]. destruct s as [p pb k rd u n mn ql pl]. simpl in *.
  destruct mn; unfold mainStep; simpl;
    try specialize (Pb ltac:(simpl; lia)); try specialize (Rd ltac:(simpl; lia));
    try specialize (Kf ltac:(simpl; lia)); try specialize (Kc ltac:(simpl; lia)).
  - destruct b; in_order.
  - in_order.
  - destruct pb; in_order.
  - in_order.
  - destruct (Client.mKeepRunning _); in_order.
  - in_order. by rewrite terminate_keeps.
  - in_order.
  - destruct rd; in_order.
  - in_order.
  - in_order.
  - in_order.
  - in_order.
Qed.

Lemma act_orderly a s s' : orderly s -> act a s = Ok s' -> orderly s'.
Proof.
  intros O E. destruct a as [now|e|b]; simpl in E.
  - apply bind_ok in E as (_ & _ & ([[[pc p] k] l] & E & [= <-])%bind_ok).
    apply publisherStep_keeps in E as (K & Cl & D). destruct O as [Pb Rd Cn Ql Pl Kf Kc].
    split; unfold connected in *; simpl; rewrite ?K, ?Cl; auto.
  - apply bind_ok in E as (_ & _ & ([[[[pc p] u] n] l] & E & [= <-])%bind_ok).
    apply readerStep_keeps in E as (K & Cl & Kr & D). destruct O as [Pb Rd Cn Ql Pl Kf Kc].
    split; simpl; rewrite ?K, ?Cl, ?Kr; auto.
  - injection E as <-. by apply mainStep_orderly.
Qed.

Lemma actions_orderly l s s' : orderly s -> actions act l s = Ok s' -> orderly s'.
Proof.
  revert s. induction l as [|a l IH]; intros s O; simpl; [by intros [= <-]|].
  intros (s1 & E1 & E2)%bind_ok. eapply IH; [|exact E2]. by eapply act_orderly.
Qed.

Lemma start_orderly (p0 p : process) now : start p0 = Ok p -> orderly (begin now p).
Proof.
  unfold start, Client.start, Client.startImpl. simpl.
  destruct (Client.isInitialized _); simpl; [|done].
  destruct (Client.mInitialized _); simpl; [|done].
  destruct (mSEEDLinkConnection _) as [c|] eqn:Ec; simpl; [|done]. intros [= <-].
  split; simpl; try done; lia.
Qed.

(** C32: the broadcaster goes down in order: however its threads interleave,
    from [start] on, no step of the publishing thread or of the reader uses a
    queue, a publisher or a connection that the main thread has destroyed;
    and when the main thread is through, both have ended and all three are
    gone.  (The sanitizer's subscriber, in contrast, outlives its queue.) *)
Theorem broadcaster_goes_down_in_order (p0 p : process) now l s :
  start p0 = Ok p -> actions act l (begin now p) = Ok s ->
  publisherUsesLive s = true /\ readerUsesLive s = true /\
  (theMain s = MDone ->
   thePublisher s = PDone /\ theReader s = RDone /\ theQueueLives s = false /\
   thePublisherLives s = false /\ connected (theProcess s) = false).
Proof.
  intros Es E. pose proof (actions_orderly _ _ _ (start_orderly p0 p now Es) E) as O.
  destruct (orderly_uses_live s O) as [L1 L2]. split; [done|]. split; [done|].
  intros D. destruct O as [Pb Rd Cn Ql Pl _ _]. rewrite D in *. simpl in *.
  repeat split; auto with lia.
Qed.

(** *** The main thread gets through *)

(** What the reader still has to put on the queue. *)
Definition load (pc : readerPc) : nat :=
  match pc with
  | RUnpack n parse =>
      match miniSEEDToDataPackets MINRECLEN parse n with Some (Ok ps) => length ps | _ => 0 end
  | RPropagate packets => length packets
  | _ => 0
  end.

(** Steps to the end once the flag is down: of the publishing thread, when
    [t] packets are queued or still to come, and of the reader. *)
Definition publisherLeft (pc : publisherPc) (t : nat) : nat :=
  match pc with
  | PDone => 0 | PWhile => 1 | PMetrics _ => 2 | PLog => 3 | PRemove => 4 | PSend _ => 5
  | PPeek => 6 | PWarn _ => 7 | PPop _ => 8 + 2 * t | PLoop _ => 9 + 2 * t | PIf => 10 + 2 * t
  end.
Definition readerLeft (pc : readerPc) : nat :=
  match pc with
  | RDone => 0 | RLeave => 1 | RWhile => 2 | RCollect => 3 | RRecover => 3 | RConnected => 4
  | RStateFile => 3 | RPropagate packets => 4 + length packets | RUnpack _ _ => 5 + load pc
  end.

Definition comes (s : system) : nat := length (queued (theProcess s)) + load (theReader s).

(** The library gets to the end of the payload the reader unpacks. *)
Definition unpacks (pc : readerPc) : Prop :=
  match pc with
  | RUnpack n parse => exists r, miniSEEDToDataPackets MINRECLEN parse n = Some r
  | _ => True
  end.

(** No miniSEED comes from the server. *)
Definition silent (a : action) : Prop :=
  match a with AReader (SLPACKET true _ _) => False | _ => True end.

Lemma publisherStep_nearer now pc (p : process) k pc' p' k' l t :
  publisherStep env (J:=J) record_ now pc p k = Ok (pc', p', k', l) ->
  mKeepRunning p = false ->
  length (queued p') <= length (queued p) /\
  publisherLeft pc' (length (queued p') + t) <= pred (publisherLeft pc (length (queued p) + t)).
Proof.
  intros E K. unfold queued. destruct pc; simpl in E.
  - rewrite K in E. injection E as <- <- <- <-. simpl. lia.
  - injection E as <- <- <- <-. destruct (overfull _); simpl; lia.
  - injection E as <- <- <- <-. destruct (overfull _); simpl; lia.
  - pose proof (rq_pop_elems (mQueue p)) as [Er Ep]. destruct (rq_pop _) as [popped q].
    injection E as <- <- <- <-. simpl in *. rewrite Er, length_drop.
    destruct (rq_elems (mQueue p)); subst popped; simpl; lia.
  - injection E as <- <- <- <-. simpl. lia.
  - injection E as <- <- <- <-. destruct (rq_peek _); simpl; lia.
  - destruct (Publisher.send _ _ _); [| |done]; injection E as <- <- <- <-; simpl; lia.
  - pose proof (rq_pop_elems (mQueue p)) as [Er Ep]. destruct (rq_pop _) as [popped q].
    injection E as <- <- <- <-. simpl in *. rewrite Er, length_drop. lia.
  - apply bind_ok in E as ([? ?] & _ & [= <- <- <- <-]). simpl. lia.
  - apply bind_ok in E as ([? ?] & _ & [= <- <- <- <-]). simpl. lia.
  - injection E as <- <- <- <-. simpl. lia.
Qed.

Lemma readerStep_left e pc (p : process) u n pc' p' u' n' l :
  readerStep ndebug MINRECLEN e pc p u n = Ok (pc', p', u', n', l) ->
  silent (AReader e) -> unpacks pc ->
  unpacks pc' /\ length (queued p') + load pc' <= length (queued p) + load pc /\
  (Client.mKeepRunning (mSEEDLinkClient p) = false -> readerLeft pc' <= pred (readerLeft pc)).
Proof.
  intros E Se U. unfold queued. destruct pc as [| | | |len parse|[|x rest]| | |]; simpl in E;
    try (injection E as <- <- <- <- <-; simpl; repeat split; lia).
  - injection E as <- <- <- <- <-. destruct (Client.mKeepRunning _); simpl;
      repeat split; try done; lia.
  - destruct e as [[] ? ?| | | |]; [done|..]; injection E as <- <- <- <- <-; simpl;
      repeat split; lia.
  - destruct U as [r Er]. simpl. rewrite Er in *.
    destruct r as [ps|ex|]; [| |done]; injection E as <- <- <- <- <-; simpl; repeat split; lia.
  - apply bind_ok in E as ([p1 l1] & E & [= <- <- <- <- <-]).
    apply handOver_keeps in E as (_ & _ & L). unfold queued in L. simpl. repeat split; lia.
  - destruct (mUseStateFile _); [destruct (_ <? u)%Z|]; injection E as <- <- <- <- <-;
      simpl; repeat split; lia.
Qed.

(** A join that is due is over. *)
Definition ready (s : system) : Prop :=
  match theMain s with
  | MJoin => thePublisher s = PDone
  | MClientJoin => theReader s = RDone
  | MDone => False
  | _ => True
  end.

Lemma mainStep_rank b s :
  mainRank (theMain (mainStep b s)) <= mainRank (theMain s) /\
  (b = true -> ready s -> mainRank (theMain (mainStep b s)) < mainRank (theMain s)).
Proof.
  destruct s as [p pb k rd u n [] ql pl]; unfold mainStep, ready; simpl;
    try (split; intros; lia || done).
  - destruct b; simpl; split; intros; lia || done.
  - destruct pb; simpl; split; intros; lia || done.
  - destruct (Client.mKeepRunning _); simpl; split; intros; lia.
  - destruct rd; simpl; split; intros; lia || done.
Qed.

Context (σ : schedule (A := action)) (s0 : system) (N : nat).

Definition isPublisher (a : action) : Prop := match a with APublisher _ => True | _ => False end.
Definition isReader (a : action) : Prop := match a with AReader _ => True | _ => False end.
Definition signalled (a : action) : Prop := a = AMain true.

Hypothesis falls_silent : forall m, N <= m -> silent (σ m).

Definition inv (m : nat) (s : system) : Prop := N <= m /\ orderly s /\ unpacks (theReader s).
Abbreviation rank s := (mainRank (theMain s)).

(** One step: the invariant stays, the ranks go down. *)
Lemma shutdown_step m s s' :
  inv m s -> act (σ m) s = Ok s' ->
  inv (S m) s' /\ rank s' <= rank s /\
  (signalled (σ m) -> ready s -> rank s' < rank s) /\
  (theMain s' = theMain s -> ready s -> ready s') /\
  (theMain s = MJoin ->
     publisherLeft (thePublisher s') (comes s') <= publisherLeft (thePublisher s) (comes s) /\
     (isPublisher (σ m) -> 0 < publisherLeft (thePublisher s) (comes s) ->
      publisherLeft (thePublisher s') (comes s') < publisherLeft (thePublisher s) (comes s))) /\
  (theMain s = MClientJoin ->
     readerLeft (theReader s') <= readerLeft (theReader s) /\
     (isReader (σ m) -> 0 < readerLeft (theReader s) ->
      readerLeft (theReader s') < readerLeft (theReader s))).
Proof.
  intros (L & O & U) E. pose proof (act_orderly _ _ _ O E) as O'.
  pose proof (falls_silent m L) as Se. destruct (σ m) as [now|e|b]; simpl in E.
  - apply bind_ok in E as (_ & _ & ([[[pc p] k] l] & E & [= <-])%bind_ok).
    pose proof (publisherStep_keeps _ _ _ _ _ _ _ _ E) as (_ & _ & D).
    split; [by split; [lia|]|]. unfold comes, ready. simpl. split; [lia|]. split; [done|].
    split; [by destruct (theMain s); auto|]. split; [|intros _; split; [lia|done]].
    intros M. destruct O as [_ _ _ _ _ Kf _]. rewrite M in Kf.
    pose proof (publisherStep_nearer _ _ _ _ _ _ _ _ (load (theReader s)) E (Kf ltac:(simpl; lia))).
    split; [lia|]. intros _ Pos. lia.
  - apply bind_ok in E as (_ & _ & ([[[[pc p] u] n] l] & E & [= <-])%bind_ok).
    pose proof (readerStep_keeps _ _ _ _ _ _ _ _ _ _ E) as (_ & _ & _ & D).
    destruct (readerStep_left _ _ _ _ _ _ _ _ _ _ E Se U) as (U' & Lq & Lr).
    split; [by split; [lia|]|]. unfold comes, ready. simpl. split; [lia|]. split; [done|].
    split; [by destruct (theMain s); auto|]. split.
    + intros _. split; [|done]. destruct (thePublisher s); simpl; lia.
    + intros M. destruct O as [_ _ _ _ _ _ Kc]. rewrite M in Kc.
      specialize (Lr (Kc ltac:(simpl; lia))). split; [lia|]. intros _ Pos. lia.
  - injection E as <-. destruct (mainStep_rank b s) as [R1 R2].
    pose proof (mainStep_same b s) as (Eq & _ & Ep & _ & Er).
    split; [split; [lia|]; split; [done|by rewrite Er]|]. split; [done|].
    split; [intros [= ->]; auto|]. unfold comes, ready, queued. rewrite Ep, Er, Eq.
    split; [by intros ->|]. split; intros _; split; done || lia.
Qed.

(** A join comes to an end. *)
Lemma becomes_ready r :
  fair isPublisher σ -> fair isReader σ -> 0 < r ->
  leads_to act σ s0 (fun m s => inv m s /\ rank s = r)
    (fun m s => inv m s /\ (rank s < r \/ rank s = r /\ ready s)).
Proof.
  intros Fp Fr Pos.
  assert (Wait : forall mine left, fair mine σ ->
    (forall m s s', inv m s -> rank s = r -> act (σ m) s = Ok s' ->
       left s' <= left s /\ (mine (σ m) -> 0 < left s -> left s' < left s)) ->
    (forall s, rank s = r -> left s = 0 -> ready s) ->
    leads_to act σ s0 (fun m s => inv m s /\ rank s = r)
      (fun m s => inv m s /\ (rank s < r \/ rank s = r /\ ready s))).
  { intros mine left F D Z m s E [I R].
    apply (progress act σ s0 mine
      (fun m s k => inv m s /\ (rank s < r /\ k = 0 \/ rank s = r /\ k = left s)) _ F)
      with (k := left s) (x := s); [|done|by split; [|right]].
    clear m s E I R. intros m s k (I & [[R ->]|[R ->]]); [left; auto|].
    destruct (decide (left s = 0)) as [Zs|Zs]; [left; auto|]. right. intros s' E.
    destruct (shutdown_step m s s' I E) as (I' & Rk & _).
    destruct (D m s s' I R E) as [D1 D2].
    destruct (decide (rank s' = r)) as [R'|R'].
    - exists (left s'). split; [auto|]. split; [done|]. intros Hm. apply D2; [done|lia].
    - exists 0. split; [split; [done|left; split; [lia|done]]|]. split; [lia|]. intros. lia. }
  destruct (decide (r = 9)) as [->|N9].
  - apply (Wait isPublisher (fun s => publisherLeft (thePublisher s) (comes s)) Fp).
    + intros m s s' I R E. apply (shutdown_step m s s' I E). by destruct (theMain s).
    + intros s R Z. unfold ready. destruct (theMain s); try done.
      destruct (thePublisher s); simpl in Z; lia || done.
  - destruct (decide (r = 4)) as [->|N4].
    + apply (Wait isReader (fun s => readerLeft (theReader s)) Fr).
      * intros m s s' I R E. apply (shutdown_step m s s' I E). by destruct (theMain s).
      * intros s R Z. unfold ready. destruct (theMain s); try done.
        destruct (theReader s); simpl in Z; lia || done.
    + intros m s E [I R]. apply (eventually_now _ _ _ _ s); [done|]. split; [done|]. right.
      split; [done|]. unfold ready. destruct (theMain s); simpl in *; done || lia.
Qed.

Lemma moves_on r :
  fair signalled σ ->
  leads_to act σ s0 (fun m s => inv m s /\ (rank s < r \/ rank s = r /\ ready s))
    (fun m s => inv m s /\ rank s < r).
Proof.
  intros F m s E [I C].
  apply (progress act σ s0 signalled
    (fun m s k => inv m s /\ (rank s < r /\ k = 0 \/ rank s = r /\ ready s /\ k = 1)) _ F)
    with (k := if decide (rank s < r) then 0 else 1) (x := s).
  - clear m s E I C. intros m s k (I & [[R ->]|(R & Rd & ->)]); [left; auto|]. right. intros s' E.
    destruct (shutdown_step m s s' I E) as (I' & Rk & Rm & Rr & _).
    destruct (decide (rank s' = r)) as [R'|R'].
    + exists 1. split; [|split; [done|]].
      * split; [done|]. right. split; [done|]. split; [|done]. apply Rr; [|done].
        rewrite <- R in R'. clear -R'. by destruct (theMain s), (theMain s').
      * intros Hm. specialize (Rm Hm Rd). lia.
    + exists 0. split; [split; [done|left; split; [lia|done]]|]. split; [lia|]. intros. lia.
  - done.
  - split; [done|]. destruct (decide _) as [D|D]; [left; auto|]. destruct C as [C|[C1 C2]]; [lia|].
    right; auto.
Qed.

Lemma gets_through k :
  fair isPublisher σ -> fair isReader σ -> fair signalled σ ->
  leads_to act σ s0 (fun m s => inv m s /\ rank s <= k) (fun m s => inv m s /\ rank s = 0).
Proof.
  intros Fp Fr Fs. induction k as [|k IH].
  - intros m s E [I R]. apply (eventually_now _ _ _ _ s); [done|]. split; [done|lia].
  - intros m s E [I R]. destruct (decide (rank s = S k)) as [Rk|Rk].
    + assert (M : leads_to act σ s0 (fun m s => inv m s /\ rank s < S k)
                    (fun m s => inv m s /\ rank s = 0)).
      { refine (leads_to_mono _ _ _ _ _ _ _ _ _ IH); [|done]. intros n x [I' R']. split; [done|lia]. }
      apply (leads_to_trans _ _ _ _ _ _ (becomes_ready (S k) Fp Fr ltac:(lia))
               (leads_to_trans _ _ _ _ _ _ (moves_on (S k) Fs) M) m s E). by split.
    + apply (IH m s E). split; [done|lia].
Qed.

(** What libmseed documents of a payload, for those of a schedule. *)
Definition sound (a : action) : Prop :=
  match a with
  | AReader (SLPACKET true n parse) => (0 <= n < 2 ^ 31)%Z /\ parse_ok parse
  | _ => True
  end.

Lemma sound_unpacks n parse :
  (0 <= MINRECLEN)%Z -> sound (AReader (SLPACKET true n parse)) -> unpacks (RUnpack n parse).
Proof.
  intros L [B P]. unfold unpacks, miniSEEDToDataPackets.
  assert (W : wrap_u64 n = n).
  { apply wrap_u64_small. change (2 ^ 64)%Z with 18446744073709551616%Z.
    change (2 ^ 31)%Z with 2147483648%Z in B. lia. }
  rewrite W. destruct (unpackRecords_total MINRECLEN parse n (Z.to_nat n) 0) as (r & E & _);
    [lia|done|lia|lia|lia|]. eauto.
Qed.

Lemma reader_unpacks m s :
  (0 <= MINRECLEN)%Z -> (forall m, sound (σ m)) -> unpacks (theReader s0) ->
  stateAt act σ s0 m = Ok s -> unpacks (theReader s).
Proof.
  intros L Sd U. revert s. induction m as [|m IH]; intros s; simpl; [by intros [= <-]|].
  intros (s1 & E1 & E)%bind_ok. specialize (IH _ E1). specialize (Sd m).
  destruct (σ m) as [now|e|b]; simpl in E.
  - by apply bind_ok in E as (_ & _ & ([[[pc p] k] l] & E & [= <-])%bind_ok).
  - apply bind_ok in E as (_ & _ & ([[[[pc p] u] n] l] & E & [= <-])%bind_ok). simpl.
    destruct (theReader s1) as [| | | |len parse|[|x rest]| | |]; simpl in E;
      try (by injection E as <- <- <- <- <-).
    + injection E as <- <- <- <- <-. by destruct (Client.mKeepRunning _).
    + destruct e as [[] len parse| | | |]; injection E as <- <- <- <- <-; try done.
      by apply sound_unpacks.
    + destruct (miniSEEDToDataPackets _ _ _) as [[| |]|] eqn:Em; [| |done|];
        injection E as <- <- <- <- <-; done.
    + by apply bind_ok in E as ([p1 l1] & E & [= <- <- <- <- <-]).
    + destruct (mUseStateFile _); [destruct (_ <? _)%Z|]; by injection E as <- <- <- <- <-.
  - injection E as <-. pose proof (mainStep_same b s1) as (_ & _ & _ & _ & Er). by rewrite Er.
Qed.
End order.

Section shutdown.
Local Open Scope nat_scope.
Context (env : ZmqEnv) (ndebug : bool) (MINRECLEN : Z) {J V : Type} `{JsonLib J V}.
Context {Q : Type} `{ReaderWriterQueueLaws Q DataPacketImpl}.
Context (record_ : gauge -> Z -> outcome unit) {LK : Link}.

(** The silence asked for in the next theorem is needed by the inner loop of the
    publishing thread, which need not end without it: the reader is stopped only
    after that thread was joined. *)

(** C30: the broadcaster ends: under every scheduler that gives its threads
    turns and lets the main thread see the signal, when the server sends no
    more miniSEED from some time on and libmseed reports lengths within the
    bytes it is given, both joins return and the main thread gets through its
    destructors (or the run stops in undefined behaviour). *)
Theorem broadcaster_shuts_down (p0 p : Process Q) now σ N :
  start p0 = Ok p -> (0 <= MINRECLEN)%Z -> (forall m, sound (σ m)) ->
  (forall m, N <= m -> silent (σ m)) ->
  fair isPublisher σ -> fair isReader σ -> fair signalled σ ->
  eventually (act env ndebug MINRECLEN (J:=J) record_) σ (begin now p) 0
    (fun _ s => theMain s = MDone).
Proof.
  intros Es L Sd Si Fp Fr Fs.
  destruct (stateAt (act env ndebug MINRECLEN (J:=J) record_) σ (begin now p) N)
    as [s|e|] eqn:E; [|by exists N; split; [lia|left; rewrite E]..].
  apply (eventually_later _ _ _ _ N); [lia|].
  assert (O : orderly s).
  { pose proof E as E'. rewrite stateAt_actions in E'. exact (actions_orderly env ndebug MINRECLEN record_ _ _ _ (start_orderly p0 p now Es) E'). }
  assert (U : unpacks MINRECLEN (theReader s)) by (by apply (reader_unpacks env ndebug MINRECLEN record_ σ (begin now p) N)).
  eapply eventually_mono;
    [|apply (gets_through env ndebug MINRECLEN record_ σ (begin now p) N Si 11 Fp Fr Fs N s E)].
  - intros m x _ _ [_ R]. by destruct (theMain x).
  - split; [by split|]. by destruct (theMain s); simpl; lia.
Qed.
End shutdown.

(** ** A pass is a run of one thread on its own *)
Section passes.
Local Open Scope list_scope.
Context (env : ZmqEnv) (ndebug : bool) (MINRECLEN : Z) {J V : Type} `{JsonLib J V}.
Context {Q : Type} `{ReaderWriterQueueLaws Q DataPacketImpl}.
Context (record_ : gauge -> Z -> outcome unit) {LK : Link}.
Abbreviation process := (Process Q).

Definition publisherAlone (now : Z) (s : publisherPc * process * locals)
    : outcome (publisherPc * process * locals * list line) :=
  publisherStep env (J:=J) record_ now s.1.1 s.1.2 s.2.

Lemma with_q_id (p : process) : with_q (mQueue p) p = p.
Proof. by destruct p. Qed.

Lemma sendLoop_drains now m p k :
  exists n, runs (publisherAlone now) n (PLoop m, p, k) =
    Ok (PWarn (drainTo MAX_QUEUE_SIZE (length (rq_elems (mQueue p))) (mQueue p) m).2,
        with_q (drainTo MAX_QUEUE_SIZE (length (rq_elems (mQueue p))) (mQueue p) m).1 p, k, []).
Proof.
  destruct (drain_runs (publisherAlone now) MAX_QUEUE_SIZE
    (fun n q => (PLoop n, with_q q p, k)) (fun n q => (PPop n, with_q q p, k))
    (fun n q => (PWarn n, with_q q p, k)))
    with (fuel := length (rq_elems (mQueue p))) (q := mQueue p) (m := m) as [n E]; try done.
  - intros n q. unfold publisherAlone. simpl. unfold overfull. by destruct (MAX_QUEUE_SIZE <? size_approx q)%Z.
  - intros n q. unfold publisherAlone. simpl. by destruct (rq_pop q) as [[] q'].
  - exists n. by rewrite with_q_id in E.
Qed.

Lemma sendLoop_trims now p k :
  mKeepRunning p = true ->
  exists n, runs (publisherAlone now) n (PWhile, p, k) =
    let '(q, k', l) := removeExcess (mQueue p) k in Ok (PPeek, with_q q p, k', l).
Proof.
  intros K. unfold removeExcess. destruct (MAX_QUEUE_SIZE <? size_approx (mQueue p))%Z eqn:Eo.
  - destruct (sendLoop_drains now 0 p k) as [n En].
    destruct (drainTo _ _ (mQueue p) 0) as [q d]. simpl in En.
    exists (2 + (n + 1))%nat. simpl. unfold publisherAlone at 1 2. simpl. rewrite K. simpl.
    unfold overfull. rewrite Eo. simpl. by rewrite (runs_app _ _ _ _ _ _ En).
  - exists 2%nat. simpl. unfold publisherAlone. simpl. rewrite K. simpl. unfold overfull.
    rewrite Eo. by rewrite with_q_id.
Qed.

(** [sendStep] of SeedLinkPublisher, from the head of the loop back to it. *)
Lemma sendStep_runs now p k :
  mKeepRunning p = true ->
  exists n, runs (publisherAlone now) n (PWhile, p, k) =
    '(p', k', l) ← sendStep env (J:=J) record_ now p k; Ok (PWhile, p', k', l).
Proof.
  intros K. destruct (sendLoop_trims now p k K) as [n En]. unfold sendStep.
  destruct (removeExcess (mQueue p) k) as [[q k1] l1]. unfold sendFirst.
  destruct (rq_peek q) as [packet|] eqn:Ed.
  - exists (n + 5)%nat. rewrite (runs_app _ _ _ _ _ _ En). simpl. unfold publisherAlone. simpl.
    rewrite Ed. simpl.
    destruct (Publisher.send env packet (mPacketPublisher p)) as [pub|e|]; simpl; [..|done];
      destruct (rq_pop q) as [popped q']; simpl;
      destruct (logPerformance _ _ _) as [[k2 l2]| |]; simpl; try done;
      destruct (sendMetrics _ _ _) as [[k3 l3]| |]; simpl; try done;
      by rewrite ?(assoc_L app), ?app_nil_r.
  - exists (n + 3)%nat. rewrite (runs_app _ _ _ _ _ _ En). simpl. unfold publisherAlone. simpl.
    rewrite Ed. simpl. destruct (logPerformance _ _ _) as [[k2 l2]| |]; simpl; [|done..].
    destruct (sendMetrics _ _ _) as [[k3 l3]| |]; simpl; [|done..].
    by rewrite ?(assoc_L app), ?app_nil_r.
Qed.

(** The reader on its own, without what it logs: the callback logs too. *)
Definition readerAlone (e : collected) (s : readerPc * process * Z * nat)
    : outcome (readerPc * process * Z * nat) :=
  '(pc, p, u, n, _) ← readerStep ndebug MINRECLEN e s.1.1.1 s.1.1.2 s.1.2 s.2; Ok (pc, p, u, n).

Fixpoint readerRuns (e : collected) (n : nat) (s : readerPc * process * Z * nat)
    : outcome (readerPc * process * Z * nat) :=
  match n with O => Ok s | S n => s ← readerAlone e s; readerRuns e n s end.

Lemma readerRuns_app e n m s s' :
  readerRuns e n s = Ok s' -> readerRuns e (n + m) s = readerRuns e m s'.
Proof.
  revert s. induction n as [|n IH]; intros s; simpl; [by intros [= ->]|].
  intros (s1 & E1 & E2)%bind_ok. rewrite E1. by apply IH.
Qed.

(** The callback as SeedLink's loop takes it. *)
Definition callback (packet : DataPacketImpl) (p : process) : process * outcome unit :=
  match addPacketsFromAcquisitionCallback ndebug packet p with
  | Ok (p', _) => (p', Ok tt)
  | Throw e => (p, Throw e)
  | Undef => (p, Undef)
  end.

Lemma propagate_runs e packets p u n :
  match Client.propagate callback packets p with
  | Ok (p', _) =>
      readerRuns e (length packets) (RPropagate packets, p, u, n) = Ok (RPropagate [], p', u, n)
  | _ => readerRuns e (length packets) (RPropagate packets, p, u, n) = Undef
  end.
Proof.
  revert p. induction packets as [|x packets IH]; intros p; simpl; [done|].
  unfold callback at 1, readerAlone. simpl. unfold handOver.
  destruct (addPacketsFromAcquisitionCallback ndebug x p) as [[p1 l1]|ex|]; simpl; [apply IH| |done].
  specialize (IH p). by destruct (Client.propagate callback packets p) as [[]| |].
Qed.

Lemma callback_client x p :
  mSEEDLinkClient (callback x p).1 = mSEEDLinkClient p.
Proof.
  unfold callback. destruct (addPacketsFromAcquisitionCallback ndebug x p) as [[p1 l1]|e|] eqn:E;
    simpl; [|done..].
  assert (Hh : handOver ndebug x p = Ok (p1, l1)) by (unfold handOver; by rewrite E).
  by apply handOver_keeps in Hh as (_ & ? & _).
Qed.

Lemma propagate_client packets p p' l :
  Client.propagate callback packets p = Ok (p', l) -> mSEEDLinkClient p' = mSEEDLinkClient p.
Proof.
  revert p l. induction packets as [|x packets IH]; intros p l; simpl; [by intros [= <- _]|].
  pose proof (callback_client x p) as C. destruct (callback x p) as [p1 [[]|e|]]; simpl in C.
  - intros E. by rewrite (IH _ _ E).
  - intros ([p2 l2] & E & [= <- _])%bind_ok. by rewrite (IH _ _ E).
  - done.
Qed.

(** Every exception of the callback is logged. *)
Lemma propagate_catches packets p e : Client.propagate callback packets p <> Throw e.
Proof.
  revert p. induction packets as [|x packets IH]; intros p; simpl; [done|].
  destruct (callback x p) as [p1 [[]|e1|]]; [apply IH| |done].
  destruct (Client.propagate callback packets p1) as [[]|e'|] eqn:E; [done| |done].
  intros [= ->]. by apply (IH p1).
Qed.

(** From the head of the loop past [sl_collect]. *)
Lemma collect_runs len parse p u n s :
  Client.mKeepRunning (mSEEDLinkClient p) = true ->
  readerAlone (SLPACKET true len parse) (RUnpack len parse, p, u, n) = Ok s ->
  readerRuns (SLPACKET true len parse) 3 (RWhile, p, u, n) = Ok s.
Proof.
  intros K E.
  assert (E1 : readerAlone (SLPACKET true len parse) (RWhile, p, u, n) = Ok (RCollect, p, u, n))
    by (unfold readerAlone; simpl; by rewrite K).
  assert (E2 : readerAlone (SLPACKET true len parse) (RCollect, p, u, n) =
               Ok (RUnpack len parse, p, u, n)) by done.
  cbn [readerRuns mbind outcome_bind]. rewrite E1. cbn [mbind outcome_bind].
  rewrite E2. cbn [mbind outcome_bind]. by rewrite E.
Qed.

(** The state file. *)
Lemma stateFile_runs e (p p' : process) u n :
  mSEEDLinkClient p' = mSEEDLinkClient p ->
  let w := Client.countStateFile (Client.mkPolling (mSEEDLinkClient p) u n) in
  readerAlone e (RStateFile, p', u, n) =
    Ok (RWhile, with_client (Client.client w) p', Client.updateStateFile w, Client.savedStates w).
Proof.
  intros Ec. unfold readerAlone, Client.countStateFile. simpl. rewrite Ec.
  assert (Id' : with_client (mSEEDLinkClient p) p' = p') by (rewrite <- Ec; by destruct p').
  destruct (mUseStateFile _); [destruct (_ <? u)%Z|]; simpl; rewrite Id'; try done.
  by rewrite Nat.add_1_r.
Qed.

(** [pollStep] of SeedLink, from the head of the loop back to it or to its
    end; a pass that SeedLink says goes on for ever stays in the library. *)
Lemma pollStep_runs e p u n :
  Client.mKeepRunning (mSEEDLinkClient p) = true ->
  match Client.pollStep MINRECLEN callback e (Client.mkPolling (mSEEDLinkClient p) u n) p with
  | Some (Ok (w, p', _, goes_on)) =>
      exists m, readerRuns e m (RWhile, p, u, n) =
        Ok (if (goes_on : bool) then RWhile else RLeave, with_client (Client.client w) p',
            Client.updateStateFile w, Client.savedStates w)
  | Some (Throw _) => False
  | Some Undef => exists m, readerRuns e m (RWhile, p, u, n) = Undef
  | None => forall m, exists s', readerRuns e (2 + m) (RWhile, p, u, n) = Ok s' /\
              exists len parse, s' = (RUnpack len parse, p, u, n)
  end.
Proof.
  intros K. assert (Id : with_client (mSEEDLinkClient p) p = p) by (by destruct p).
  destruct e as [[] len parse| | | |code]; simpl.
  - destruct (miniSEEDToDataPackets MINRECLEN parse len) as [[ps|ex|]|] eqn:Em; simpl.
    + pose proof (propagate_runs (SLPACKET true len parse) ps p u n) as Pr.
      pose proof (propagate_client ps p) as Pc.
      destruct (Client.propagate callback ps p) as [[p' l]|ex|] eqn:Ep; simpl.
      * exists (3 + (length ps + 2))%nat.
        rewrite (readerRuns_app _ 3 _ _ (RPropagate ps, p, u, n));
          [|apply collect_runs; [done|]; unfold readerAlone; simpl; by rewrite Em].
        rewrite (readerRuns_app _ _ _ _ _ Pr). cbn [readerRuns].
        change (readerAlone (SLPACKET true len parse) (RPropagate [], p', u, n))
          with (Ok (A:=readerPc * process * Z * nat) (RStateFile, p', u, n)).
        cbn [mbind outcome_bind]. by rewrite (stateFile_runs _ p p' u n (Pc _ _ eq_refl)).
      * by apply propagate_catches in Ep.
      * exists (3 + length ps)%nat.
        by rewrite (readerRuns_app _ 3 _ _ (RPropagate ps, p, u, n));
          [|apply collect_runs; [done|]; unfold readerAlone; simpl; by rewrite Em].
    + exists 4%nat. rewrite (readerRuns_app _ 3 1 _ (RStateFile, p, u, n));
        [|apply collect_runs; [done|]; unfold readerAlone; simpl; by rewrite Em].
      cbn [readerRuns]. by rewrite (stateFile_runs _ p p u n eq_refl).
    + exists 3%nat. simpl. unfold readerAlone at 1. simpl. rewrite K. simpl.
      unfold readerAlone. simpl. by rewrite Em.
    + intros m. exists (RUnpack len parse, p, u, n). split; [|eauto].
      change (readerRuns (SLPACKET true len parse) (2 + m) (RWhile, p, u, n) =
              Ok (RUnpack len parse, p, u, n)).
      induction m as [|m IH]; [simpl; unfold readerAlone; simpl; by rewrite K|].
      replace (2 + S m)%nat with ((2 + m) + 1)%nat by lia.
      rewrite (readerRuns_app _ (2 + m) 1 _ _ IH).
      simpl. unfold readerAlone. simpl. by rewrite Em.
  - exists 2%nat. simpl. unfold readerAlone. simpl. rewrite K. simpl. by rewrite ?Id; unfold setConnected; rewrite ?K.
  - exists 2%nat. simpl. unfold readerAlone. simpl. rewrite K. simpl. by rewrite ?Id; unfold setConnected; rewrite ?K.
  - exists 2%nat. simpl. unfold readerAlone. simpl. rewrite K. simpl. by rewrite ?Id; unfold setConnected; rewrite ?K.
  - exists 2%nat. simpl. unfold readerAlone. simpl. rewrite K. simpl. by rewrite ?Id; unfold setConnected; rewrite ?K.
  - exists 2%nat. simpl. unfold readerAlone. simpl. rewrite K. simpl. by rewrite ?Id; unfold setConnected; rewrite ?K.
Qed.
End passes.

(** ** A run over lists *)

(** The library has a socket open. *)
#[local] Instance demoLink : Link := 3.
Definition demoStarted : Process DemoQueue :=
  match start demoBroadcaster with Ok p => p | _ => demoBroadcaster end.
Definition demoAct := act willing true 40 (J:=TinyJson.doc) (Q:=DemoQueue) demoGauges.

Definition readerTicks (e : collected) (n : nat) : list action := replicate n (AReader e).
Definition senderTicks (n : nat) : list action := replicate n (APublisher 5000000).

(** A payload of two records comes in; its packets are handed over while the
    publishing thread looks at its queue, peeks at the first and sends it. *)
Definition demoActions : list action :=
  (readerTicks (SLPACKET true 1024 demoParse) 6 ++ senderTicks 2 ++ readerTicks SLNOPACKET 3
   ++ senderTicks 3 ++ [AMain true])%list.
Definition demoSystemAt (l : list action) : system DemoQueue :=
  match actions demoAct l (begin 0 demoStarted) with Ok s => s | _ => begin 0 demoStarted end.

Lemma broadcaster_refines_relay_witness :
  thePublisher (demoSystemAt demoActions) = PLog /\
  length (queued (theProcess (demoSystemAt demoActions))) = 1%nat /\
  exists ρ, relay_ok (fun p => publishable p = true) ρ /\ length (received ρ) = 2%nat /\
    relaysB (J:=TinyJson.doc) (socketOf demoBroadcaster) (localsAt 0) 0 ρ
      (demoSystemAt demoActions).
Proof.
  assert (N : newProcess willing demoSL true defaultOptions = Ok demoBroadcaster)
    by (vm_compute; reflexivity).
  assert (St : start demoBroadcaster = Ok demoStarted) by (vm_compute; reflexivity).
  assert (E : actions (act willing true 40 (J:=TinyJson.doc) demoGauges) demoActions
                (begin 0 demoStarted) = Ok (demoSystemAt demoActions))
    by (vm_compute; reflexivity).
  split; [vm_compute; reflexivity|]. split; [vm_compute; reflexivity|].
  destruct (broadcaster_refines_relay willing true 40 demoGauges (fun _ _ => eq_refl) demoSL
              defaultOptions demoBroadcaster demoStarted 0 demoActions _ N St E)
    as (ρ & _ & O & Er & R).
  exists ρ. split; [exact O|]. split; [rewrite Er; vm_compute; reflexivity|].
  replace 0 with (removed willing true 40 (J:=TinyJson.doc) demoGauges demoActions
                    (begin 0 demoStarted)) at 2 by (vm_compute; reflexivity).
  exact R.
Defined.

(** The signal comes while a packet is queued and another to be handed over;
    the main thread then tries to go on between all other steps. *)
Definition demoEnd : list action :=
  (demoActions ++ concat (replicate 20 [APublisher 5000000; AReader SLNOPACKET; AMain false]))%list.

Lemma broadcaster_goes_down_in_order_witness :
  theMain (demoSystemAt demoEnd) = MDone /\
  thePublisher (demoSystemAt demoEnd) = PDone /\ theReader (demoSystemAt demoEnd) = RDone /\
  theQueueLives (demoSystemAt demoEnd) = false.
Proof.
  assert (St : start demoBroadcaster = Ok demoStarted) by (vm_compute; reflexivity).
  assert (E : actions (act willing true 40 (J:=TinyJson.doc) demoGauges) demoEnd
                (begin 0 demoStarted) = Ok (demoSystemAt demoEnd))
    by (vm_compute; reflexivity).
  assert (D : theMain (demoSystemAt demoEnd) = MDone) by (vm_compute; reflexivity).
  destruct (broadcaster_goes_down_in_order willing true 40 demoGauges demoBroadcaster demoStarted 0
              demoEnd _ St E) as (_ & _ & G).
  destruct (G D) as (P & R & Ql & _). auto.
Defined.

(** Round robin, with the signal from the start: every thread has its turn,
    and the state comes back once the main thread is through. *)
Definition demoTurns : list action := [APublisher 5000000; AReader SLNOPACKET; AMain true].
Definition demoSchedule : schedule (A := action) := cycle demoTurns (AMain true).

Lemma demoSchedule_turns m : In (demoSchedule m) demoTurns.
Proof. unfold demoSchedule, cycle. apply nth_In, Nat.mod_upper_bound. done. Qed.

Lemma demo_always_defined m :
  exists s, stateAt (act willing true 40 (J:=TinyJson.doc) demoGauges) demoSchedule
              (begin 0 demoStarted) m = Ok s.
Proof.
  destruct (stateAt (act willing true 40 (J:=TinyJson.doc) demoGauges) demoSchedule
              (begin 0 demoStarted) 60) as [s|e|] eqn:D;
    [|exfalso; revert D; vm_compute; discriminate..].
  apply (stateAt_periodic (act willing true 40 (J:=TinyJson.doc) demoGauges) demoSchedule
           (begin 0 demoStarted) 60 3 s); [lia|exact D|rewrite <- D; vm_compute; reflexivity|].
  intros k _. unfold demoSchedule, cycle. change (length demoTurns) with 3%nat.
  replace (k + 3)%nat with (k + 1 * 3)%nat by lia. by rewrite Nat.Div0.mod_add.
Qed.

Lemma broadcaster_shuts_down_witness :
  exists m s, stateAt (act willing true 40 (J:=TinyJson.doc) demoGauges) demoSchedule
                (begin 0 demoStarted) m = Ok s /\ theMain s = MDone.
Proof.
  assert (St : start demoBroadcaster = Ok demoStarted) by (vm_compute; reflexivity).
  pose proof (broadcaster_shuts_down willing true 40 (J:=TinyJson.doc) demoGauges demoBroadcaster
    demoStarted 0 demoSchedule 0 St ltac:(lia)) as Sh.
  assert (Quiet : forall m, sound (demoSchedule m) /\ silent (demoSchedule m)).
  { intros m. destruct (demoSchedule_turns m) as [E|[E|[E|[]]]]; rewrite <- E; split; exact I. }
  specialize (Sh (fun m => proj1 (Quiet m)) (fun m _ => proj2 (Quiet m))
    (cycle_fair isPublisher demoTurns _ 0 _ eq_refl I)
    (cycle_fair isReader demoTurns _ 1 _ eq_refl I)
    (cycle_fair signalled demoTurns _ 2 _ eq_refl eq_refl)).
  apply (eventually_defined _ _ _ _ _ demo_always_defined) in Sh as (m & s & _ & E & D).
  exists m, s. split; [exact E | exact D].
Defined.
