(* ===== verification/BroadcasterProgress.v ===== *)
(** * The broadcaster makes progress

    BroadcasterThreads runs the threads of
    broadcasts/dataPacket/seedLink/publisher.cpp and the reader of its client
    one access at a time.  Here a scheduler interleaves them for ever, the
    main thread waits, and the broadcaster is a line: the reader takes packets
    from a payload and puts them on the queue, the publishing thread takes
    them from there and sends them.  What comes in is what [sl_collect]
    returns when the reader calls it, so that it depends on the run. *)
From Stdlib Require Import ZArith Ascii String SpecFloat Lia.
From stdpp Require Import base tactics list gmap strings pretty relations.
From S2P Require Import Prelude Float64 JsonLib Interfaces.
From S2P Require Import DataPacket Broadcast SeedLink SeedLinkPublisher.
From S2P Require Import Schedules Lines BroadcasterThreads.
Import Client (mUseStateFile, collected, SLPACKET, SLTOOLARGE, SLNOPACKET, SLTERMINATE, SLOTHER).

Open Scope nat_scope.

Section progress.
Local Open Scope list_scope.
Context (env : ZmqEnv) (ndebug : bool) (MINRECLEN : Z) {J V : Type} `{JsonLib J V}.
Context {Q : Type} `{ReaderWriterQueueLaws Q DataPacketImpl}.
Context (record_ : gauge -> Z -> outcome unit) {LK : Link}.
Abbreviation process := (Process Q).
Abbreviation system := (system Q).
Abbreviation act := (act env ndebug MINRECLEN (J:=J) (Q:=Q) record_).

(** The packets of a payload, those the reader has to hand over, those on the
    queue that were not sent yet, and all of them. *)
Definition packetsOf (parse : Z -> Z -> parsed) (n : Z) : list DataPacketImpl :=
  match miniSEEDToDataPackets MINRECLEN parse n with Some (Ok packets) => packets | _ => [] end.
Definition held (pc : readerPc) : list DataPacketImpl :=
  match pc with RUnpack n parse => packetsOf parse n | _ => toHand pc end.
Definition readerSide (s : system) : list DataPacketImpl := held (theReader s).
Definition queueSide (s : system) : list DataPacketImpl :=
  aliveQ (thePublisher s) (queued (theProcess s)).
Definition insideB (s : system) : list DataPacketImpl := queueSide s ++ readerSide s.

(** What comes in with a step. *)
Definition collects (a : action) (s : system) : list DataPacketImpl :=
  match a, theReader s with
  | AReader (SLPACKET true n parse), RCollect => packetsOf parse n
  | _, _ => []
  end.

(** The main thread waits and the publishing thread is in its loop. *)
Record runningB (s : system) : Prop := mkRunningB {
  rb_main : theMain s = MWait;
  rb_flag : mKeepRunning (theProcess s) = true;
  rb_publisher : thePublisher s <> PDone;
  rb_front : frontedQ (thePublisher s) (queued (theProcess s))
}.

(** Steps to the next removal, at most. *)
Definition readerRank (pc : readerPc) : nat := match pc with RUnpack _ _ => 1 | _ => 0 end.
Definition senderRank (pc : publisherPc) : nat :=
  match pc with
  | PRemove => 8 | PLog => 7 | PMetrics _ => 6 | PWhile => 5 | PIf => 4 | PLoop _ => 3
  | PPop _ | PWarn _ => 2 | PPeek => 1 | PSend _ => 0 | PDone => 0
  end.

(** *** What a step of a thread takes *)
Ltac takes_nothing := apply takes_none; simpl; done || lia.
Ltac takes y := by apply (takes_one _ _ _ _ _ y); auto.

Lemma senderStep_takes now pc (p : process) k pc' p' k' l :
  publisherStep env (J:=J) record_ now pc p k = Ok (pc', p', k', l) ->
  mKeepRunning p = true -> pc <> PDone -> frontedQ pc (queued p) ->
  (pc' <> PDone /\ frontedQ pc' (queued p')) /\
  takes (aliveQ pc (queued p)) (aliveQ pc' (queued p')) (senderRank pc) (senderRank pc') [].
Proof.
  intros E K D F. unfold queued in *.
  destruct pc as [| |n|n|n| |x| | |now'|]; simpl in E, F.
  - rewrite K in E. injection E as <- <- <- <-. split; [done|]. takes_nothing.
  - injection E as <- <- <- <-. destruct (overfull _); (split; [done|]); takes_nothing.
  - injection E as <- <- <- <-. destruct (overfull _); (split; [done|]); takes_nothing.
  - pose proof (rq_pop_elems (mQueue p)) as [Er Ep].
    destruct (rq_pop _) as [popped q]. injection E as <- <- <- <-. simpl in *. rewrite Er.
    destruct (rq_elems (mQueue p)) as [|x rest]; subst popped; (split; [done|]);
      [takes_nothing|]. simpl. rewrite drop_0. takes x.
  - injection E as <- <- <- <-. split; [done|]. takes_nothing.
  - unfold rq_peek in E. destruct (rq_elems (mQueue p)) as [|x rest] eqn:Eq;
      injection E as <- <- <- <-; rewrite Eq; (split; [done|]); takes_nothing.
  - destruct (rq_elems (mQueue p)) as [|y rest] eqn:Eq; [done|].
    destruct (Publisher.send env x (mPacketPublisher p)) as [pub|e|]; [| |done];
      injection E as <- <- <- <-; simpl; rewrite Eq; (split; [done|]); simpl; rewrite drop_0; takes y.
  - pose proof (rq_pop_elems (mQueue p)) as [Er Ep].
    destruct (rq_pop _) as [popped q]. injection E as <- <- <- <-. simpl in *. rewrite Er.
    split; [done|]. takes_nothing.
  - apply bind_ok in E as ([k1 l1] & _ & [= <- <- <- <-]). split; [done|]. takes_nothing.
  - apply bind_ok in E as ([k1 l1] & _ & [= <- <- <- <-]). split; [done|]. takes_nothing.
  - done.
Qed.

(** What the callback does to the queue. *)
Lemma handOver_queues x (p p' : process) l :
  handOver ndebug x p = Ok (p', l) ->
  exists on, queued p' = queued p ++ on /\ (on = [] \/ on = [x]).
Proof.
  unfold handOver.
  destruct (addPacketsFromAcquisitionCallback ndebug x p) as [[p1 l1]|e|] eqn:Ea; [| |done].
  - intros [= -> ->]. destruct (add_inv _ _ _ _ _ Ea) as (_ & _ & Eq). unfold queued.
    destruct Eq as [-> | ->]; [exists []; rewrite app_nil_r|exists [x]]; (split; [done|]); auto.
  - intros [= <- <-]. exists []. rewrite app_nil_r. auto.
Qed.

(** Where the reader holds packets it is nearer to the next one; where it
    holds none, more may come. *)
Lemma readerStep_takes e pc (p : process) u n pc' p' u' n' l :
  readerStep ndebug MINRECLEN e pc p u n = Ok (pc', p', u', n', l) ->
  (exists on, takes (held pc) (held pc') (readerRank pc) (readerRank pc') on /\
     queued p' = queued p ++ on) \/
  (exists len parse, e = SLPACKET true len parse /\ pc = RCollect /\ held pc = [] /\
     held pc' = packetsOf parse len /\ queued p' = queued p).
Proof.
  assert (Same : held pc = [] -> held pc' = [] -> queued p' = queued p ->
    exists on, takes (held pc) (held pc') (readerRank pc) (readerRank pc') on /\
     queued p' = queued p ++ on).
  { intros -> -> ->. exists []. rewrite app_nil_r. split; [|done]. by apply takes_none. }
  intros E. destruct pc as [| | | |len parse|[|x rest]| | |]; simpl in E;
    try (injection E as <- <- <- <- <-; left; by apply Same).
  - injection E as <- <- <- <- <-. left. by apply Same; destruct (Client.mKeepRunning _).
  - destruct e as [[] len parse| | | |]; injection E as <- <- <- <- <-;
      [right; eauto 10|left; by apply Same..].
  - left. destruct (miniSEEDToDataPackets MINRECLEN parse len) as [[ps|x|]|] eqn:Em;
      [| |done|]; injection E as <- <- <- <- <-; simpl in *; unfold packetsOf in *;
      rewrite Em in *; [|by apply Same..].
    exists []. rewrite app_nil_r. split; [|done]. takes_nothing.
  - left. apply bind_ok in E as ([p1 l1] & E & [= <- <- <- <- <-]).
    apply handOver_queues in E as (on & Eq & O). exists on. split; [|done].
    by apply (takes_one _ _ _ _ _ x).
  - left. destruct (mUseStateFile _); [destruct (_ <? u)%Z|]; injection E as <- <- <- <- <-;
      by apply Same.
Qed.

(** *** The broadcaster is a line *)
Context (σ : schedule (A := action)) (s0 : system).
Hypothesis no_signal : forall m, ~ signalled (σ m).

(** What came in at a time of the run. *)
Definition cameIn (m : nat) : list DataPacketImpl :=
  match stateAt act σ s0 m with Ok s => collects (σ m) s | _ => [] end.

Lemma broadcaster_line m (s s' : system) :
  stateAt act σ s0 m = Ok s -> runningB s -> act (σ m) s = Ok s' ->
  runningB s' /\
  moved σ readerSide queueSide (fun s => readerRank (theReader s))
    (fun s => senderRank (thePublisher s)) isReader isPublisher cameIn m s s'.
Proof.
  intros At [M K D F] E. pose proof (no_signal m) as Ns.
  assert (C : cameIn m = collects (σ m) s) by (unfold cameIn; by rewrite At).
  destruct (σ m) as [now|e|b] eqn:Ea; simpl in E.
  - apply bind_ok in E as (_ & _ & ([[[pc p] k] l] & E & [= <-])%bind_ok).
    destruct (publisherStep_keeps _ _ _ _ _ _ _ _ _ _ E) as (K' & _ & _).
    apply senderStep_takes in E as ((D' & F') & T); [|done..].
    split; [split; simpl; congruence|].
    apply moved_second; simpl; rewrite ?Ea; try (done || by intros []).
  - apply bind_ok in E as (_ & _ & ([[[[pc p] u] n] l] & E & [= <-])%bind_ok).
    destruct (readerStep_keeps _ _ _ _ _ _ _ _ _ _ _ _ E) as (K' & _ & _).
    destruct (readerStep_takes _ _ _ _ _ _ _ _ _ _ E)
      as [(on & T & Eq)|(len & parse & -> & Pc & He & Hc & Eq)].
    + split.
      * split; simpl; try congruence. rewrite Eq.
        destruct T as [_ -> _|x _ [-> | ->]]; rewrite ?app_nil_r; [done..|by apply frontedQ_app].
      * apply moved_first with on; simpl; rewrite ?Ea; try (done || by intros []).
        unfold queueSide. simpl. rewrite Eq.
        destruct T as [_ -> _|x _ [-> | ->]]; rewrite ?app_nil_r; [done..|by apply aliveQ_app].
    + split; [split; simpl; congruence|].
      apply line_stays with (packetsOf parse len); unfold readerSide, queueSide; simpl.
      * by rewrite Eq.
      * by rewrite He, Hc.
      * rewrite C. simpl. by rewrite Pc.
      * by rewrite He.
      * rewrite Ea. by split.
  - injection E as <-. destruct b; [by destruct Ns|]. unfold mainStep. rewrite M.
    split; [by split|]. apply moved_arrives with []; rewrite ?Ea, ?app_nil_r; try (done || by intros []).
    apply sublist_nil_l.
Qed.

Lemma start_runningB (p0 p : process) now : start p0 = Ok p -> runningB (begin now p).
Proof.
  unfold start. destruct (Client.start _) as [c r]. intros (_ & _ & [= <-])%bind_ok. by split.
Qed.
End progress.

(** C26: while no signal comes, the broadcaster makes progress: from [start]
    on, under every scheduler that gives the reader and the publishing thread
    a turn again and again, the packets that are inside at a time - in the
    payload being unpacked, waiting to be handed over, on the queue - have
    left it at a later one, however many packets the server goes on sending:
    what is inside then came in since (or else the run has stopped in an
    exception or in undefined behaviour).  A payload whose unpacking fails or
    never ends holds none. *)
Theorem broadcaster_makes_progress (env : ZmqEnv) (ndebug : bool) (MINRECLEN : Z)
    {J V : Type} `{JsonLib J V} {Q : Type} `{ReaderWriterQueueLaws Q DataPacketImpl}
    (record_ : gauge -> Z -> outcome unit) {LK : Link} (p0 p : Process Q) (now : Z) σ n :
  start p0 = Ok p -> (forall m, ~ signalled (σ m)) -> fair isReader σ -> fair isPublisher σ ->
  eventually (act env ndebug MINRECLEN (J:=J) record_) σ (begin now p) n (fun m s =>
    insideB MINRECLEN s `sublist_of`
    arrivedIn (cameIn env ndebug MINRECLEN (J:=J) record_ σ (begin now p)) n m).
Proof.
  intros Es Ns Fr Fp.
  apply (line_progress _ σ (begin now p) (readerSide MINRECLEN) queueSide
    (fun s => readerRank (theReader s)) (fun s => senderRank (thePublisher s)) 9
    isReader isPublisher _ runningB); try done.
  - intros s. destruct (theReader s); simpl; lia.
  - intros s. destruct (thePublisher s); simpl; lia.
  - by apply broadcaster_line.
  - by eapply start_runningB.
Qed.

(** ** A schedule that never ends

    The reader gets a payload of two packets, then the threads take turns for
    ever and nothing more comes. *)
Definition demoTurns : list action := [AReader SLNOPACKET; APublisher 5000000; AMain false].
Definition demoSchedule : schedule (A := action) :=
  after 4 (AReader (SLPACKET true 1024 demoParse)) (cycle demoTurns (AMain false)).
#[local] Instance demoLink : Link := 3%Z.
Abbreviation demoAct := (act willing true 40 (J:=TinyJson.doc) (Q:=DemoQueue) demoGauges).
Abbreviation demoBegin := (begin 0 demoStarted).

Lemma demoSchedule_cases m :
  m < 4 /\ demoSchedule m = AReader (SLPACKET true 1024 demoParse) \/
  4 <= m /\ In (demoSchedule m) demoTurns.
Proof.
  destruct (decide (m < 4)) as [L|L]; [left|right; split; [lia|]].
  - split; [done|]. unfold demoSchedule, after. by rewrite decide_True.
  - unfold demoSchedule. rewrite after_turn by lia. unfold cycle. apply nth_In, Nat.mod_upper_bound. done.
Qed.

Lemma demo_run_defined m : exists s, stateAt demoAct demoSchedule demoBegin m = Ok s.
Proof.
  destruct (stateAt demoAct demoSchedule demoBegin 60) as [s|e|] eqn:D;
    [|exfalso; revert D; vm_compute; discriminate..].
  apply (stateAt_periodic demoAct demoSchedule demoBegin 60 30 s);
    [lia|exact D|rewrite <- D; vm_compute; reflexivity|].
  intros k L. unfold demoSchedule. rewrite !after_turn by lia. unfold cycle. change (length demoTurns) with 3.
  replace (k + 30) with (k + 10 * 3) by lia. by rewrite Nat.Div0.mod_add.
Qed.

Lemma demo_nothing_more n m :
  4 <= n -> arrivedIn (cameIn willing true 40 (J:=TinyJson.doc) demoGauges demoSchedule demoBegin) n m = [].
Proof.
  unfold arrivedIn. generalize (m - n). intros k. revert n. induction k as [|k IH]; intros n L; [done|].
  cbn [seq fmap list_fmap concat]. rewrite IH by lia. rewrite app_nil_r. unfold cameIn.
  destruct (stateAt _ _ _ n) as [x| |]; [|done..].
  destruct (demoSchedule_cases n) as [[L' _]|[_ [E|[E|[E|[]]]]]]; [lia|rewrite <- E..];
    unfold collects; by destruct (theReader x).
Qed.

(** The two packets are inside after they came in, and are gone some time
    later. *)
Lemma broadcaster_makes_progress_witness :
  (exists s, stateAt demoAct demoSchedule demoBegin 4 = Ok s /\ length (insideB 40 s) = 2) /\
  exists m s, 4 <= m /\ stateAt demoAct demoSchedule demoBegin m = Ok s /\ insideB 40 s = [].
Proof.
  split.
  { destruct (demo_run_defined 4) as [s E]. exists s. split; [exact E|].
    assert (G : match stateAt demoAct demoSchedule demoBegin 4 with
                | Ok s => length (insideB 40 s) | _ => 0 end = 2) by (vm_compute; reflexivity).
    rewrite E in G. exact G. }
  assert (St : start demoBroadcaster = Ok demoStarted) by (vm_compute; reflexivity).
  assert (Ns : forall m, ~ signalled (demoSchedule m)).
  { intros m S. unfold signalled in S.
    destruct (demoSchedule_cases m) as [[_ E]|[_ [E|[E|[E|[]]]]]]; rewrite S in E; discriminate E. }
  pose proof (broadcaster_makes_progress willing true 40 (J:=TinyJson.doc) demoGauges demoBroadcaster
    demoStarted 0 demoSchedule 4 St Ns (after_fair _ _ _ _ (cycle_fair isReader demoTurns _ 0 _ eq_refl I))
    (after_fair _ _ _ _ (cycle_fair isPublisher demoTurns _ 1 _ eq_refl I))) as Ev.
  apply (eventually_defined _ _ _ _ _ demo_run_defined) in Ev as (m & s & L & E & D).
  exists m, s. split; [exact L|]. split; [exact E|].
  rewrite demo_nothing_more in D by lia. apply sublist_nil_r in D. exact D.
Defined.
