(* ===== verification/ServiceThreads.v ===== *)
(** * Stopping the authentication service

    [start], [stop] and the destructor of messaging/zeromq/authentication/
    service.cpp run in one thread, [runZAPThread] in another; they share the
    flags [mAPIStarted] and [mKeepRunning], and a pair of sockets.  Module
    Service of Authentication takes each as one step.  Here every access to a
    flag or a socket is a step, [poll] and [send] block as ZeroMQ documents
    it, and the two threads interleave.  A stop that reads [mAPIStarted]
    before the thread sets it sends no TERMINATE: it may wait for the next
    ZAP request, and it leaves the flag set, so that the next stop, that of
    the destructor, may wait for ever. *)
From Stdlib Require Import ZArith Ascii String Lia.
From stdpp Require Import base tactics list strings pretty relations.
From S2P Require Import Prelude Interfaces Broadcast Authentication.

Open Scope string_scope.
Open Scope Z_scope.

(** ** What ZeroMQ does when there is nothing to do

    [send_proceeds] tells whether a blocking send on a PAIR socket returns,
    given whether a peer is connected; [poll_returns] whether a poll without
    time out does, given which of the two sockets has a message.
    [api_connects] and [zap_binds] are what becomes of the two calls by which
    the thread opens its sockets: both can throw.  By its documentation an
    inproc connection to an end point that is bound in the same context
    succeeds, and so does the binding of an inproc end point that nobody else
    holds: the constructor has bound the first, and the process gives each
    service a context of its own. *)
Class Blocking := {
  send_proceeds : bool -> bool;
  poll_returns : bool -> bool -> bool;
  api_connects : outcome unit;
  zap_binds : outcome unit
}.
Class BlockingLaws `{Blocking} := {
  send_proceeds_eq connected : send_proceeds connected = connected;
  poll_returns_eq api zap : poll_returns api zap = api || zap;
  api_connects_eq : api_connects = Ok tt;
  zap_binds_eq : zap_binds = Ok tt
}.

Module Documented.
#[global] Instance blocking : Blocking :=
  {| send_proceeds connected := connected; poll_returns api zap := api || zap;
     api_connects := Ok tt; zap_binds := Ok tt |}.
#[global] Instance blocking_laws : BlockingLaws.
Proof. by split. Qed.
End Documented.

(** ** The two threads *)

(** Where [runZAPThread] is: before [connect], before the flag is set, before
    the ZAP socket is bound, at the head of the loop, before [poll], with
    the events of the poll, between the two stores of TERMINATE, with the ZAP
    event, before the sockets are closed, past the end. *)
Inductive threadPc :=
  | TConnect | TFlag | TBind | TWhile | TPoll | TApi (api zap : bool) | TTerminate (zap : bool)
  | TZap (zap : bool) | TClose | TDone.

(** Where [stop] is: before the test of [mAPIStarted], before [send], before
    each store, before [join]; the flag is whether TERMINATE was sent. *)
Inductive stopPc :=
  | STest | SSend | SClear | SLower (sent : bool) | SJoin (sent : bool) | SReturned.

#[export] Instance threadPc_eq_dec : EqDecision threadPc.
Proof. solve_decision. Defined.
#[export] Instance stopPc_eq_dec : EqDecision stopPc.
Proof. solve_decision. Defined.

Record state := mkState {
  service : Service.ServiceImpl;
  thread : threadPc;
  main : stopPc;
  apiPipe : list (list string);        (* sent by [stop], not yet received *)
  zap : list (list string);            (* requests not yet received *)
  replies : list (list string)
}.

Definition with_thread (pc : threadPc) (s : state) : state :=
  mkState (service s) pc (main s) (apiPipe s) (zap s) (replies s).
Definition with_main (pc : stopPc) (s : state) : state :=
  mkState (service s) (thread s) pc (apiPipe s) (zap s) (replies s).
Definition with_service (p : Service.ServiceImpl) (s : state) : state :=
  mkState p (thread s) (main s) (apiPipe s) (zap s) (replies s).
Definition with_api (l : list (list string)) (s : state) : state :=
  mkState (service s) (thread s) (main s) l (zap s) (replies s).
Definition with_zap (l r : list (list string)) (s : state) : state :=
  mkState (service s) (thread s) (main s) (apiPipe s) l (replies s ++ r)%list.

Definition setStarted (b : bool) (s : state) : state :=
  with_service (Service.with_flags b (Service.mKeepRunning (service s)) (service s)) s.
Definition setKeepRunning (b : bool) (s : state) : state :=
  with_service (Service.with_flags (Service.mAPIStarted (service s)) b (service s)) s.
Definition joined (s : state) : state :=
  let p := service s in
  with_service (Service.mk (Service.mName p) (Service.mAuthenticator p) (Service.mAPIPipe p)
                  false (Service.mAPIStarted p) (Service.mKeepRunning p)) s.

(** The thread's end of the pair of sockets is open. *)
Definition connected (pc : threadPc) : bool :=
  match pc with TConnect | TDone => false | _ => true end.

Section steps.
Context `{Blocking} (ndebug : bool).

(** A step of the thread; [None] while it blocks.  An exception ends the
    program, as the thread does not catch it: of a reply, or of a socket that
    cannot be opened.  The empty message the thread sends to the API pipe once
    the ZAP socket is bound is never received. *)
Definition threadStep (s : state) : outcome (option state) :=
  match thread s with
  | TConnect =>
      Publisher.rethrow "Failed to connect API pipe.  ZMQ failed with " api_connects;;
      Ok (Some (with_thread TFlag s))
  | TFlag => Ok (Some (with_thread TBind (setStarted true s)))
  | TBind => zap_binds;; Ok (Some (with_thread TWhile s))
  | TWhile =>
      Ok (Some (with_thread (if Service.mKeepRunning (service s) then TPoll else TClose) s))
  | TPoll =>
      let a := negb (bool_decide (apiPipe s = [])) in
      let z := negb (bool_decide (zap s = [])) in
      Ok (if poll_returns a z then Some (with_thread (TApi a z) s) else None)
  | TApi false z => Ok (Some (with_thread (TZap z) s))
  | TApi true z =>
      match apiPipe s with
      | [] | [] :: _ => Ok (Some (with_thread (TZap z) (with_api (drop 1 (apiPipe s)) s)))
      | (command :: _) :: l =>
          Ok (Some (if bool_decide (command = "TERMINATE")
                    then with_thread (TTerminate z) (setKeepRunning false (with_api l s))
                    else with_thread (TZap z) (with_api l s)))
      end
  | TTerminate z => Ok (Some (with_thread (TZap z) (setStarted false s)))
  | TZap false => Ok (Some (with_thread TWhile s))
  | TZap true =>
      match zap s with
      | [] => Ok (Some (with_thread TWhile s))
      | request :: l =>
          if negb (bool_decide (request = [])) && Service.mKeepRunning (service s) then
            reply ← Service.zapReply ndebug (service s) request;
            Ok (Some (with_thread TWhile (with_zap l [reply] s)))
          else Ok (Some (with_thread TWhile (with_zap l [] s)))
      end
  | TClose => Ok (Some (with_thread TDone s))
  | TDone => Ok None
  end.

(** A step of [stop]. *)
Definition stopStep (s : state) : option state :=
  match main s with
  | STest =>
      Some (with_main (if Service.mAPIStarted (service s) then SSend else SLower false) s)
  | SSend =>
      if send_proceeds (connected (thread s))
      then Some (with_main SClear (with_api (apiPipe s ++ [["TERMINATE"]])%list s)) else None
  | SClear => Some (with_main (SLower true) (setStarted false s))
  | SLower b => Some (with_main (SJoin b) (setKeepRunning false s))
  | SJoin _ =>
      if Service.threadRunning (service s) then
        if bool_decide (thread s = TDone) then Some (with_main SReturned (joined s)) else None
      else Some (with_main SReturned s)
  | SReturned => None
  end.

(** The thread or [stop] makes a step, a ZAP request arrives, or the
    destructor calls [stop] again. *)
Inductive step : state -> state -> Prop :=
  | step_thread s s' : threadStep s = Ok (Some s') -> step s s'
  | step_stop s s' : stopStep s = Some s' -> step s s'
  | step_request s request : step s (with_zap (zap s ++ [request])%list [] s)
  | step_destructor s : main s = SReturned -> step s (with_main STest s).

(** [start] has just made the thread, and [stop] is called. *)
Definition initial (p : Service.ServiceImpl) : state :=
  mkState (Service.mk (Service.mName p) (Service.mAuthenticator p) (Service.mAPIPipe p)
             true false true) TConnect STest [] [] [].

Definition reachable (p : Service.ServiceImpl) (s : state) : Prop := rtc step (initial p) s.

(** A socket that cannot be opened ends the program: nobody catches the
    exception. *)
Lemma thread_sockets_fail e s :
  (api_connects = Throw e -> thread s = TConnect ->
   threadStep s = Throw (RuntimeError ("Failed to connect API pipe.  ZMQ failed with "
                                       +:+ what e))) /\
  (zap_binds = Throw e -> thread s = TBind -> threadStep s = Throw e).
Proof. split; intros E T; unfold threadStep; by rewrite T, E. Qed.

(** The thread on its own, for [n] steps or until it blocks. *)
Fixpoint threadRun (n : nat) (s : state) : outcome state :=
  match n with
  | O => Ok s
  | S n =>
      r ← threadStep s;
      match r with Some s' => threadRun n s' | None => Ok s end
  end.
End steps.

(** ** What holds at every point *)
Definition past (pc : threadPc) : bool :=
  match pc with TConnect | TFlag => false | _ => true end.

(** No TERMINATE is on its way, and none was received. *)
Definition undisturbed (s : state) : Prop :=
  apiPipe s = [] /\
  match thread s with TTerminate _ => False | _ => True end /\
  (past (thread s) = true <-> Service.mAPIStarted (service s) = true) /\
  (Service.mKeepRunning (service s) = true -> thread s <> TClose /\ thread s <> TDone).

(** TERMINATE waits to be received, or the thread has seen it. *)
Definition coming (s : state) : Prop :=
  past (thread s) = true /\
  (apiPipe s <> [] \/ (Service.mKeepRunning (service s) = false /\ thread s <> TPoll)).

Definition stopping (s : state) : Prop :=
  let keep := Service.mKeepRunning (service s) in
  let started := Service.mAPIStarted (service s) in
  match main s with
  | STest => undisturbed s /\ keep = true
  | SSend => undisturbed s /\ keep = true /\ past (thread s) = true
  | SClear => coming s
  | SLower true => coming s /\ started = false
  | SJoin true => coming s /\ started = false /\ keep = false
  | SLower false => undisturbed s
  | SJoin false => undisturbed s /\ keep = false
  | SReturned => False
  end.

Record state_ok (s : state) : Prop := mkStateOk {
  so_pipe : Forall (fun m => m = ["TERMINATE"]) (apiPipe s);
  so_stop : if Service.threadRunning (service s) then stopping s
            else thread s = TDone /\ Service.mKeepRunning (service s) = false
}.

Section invariant.
Context `{BlockingLaws} (ndebug : bool).

Lemma state_ok_initial p : state_ok (initial p).
Proof. by split; simpl. Qed.

Lemma Forall_drop1 {A} (P : A -> Prop) (l : list A) : Forall P l -> Forall P (drop 1 l).
Proof. apply Forall_drop. Qed.

(** A step of the thread keeps the invariants of [stop]. *)
Lemma stopping_thread s s' :
  Forall (fun m => m = ["TERMINATE"]) (apiPipe s) ->
  threadStep ndebug s = Ok (Some s') ->
  (undisturbed s -> undisturbed s') /\ (coming s -> coming s') /\
  main s' = main s /\ Service.threadRunning (service s') = Service.threadRunning (service s) /\
  (past (thread s) = true -> past (thread s') = true) /\
  (Service.mAPIStarted (service s') = true ->
   Service.mAPIStarted (service s) = true \/ past (thread s) = false) /\
  (Service.mKeepRunning (service s') = true -> Service.mKeepRunning (service s) = true) /\
  (undisturbed s -> Service.mKeepRunning (service s') = Service.mKeepRunning (service s)) /\
  Forall (fun m => m = ["TERMINATE"]) (apiPipe s').
Proof.
  intros P E. unfold undisturbed, coming, threadStep in *.
  destruct s as [[nm au pp run st kp] pc mn api zp rs]. simpl in *.
  destruct pc as [| | | | |[] z|z|[]| |]; simpl in *.
  - apply bind_ok in E as ([] & _ & [= <-]). simpl. naive_solver.
  - injection E as <-. simpl. naive_solver.
  - apply bind_ok in E as ([] & _ & [= <-]). simpl. naive_solver.
  - injection E as <-. simpl. destruct kp; simpl; naive_solver.
  - destruct (poll_returns _ _); [|done]. injection E as <-. simpl. naive_solver.
  - destruct api as [|m api]; [injection E as <-; simpl; naive_solver|].
    apply Forall_cons in P as [-> P]. simpl in E. injection E as <-. simpl. naive_solver.
  - injection E as <-. simpl. naive_solver.
  - injection E as <-. simpl. naive_solver.
  - destruct zp as [|r zp]; [injection E as <-; simpl; naive_solver|].
    destruct (negb _ && kp); [apply bind_ok in E as (y & _ & E)|];
      injection E as <-; simpl; naive_solver.
  - injection E as <-. simpl. naive_solver.
  - injection E as <-. simpl. naive_solver.
  - done.
Qed.

Lemma state_ok_thread s s' : threadStep ndebug s = Ok (Some s') -> state_ok s -> state_ok s'.
Proof.
  intros E [P S].
  destruct (stopping_thread s s' P E) as (U & Cm & Em & Er & Pa & Fl & K & Ke & P').
  split; [done|]. rewrite Er. destruct (Service.threadRunning (service s)).
  - assert (St' : coming s -> Service.mAPIStarted (service s) = false ->
                  Service.mAPIStarted (service s') = false).
    { intros [Pt _] S0. destruct (Service.mAPIStarted (service s')) eqn:F; [|done].
      destruct (Fl eq_refl); congruence. }
    assert (Kp' : Service.mKeepRunning (service s) = false ->
                  Service.mKeepRunning (service s') = false).
    { intros K0. destruct (Service.mKeepRunning (service s')) eqn:F; [|done]. rewrite <- K0. symmetry. auto. }
    unfold stopping in *. rewrite Em. destruct (main s) as [| | |[]|[]|].
    + destruct S as [S1 S2]. rewrite Ke by done. auto.
    + destruct S as (S1 & S2 & S3). rewrite Ke by done. auto.
    + auto.
    + destruct S as [S1 S2]. auto.
    + auto.
    + destruct S as (S1 & S2 & S3). auto.
    + destruct S as [S1 S2]. auto.
    + done.
  - destruct S as [S1 S2]. unfold threadStep in E. by rewrite S1 in E.
Qed.

Lemma state_ok_stop s s' : stopStep s = Some s' -> state_ok s -> state_ok s'.
Proof.
  intros E [P S].
  unfold stopStep in E. destruct s as [[nm au pp run st kp] pc mn api zp rs].
  unfold stopping, undisturbed, coming in *. simpl in *.
  destruct mn as [| | |[]|[]|]; simpl in E.
  - injection E as <-. split; [done|]. simpl. destruct run; [|done].
    unfold stopping, undisturbed. simpl. destruct st; simpl; [|naive_solver].
    destruct pc; naive_solver.
  - destruct (send_proceeds (connected pc)); [|done]. injection E as <-. split; simpl.
    { apply Forall_app. split; [done|]. by constructor. }
    destruct run; [|done]. unfold stopping, coming. simpl. destruct api; naive_solver.
  - injection E as <-. split; [done|]. simpl. destruct run; [|done]. unfold stopping. simpl. done.
  - injection E as <-. split; [done|]. simpl. destruct run; [|naive_solver].
    unfold stopping, coming in *. simpl. naive_solver.
  - injection E as <-. split; [done|]. simpl. destruct run; [|naive_solver].
    unfold stopping, undisturbed in *. simpl. naive_solver.
  - destruct run; [|injection E as <-; by split].
    destruct (bool_decide_reflect (pc = TDone)); [|done]. injection E as <-. split; [done|].
    simpl. naive_solver.
  - destruct run; [|injection E as <-; by split].
    destruct (bool_decide_reflect (pc = TDone)); [|done]. injection E as <-. split; [done|].
    simpl. naive_solver.
  - done.
Qed.

Lemma state_ok_step s s' : step ndebug s s' -> state_ok s -> state_ok s'.
Proof.
  intros St I. destruct St as [s s' E|s s' E|s request|s Er];
    [by eapply state_ok_thread|by eapply state_ok_stop|destruct I as [P S]..].
  - split; [done|]. destruct s as [[nm au pp run st kp] pc mn api zp rs]. exact S.
  - split; [done|]. destruct s as [[nm au pp run st kp] pc mn api zp rs]. simpl in *. subst mn.
    by destruct run.
Qed.

Lemma reachable_ok p s : reachable ndebug p s -> state_ok s.
Proof.
  intros R. assert (G : forall a b, rtc (step ndebug) a b -> state_ok a -> state_ok b).
  { induction 1; eauto using state_ok_step. }
  eapply G; [exact R|]. apply state_ok_initial.
Qed.
End invariant.

(** ** When [stop] returns *)
Section stopping.
Context `{BlockingLaws} (ndebug : bool).

Lemma threadRun_steps n s s' :
  threadRun ndebug n s = Ok s' ->
  rtc (step ndebug) s s' /\ main s' = main s /\
  Service.threadRunning (service s') = Service.threadRunning (service s).
Proof.
  revert s. induction n as [|n IH]; intros s; simpl.
  - by intros [= <-].
  - intros ([s1|] & E & E2)%bind_ok; [|by injection E2 as <-].
    destruct (IH s1 E2) as (R & M & J). split; [eapply rtc_l; [by apply step_thread|done]|].
    rewrite M, J. clear -E. unfold threadStep in E.
    destruct s as [[nm au pp run st kp] [| | | | |[] z|z|[]| |] mn api zp rs]; simpl in *;
      try (by injection E as <-); try done.
    + by apply bind_ok in E as ([] & _ & [= <-]).
    + by apply bind_ok in E as ([] & _ & [= <-]).
    + destruct (poll_returns _ _); [by injection E as <-|done].
    + destruct api as [|[|c m] api]; [by injection E as <-..|].
      destruct (bool_decide _); by injection E as <-.
    + destruct zp as [|r zp]; [by injection E as <-|].
      destruct (negb _ && kp); [apply bind_ok in E as (y & _ & E)|]; by injection E as <-.
Qed.

(** With the flag down the thread ends, or waits in [poll]. *)
Lemma threadRun_ends s :
  Service.mKeepRunning (service s) = false ->
  Forall (fun m => m = ["TERMINATE"]) (apiPipe s) ->
  exists s', threadRun ndebug 8 s = Ok s' /\ replies s' = replies s /\
    (thread s' = TDone \/ (thread s' = TPoll /\ apiPipe s' = [] /\ zap s' = [] /\ s' = s)).
Proof.
  intros K P. destruct s as [[nm au pp run st kp] pc mn api zp rs]. simpl in K, P. subst kp.
  assert (Z : forall b mn api zp st, exists s',
    threadRun ndebug 4 (mkState (Service.mk nm au pp run st false) (TZap b) mn api zp rs) = Ok s' /\
    replies s' = rs /\ thread s' = TDone).
  { intros b mn' api' [|r zp'] st'; destruct b; cbn; rewrite ?andb_false_r; cbn;
      (eexists; split; [reflexivity|split; [simpl; rewrite ?app_nil_r; done|done]]). }
  assert (More : forall n m s s', threadRun ndebug n s = Ok s' -> thread s' = TDone ->
                   threadRun ndebug (n + m) s = Ok s').
  { induction n as [|n IH]; intros m s s'; simpl.
    - intros [= <-] D. destruct m; [done|]. simpl. unfold threadStep. by rewrite D.
    - intros ([s1|] & E & E2)%bind_ok D; rewrite E; simpl; [by apply IH|done]. }
  assert (Zm : forall m b mn api zp st, exists s',
    threadRun ndebug (4 + m) (mkState (Service.mk nm au pp run st false) (TZap b) mn api zp rs) = Ok s' /\
    replies s' = rs /\ thread s' = TDone).
  { intros m b mn' api' zp' st'. destruct (Z b mn' api' zp' st') as (s' & E & R & D).
    exists s'. split; [by apply More|done]. }
  destruct pc as [| | | | |[] z|z|z| |].
  - eexists. cbn. rewrite api_connects_eq. cbn. rewrite zap_binds_eq. cbn. split; [reflexivity|]. auto.
  - eexists. cbn. rewrite zap_binds_eq. cbn. split; [reflexivity|]. auto.
  - eexists. cbn. rewrite zap_binds_eq. cbn. split; [reflexivity|]. auto.
  - eexists. split; [reflexivity|]. auto.
  - destruct api as [|m api].
    + destruct zp as [|r zp].
      * eexists. cbn [threadRun threadStep thread mbind outcome_bind]. rewrite poll_returns_eq.
        simpl. split; [reflexivity|]. auto 6.
      * destruct (Zm 2%nat true mn [] (r :: zp) st) as (s' & E & R & D). exists s'.
        split; [|auto]. change 8%nat with (S (S (4 + 2))).
        cbn [threadRun threadStep thread mbind outcome_bind]. rewrite poll_returns_eq. exact E.
    + apply Forall_cons in P as [-> P].
      destruct (Zm 1%nat (negb (bool_decide (zp = []))) mn api zp false) as (s' & E & R & D).
      exists s'. split; [|auto]. change 8%nat with (S (S (S (4 + 1)))).
      cbn [threadRun threadStep thread mbind outcome_bind]. rewrite poll_returns_eq. exact E.
  - destruct api as [|m api].
    + destruct (Zm 3%nat z mn [] zp st) as (s' & E & R & D). exists s'. split; [exact E|auto].
    + apply Forall_cons in P as [-> P].
      destruct (Zm 2%nat z mn api zp false) as (s' & E & R & D). exists s'. split; [exact E|auto].
  - destruct (Zm 3%nat z mn api zp st) as (s' & E & R & D). exists s'. split; [exact E|auto].
  - destruct (Zm 3%nat z mn api zp false) as (s' & E & R & D). exists s'. split; [exact E|auto].
  - destruct (Zm 4%nat z mn api zp st) as (s' & E & R & D). exists s'. split; [exact E|auto].
  - eexists. split; [reflexivity|]. auto.
  - eexists. split; [reflexivity|]. auto.
Qed.

(** C31: [stop], called at any moment after [start], finds its TERMINATE
    accepted; and once it joins, the thread has at most eight steps left,
    unless [stop] read [mAPIStarted] before the thread set it and the thread
    had already read [mKeepRunning]: then both wait until a ZAP request
    comes, which ends the thread and is never answered.  After the thread
    the flag [mAPIStarted] is down if TERMINATE was sent, and up if not.  The
    two sockets of the thread are assumed to open, as ZeroMQ documents it of
    end points in the memory of the process. *)
Theorem service_stop p s :
  reachable ndebug p s -> Service.threadRunning (service s) = true ->
  (main s = SSend -> is_Some (stopStep s)) /\
  forall told, main s = SJoin told ->
    exists s', threadRun ndebug 8 s = Ok s' /\ replies s' = replies s /\
      ((thread s' = TDone /\ stopStep s' = Some (with_main SReturned (joined s')) /\
        Service.mAPIStarted (service s') = negb told) \/
       (told = false /\ s' = s /\ thread s = TPoll /\
        threadStep ndebug s = Ok None /\ stopStep s = None /\
        forall request, exists s'', 
          threadRun ndebug 8 (with_zap (zap s ++ [request])%list [] s) = Ok s'' /\
          thread s'' = TDone /\ replies s'' = replies s)).
Proof.
  intros R J. pose proof (reachable_ok ndebug p s R) as [P St]. rewrite J in St.
  split.
  - intros M. unfold stopping in St. rewrite M in St. destruct St as ((_ & _ & Fl & K) & Kp & Pa).
    unfold stopStep. rewrite M, send_proceeds_eq. destruct (K Kp) as [_ D].
    destruct (thread s); try done; simpl; eauto.
  - intros told M.
    assert (K : Service.mKeepRunning (service s) = false).
    { unfold stopping in St. rewrite M in St. destruct told; [|by destruct St].
      by destruct St as (_ & _ & ?). }
    destruct (threadRun_ends s K P) as (s' & E & Rr & D). exists s'. split; [done|].
    split; [done|]. destruct (threadRun_steps _ _ _ E) as (Rs & Ms & Js).
    rewrite J in Js. rewrite M in Ms.
    assert (St' : stopping s').
    { assert (R' : reachable ndebug p s') by (unfold reachable in *; by etrans).
      destruct (reachable_ok ndebug p s' R') as [_ X].
      by rewrite Js in X. }
    unfold stopping in St'. rewrite Ms in St'. destruct D as [D|(D & A & Z & ->)].
    + left. split; [done|]. unfold stopStep. rewrite Ms, Js, D, bool_decide_eq_true_2 by done.
      split; [done|]. destruct told.
      * by destruct St' as (_ & ? & _).
      * destruct St' as ((_ & _ & Fl & _) & _). apply Fl. by rewrite D.
    + right. destruct told.
      { destruct St' as ((_ & [?|[_ ?]]) & _); done. }
      split; [done|]. split; [done|]. split; [done|].
      split; [unfold threadStep; rewrite D, A, Z, poll_returns_eq; done|].
      split; [unfold stopStep; rewrite M, J, D; done|].
      intros request.
      destruct (threadRun_ends (with_zap (zap s ++ [request])%list [] s)) as (s'' & E' & R' & D');
        [done|done|].
      exists s''. split; [done|]. rewrite R'. simpl. rewrite app_nil_r. split; [|done].
      destruct D' as [?|(_ & _ & Z' & ->)]; [done|]. simpl in Z'. rewrite Z in Z'. done.
Qed.

(** C33: the destructor calls [stop] again after the thread was joined: it
    returns at once if [mAPIStarted] is down, and never if it is up, for its
    send of TERMINATE waits for a peer that is gone. *)
Theorem destructor_stop p s :
  reachable ndebug p s -> Service.threadRunning (service s) = false -> main s = STest ->
  if Service.mAPIStarted (service s)
  then forall s', rtc (step ndebug) s s' -> main s' = STest \/ main s' = SSend
  else exists s1 s2 s3, stopStep s = Some s1 /\ stopStep s1 = Some s2 /\
         stopStep s2 = Some s3 /\ main s3 = SReturned.
Proof.
  intros R J M. pose proof (reachable_ok ndebug p s R) as [_ St]. rewrite J in St.
  destruct St as [D _]. destruct (Service.mAPIStarted (service s)) eqn:F.
  - intros s' Rs.
    assert (G : forall a b, rtc (step ndebug) a b ->
      Service.mAPIStarted (service a) = true -> thread a = TDone ->
      main a = STest \/ main a = SSend -> main b = STest \/ main b = SSend).
    { clear -H0. induction 1 as [|a b c Ab _ IH]; [done|]. intros F D Ma.
      assert (X : Service.mAPIStarted (service b) = true /\ thread b = TDone /\
                  (main b = STest \/ main b = SSend)).
      { destruct Ab as [a b E|a b E|a r|a Er]; [| |done|destruct Ma; congruence].
        - unfold threadStep in E. by rewrite D in E.
        - unfold stopStep in E. destruct Ma as [Ma|Ma]; rewrite Ma in E.
          + rewrite F in E. injection E as <-. simpl. auto.
          + by rewrite send_proceeds_eq, D in E. }
      destruct X as (X1 & X2 & X3). auto. }
    apply (G _ _ Rs F D). auto.
  - do 3 eexists. unfold stopStep. rewrite M, F. simpl. split; [reflexivity|].
    split; [reflexivity|]. simpl. rewrite J. by split.
Qed.
End stopping.

(** ** Two schedules *)
Inductive who := Thread | Stop | Destructor.

Section schedules.
Context `{Blocking} (ndebug : bool).

Definition turn (w : who) (s : state) : option state :=
  match w with
  | Thread => match threadStep ndebug s with Ok r => r | _ => None end
  | Stop => stopStep s
  | Destructor => if bool_decide (main s = SReturned) then Some (with_main STest s) else None
  end.

Fixpoint play (l : list who) (s : state) : option state :=
  match l with
  | [] => Some s
  | w :: l' => s ← turn w s; play l' s
  end.

Lemma play_reaches l s s' : play l s = Some s' -> rtc (step ndebug) s s'.
Proof.
  revert s. induction l as [|w l IH]; intros s; simpl; [by intros [= <-]|].
  intros (s1 & E & E2)%bind_Some. eapply rtc_l; [|by apply IH]. destruct w; simpl in E.
  - apply step_thread. destruct (threadStep ndebug s) as [r| |]; simplify_eq; done.
  - by apply step_stop.
  - case_bool_decide; [|done]. injection E as <-. by apply step_destructor.
Qed.
End schedules.

(** [stop] reads the flag before the thread sets it; the thread reads
    [mKeepRunning] before [stop] lowers it. *)
Definition lateFlag : list who := [Stop; Thread; Thread; Thread; Thread; Stop].
(** [stop] is done with both flags before the thread has started. *)
Definition earlyStop : list who :=
  [Stop; Stop; Thread; Thread; Thread; Thread; Thread; Stop; Destructor].
Definition demoAfter (l : list who) : state :=
  match play true l (initial demoService) with Some s => s | None => initial demoService end.

Lemma service_stop_witness :
  main (demoAfter lateFlag) = SJoin false /\
  threadStep true (demoAfter lateFlag) = Ok None /\ stopStep (demoAfter lateFlag) = None /\
  exists s, threadRun true 8 (with_zap (zap (demoAfter lateFlag) ++ [demoRequest])%list []
                               (demoAfter lateFlag)) = Ok s /\
            thread s = TDone /\ replies s = replies (demoAfter lateFlag).
Proof.
  assert (M : main (demoAfter lateFlag) = SJoin false) by (vm_compute; reflexivity).
  assert (T : thread (demoAfter lateFlag) = TPoll) by (vm_compute; reflexivity).
  assert (J : Service.threadRunning (service (demoAfter lateFlag)) = true)
    by (vm_compute; reflexivity).
  assert (X : threadStep true (demoAfter lateFlag) = Ok None) by (vm_compute; reflexivity).
  assert (R : reachable true demoService (demoAfter lateFlag)).
  { apply (play_reaches true lateFlag). vm_compute. reflexivity. }
  generalize (demoAfter lateFlag) M T J X R. clear. intros s M T J X R.
  destruct (service_stop true demoService s R J) as [_ S].
  destruct (S false M) as (s' & E & _ & [(D & _)|(_ & _ & _ & _ & N & A)]).
  - exfalso. cbn [threadRun] in E. rewrite X in E. simpl in E. congruence.
  - split; [exact M|]. split; [exact X|]. split; [exact N|]. exact (A demoRequest).
Defined.

Lemma destructor_stop_witness :
  main (demoAfter earlyStop) = STest /\ thread (demoAfter earlyStop) = TDone /\
  forall s, rtc (step true) (demoAfter earlyStop) s -> main s <> SReturned.
Proof.
  assert (M : main (demoAfter earlyStop) = STest) by (vm_compute; reflexivity).
  assert (T : thread (demoAfter earlyStop) = TDone) by (vm_compute; reflexivity).
  assert (F : Service.mAPIStarted (service (demoAfter earlyStop)) = true)
    by (vm_compute; reflexivity).
  assert (J : Service.threadRunning (service (demoAfter earlyStop)) = false)
    by (vm_compute; reflexivity).
  assert (R : reachable true demoService (demoAfter earlyStop)).
  { apply (play_reaches true earlyStop). vm_compute. reflexivity. }
  split; [exact M|]. split; [exact T|]. intros s Rs E.
  pose proof (destructor_stop true demoService (demoAfter earlyStop) R J M) as D.
  rewrite F in D. destruct (D s Rs); congruence.
Defined.
