(* ===== verification/ProxyThreads.v ===== *)
(** * The end of the proxy, one memory access at a time

    The process of broadcasts/dataPacket/proxy.cpp has four threads: the main
    thread, the steerable proxy of the library, and the threads of its two
    authentication services.  Here the services are those of ServiceThreads,
    the proxy takes the commands that [stop] sends it, and the main thread
    works through the end of the program: the signal, [stop] of the process,
    [stop] again in its destructor, and the destructors of the services.
    Whether it gets to the end is decided in the first instants: a signal
    that is seen before both services have set their flag leaves a service
    that can never be stopped again. *)
From Stdlib Require Import ZArith Ascii String Lia.
From stdpp Require Import base tactics list strings pretty relations.
From S2P Require Import Prelude Interfaces Broadcast Authentication.
From S2P Require Import Proxy Schedules ServiceThreads.

Open Scope string_scope.
Open Scope nat_scope.

(** ** zmq::proxy_steerable

    Where its thread is, and what a command does to it: documented is that
    TERMINATE ends it, that PAUSE suspends it and that RESUME lets it go on. *)
Inductive proxyPc := PForwards | PSuspends | PReturned.

Class Steering := { obey : string -> proxyPc -> proxyPc }.
Class SteeringLaws `{Steering} := {
  obey_terminate pc : obey "TERMINATE" pc = PReturned;
  obey_pause pc : obey "PAUSE" pc = PSuspends;
  obey_resume pc : obey "RESUME" pc = PForwards
}.

Module Steered.
#[global] Instance steering : Steering := {|
  obey c pc := if decide (c = "TERMINATE") then PReturned
               else if decide (c = "PAUSE") then PSuspends
               else if decide (c = "RESUME") then PForwards else pc |}.
#[global] Instance steering_laws : SteeringLaws.
Proof. by split. Qed.
End Steered.

(** ** The main thread *)
Inductive side := Front | Back.
#[export] Instance side_eq_dec : EqDecision side.
Proof. solve_decision. Defined.

Inductive task := Wait | StopService (b : side) | Terminate | Join | Pause | Resume.

(** [Process::stop] *)
Definition stopTasks : list task := [StopService Front; StopService Back; Terminate; Join].

(** [handleMainThread], [~Process], and its members, the last declared
    first. *)
Definition allTasks : list task :=
  ([Wait] ++ stopTasks ++ stopTasks ++ [StopService Back; StopService Front])%list.

Record system := mkSystem {
  frontend : state;
  backend : state;
  proxy : proxyPc;
  commands : list string;          (* sent to the proxy and not yet received *)
  commandSocket : socket;
  proxyState : ProxyState;
  proxyJoinable : bool;
  todo : list task
}.

Definition svc (b : side) (s : system) : state :=
  match b with Front => frontend s | Back => backend s end.
Definition with_svc (b : side) (x : state) (s : system) : system :=
  match b with
  | Front => mkSystem x (backend s) (proxy s) (commands s) (commandSocket s) (proxyState s)
               (proxyJoinable s) (todo s)
  | Back => mkSystem (frontend s) x (proxy s) (commands s) (commandSocket s) (proxyState s)
              (proxyJoinable s) (todo s)
  end.
Definition with_todo (l : list task) (s : system) : system :=
  mkSystem (frontend s) (backend s) (proxy s) (commands s) (commandSocket s) (proxyState s)
    (proxyJoinable s) l.

Section threads.
Context `{Blocking} `{Steering} (ndebug : bool) (env : ZmqEnv).

(** [mCommandSocket.send(...)] and the new state; a failure is logged. *)
Definition sendCommand (text : string) (st : ProxyState) (rest : list task) (s : system)
    : outcome system :=
  match zdo env (ZSend text) (commandSocket s) with
  | Ok sock =>
      Ok (mkSystem (frontend s) (backend s) (proxy s) (commands s ++ [text])%list sock st
            (proxyJoinable s) rest)
  | Throw _ => Ok (with_todo rest s)
  | Undef => Undef
  end.

(** A task that waits for another thread changes nothing until it can go on.
    When [stop] of a service has returned, the next call of it is at its
    first line. *)
Definition mainStep (signal : bool) (s : system) : outcome system :=
  match todo s with
  | [] => Ok s
  | Wait :: rest => Ok (if signal then with_todo rest s else s)
  | StopService b :: rest =>
      match main (svc b s) with
      | SReturned => Ok (with_todo rest (with_svc b (with_main STest (svc b s)) s))
      | _ => Ok (match stopStep (svc b s) with Some x => with_svc b x s | None => s end)
      end
  | Terminate :: rest =>
      if bool_decide (proxyState s = Running) || bool_decide (proxyState s = Paused)
      then sendCommand "TERMINATE" NotRunning rest s else Ok (with_todo rest s)
  | Pause :: rest =>
      if bool_decide (proxyState s = Running)
      then sendCommand "PAUSE" Paused rest s else Ok (with_todo rest s)
  | Resume :: rest =>
      if bool_decide (proxyState s = Running)
      then sendCommand "RESUME" Paused rest s else Ok (with_todo rest s)
  | Join :: rest =>
      if proxyJoinable s then
        match proxy s with
        | PReturned =>
            Ok (mkSystem (frontend s) (backend s) (proxy s) (commands s) (commandSocket s)
                  (proxyState s) false rest)
        | _ => Ok s
        end
      else Ok (with_todo rest s)
  end.

Definition proxyStep (s : system) : system :=
  match proxy s, commands s with
  | PReturned, _ | _, [] => s
  | pc, c :: l =>
      mkSystem (frontend s) (backend s) (obey c pc) l (commandSocket s) (proxyState s)
        (proxyJoinable s) (todo s)
  end.

(** A thread has a turn, or a client asks a service to be let in. *)
Inductive action :=
  | AService (b : side)
  | ARequest (b : side) (request : list string)
  | AProxy
  | AMain (signal : bool).

Definition act (a : action) (s : system) : outcome system :=
  match a with
  | AService b =>
      match threadStep ndebug (svc b s) with
      | Ok (Some x) => Ok (with_svc b x s)
      | Ok None => Ok s
      | _ => Undef                               (* nobody catches it *)
      end
  | ARequest b request =>
      Ok (with_svc b (with_zap (zap (svc b s) ++ [request])%list [] (svc b s)) s)
  | AProxy => Ok (proxyStep s)
  | AMain signal => mainStep signal s
  end.

(** What [start] leaves behind. *)
Definition begin (f b : Service.ServiceImpl) (sock : socket) : system :=
  mkSystem (initial f) (initial b) PForwards [] sock Running true allTasks.
End threads.

Lemma svc_same b x s : svc b (with_svc b x s) = x.
Proof. by destruct b. Qed.
Lemma svc_other b b' x s : b <> b' -> svc b' (with_svc b x s) = svc b' s.
Proof. by destruct b, b'. Qed.
Lemma todo_with_svc b x s : todo (with_svc b x s) = todo s.
Proof. by destruct b. Qed.

Lemma svc_proxyStep `{Steering} b s : svc b (proxyStep s) = svc b s.
Proof. unfold proxyStep. by destruct (proxy s), (commands s), b. Qed.
Lemma todo_proxyStep `{Steering} s : todo (proxyStep s) = todo s.
Proof. unfold proxyStep. by destruct (proxy s), (commands s). Qed.

Lemma main_or_other a : (exists signal, a = AMain signal) \/ forall b, a <> AMain b.
Proof. destruct a; eauto; by right. Qed.

Abbreviation running x := (Service.threadRunning (service x)).
Abbreviation flag x := (Service.mAPIStarted (service x)).

(** ** What holds at every point *)

(** [n] tasks are behind the main thread. *)
Definition fresh (s : system) : Prop :=
  proxyState s = Running /\ proxyJoinable s = true /\ commands s = [] /\ proxy s <> PReturned /\
  forall a, ZSend a ∉ commandSocket s.
Definition told (s : system) : Prop :=
  proxyState s = NotRunning /\ proxyJoinable s = true /\
  (proxy s <> PReturned -> commands s = ["TERMINATE"]).
Definition over (s : system) : Prop :=
  proxyState s = NotRunning /\ proxyJoinable s = false /\ proxy s = PReturned.
Definition proxy_ok (n : nat) (s : system) : Prop :=
  if n <=? 3 then fresh s else if n =? 4 then told s else over s.

Record base (n : nat) (s : system) : Prop := mkBase {
  ba_services : forall b, state_ok (svc b s);
  ba_todo : todo s = drop n allTasks;
  ba_n : n <= 11;
  ba_idle : forall b, main (svc b s) = STest \/ exists rest, todo s = StopService b :: rest;
  ba_start : n = 0 -> forall b, running (svc b s) = true;
  ba_front : 2 <= n -> running (frontend s) = false;
  ba_back : 3 <= n -> running (backend s) = false;
  ba_proxy : proxy_ok n s
}.

Lemma drop_cons {A} n (l : list A) x r : x :: r = drop n l -> r = drop (S n) l.
Proof.
  revert n. induction l as [|y l IH]; intros [|n]; simpl; [done..| |]; [by intros [= _ ->]|].
  intros E. by apply IH.
Qed.

(** Which task is at which place. *)
Lemma task_place n t r :
  t :: r = drop n allTasks ->
  match t with
  | Wait => n = 0
  | StopService Front => n = 1 \/ n = 5 \/ n = 10
  | StopService Back => n = 2 \/ n = 6 \/ n = 9
  | Terminate => n = 3 \/ n = 7
  | Join => n = 4 \/ n = 8
  | Pause | Resume => False
  end /\ n <= 10.
Proof.
  do 11 (destruct n as [|n]; [cbn; intros [= -> ->]; lia|]). cbn. by rewrite drop_nil.
Qed.

Section base.
Context `{BlockingLaws} `{SteeringLaws} (ndebug : bool) (env : ZmqEnv).
Hypothesis pattern : request_pattern env.
Abbreviation act := (act ndebug env).
Abbreviation mainStep := (mainStep env).

Lemma base_begin f b sock :
  (forall a, ZSend a ∉ sock) -> base 0 (begin f b sock).
Proof.
  intros N. assert (I : forall p, state_ok (initial p)) by (intros p; by split).
  split; try done; [by intros []|lia|intros []; by left|by intros _ []|lia|lia].
Qed.

(** Another state of a service. *)
Lemma base_with_svc n b x s :
  base n s -> state_ok x ->
  running x = running (svc b s) \/ (0 < n /\ running x = false) ->
  main x = main (svc b s) \/ (exists rest, todo s = StopService b :: rest) ->
  base n (with_svc b x s).
Proof.
  intros [I T L Id St Fr Ba Pr] Ix R M.
  assert (Each : forall P : side -> state -> Prop, P b x -> (forall b', P b' (svc b' s)) ->
            forall b', P b' (svc b' (with_svc b x s))).
  { intros P Px Ps b'. destruct (decide (b = b')) as [<-|N]; [by rewrite svc_same|].
    by rewrite svc_other. }
  split; rewrite ?todo_with_svc; try done.
  - by apply (Each (fun _ => state_ok)).
  - apply (Each (fun b' y => main y = STest \/ exists rest, todo s = StopService b' :: rest)); [|done].
    destruct M as [->|M]; [apply Id|by right].
  - intros Z. apply (Each (fun _ y => running y = true)); [|by apply St].
    destruct R as [->|[? _]]; [by apply St|lia].
  - intros Z. specialize (Fr Z). destruct b; simpl in *; [|done]. by destruct R as [->|[_ ?]].
  - intros Z. specialize (Ba Z). destruct b; simpl in *; [done|]. by destruct R as [->|[_ ?]].
  - destruct b; done.
Qed.

(** [stop] keeps or joins its thread, and is over only without one. *)
Lemma stopStep_running x y :
  stopStep x = Some y -> running y = running x \/ running y = false.
Proof.
  unfold stopStep. destruct x as [[nm au pp run st kp] pc [| | |[]|j|] api zp rs]; simpl;
    try (by intros [= <-]; auto); try done.
  - destruct (send_proceeds _); [by intros [= <-]; auto|done].
  - destruct run; [|by intros [= <-]; auto]. destruct (bool_decide _); [|done].
    intros [= <-]. auto.
Qed.

Lemma returned_alone x : state_ok x -> main x = SReturned -> running x = false.
Proof.
  intros [_ S] M. destruct (running x); [|done]. unfold stopping in S. by rewrite M in S.
Qed.

Lemma base_next n s s' r :
  base n s -> todo s = r :: todo s' -> frontend s' = frontend s -> backend s' = backend s ->
  (forall b, main (svc b s) = STest) ->
  (r = StopService Front -> running (frontend s) = false) ->
  (r = StopService Back -> running (backend s) = false) ->
  proxy_ok (S n) s' -> base (S n) s'.
Proof.
  intros [I T L Id St Fr Ba Pr] E Ef Eb M Rf Rb P. rewrite T in E. symmetry in E.
  destruct (task_place _ _ _ E) as [Pl Ln].
  assert (Sv : forall b, svc b s' = svc b s) by (by intros []).
  split; try done.
  - intros b. by rewrite Sv.
  - by eapply drop_cons.
  - lia.
  - intros b. rewrite Sv. by left.
  - rewrite Ef. intros L2. destruct r as [|[]| | | |]; first [by apply Rf | apply Fr; lia].
  - rewrite Eb. intros L2. destruct r as [|[]| | | |]; first [by apply Rb | apply Ba; lia].
Qed.

(** Between calls nobody is in [stop]. *)
Lemma base_between n s t r :
  base n s -> todo s = t :: r -> (forall b, t <> StopService b) -> forall b, main (svc b s) = STest.
Proof.
  intros I E N b. destruct (ba_idle _ _ I b) as [?|[rest E']]; [done|].
  rewrite E in E'. injection E' as ->. by destruct (N b).
Qed.

(** What holds of the proxy changes with the tasks that concern it only. *)
Lemma proxy_ok_next n s : n <> 3 -> n <> 4 -> proxy_ok n s -> proxy_ok (S n) s.
Proof.
  intros N3 N4. unfold proxy_ok. destruct (Nat.leb_spec n 3), (Nat.leb_spec (S n) 3); try lia; try done.
  by destruct (Nat.eqb_spec n 4), (Nat.eqb_spec (S n) 4); try lia.
Qed.

(** A service has been stopped. *)
Lemma service_next n s b r :
  base n s -> todo s = StopService b :: r -> main (svc b s) = SReturned ->
  base (S n) (with_todo r (with_svc b (with_main STest (svc b s)) s)).
Proof.
  intros I T M. set (s1 := with_svc b (with_main STest (svc b s)) s).
  pose proof (returned_alone _ (ba_services _ _ I b) M) as R.
  assert (B1 : base n s1).
  { apply base_with_svc; [done| |by left|eauto].
    eapply state_ok_step; [by apply (step_destructor ndebug)|apply (ba_services _ _ I)]. }
  assert (T1 : todo s1 = StopService b :: r) by (unfold s1; by rewrite todo_with_svc).
  pose proof T as P. rewrite (ba_todo _ _ I) in P. symmetry in P.
  destruct (task_place _ _ _ P) as [Pl _].
  apply (base_next n s1 _ (StopService b)); try done.
  - intros b'. destruct (decide (b = b')) as [<-|N]; [unfold s1; by rewrite svc_same|].
    destruct (ba_idle _ _ B1 b') as [?|[r' E']]; [done|]. rewrite T1 in E'. by injection E' as ->.
  - intros [= ->]. exact R.
  - intros [= ->]. exact R.
  - apply proxy_ok_next; [destruct b; lia..|]. exact (ba_proxy _ _ B1).
Qed.

(** A step of the main thread: nothing, a step in the [stop] of a service, or
    the next task. *)
Definition main_did (n : nat) (s s' : system) : Prop :=
  s' = s \/
  (exists b x rest, todo s = StopService b :: rest /\ stopStep (svc b s) = Some x /\
     s' = with_svc b x s /\ base n s') \/
  (exists t, todo s = t :: todo s' /\ base (S n) s' /\
     (forall b, t <> StopService b /\ svc b s' = svc b s \/
        t = StopService b /\ main (svc b s) = SReturned /\ svc b s' = with_main STest (svc b s))).

(** The next task, where the services stay as they are. *)
Lemma main_next n t r s s1 :
  base n s -> todo s = t :: r -> (forall b, t <> StopService b) ->
  frontend s1 = frontend s -> backend s1 = backend s -> todo s1 = r -> proxy_ok (S n) s1 ->
  main_did n s s1.
Proof.
  intros I T N Ef Eb Et P. right. right. exists t. rewrite Et. split; [done|]. split.
  - eapply (base_next n s s1 t); eauto; [by rewrite Et|by eapply base_between| |];
      intros ->; by edestruct N.
  - intros b. left. split; [done|]. by destruct b.
Qed.

(** [stop] of a service. *)
Lemma main_stops n b r signal s s' :
  base n s -> todo s = StopService b :: r -> mainStep signal s = Ok s' -> main_did n s s'.
Proof.
  intros I T E. pose proof T as P. rewrite (ba_todo _ _ I) in P. symmetry in P.
  destruct (task_place _ _ _ P) as [Pl _]. unfold ProxyThreads.mainStep in E. rewrite T in E.
  destruct (decide (main (svc b s) = SReturned)) as [M|M].
  - rewrite M in E. injection E as <-. right. right. exists (StopService b).
    split; [by destruct b|]. split; [by apply service_next|].
    intros b'. destruct (decide (b = b')) as [<-|N]; [right|left].
    + split; [done|]. split; [done|]. by destruct b.
    + split; [congruence|]. by destruct b, b'.
  - assert (E' : Ok (match stopStep (svc b s) with Some x => with_svc b x s | None => s end) = Ok s')
      by (rewrite <- E; by destruct (main (svc b s))).
    destruct (stopStep (svc b s)) as [x|] eqn:Ex; injection E' as <-; [|by left].
    right. left. exists b, x, r. split; [done|]. split; [done|]. split; [done|].
    apply base_with_svc; [done| | |by right; exists r].
    + eapply state_ok_step; [by apply (step_stop ndebug)|apply (ba_services _ _ I)].
    + destruct (stopStep_running _ _ Ex) as [?|?]; [by left|right; split; [destruct b; lia|done]].
Qed.

Lemma main_cases n signal s s' :
  base n s -> mainStep signal s = Ok s' -> main_did n s s'.
Proof.
  intros I E. destruct (todo s) as [|t r] eqn:T.
  { unfold ProxyThreads.mainStep in E. rewrite T in E. injection E as <-. by left. }
  pose proof T as P. rewrite (ba_todo _ _ I) in P. symmetry in P.
  destruct (task_place _ _ _ P) as [Pl Ln]. pose proof (ba_proxy _ _ I) as Pr.
  unfold proxy_ok in Pr. destruct t as [|b| | | |]; [|by eapply main_stops| | |done..];
    unfold ProxyThreads.mainStep in E; rewrite T in E.
  - destruct signal; injection E as <-; [|by left]. subst n. by eapply main_next.
  - destruct Pl as [->| ->]; simpl in Pr.
    + destruct Pr as (Ps & Pj & Pc & Pn & Pz). rewrite Ps in E. simpl in E.
      unfold sendCommand, zdo in E. rewrite (proj2 (pattern _ "" _)) in E by done. injection E as <-.
      eapply main_next; try done. split; [done|]. split; [done|]. simpl. by rewrite Pc.
    + destruct Pr as (Ps & Pj & Pp). rewrite Ps in E. injection E as <-. by eapply main_next.
  - destruct Pl as [->| ->]; simpl in Pr.
    + destruct Pr as (Ps & Pj & Pc). rewrite Pj in E.
      destruct (proxy s) eqn:Pp; injection E as <-; [by left|by left|]. by eapply main_next.
    + destruct Pr as (Ps & Pj & Pp). rewrite Pj in E. injection E as <-. by eapply main_next.
Qed.
(** What the other threads and the clients do to a service. *)
Inductive nudged (x : state) : state -> Prop :=
  | nudged_thread y : threadStep ndebug x = Ok (Some y) -> nudged x y
  | nudged_request r : nudged x (with_zap r [] x).

Lemma nudged_same x y :
  state_ok x -> nudged x y ->
  state_ok y /\ main y = main x /\ running y = running x /\
  (past (thread x) = true -> past (thread y) = true).
Proof.
  intros I [y' E|r].
  - destruct (stopping_thread ndebug x y' (so_pipe _ I) E) as (_ & _ & M & R & P & _).
    split; [|done]. eapply state_ok_step; [by apply (step_thread ndebug)|done].
  - split; [|by destruct x]. destruct I as [Ip Is]. split; [done|].
    destruct x as [[nm au pp run st kp] pc mn api zp rs]. exact Is.
Qed.

(** A step of another thread: in a service, or of the proxy, which changes
    nothing but its own place and what is sent to it. *)
Lemma other_cases n a s s' :
  base n s -> act a s = Ok s' -> (forall b, a <> AMain b) ->
  base n s' /\ todo s' = todo s /\
  ((exists b y, nudged (svc b s) y /\ s' = with_svc b y s) \/
   (a = AProxy /\ s' = proxyStep s) \/ s' = s).
Proof.
  intros I E N. destruct a as [b|b request| |b]; simpl in E; [..|by edestruct N].
  - destruct (threadStep ndebug (svc b s)) as [[y|]| |] eqn:Et; [|by injection E as <-; auto|done..].
    injection E as <-. assert (Ny : nudged (svc b s) y) by (by constructor).
    destruct (nudged_same _ _ (ba_services _ _ I b) Ny) as (Iy & M & R & _).
    split; [by apply base_with_svc; auto|]. split; [apply todo_with_svc|]. left. eauto.
  - injection E as <-. set (y := with_zap _ _ _).
    assert (Ny : nudged (svc b s) y) by constructor.
    destruct (nudged_same _ _ (ba_services _ _ I b) Ny) as (Iy & M & R & _).
    split; [by apply base_with_svc; auto|]. split; [apply todo_with_svc|]. left. eauto.
  - injection E as <-. split; [|split; [apply todo_proxyStep|auto]].
    destruct I as [I T L Id St Fr Ba Pr].
    split; try done.
    + intros b. by rewrite svc_proxyStep.
    + by rewrite todo_proxyStep.
    + intros b. rewrite svc_proxyStep, todo_proxyStep. apply Id.
    + intros Z b. rewrite svc_proxyStep. by apply St.
    + intros Z. rewrite (svc_proxyStep Front s : frontend _ = _). by apply Fr.
    + intros Z. rewrite (svc_proxyStep Back s : backend _ = _). by apply Ba.
    + unfold proxy_ok, fresh, told, over, proxyStep in *.
      destruct (n <=? 3); [|destruct (n =? 4)].
      * destruct Pr as (P1 & P2 & P3 & P4 & P5). by rewrite P3; destruct (proxy s) eqn:Pp; rewrite ?Pp.
      * destruct Pr as (P1 & P2 & P3). destruct (proxy s) eqn:Pp; rewrite ?Pp; try by split_and!.
        all: rewrite P3 by done; simpl; by rewrite obey_terminate.
      * destruct Pr as (P1 & P2 & P3). by rewrite P3.
Qed.

Lemma act_base n a s s' : base n s -> act a s = Ok s' -> exists m, n <= m /\ base m s'.
Proof.
  intros I E. destruct (main_or_other a) as [[signal ->]|N].
  - destruct (main_cases _ _ _ _ I E) as [->|[(b & x & r & _ & _ & _ & B)|(t & _ & B & _)]]; eauto.
  - exists n. split; [done|]. by eapply other_cases.
Qed.

(** *** A service that can be stopped

    Its thread has set the flag before [stop] looked at it; once joined, it
    is down. *)
Definition good (x : state) : Prop :=
  if running x
  then past (thread x) = true /\
       match main x with SLower false | SJoin false => False | _ => True end
  else flag x = false /\ main x <> SSend.

Lemma good_nudged x y : state_ok x -> good x -> nudged x y -> good y.
Proof.
  intros I G Ny. destruct (nudged_same _ _ I Ny) as (_ & M & R & P).
  unfold good in *. rewrite M, R. destruct (running x) eqn:Rx; [naive_solver|].
  destruct Ny as [y E|r]; [|done]. destruct I as [_ Is]. rewrite Rx in Is.
  unfold threadStep in E. by rewrite (proj1 Is) in E.
Qed.

Lemma good_stop x y : state_ok x -> good x -> stopStep x = Some y -> good y.
Proof.
  intros [_ Is] G E. unfold good, stopStep, stopping, undisturbed in *.
  destruct x as [[nm au pp run st kp] pc mn api zp rs]. simpl in *.
  destruct mn as [| | |j|j|]; simpl in E.
  - injection E as <-. simpl. destruct run; [|by destruct G as [-> _]].
    destruct Is as ((_ & _ & F & _) & _), G as [G _]. by rewrite (proj1 F G).
  - destruct (send_proceeds _); [|done]. injection E as <-. simpl. by destruct run, G.
  - injection E as <-. simpl. by destruct run, G.
  - injection E as <-. simpl. by destruct run, j, G.
  - destruct run; [|injection E as <-; by destruct G]. destruct (bool_decide _); [|done].
    injection E as <-. simpl. destruct G as [_ G]. destruct j; [|done]. by destruct Is as (_ & ? & _).
  - done.
Qed.

Lemma good_again x : state_ok x -> good x -> main x = SReturned -> good (with_main STest x).
Proof. intros I G M. unfold good in *. simpl. rewrite (returned_alone x) in * by done. by destruct G. Qed.
(** *** A service that cannot be stopped

    [stop] has read a flag that the thread had not set yet. *)
Definition early (b : side) (s : system) : Prop :=
  running (svc b s) = true /\ main (svc b s) = SLower false.

(** From then on: the thread is waited for, or is gone with the flag up; and
    a call of [stop] is still to come. *)
Definition lost (b : side) (s : system) : Prop :=
  let x := svc b s in
  let twice := exists rest, todo s = StopService b :: rest /\ StopService b ∈ rest in
  running x = true /\ (main x = SLower false \/ main x = SJoin false) /\ twice \/
  running x = false /\ flag x = true /\ thread x = TDone /\
    (main x = SReturned /\ twice \/
     (main x = STest \/ main x = SSend) /\ StopService b ∈ todo s).

Lemma early_lost n s b : base n s -> early b s -> lost b s.
Proof.
  intros [I T L Id St Fr Ba Pr] [R M]. left. split; [done|]. split; [by left|].
  destruct (Id b) as [Mt|[rest E]]; [congruence|]. exists rest. split; [done|].
  rewrite E in T. destruct (task_place _ _ _ T) as [Pl _].
  destruct b; simpl in *.
  - destruct Pl as [->|[->| ->]]; [|rewrite Fr in R by lia; done..].
    injection T as ->. cbn. set_solver.
  - destruct Pl as [->|[->| ->]]; [|rewrite Ba in R by lia; done..].
    injection T as ->. cbn. set_solver.
Qed.

Lemma lost_stop x y :
  state_ok x -> stopStep x = Some y ->
  (running x = true -> main x = SLower false ->
   running y = true /\ main y = SJoin false) /\
  (running x = true -> main x = SJoin false ->
   running y = false /\ flag y = true /\ thread y = TDone /\ main y = SReturned) /\
  (running x = false -> flag x = true -> thread x = TDone -> main x = STest \/ main x = SSend ->
   running y = false /\ flag y = true /\ thread y = TDone /\ main y = SSend).
Proof.
  intros [_ Is] E. unfold stopStep, stopping, undisturbed in *.
  destruct x as [[nm au pp run st kp] pc mn api zp rs]. simpl in *.
  split_and!.
  - intros -> ->. by injection E as <-.
  - intros -> ->. case_bool_decide as D; [|done]. injection E as <-. subst pc. simpl.
    destruct Is as ((_ & _ & F & _) & _). by split_and!; [|apply F|..].
  - intros -> -> -> [->| ->]; [by injection E as <-|]. by rewrite send_proceeds_eq in E.
Qed.

Lemma lost_act n a s s' b : base n s -> lost b s -> act a s = Ok s' -> lost b s'.
Proof.
  intros I Lo E. unfold lost in Lo. cbv zeta in Lo.
  assert (Other : forall b' y, b' <> b -> lost b (with_svc b' y s)).
  { intros b' y N. unfold lost. by rewrite svc_other, todo_with_svc. }
  assert (Same : forall y, lost b (with_svc b y s) <->
    running y = true /\ (main y = SLower false \/ main y = SJoin false) /\
      (exists rest, todo s = StopService b :: rest /\ StopService b ∈ rest) \/
    running y = false /\ flag y = true /\ thread y = TDone /\
      (main y = SReturned /\ (exists rest, todo s = StopService b :: rest /\ StopService b ∈ rest) \/
       (main y = STest \/ main y = SSend) /\ StopService b ∈ todo s)).
  { intros y. unfold lost. by rewrite svc_same, todo_with_svc. }
  pose proof (ba_services _ _ I b) as Ib.
  destruct (main_or_other a) as [[signal ->]|No]; swap 1 2.
  { destruct (other_cases _ _ _ _ I E No) as (_ & Td & [(b' & y & Ny & ->)|[[_ ->]| ->]]);
      [|unfold lost; by rewrite svc_proxyStep, todo_proxyStep|exact Lo].
    destruct (decide (b' = b)) as [->|N]; [|by apply Other]. apply Same.
    destruct (nudged_same _ _ Ib Ny) as (_ & M & R & _). rewrite M, R.
    destruct Lo as [Lo|(L1 & L2 & L3 & L4)]; [by left|right]. split; [done|].
    destruct Ny as [y Et|r']; [unfold threadStep in Et; by rewrite L3 in Et|done]. }
  destruct (main_cases _ _ _ _ I E) as [->|[(b' & x & r & T & Ex & -> & _)|(t & T & _ & Sv)]].
  - exact Lo.
  - destruct (decide (b' = b)) as [->|N]; [|by apply Other]. apply Same.
    destruct (lost_stop _ _ Ib Ex) as (S1 & S2 & S3).
    destruct Lo as [(L1 & [L2|L2] & Tw)|(L1 & L2 & L3 & [(M & _)|(M & In)])].
    + left. destruct (S1 L1 L2) as [? ?]. auto.
    + right. destruct (S2 L1 L2) as (? & ? & ? & ?). split_and!; auto.
    + unfold stopStep in Ex. by rewrite M in Ex.
    + right. destruct (S3 L1 L2 L3 M) as (? & ? & ? & ?). split_and!; auto.
  - unfold lost. destruct (Sv b) as [[N ->]|(-> & M & ->)].
    + destruct Lo as [(_ & _ & rest & T' & _)|(L1 & L2 & L3 & [(_ & rest & T' & _)|(M & In)])];
        [rewrite T in T'; by injection T' as -> _..|].
      right. split_and!; try done. right. split; [done|]. rewrite T in In.
      apply elem_of_cons in In as [?|?]; [congruence|done].
    + destruct Lo as [(_ & [M'|M'] & _)|(L1 & L2 & L3 & [(_ & rest & T' & In)|([M'|M'] & _)])];
        try congruence.
      right. split_and!; try done. right. split; [by left|]. rewrite T in T'. by injection T' as ->.
Qed.

Lemma lost_stays b s : lost b s -> todo s <> [].
Proof. intros [(_ & _ & r & T & _)|(_ & _ & _ & [(_ & r & T & _)|(_ & In)])] E; rewrite E in *; [done..|]. by apply not_elem_of_nil in In. Qed.
End base.

(** ** The program ends *)

(** How far the main thread is from the end. *)
Definition stopRank (pc : stopPc) : nat :=
  match pc with STest => 5 | SSend => 4 | SClear => 3 | SLower _ => 2 | SJoin _ => 1 | SReturned => 0 end.
Definition rank (s : system) : nat :=
  7 * length (todo s) +
  match todo s with StopService b :: _ => stopRank (main (svc b s)) | _ => 0 end.

(** Whom it waits for, and how far that thread is from its end once the flag
    is down. *)
Definition threadRank (pc : threadPc) : nat :=
  match pc with
  | TDone => 0 | TClose => 1 | TWhile => 2 | TZap _ | TBind => 3 | TTerminate _ | TFlag => 4
  | TApi _ _ | TConnect => 5 | TPoll => 6
  end.
Definition left (s : system) : nat :=
  match todo s with
  | StopService b :: _ =>
      match main (svc b s) with
      | SJoin _ => if running (svc b s) then threadRank (thread (svc b s)) else 0
      | _ => 0
      end
  | Join :: _ => if proxyJoinable s then match proxy s with PReturned => 0 | _ => 1 end else 0
  | _ => 0
  end.

Definition isService (b : side) (a : action) : Prop := a = AService b.
Definition isProxy (a : action) : Prop := a = AProxy.
Definition signalled (a : action) : Prop := a = AMain true.
Definition awaited (t : task) (a : action) : Prop :=
  match t with StopService b => isService b a | Join => isProxy a | _ => signalled a end.

Section ends.
Context `{BlockingLaws} `{SteeringLaws} (ndebug : bool) (env : ZmqEnv).
Hypothesis pattern : request_pattern env.
Abbreviation act := (act ndebug env).

Definition inv (s : system) : Prop := exists n, base n s /\ forall b, good (svc b s).

Lemma stop_advances x y : stopStep x = Some y -> stopRank (main y) < stopRank (main x).
Proof.
  unfold stopStep. destruct x as [[nm au pp run st kp] pc [| | |j|j|] api zp rs]; simpl.
  - intros [= <-]. simpl. destruct st; simpl; lia.
  - destruct (send_proceeds _); [|done]. intros [= <-]. simpl. lia.
  - intros [= <-]. simpl. lia.
  - intros [= <-]. simpl. lia.
  - destruct run; [destruct (bool_decide _); [|done]|]; intros [= <-]; simpl; lia.
  - done.
Qed.

(** A good service blocks its [stop] only at the join. *)
Lemma stop_blocked x :
  state_ok x -> good x -> stopStep x = None -> main x <> SReturned ->
  exists j, main x = SJoin j /\ running x = true /\ threadRank (thread x) <> 0.
Proof.
  intros [_ Is] G E N. unfold good, stopStep, stopping, undisturbed in *.
  destruct x as [[nm au pp run st kp] pc [| | |j|j|] api zp rs]; simpl in *; try done.
  - destruct run; [|by destruct G]. rewrite send_proceeds_eq in E.
    destruct Is as ((_ & _ & _ & K) & Kp & Pa), (K Kp) as [_ D]. by destruct pc.
  - exists j. destruct run; [|done]. case_bool_decide as D; [done|]. split_and!; [done..|].
    by destruct pc.
Qed.

(** A thread that is joined goes to its end. *)
Lemma joined_advances x j :
  state_ok x -> good x -> running x = true -> main x = SJoin j ->
  (forall y, threadStep ndebug x = Ok (Some y) -> threadRank (thread x) <> 0 ->
     threadRank (thread y) < threadRank (thread x)) /\
  (threadStep ndebug x = Ok None -> threadRank (thread x) = 0).
Proof.
  intros [Ip Is] G R M. unfold good in G. rewrite R in *. unfold stopping, coming in Is.
  rewrite M in *. destruct j; [|by destruct G].
  destruct Is as ((Pa & C) & _ & K). unfold threadStep.
  destruct x as [[nm au pp run st kp] pc mn api zp rs]. simpl in *. subst kp.
  destruct pc as [| | | | |[] z|z|[]| |]; simpl in *; try (split; [by intros y [= <-]; simpl; lia|done]).
  - done.
  - rewrite zap_binds_eq. split; [by intros y [= <-]; simpl; lia|done].
  - rewrite poll_returns_eq. destruct C as [C|[_ C]]; [|done].
    rewrite (bool_decide_eq_false_2 _ C). simpl. split; [|done]. intros y [= <-] _. simpl. lia.
  - destruct api as [|m api]; [split; [intros y [= <-]; simpl; lia|done]|].
    apply Forall_cons in Ip as [-> _]. simpl. split; [intros y [= <-]; simpl; lia|done].
  - destruct zp; rewrite ?andb_false_r; (split; [intros y [= <-]; simpl; lia|done]).
Qed.

Lemma inv_act a s s' : inv s -> act a s = Ok s' -> inv s'.
Proof.
  intros (n & I & G) E. destruct (main_or_other a) as [[signal ->]|N].
  - destruct (main_cases ndebug env pattern _ _ _ _ I E)
       as [->|[(b & x & r & _ & Ex & -> & B)|(t & _ & B & Sv)]].
    + by exists n.
    + exists n. split; [done|]. intros b1.
      destruct (decide (b = b1)) as [<-|N]; [rewrite svc_same|by rewrite svc_other].
      by eapply good_stop; [apply (ba_services _ _ I)| |].
    + exists (S n). split; [done|]. intros b1. destruct (Sv b1) as [[_ ->]|(_ & M & ->)]; [done|].
      by apply good_again; [apply (ba_services _ _ I)| |].
  - destruct (other_cases ndebug env _ _ _ _ I E N) as (B & _ & [(b & y & Ny & ->)|[[_ ->]| ->]]);
      exists n; (split; [done|]); intros b1; [| |done].
    + destruct (decide (b = b1)) as [<-|Nb]; [rewrite svc_same|by rewrite svc_other].
      by eapply good_nudged; [apply (ba_services _ _ I)| |].
    + by rewrite svc_proxyStep.
Qed.
Lemma cons_absurd {A} (x : A) l : x :: l <> l.
Proof. intros E. apply (f_equal length) in E. simpl in E. lia. Qed.

(** Nothing changes in a turn of the main thread only where it waits. *)
Lemma main_waits s :
  inv s -> todo s <> [] -> mainStep env true s = Ok s -> left s <> 0.
Proof.
  intros (n & I & G) N. unfold mainStep, left. destruct (todo s) as [|t r] eqn:T; [done|].
  assert (Ab : forall s1, todo s1 = r -> Ok s1 = Ok s -> False).
  { intros s1 E [= ->]. rewrite T in E. by apply cons_absurd in E. }
  assert (Sc : forall text st, sendCommand env text st r s = Ok s -> False).
  { intros text st. unfold sendCommand.
    destruct (zdo _ _ _); [|intros E; by apply Ab in E|done]. intros E. by apply Ab in E. }
  destruct t as [|b| | | |].
  - intros E. by apply Ab in E.
  - destruct (decide (main (svc b s) = SReturned)) as [M|M].
    { rewrite M. intros E. by apply Ab in E. }
    intros E. assert (E' : Ok (match stopStep (svc b s) with Some x => with_svc b x s | None => s end)
      = Ok s) by (etrans; [|exact E]; by destruct (main (svc b s))).
    destruct (stopStep (svc b s)) as [x|] eqn:Ex.
    + injection E' as E'. apply stop_advances in Ex. apply (f_equal (svc b)) in E'.
      rewrite svc_same in E'. subst x. lia.
    + destruct (stop_blocked _ (ba_services _ _ I b) (G b) Ex M) as (j & Mj & R & Th).
      by rewrite Mj, R.
  - destruct (_ || _); intros E; [by apply Sc in E|by apply Ab in E].
  - destruct (proxyJoinable s); [|intros E; by apply Ab in E].
    destruct (proxy s); [done..|]. intros E. by apply Ab in E.
  - destruct (bool_decide _); intros E; [by apply Sc in E|by apply Ab in E].
  - destruct (bool_decide _); intros E; [by apply Sc in E|by apply Ab in E].
Qed.

Lemma main_moves signal s s' :
  inv s -> mainStep env signal s = Ok s' ->
  (rank s' < rank s \/ s' = s) /\
  (signal = true -> todo s <> [] -> left s = 0 -> rank s' < rank s).
Proof.
  intros I E.
  assert (D : rank s' < rank s \/ s' = s).
  { destruct I as (n & I & G).
    destruct (main_cases ndebug env pattern _ _ _ _ I E) as [->|[(b & x & r & T & Ex & -> & _)|(t & T & B & Sv)]].
    - by right.
    - left. unfold rank. rewrite todo_with_svc, T, svc_same. apply stop_advances in Ex. lia.
    - left. unfold rank. rewrite T. simpl length.
      destruct (todo s') as [|[|b| | | |] r]; simpl; try (destruct t; simpl; lia).
      assert (stopRank (main (svc b s')) <= 5) by (by destruct (main (svc b s')); simpl; lia).
      destruct t; simpl; lia. }
  split; [done|]. intros -> N L. destruct D as [D| ->]; [done|]. by destruct (main_waits s I N E).
Qed.

(** What the others do keeps the main thread where it is and does not delay
    it; the one it waits for brings it on. *)
Lemma other_moves a s s' :
  inv s -> act a s = Ok s' -> (forall signal, a <> AMain signal) ->
  todo s' = todo s /\ rank s' = rank s /\ left s' <= left s.
Proof.
  intros (n & I & G) E N.
  destruct (other_cases ndebug env _ _ _ _ I E N) as (_ & T & C). split; [done|].
  unfold rank, left. rewrite T.
  destruct C as [(b & y & Ny & ->)|[[_ ->]| ->]]; [| |done].
  - destruct (nudged_same ndebug _ _ (ba_services _ _ I b) Ny) as (_ & M & R & _).
    assert (Pj : proxyJoinable (with_svc b y s) = proxyJoinable s /\ proxy (with_svc b y s) = proxy s)
      by (by destruct b). destruct Pj as [-> ->].
    destruct (todo s) as [|[|b'| | | |] r]; try done.
    destruct (decide (b = b')) as [<-|Nb]; [|by rewrite svc_other].
    rewrite svc_same, M, R. split; [done|].
    destruct (main (svc b s)) as [| | |j|j|] eqn:Mj; try done.
    destruct (running (svc b s)) eqn:Rn; [|done]. destruct Ny as [y E1|r1]; [|done].
    destruct (decide (threadRank (thread (svc b s)) = 0)) as [Z|Z].
    + unfold threadStep in E1. by destruct (thread (svc b s)).
    + apply Nat.lt_le_incl. by eapply joined_advances; [apply (ba_services _ _ I)| | | |..].
  - assert (Pj : proxyJoinable (proxyStep s) = proxyJoinable s)
      by (unfold proxyStep; by destruct (proxy s), (commands s)). rewrite Pj.
    destruct (todo s) as [|[|b'| | | |] r]; rewrite ?svc_proxyStep; try done. split; [done|].
    destruct (proxyJoinable s); [|done]. unfold proxyStep.
    destruct (proxy s) eqn:Pp, (commands s); simpl; rewrite ?Pp; try done; destruct (obey _ _); lia.
Qed.

Lemma awaited_moves t r a s s' :
  inv s -> todo s = t :: r -> left s <> 0 -> awaited t a -> act a s = Ok s' -> left s' < left s.
Proof.
  intros (n & I & G) T L A E. unfold left in *. destruct t as [|b| | | |]; rewrite T in L; simpl in A; try done.
  - unfold isService in A. subst a. simpl in E.
    destruct (main (svc b s)) as [| | |j|j|] eqn:M; try done.
    destruct (running (svc b s)) eqn:R; [|done].
    destruct (joined_advances _ j (ba_services _ _ I b) (G b) R M) as [J1 J2].
    destruct (threadStep ndebug (svc b s)) as [[y|]| |] eqn:Et; [|by destruct L; apply J2|done..].
    injection E as <-. rewrite todo_with_svc, T, svc_same, M, R.
    destruct (nudged_same ndebug _ y (ba_services _ _ I b)) as (_ & -> & -> & _); [by constructor|].
    rewrite M, R. by apply J1.
  - unfold isProxy in A. subst a. injection E as <-. rewrite todo_proxyStep, T.
    destruct (proxyJoinable s) eqn:Pj; [|done].
    assert (C : proxy s <> PReturned -> commands s = ["TERMINATE"]).
    { pose proof (ba_todo _ _ I) as Td. rewrite T in Td. destruct (task_place _ _ _ Td) as [Pl _].
      pose proof (ba_proxy _ _ I) as P. destruct Pl as [->| ->]; [by destruct P as (_ & _ & ?)|].
      destruct P as (_ & P & _). congruence. }
    unfold proxyStep. destruct (proxy s); [..|done]; rewrite C by done; simpl; rewrite obey_terminate, Pj; lia.
Qed.
(** *** Under a fair scheduler *)
Section fair.
Context (σ : schedule (A := action)) (s0 : system).
Hypothesis fair_services : forall b, fair (isService b) σ.
Hypothesis fair_proxy : fair isProxy σ.
Hypothesis fair_signal : fair signalled σ.

(** The thread the main thread waits for comes to its end. *)
Lemma awaited_ends r :
  leads_to act σ s0 (fun _ s => inv s /\ rank s = r)
    (fun _ s => inv s /\ (rank s < r \/ rank s = r /\ left s = 0)).
Proof.
  intros n s E [I R]. destruct (todo s) as [|t rest] eqn:T.
  { apply (eventually_now _ _ _ _ s); [done|]. split; [done|]. right. unfold left. by rewrite T. }
  assert (F : fair (awaited t) σ).
  { destruct t; [exact fair_signal|apply fair_services|exact fair_signal|exact fair_proxy|exact fair_signal..]. }
  apply (progress act σ s0 (awaited t)
    (fun _ s k => inv s /\ (k = 0 /\ rank s < r \/
                            k = left s /\ rank s = r /\ todo s = t :: rest))
    _ F) with (k := left s) (x := s); [|done|split; [done|by right]].
  clear n s E I R T. intros n s k (I & [[-> R]|(-> & R & T)]); [left; auto|].
  destruct (decide (left s = 0)) as [L|L]; [left; auto|]. right. intros s' E.
  pose proof (inv_act _ _ _ I E) as I'. destruct (main_or_other (σ n)) as [[sg Ea]|N].
  - rewrite Ea in E. destruct (main_moves sg s s' I E) as [[D| ->] _].
    + exists 0. split; [split; [done|left; split; [done|lia]]|]. split; [lia|intros; lia].
    + exists (left s). split; [split; [done|by right]|]. split; [done|].
      intros A. exfalso. rewrite Ea in A. destruct t; try done; unfold left in L; by rewrite T in L.
  - destruct (other_moves _ s s' I E N) as (T' & R' & L').
    exists (left s'). split; [split; [done|right; split; [done|]; split; congruence]|].
    split; [done|]. intros A. by eapply awaited_moves.
Qed.

(** The main thread takes its next step. *)
Lemma main_goes_on r :
  leads_to act σ s0 (fun _ s => inv s /\ (rank s < S r \/ rank s = S r /\ left s = 0))
    (fun _ s => inv s /\ rank s <= r).
Proof.
  intros n s E [I D].
  apply (progress act σ s0 signalled
    (fun _ s k => inv s /\ (k = 0 /\ rank s <= r \/ k = 1 /\ rank s = S r /\ left s = 0))
    _ fair_signal) with (k := if decide (rank s <= r) then 0 else 1) (x := s);
    [|done|split; [done|destruct (decide _), D as [D|D]; auto; lia]].
  clear n s E I D. intros n s k (I & [[-> R]|(-> & R & L)]); [left; auto|]. right. intros s' E.
  pose proof (inv_act _ _ _ I E) as I'. destruct (main_or_other (σ n)) as [[sg Ea]|N].
  - rewrite Ea in E. destruct (main_moves sg s s' I E) as [[D| ->] Mv].
    + exists 0. split; [split; [done|left; split; [done|lia]]|]. split; [lia|intros; lia].
    + exists 1. split; [split; [done|by right]|]. split; [done|]. intros A. exfalso.
      rewrite Ea in A. injection A as ->.
      assert (Nt : todo s <> []) by (intros T; unfold rank in R; rewrite T in R; simpl in R; lia).
      specialize (Mv eq_refl Nt L). lia.
  - destruct (other_moves _ s s' I E N) as (T' & R' & L').
    exists 1. split; [split; [done|right; lia]|]. split; [done|]. intros A.
    unfold signalled in A. by apply N in A.
Qed.

Lemma program_ends r :
  leads_to act σ s0 (fun _ s => inv s /\ rank s <= r) (fun _ s => inv s /\ rank s = 0).
Proof.
  induction r as [|r IH].
  - intros n s E [I R]. apply (eventually_now _ _ _ _ s); [done|]. split; [done|lia].
  - refine (leads_to_trans _ _ _ _ _ _ _ IH).
    refine (leads_to_trans _ _ _ _ _ _ _ (main_goes_on r)).
    intros n s E [I R]. destruct (decide (rank s = S r)) as [Er|Er].
    + exact (awaited_ends (S r) n s E (conj I Er)).
    + apply (eventually_now _ _ _ _ s); [done|]. split; [done|left; lia].
Qed.
End fair.

(** Where the main thread is through, so are the others. *)
Lemma through s :
  inv s -> rank s = 0 ->
  todo s = [] /\ proxy s = PReturned /\ proxyState s = NotRunning /\
  forall b, thread (svc b s) = TDone /\ running (svc b s) = false.
Proof.
  intros (n & I & _) R. unfold rank in R. assert (T : todo s = []) by (destruct (todo s); [done|simpl in R; lia]).
  assert (n = 11) as ->.
  { pose proof (ba_todo _ _ I) as Td. rewrite T in Td. apply (f_equal length) in Td.
    rewrite length_drop in Td. change (length allTasks) with 11 in Td. simpl in Td.
    pose proof (ba_n _ _ I). lia. }
  destruct (ba_proxy _ _ I) as (? & _ & ?). split_and!; [done..|]. intros b.
  assert (Rn : running (svc b s) = false)
    by (destruct b; [apply (ba_front _ _ I)|apply (ba_back _ _ I)]; lia).
  split; [|done]. destruct (ba_services _ _ I b) as [_ Is]. rewrite Rn in Is. by destruct Is.
Qed.

(** Before the signal the main thread waits. *)
Lemma quiet_base σ f b sock n s :
  (forall a, ZSend a ∉ sock) -> (forall m, m < n -> ~ signalled (σ m)) ->
  stateAt act σ (begin f b sock) n = Ok s -> base 0 s.
Proof.
  intros Ns. revert s. induction n as [|n IH]; intros s Q; simpl.
  - intros [= <-]. by apply base_begin.
  - intros (s1 & E1 & E2)%bind_ok. specialize (IH s1 ltac:(auto) E1).
    destruct (main_or_other (σ n)) as [[[|] Ea]|N].
    + destruct (Q n ltac:(lia)). by rewrite Ea.
    + rewrite Ea in E2. simpl in E2. unfold mainStep in E2. rewrite (ba_todo _ _ IH) in E2.
      by injection E2 as <-.
    + by eapply (other_cases ndebug env).
Qed.

Lemma stateAt_base σ f b sock n s :
  (forall a, ZSend a ∉ sock) -> stateAt act σ (begin f b sock) n = Ok s -> exists k, base k s.
Proof.
  intros Ns. revert s. induction n as [|n IH]; intros s; simpl.
  - intros [= <-]. exists 0. by apply base_begin.
  - intros (s1 & E1 & E2)%bind_ok. destruct (IH s1 E1) as [k I].
    destruct (act_base ndebug env pattern _ _ _ _ I E2) as (k' & _ & I'). eauto.
Qed.

(** The flags of both services are up. *)
Definition up (s : system) : Prop := forall b, flag (svc b s) = true.

Lemma quiet_inv σ f b sock n s :
  (forall a, ZSend a ∉ sock) -> (forall m, m < n -> ~ signalled (σ m)) ->
  stateAt act σ (begin f b sock) n = Ok s -> up s -> inv s.
Proof.
  intros Ns Q E U. pose proof (quiet_base _ _ _ _ _ _ Ns Q E) as B0.
  exists 0. split; [done|]. intros c. unfold good. rewrite (ba_start _ _ B0 eq_refl c).
  assert (M : main (svc c s) = STest).
  { destruct (ba_idle _ _ B0 c) as [?|[r T]]; [done|]. by rewrite (ba_todo _ _ B0) in T. }
  rewrite M. split; [|done]. destruct (ba_services _ _ B0 c) as [_ Is].
  rewrite (ba_start _ _ B0 eq_refl c) in Is. unfold stopping in Is. rewrite M in Is.
  destruct Is as ((_ & _ & P & _) & _). apply P, U.
Qed.

(** C17: whether the proxy ends is decided when the signal is seen.  Under
    every scheduler that gives its four threads turns: if both services have
    set their flags by then, the main thread gets through [stop], the
    destructor of the process and those of its services, however many
    requests go on arriving, and the proxy and both services have ended (or
    the run stops in an exception of a service).  But once [stop] has passed
    by a flag that its service had not set yet, the main thread never gets
    through, whatever the scheduler does.  The sockets of the services are
    assumed to open. *)
Theorem proxy_ends_or_never (f b : Service.ServiceImpl) (sock : socket) σ n0 :
  (forall a, ZSend a ∉ sock) ->
  ((forall m, m < n0 -> ~ signalled (σ m)) ->
   (forall s, stateAt act σ (begin f b sock) n0 = Ok s -> up s) ->
   (forall b, fair (isService b) σ) -> fair isProxy σ -> fair signalled σ ->
   eventually act σ (begin f b sock) 0 (fun _ s =>
     todo s = [] /\ proxy s = PReturned /\ proxyState s = NotRunning /\
     forall b, thread (svc b s) = TDone /\ running (svc b s) = false)) /\
  (forall s c, stateAt act σ (begin f b sock) n0 = Ok s -> early c s ->
   forall m s', n0 <= m -> stateAt act σ (begin f b sock) m = Ok s' -> todo s' <> []).
Proof.
  intros Ns. split.
  - intros Q U Fs Fp Fg. apply (eventually_later _ _ _ 0 n0); [lia|].
    destruct (stateAt act σ (begin f b sock) n0) as [s|e|] eqn:E;
      [|by exists n0; split; [done|left; rewrite E]..].
    pose proof (quiet_inv _ _ _ _ _ _ Ns Q E (U s eq_refl)) as I.
    eapply eventually_mono; [|by eapply (program_ends σ _ Fs Fp Fg (rank s)); eauto].
    intros m x _ _ [Ix Rx]. by apply through.
  - intros s c E Ea m s' L E'.
    destruct (stateAt_base _ _ _ _ _ _ Ns E) as [k I].
    apply (lost_stays c). assert (Lo : lost c s) by (by eapply early_lost).
    assert (G : exists k, base k s' /\ lost c s').
    { eapply (always_from act σ _ (fun _ s => exists k, base k s /\ lost c s) n0 m); eauto.
      intros j u v _ (ku & Iu & Lu) Ev. destruct (act_base ndebug env pattern _ _ _ _ Iu Ev) as (kv & _ & Iv).
      exists kv. split; [done|]. exact (lost_act ndebug env pattern _ _ _ _ _ Iu Lu Ev). }
    by destruct G as (_ & _ & ?).
Qed.
End ends.

(** ** Two schedules

    In the first the services are through with their first lines when the
    signal is seen, in the second it comes before. *)
Definition demoTurns : list action :=
  [AService Front; AService Front; AService Back; AService Back; AProxy; AMain true].
Definition hastyTurns : list action :=
  [AMain true; AMain true; AService Front; AService Back; AProxy].
Definition demoBegin : system := begin demoService demoService [].

(** The end is reached within 33 rounds; after the hasty signal the first
    [stop] returns, and the one of the destructor waits at its first task. *)
Example demo_end :
  todo <$> stateAt (act true (demoEnv "command")) (cycle demoTurns AProxy) demoBegin 198 = Ok [] /\
  todo <$> stateAt (act true (demoEnv "command")) (cycle hastyTurns AProxy) demoBegin 400 =
    Ok (stopTasks ++ [StopService Back; StopService Front])%list.
Proof. vm_compute. split; reflexivity. Qed.

Lemma proxy_ends_or_never_witness :
  eventually (act true (demoEnv "command")) (cycle demoTurns AProxy) demoBegin 0
    (fun _ s => todo s = [] /\ proxy s = PReturned /\ proxyState s = NotRunning /\
       forall b, thread (svc b s) = TDone /\ running (svc b s) = false) /\
  forall m s, 2 <= m ->
    stateAt (act true (demoEnv "command")) (cycle hastyTurns AProxy) demoBegin m = Ok s -> todo s <> [].
Proof.
  assert (Ns : forall a, ZSend a ∉ ([] : socket)) by (intros a; apply not_elem_of_nil).
  split.
  - refine (proj1 (proxy_ends_or_never true (demoEnv "command") demoEnv_pattern demoService
              demoService [] (cycle demoTurns AProxy) 5 Ns) _ _ _ _ _).
    + intros m L A. unfold signalled, cycle in A.
      do 5 (destruct m as [|m]; [discriminate A|]). lia.
    + intros s E. vm_compute in E. injection E as <-. intros []; reflexivity.
    + intros []; [exact (cycle_fair (isService Front) demoTurns _ 0 _ eq_refl eq_refl)|
                  exact (cycle_fair (isService Back) demoTurns _ 2 _ eq_refl eq_refl)].
    + exact (cycle_fair isProxy demoTurns _ 4 _ eq_refl eq_refl).
    + exact (cycle_fair signalled demoTurns _ 5 _ eq_refl eq_refl).
  - destruct (stateAt (act true (demoEnv "command")) (cycle hastyTurns AProxy) demoBegin 2)
      as [s|e|] eqn:E; [|exfalso; revert E; vm_compute; discriminate..].
    assert (Ea : early Front s).
    { assert (G : match stateAt (act true (demoEnv "command")) (cycle hastyTurns AProxy) demoBegin 2 with
                  | Ok s => early Front s | _ => False end) by (vm_compute; split; reflexivity).
      by rewrite E in G. }
    exact (proj2 (proxy_ends_or_never true (demoEnv "command") demoEnv_pattern demoService
              demoService [] (cycle hastyTurns AProxy) 2 Ns) s Front E Ea).
Defined.
