(* ===== verification/ProxyStop.v ===== *)
(** * The stop of the proxy as one step

    [Process::stop] of broadcasts/dataPacket/proxy.cpp appears twice: in
    Proxy as one step that changes the members of the process, and in
    ProxyThreads as a sequence of accesses between which three other threads
    run.  Here the second refines the first: whatever is interleaved with it,
    once the main thread has got through the tasks of [stop] the members are
    what the one step makes of them, and the [stop] of the destructor then
    changes nothing any more. *)
From Stdlib Require Import ZArith Ascii String Lia.
From stdpp Require Import base tactics list strings pretty relations.
From S2P Require Import Prelude Interfaces Broadcast Authentication.
From S2P Require Import Proxy Schedules ServiceThreads ProxyThreads.

Open Scope string_scope.
Open Scope nat_scope.

(** ** What the two have in common *)

(** The flags that [stop] and the thread of a service share. *)
Definition sameFlags (x y : Service.ServiceImpl) : Prop :=
  Service.threadRunning x = Service.threadRunning y /\
  Service.mAPIStarted x = Service.mAPIStarted y /\
  Service.mKeepRunning x = Service.mKeepRunning y.

Record represents (p : Process) (s : system) : Prop := mkRepresents {
  re_front : sameFlags (mFrontendAuthenticator p) (service (frontend s));
  re_back : sameFlags (mBackendAuthenticator p) (service (backend s));
  re_socket : mCommandSocket p = commandSocket s;
  re_state : mProxyState p = proxyState s;
  re_thread : mProxyThread p = if proxyJoinable s then Joinable else NoThread
}.

(** [stop] is over, and that of the destructor too. *)
Definition stopped (s : system) : Prop := todo s = drop 5 allTasks.
Definition destroyed (s : system) : Prop := todo s = drop 9 allTasks.

Section stop.
Context `{BlockingLaws} `{SteeringLaws} (ndebug : bool) (env : ZmqEnv).
Hypothesis pattern : request_pattern env.
Abbreviation act := (act ndebug env).

(** ** The command socket *)

(** TERMINATE is sent with the third task and with none after it. *)
Definition sentBy (sock : socket) (s : system) : socket :=
  if bool_decide (length (todo s) < 8) then (sock ++ [ZSend "TERMINATE"])%list else sock.
Definition socket_ok (sock : socket) (s : system) : Prop := commandSocket s = sentBy sock s.

Lemma base_length n s : base n s -> length (todo s) = 11 - n.
Proof. intros I. by rewrite (ba_todo _ _ I), length_drop. Qed.

Lemma socket_ok_next n sock s s' t :
  base n s -> todo s = t :: todo s' -> n <> 3 -> commandSocket s' = commandSocket s ->
  socket_ok sock s -> socket_ok sock s'.
Proof.
  intros I T N C O. unfold socket_ok, sentBy in *. rewrite C, O, T. simpl.
  pose proof (base_length n s I) as L. rewrite T in L. simpl in L.
  assert (E : length (todo s') <> 7) by lia.
  destruct (decide (length (todo s') < 8)).
  - by rewrite !bool_decide_eq_true_2 by lia.
  - by rewrite !bool_decide_eq_false_2 by lia.
Qed.

Lemma socket_act n sock a s s' :
  base n s -> socket_ok sock s -> act a s = Ok s' -> socket_ok sock s'.
Proof.
  intros I O E. destruct (main_or_other a) as [[signal ->]|No]; swap 1 2.
  { destruct (other_cases ndebug env _ _ _ _ I E No) as (_ & T & C).
    assert (Cs : commandSocket s' = commandSocket s).
    { destruct C as [(b & y & _ & ->)|[[_ ->]| ->]]; [by destruct b| |done].
      unfold proxyStep. by destruct (proxy s), (commands s). }
    unfold socket_ok, sentBy in *. by rewrite T, Cs. }
  simpl in E. unfold mainStep in E. destruct (todo s) as [|t r] eqn:T; [by injection E as <-|].
  pose proof T as P. rewrite (ba_todo _ _ I) in P. symmetry in P.
  destruct (task_place _ _ _ P) as [Pl _]. pose proof (ba_proxy _ _ I) as Pr.
  destruct t as [|b| | | |]; [| | | |done..].
  - destruct signal; injection E as <-; [|done]. by apply (socket_ok_next n sock s _ Wait); [| |lia|..].
  - assert (N : n <> 3) by (destruct b; lia).
    destruct (decide (main (svc b s) = SReturned)) as [M|M].
    + rewrite M in E. injection E as <-.
      by apply (socket_ok_next n sock s _ (StopService b)); [..|destruct b|].
    + assert (E' : Ok (match stopStep (svc b s) with Some x => with_svc b x s | None => s end) = Ok s')
        by (rewrite <- E; by destruct (main (svc b s))).
      destruct (stopStep (svc b s)) as [x|]; injection E' as <-; [|done].
      unfold socket_ok, sentBy in *. rewrite todo_with_svc. by destruct b.
  - destruct Pl as [->| ->]; unfold proxy_ok in Pr; simpl in Pr.
    + destruct Pr as (Ps & _ & _ & _ & Pz). rewrite Ps in E. simpl in E.
      unfold sendCommand, zdo in E. rewrite (proj2 (pattern _ "" _)) in E by done. injection E as <-.
      pose proof (base_length _ _ I) as L. rewrite T in L. simpl in L.
      unfold socket_ok, sentBy in *. simpl. rewrite O, T. simpl.
      rewrite (bool_decide_eq_false_2 (S (length r) < 8)) by lia.
      by rewrite bool_decide_eq_true_2 by lia.
    + destruct Pr as (Ps & _). rewrite Ps in E. injection E as <-.
      by apply (socket_ok_next 7 sock s _ Terminate).
  - assert (N : n <> 3) by lia.
    destruct (proxyJoinable s); [destruct (proxy s); injection E as <-; [done|done|]|injection E as <-];
      by apply (socket_ok_next n sock s _ Join).
Qed.

Lemma run_socket σ f b sock n s :
  (forall a, ZSend a ∉ sock) -> stateAt act σ (begin f b sock) n = Ok s -> socket_ok sock s.
Proof.
  intros Ns. revert s. induction n as [|n IH]; intros s; simpl; [by intros [= <-]|].
  intros (s1 & E1 & E2)%bind_ok. destruct (stateAt_base ndebug env pattern _ _ _ _ _ _ Ns E1) as [k I].
  by eapply socket_act; eauto.
Qed.

(** ** The services *)

Lemma run_inv σ s0 n m s s' :
  n <= m -> stateAt act σ s0 n = Ok s -> stateAt act σ s0 m = Ok s' -> inv s -> inv s'.
Proof.
  intros L E E' I. eapply (always_from act σ s0 (fun _ => inv) n m); eauto.
  intros k u v _. by apply inv_act.
Qed.

(** A service that was stopped is all down. *)
Lemma down n s b :
  base n s -> (forall b, good (svc b s)) -> 3 <= n ->
  Service.threadRunning (service (svc b s)) = false /\
  Service.mAPIStarted (service (svc b s)) = false /\
  Service.mKeepRunning (service (svc b s)) = false.
Proof.
  intros I G L.
  assert (R : Service.threadRunning (service (svc b s)) = false)
    by (destruct b; [apply (ba_front _ _ I)|apply (ba_back _ _ I)]; lia).
  specialize (G b). unfold good in G. rewrite R in G. destruct G as [F _].
  destruct (ba_services _ _ I b) as [_ S]. rewrite R in S. by destruct S.
Qed.

(** What holds after [stop], and keeps. *)
Lemma after_stop s n :
  inv s -> todo s = drop n allTasks -> 5 <= n -> n <= 11 ->
  (forall b, Service.threadRunning (service (svc b s)) = false /\
     Service.mAPIStarted (service (svc b s)) = false /\
     Service.mKeepRunning (service (svc b s)) = false) /\
  proxyState s = NotRunning /\ proxyJoinable s = false.
Proof.
  intros (k & I & G) T L5 L11. pose proof (base_length _ _ I) as L.
  rewrite T, length_drop in L. change (length allTasks) with 11 in L.
  pose proof (ba_n _ _ I) as Lk. assert (k = n) as -> by lia.
  split; [intros b; by apply (down n); [| |lia]|]. pose proof (ba_proxy _ _ I) as P.
  unfold proxy_ok in P. destruct (Nat.leb_spec n 3); [lia|]. destruct (Nat.eqb_spec n 4); [lia|].
  by destruct P as (? & ? & _).
Qed.
End stop.

(** ** The one step *)

(** The sockets [stop] sends TERMINATE to the services through take it:
    they are connected pairs. *)
Definition pipes_send (env : string -> ZmqEnv) : Prop :=
  forall name s, name = "frontendPipe" \/ name = "backendPipe" ->
    z_call (env name) s (ZSend "TERMINATE") = Ok tt.

Lemma service_stops env (x : Service.ServiceImpl) :
  (forall s, z_call env s (ZSend "TERMINATE") = Ok tt) ->
  exists y, Service.stop env x = Ok y /\ Service.threadRunning y = false /\
    Service.mAPIStarted y = false /\ Service.mKeepRunning y = false.
Proof.
  intros P. unfold Service.stop, zdo. destruct (Service.mAPIStarted x); simpl;
    [rewrite P; simpl|]; by eexists.
Qed.

Lemma stop_once env p :
  pipes_send env -> request_pattern (env "command") -> (forall a, ZSend a ∉ mCommandSocket p) ->
  mProxyState p = Running -> mProxyThread p = Joinable ->
  exists q l, stop env p = Ok (q, l) /\
    (forall x, x = mFrontendAuthenticator q \/ x = mBackendAuthenticator q ->
       Service.threadRunning x = false /\ Service.mAPIStarted x = false /\
       Service.mKeepRunning x = false) /\
    mCommandSocket q = (mCommandSocket p ++ [ZSend "TERMINATE"])%list /\
    mProxyState q = NotRunning /\ mProxyThread q = NoThread.
Proof.
  intros P R N S T. unfold stop.
  destruct (service_stops (env "frontendPipe") (mFrontendAuthenticator p)) as (f & -> & F); [auto|].
  destruct (service_stops (env "backendPipe") (mBackendAuthenticator p)) as (b & -> & B); [auto|].
  simpl. rewrite S. simpl. unfold command, zdo. simpl.
  rewrite (proj2 (R _ "" _)) by done. simpl. eexists _, _. split; [done|].
  unfold join. simpl. rewrite T. simpl.
  rewrite bool_decide_eq_true_2 by (apply elem_of_app; right; by apply list_elem_of_singleton).
  split; [|done]. by intros x [->| ->].
Qed.

Lemma stop_twice env q :
  pipes_send env -> mProxyState q = NotRunning -> mProxyThread q = NoThread ->
  exists r l, destructor env q = Ok (r, l) /\
    (forall x, x = mFrontendAuthenticator r \/ x = mBackendAuthenticator r ->
       Service.threadRunning x = false /\ Service.mAPIStarted x = false /\
       Service.mKeepRunning x = false) /\
    mCommandSocket r = mCommandSocket q /\
    mProxyState r = NotRunning /\ mProxyThread r = NoThread.
Proof.
  intros P S T. unfold destructor, stop.
  destruct (service_stops (env "frontendPipe") (mFrontendAuthenticator q)) as (f & -> & F); [auto|].
  destruct (service_stops (env "backendPipe") (mBackendAuthenticator q)) as (b & -> & B); [auto|].
  simpl. rewrite S. simpl. eexists _, _. split; [done|].
  unfold join. simpl. rewrite T. simpl. split; [|done]. by intros x [->| ->].
Qed.

(** C24: whatever is interleaved with it, [stop] of the proxy is the one step
    of Proxy: let the signal be seen when both services have set their flags,
    and [p] be the members of the process then.  Then [stop] of [p] succeeds,
    with [q] say, and so does the destructor of [q], with [r]; and in every
    run, when the main thread has got through the tasks of [stop] the flags
    of the services, the state, the thread and the command socket are those
    of [q], and when it has got through those of the destructor, those of
    [r].  The sockets of the services are assumed to open. *)
Theorem stop_is_one_step `{BlockingLaws} `{SteeringLaws} (ndebug : bool)
    (env : string -> ZmqEnv) (f b : Service.ServiceImpl) (sock : socket) σ n0 s0 p :
  let act := act ndebug (env "command") in
  request_pattern (env "command") -> pipes_send env -> (forall a, ZSend a ∉ sock) ->
  (forall m, m < n0 -> ~ signalled (σ m)) ->
  stateAt act σ (begin f b sock) n0 = Ok s0 -> up s0 -> represents p s0 ->
  exists q l r l', stop env p = Ok (q, l) /\ destructor env q = Ok (r, l') /\
    forall m s, n0 <= m -> stateAt act σ (begin f b sock) m = Ok s ->
      (stopped s -> represents q s) /\ (destroyed s -> represents r s).
Proof.
  intros act0 R P N Q E U [_ _ Rs Rt Rj].
  assert (B0 : base 0 s0) by (by eapply quiet_base; eauto).
  assert (I0 : inv s0) by (by eapply quiet_inv; eauto).
  pose proof (run_socket ndebug _ R _ _ _ _ _ _ N E) as S0.
  destruct (ba_proxy _ _ B0) as (F1 & F2 & _).
  unfold socket_ok, sentBy in S0. rewrite (ba_todo _ _ B0) in S0. simpl in S0.
  rewrite F1 in Rt. rewrite F2 in Rj. rewrite S0 in Rs.
  destruct (stop_once env p P R) as (q & l & Eq & Fq & Cq & Sq & Tq); [by rewrite Rs|done..|].
  destruct (stop_twice env q P Sq Tq) as (r & l' & Er & Fr & Cr & Sr & Tr).
  exists q, l, r, l'. split; [done|]. split; [done|]. intros m s L Es.
  pose proof (run_inv ndebug _ R _ _ _ _ _ _ L E Es I0) as I.
  pose proof (run_socket ndebug _ R _ _ _ _ _ _ N Es) as S.
  assert (Rep : forall n x, 5 <= n -> n <= 11 -> todo s = drop n allTasks ->
    (forall y, y = mFrontendAuthenticator x \/ y = mBackendAuthenticator x ->
       Service.threadRunning y = false /\ Service.mAPIStarted y = false /\
       Service.mKeepRunning y = false) ->
    mCommandSocket x = (sock ++ [ZSend "TERMINATE"])%list ->
    mProxyState x = NotRunning -> mProxyThread x = NoThread -> represents x s).
  { intros n x L5 L11 T Fx Cx Sx Tx. destruct (after_stop s n I T L5 L11) as (D & Ps & Pj).
    unfold socket_ok, sentBy in S. rewrite T, length_drop in S. change (length allTasks) with 11 in S.
    rewrite bool_decide_eq_true_2 in S by lia.
    destruct (Fx _ (or_introl eq_refl)) as (? & ? & ?), (Fx _ (or_intror eq_refl)) as (? & ? & ?),
      (D Front) as (? & ? & ?), (D Back) as (? & ? & ?).
    split; [split_and!; simpl in *; congruence..|congruence|congruence|by rewrite Pj]. }
  split; intros T; [apply (Rep 5 q)|apply (Rep 9 r)]; try done; try lia; by rewrite ?Cr, Cq, Rs.
Qed.

(** ** After a pause

    Nothing in the program calls [pause] or [resume] of the process; here the
    main thread does, any number of times, before it waits for the signal. *)
Definition beginSteered (pre : list task) (f b : Service.ServiceImpl) (sock : socket) : system :=
  mkSystem (initial f) (initial b) PForwards [] sock Running true (pre ++ allTasks)%list.

Definition steers (t : task) : Prop := t = Pause \/ t = Resume.

(** Nothing was sent yet, or what was sent holds off TERMINATE. *)
Definition unsteered (s : system) : Prop :=
  proxyState s = Running /\ commands s = [] /\ (forall a, ZSend a ∉ commandSocket s) /\
  exists pre, pre <> [] /\ Forall steers pre /\ todo s = (pre ++ allTasks)%list.
Definition heldOff (s : system) : Prop :=
  proxyState s = Paused /\ Forall (fun c => c = "PAUSE" \/ c = "RESUME") (commands s) /\
  (exists a, ZSend a ∈ commandSocket s) /\ Join ∈ todo s.
Definition steered (s : system) : Prop :=
  (proxyJoinable s = true /\ proxy s <> PReturned) /\ (unsteered s \/ heldOff s).

Section paused.
Context `{Blocking} `{SteeringLaws} (ndebug : bool) (env : ZmqEnv).
Hypothesis pattern : request_pattern env.
Abbreviation act := (act ndebug env).

Lemma join_of_all : Join ∈ allTasks.
Proof. cbn. do 4 right. by left. Qed.

Lemma steered_begin pre f b sock :
  pre <> [] -> Forall steers pre -> (forall a, ZSend a ∉ sock) -> steered (beginSteered pre f b sock).
Proof. intros N F S. split; [done|]. left. split_and!; [done..|]. by exists pre. Qed.

Lemma steered_with_svc b x s : steered s -> steered (with_svc b x s).
Proof. by destruct b. Qed.

Lemma steered_proxy s : steered s -> steered (proxyStep s).
Proof.
  intros St. unfold proxyStep. destruct (commands s) as [|c l] eqn:E; [by destruct (proxy s)|].
  destruct St as [[J N] D]. destruct D as [(_ & Ec & _)|(Ps & F & S & I)]; [congruence|].
  rewrite E in F. apply Forall_cons in F as [Ec F].
  assert (O : obey c (proxy s) <> PReturned) by (destruct Ec as [-> | ->]; [by rewrite obey_pause|by rewrite obey_resume]).
  destruct (proxy s) eqn:P; [| |done]; (split; [done|]); right; by split_and!.
Qed.

(** The first command is sent and leaves the proxy paused. *)
Lemma sends_first text rest s s' :
  unsteered s -> proxyJoinable s = true -> proxy s <> PReturned -> text = "PAUSE" \/ text = "RESUME" ->
  Join ∈ rest -> sendCommand env text Paused rest s = Ok s' -> steered s'.
Proof.
  intros (_ & C & N & _) J P T R. unfold sendCommand, zdo.
  rewrite (proj2 (pattern _ "" _)) by done. intros [= <-]. split; [done|]. right.
  split; [done|]. rewrite C. split; [by constructor|]. split; [|done].
  exists text. apply elem_of_app. right. by apply list_elem_of_singleton.
Qed.

(** After it no task but the join is of use. *)
Lemma held_next t s :
  steered s -> heldOff s -> t <> Join -> forall r, todo s = t :: r -> steered (with_todo r s).
Proof.
  intros [Jn _] (P & F & S & I) N r T. split; [done|]. right. split_and!; try done.
  rewrite T in I. by apply elem_of_cons in I as [?|?].
Qed.

Lemma steered_main signal s s' : steered s -> mainStep env signal s = Ok s' -> steered s'.
Proof.
  intros St E. destruct St as [[J N] [U|Hd]].
  - pose proof U as (Ps & _ & _ & pre & Np & Fp & T). destruct pre as [|t pre]; [done|].
    apply Forall_cons in Fp as [Ht Fp]. unfold mainStep in E. simpl in T. rewrite T in E.
    assert (I : Join ∈ (pre ++ allTasks)%list) by (apply elem_of_app; right; apply join_of_all).
    destruct Ht as [-> | ->]; rewrite Ps in E; simpl in E;
      (eapply sends_first; [exact U|done|done| |exact I|exact E]); auto.
  - assert (St : steered s) by (split; auto). pose proof Hd as (Ps & _ & [a S] & I).
    unfold mainStep in E.
    destruct (todo s) as [|t r] eqn:T; [by injection E as <-|].
    assert (Next : t <> Join -> steered (with_todo r s)) by (intros; by eapply held_next).
    destruct t as [|b| | | |]; try specialize (Next ltac:(done)).
    + by destruct signal; injection E as <-.
    + destruct (decide (main (svc b s) = SReturned)) as [M|M].
      { rewrite M in E. injection E as <-. by destruct b. }
      assert (E' : Ok (match stopStep (svc b s) with Some x => with_svc b x s | None => s end) = Ok s')
        by (rewrite <- E; by destruct (main (svc b s))).
      destruct (stopStep (svc b s)) as [x|]; injection E' as <-; [by apply steered_with_svc|done].
    + rewrite Ps in E. simpl in E. unfold sendCommand, zdo in E.
      destruct (proj1 (pattern (commandSocket s) a "TERMINATE") S) as [e Ee]. rewrite Ee in E.
      by injection E as <-.
    + rewrite J in E. by destruct (proxy s); injection E as <-.
    + rewrite Ps in E. by injection E as <-.
    + rewrite Ps in E. by injection E as <-.
Qed.

Lemma steered_act a s s' : steered s -> act a s = Ok s' -> steered s'.
Proof.
  intros St E. destruct a as [b|b request| |signal]; simpl in E.
  - destruct (threadStep ndebug (svc b s)) as [[x|]| |]; [| |done..]; injection E as <-;
      [by apply steered_with_svc|done].
  - injection E as <-. by apply steered_with_svc.
  - injection E as <-. by apply steered_proxy.
  - by eapply steered_main.
Qed.

(** Once the proxy was paused - or resumed, which pauses it - the main thread
    never gets past the join of [stop], whatever the scheduler does: the
    request socket refuses TERMINATE, and the proxy is never told to end.
    This is the [JoinBlocks] of Proxy. *)
Theorem paused_never_ends pre (f b : Service.ServiceImpl) (sock : socket) σ m s :
  pre <> [] -> Forall steers pre -> (forall a, ZSend a ∉ sock) ->
  stateAt act σ (beginSteered pre f b sock) m = Ok s ->
  Join ∈ todo s /\ proxy s <> PReturned.
Proof.
  intros N F S E.
  assert (St : steered s).
  { revert s E. induction m as [|m IH]; intros s; simpl; [intros [= <-]; by apply steered_begin|].
    intros (s1 & E1 & E2)%bind_ok. eapply steered_act; [|exact E2]. by apply IH. }
  destruct St as [[J P] [(_ & _ & _ & pre' & _ & _ & ->)|(_ & _ & _ & I)]]; [|done].
  split; [|done]. apply elem_of_app. right. apply join_of_all.
Qed.
End paused.

(** ** A run *)
Definition pairEnv (name : string) : ZmqEnv :=
  if decide (name = "command") then demoEnv "command" else mkZmq (fun _ _ => Ok tt) (fun _ _ => Ok (Some 1%Z)).
Definition demoProcess : Process :=
  with_state Joinable
    (Service.mk "Frontend" None [] true true true) (Service.mk "Backend" None [] true true true)
    [ZConnect "inproc://control"] Running demoProxy.
Definition demoRun (m : nat) : outcome system :=
  stateAt (act true (pairEnv "command")) (cycle demoTurns AProxy)
    (begin demoService demoService [ZConnect "inproc://control"]) m.

(** [stop] is over at time 90 and the destructor's at time 150. *)
Lemma stop_is_one_step_witness :
  exists q l r l', stop pairEnv demoProcess = Ok (q, l) /\ destructor pairEnv q = Ok (r, l') /\
    (exists s, demoRun 90 = Ok s /\ stopped s /\ represents q s) /\
    (exists s, demoRun 150 = Ok s /\ destroyed s /\ represents r s).
Proof.
  assert (N : forall a, ZSend a ∉ ([ZConnect "inproc://control"] : socket)).
  { intros a I. apply list_elem_of_singleton in I. discriminate I. }
  assert (P : pipes_send pairEnv) by (intros name s [->| ->]; reflexivity).
  destruct (demoRun 5) as [s0|e|] eqn:E0; [|exfalso; revert E0; vm_compute; discriminate..].
  assert (G : match demoRun 5 with Ok s => up s /\ represents demoProcess s | _ => False end).
  { vm_compute. split; [intros []; reflexivity|]. repeat split. }
  rewrite E0 in G. destruct G as [U Re].
  assert (Q : forall m, m < 5 -> ~ signalled (cycle demoTurns AProxy m)).
  { intros m L A. unfold signalled, cycle in A.
    do 5 (destruct m as [|m]; [discriminate A|]). lia. }
  destruct (stop_is_one_step true pairEnv demoService demoService [ZConnect "inproc://control"]
    (cycle demoTurns AProxy) 5 s0 demoProcess demoEnv_pattern P N Q E0 U Re)
    as (q & l & r & l' & Eq & Er & R).
  assert (R' : forall m s, 5 <= m -> demoRun m = Ok s ->
            (stopped s -> represents q s) /\ (destroyed s -> represents r s)) by exact R.
  clear R. exists q, l, r, l'. split; [exact Eq|]. split; [exact Er|]. split.
  - destruct (demoRun 90) as [s|e|] eqn:E; [|exfalso; revert E; vm_compute; discriminate..].
    assert (St : match demoRun 90 with Ok s => stopped s | _ => False end) by (vm_compute; reflexivity).
    rewrite E in St. exists s. split; [reflexivity|]. split; [exact St|].
    exact (proj1 (R' 90 s ltac:(lia) E) St).
  - destruct (demoRun 150) as [s|e|] eqn:E; [|exfalso; revert E; vm_compute; discriminate..].
    assert (St : match demoRun 150 with Ok s => destroyed s | _ => False end) by (vm_compute; reflexivity).
    rewrite E in St. exists s. split; [reflexivity|]. split; [exact St|].
    exact (proj2 (R' 150 s ltac:(lia) E) St).
Defined.

(** A pause, and then the schedule that ended the run above. *)
Lemma paused_never_ends_witness :
  exists s, stateAt (act true (pairEnv "command")) (cycle demoTurns AProxy)
              (beginSteered [Pause] demoService demoService []) 300 = Ok s /\
    proxyState s = Paused /\ Join ∈ todo s.
Proof.
  destruct (stateAt (act true (pairEnv "command")) (cycle demoTurns AProxy)
              (beginSteered [Pause] demoService demoService []) 300) as [s|e|] eqn:E;
    [|exfalso; revert E; vm_compute; discriminate..].
  exists s. split; [reflexivity|]. split.
  - assert (G : match stateAt (act true (pairEnv "command")) (cycle demoTurns AProxy)
              (beginSteered [Pause] demoService demoService []) 300 with
              | Ok s => proxyState s = Paused | _ => False end) by (vm_compute; reflexivity).
    rewrite E in G. exact G.
  - assert (F : Forall steers [Pause]) by (repeat constructor).
    refine (proj1 (paused_never_ends true (pairEnv "command") demoEnv_pattern [Pause] demoService
              demoService [] (cycle demoTurns AProxy) 300 s _ F _ E)); [discriminate|].
    intros a. apply not_elem_of_nil.
Defined.
