(* ===== verification/Pipeline.v ===== *)
(** * From the broadcaster to a client of the sanitizer

    The programs of the other files put together: what the SEEDLink
    broadcaster publishes goes over a wire (the data packet proxy) to the
    sanitizer, whose subscriber takes it into the queue of the checking
    thread, and what the sanitizer publishes goes over a second wire to any
    process with a subscriber.  A wire is ZeroMQ between a PUB and a SUB
    socket with a proxy in between: messages arrive whole, in the order they
    were sent, at most once, and may be lost. *)
From Stdlib Require Import ZArith Ascii String SpecFloat Lia.
From stdpp Require Import base tactics list gmap strings pretty relations.
From S2P Require Import Prelude Float64 JsonLib Interfaces.
From S2P Require Import DataPacket PacketTests DuplicateTest Broadcast.
From S2P Require Import SeedLink SeedLinkPublisher Schedules BroadcasterThreads.
From S2P Require Import Sanitizer SanitizerThreads.

Open Scope string_scope.
Open Scope Z_scope.

(** The messages among the calls made on a socket since it had the calls
    [s0]. *)
Definition messagesSince (s0 s : socket) : list (list string) :=
  omap (fun c => match c with ZSendMultipart parts => Some parts | _ => None end)
    (drop (length s0) s).

(** ** What a subscriber hands to its callback *)
Section decoding.
Context {J V : Type} `{JsonLib J V}.

(** The packet in a message, if there is one. *)
Definition decoded (parts : list string) : option DataPacketImpl :=
  match parts with
  | [messageType; payload] =>
      if bool_decide (messageType ∈ Subscriber.mMessageTypes) then
        match deserialize (J:=J) payload with Ok p => Some p | _ => None end
      else None
  | _ => None
  end.

(** A pass of [listen] applies the callback to the packet of the message, if
    it has one, and otherwise leaves the owner as it is. *)
Lemma listenStep_owner {S} (p : Subscriber.SubscriberImpl S) cb ndebug now parts l s l' s' ls :
  SubscriberOptions.mCallback (Subscriber.mOptions p) = cb ->
  Subscriber.listenStep (J:=J) ndebug p now parts l s = Ok (l', s', ls) ->
  s' = match decoded parts with Some x => (cb x s).1 | None => s end.
Proof.
  intros Hc. unfold Subscriber.listenStep, SubscriberOptions.getCallback. rewrite Hc.
  intros (cb' & ([] & _ & [= <-])%bind_ok & E)%bind_ok.
  destruct parts as [|t [|m [|x parts]]]; unfold decoded.
  - by injection E as _ <- _.
  - destruct ndebug; [|done]. by injection E as _ <- _.
  - unfold Subscriber.propagate in E.
    destruct (bool_decide (t ∈ Subscriber.mMessageTypes)); simpl in E;
      [|by injection E as _ <- _].
    destruct (deserialize m) as [q|e|]; simpl in E; [|..|done].
    + destruct (cb q s) as [s1 [u|e|]]; simpl in E; [..|done];
        apply bind_ok in E as (due & _ & E); by destruct due; injection E as _ <- _.
    + apply bind_ok in E as (due & _ & E). by destruct due; injection E as _ <- _.
  - destruct ndebug; [|done]. by injection E as _ <- _.
Qed.

(** A client that collects has the packets of the messages it read. *)
Lemma listenRun_collects (p : Subscriber.SubscriberImpl (list DataPacketImpl)) ndebug input l s
    l' s' :
  SubscriberOptions.mCallback (Subscriber.mOptions p) = collect ->
  listenRun (J:=J) ndebug p input l s = Ok (l', s') -> s' = (s ++ omap decoded input.*2)%list.
Proof.
  intros Hc. revert l s. induction input as [|[now parts] input IH]; intros l s; simpl.
  - intros [= _ <-]. by rewrite app_nil_r.
  - intros ([[l1 s1] ls] & E1 & E2)%bind_ok. apply (listenStep_owner p collect) in E1; [|done].
    apply IH in E2 as ->. rewrite E1. destruct (decoded parts); simpl; [|done].
    by rewrite <- (assoc_L app).
Qed.
End decoding.

(** ** The sanitizer with its subscriber *)
Section sanitizer.
Local Open Scope list_scope.
Context (env : ZmqEnv) (ndebug : bool) {J V : Type} `{JsonLib J V}.
Context {C : Type} `{CircularBuffer C DataPacketHeader}.
Context {Q : Type} `{ReaderWriterQueue Q DataPacketImpl}.

(** A pass of [Subscriber::listen] on a message, or a step of the checking
    thread, of the publishing thread, or of [stop]. *)
Inductive input :=
  | IMessage (nowMuSeconds : Z) (parts : list string)
  | IChecker (c : clocks)
  | IPublisher (nowMuSeconds : Z)
  | IStop.

Record sanitizer := mkSanitizer {
  sThreads : threads C Q;
  sListening : Subscriber.listening
}.

Definition withInput (q : Q) (t : threads C Q) : threads C Q :=
  mkThreads (with_queues q (mMessagesToPublishQueue (tProcess t)) (tProcess t))
    (tChecker t) (tChecked t) (tPublisher t) (tSent t).

Definition sanitizerStep (i : input) (s : sanitizer) : outcome sanitizer :=
  let t := sThreads s in
  match i with
  | IMessage now parts =>
      '(l, q, _) ← Subscriber.listenStep (J:=J) ndebug (mPacketSubscriber (tProcess t)) now parts
                     (sListening s) (mPacketsToCheckQueue (tProcess t));
      Ok (mkSanitizer (withInput q t) l)
  | IChecker c => t ← act env (J:=J) (AChecker c) t; Ok (mkSanitizer t (sListening s))
  | IPublisher now => t ← act env (J:=J) (APublisher now) t; Ok (mkSanitizer t (sListening s))
  | IStop => t ← act env (J:=J) AStop t; Ok (mkSanitizer t (sListening s))
  end.

Fixpoint sanitizerRun (l : list input) (s : sanitizer) : outcome sanitizer :=
  match l with
  | [] => Ok s
  | i :: l' => s ← sanitizerStep i s; sanitizerRun l' s
  end.

Definition messagesIn (l : list input) : list (list string) :=
  omap (fun i => match i with IMessage _ parts => Some parts | _ => None end) l.
Definition checksIn (l : list input) : list clocks :=
  omap (fun i => match i with IChecker c => Some c | _ => None end) l.

(** The options of the subscriber do not change while the threads run. *)
Lemma act_subscriber a (t t' : threads C Q) :
  act env (J:=J) a t = Ok t' ->
  mPacketSubscriber (tProcess t') = mPacketSubscriber (tProcess t).
Proof.
  destruct t as [p cpc ck ppc pk]. destruct a as [x|c|now|]; simpl.
  - by intros [= <-].
  - intros ([[[pc1 p1] k1] l1] & E & [= <-])%bind_ok. simpl. destruct cpc; simpl in E.
    all: try (by injection E as _ <- _ _).
    + destruct (rq_pop _). by injection E as _ <- _ _.
    + destruct (try_dequeue _) as [[]|]; by injection E as _ <- _ _.
    + destruct (scrutinize _ _ _) as [[ts [[]|e|]] l]; try done; by injection E as _ <- _ _.
    + apply bind_ok in E as ([] & _ & E). by injection E as _ <- _ _.
  - intros ([[[pc1 p1] k1] l1] & E & [= <-])%bind_ok. simpl. destruct ppc; simpl in E.
    all: try (by injection E as _ <- _ _).
    + destruct (rq_pop _). by injection E as _ <- _ _.
    + destruct (Publisher.send _ _ _); try done; by injection E as _ <- _ _.
    + destruct (rq_pop _). by injection E as _ <- _ _.
    + apply bind_ok in E as ([] & _ & E). by injection E as _ <- _ _.
  - by intros [= <-].
Qed.

Lemma actAll_one a (t t' : threads C Q) :
  act env (J:=J) a t = Ok t' -> actAll env (J:=J) [a] t = Ok t'.
Proof. intros E. cbn [actAll]. by rewrite E. Qed.

(** A run with its subscriber is a run of the threads that receives the
    packets of the messages. *)
Lemma sanitizer_acts l s s' :
  SubscriberOptions.mCallback (Subscriber.mOptions (mPacketSubscriber (tProcess (sThreads s)))) =
    inputPacketsToQueueCallback ->
  sanitizerRun l s = Ok s' ->
  exists acts, actAll env (J:=J) acts (sThreads s) = Ok (sThreads s') /\
    arrivals acts = omap (decoded (J:=J)) (messagesIn l) /\ clocksIn acts = checksIn l.
Proof.
  revert s. induction l as [|i l IH]; intros s Hc; simpl.
  - intros [= <-]. by exists [].
  - intros (s1 & E1 & E2)%bind_ok.
    assert (X : exists a, actAll env (J:=J) a (sThreads s) = Ok (sThreads s1) /\
      mPacketSubscriber (tProcess (sThreads s1)) = mPacketSubscriber (tProcess (sThreads s)) /\
      arrivals a = omap (decoded (J:=J)) (messagesIn [i]) /\ clocksIn a = checksIn [i]).
    { destruct i as [now parts|c|now|]; cbn [sanitizerStep] in E1.
      - apply bind_ok in E1 as ([[l1 q] ls] & E & [= <-]).
        apply (listenStep_owner _ _ _ _ _ _ _ _ _ _ Hc) in E. simpl.
        destruct (decoded parts) as [x|].
        + exists [AReceive x]. simpl. by rewrite E.
        + exists []. simpl. split; [|done]. rewrite E. destruct (sThreads s) as [p a b d e].
          unfold withInput. simpl. by rewrite with_queues_id.
      - apply bind_ok in E1 as (t & E & [= <-]). exists [AChecker c].
        split; [by apply actAll_one|]. split; [by apply act_subscriber in E|done].
      - apply bind_ok in E1 as (t & E & [= <-]). exists [APublisher now].
        split; [by apply actAll_one|]. split; [by apply act_subscriber in E|done].
      - injection E1 as <-. by exists [AStop]. }
    destruct X as (a & Ea & Es & Ar & Ck). destruct (IH s1) as (acts & Et & Ar' & Ck');
      [by rewrite Es|done|].
    exists (a ++ acts). split.
    { clear -Ea Et. revert Ea. generalize (sThreads s). induction a as [|b a IHa]; intros t; simpl.
      - by intros [= ->].
      - intros (t1 & E & E')%bind_ok. rewrite E. simpl. by apply IHa. }
    unfold arrivals, clocksIn, messagesIn, checksIn in *. rewrite !omap_app, Ar, Ar', Ck, Ck'.
    by destruct i; simpl; [destruct (decoded parts)|..].
Qed.
End sanitizer.
Arguments sanitizer : clear implicits.

(** ** One hop *)
Section hop.
Local Open Scope list_scope.
Context {J V : Type} `{JsonLaws J V}.

Lemma sublist_omap {A B} (f : A -> option B) (l k : list A) :
  l `sublist_of` k -> omap f l `sublist_of` omap f k.
Proof.
  induction 1 as [|x l k _ IH|x l k _ IH]; simpl; [done| |];
    destruct (f x); try done; by constructor.
Qed.

(** A packet that goes over a wire unharmed. *)
Definition sound (p : DataPacketImpl) : Prop := reachable p /\ complete p = true.

Lemma as_double_sound p : sound p -> sound (as_double p) /\ as_double (as_double p) = as_double p.
Proof.
  intros [R C]. destruct (serialize_deserialize_aux (J:=J) p R C) as (m & _ & E & _).
  destruct (deserialize_sound_aux m _ E) as (R' & _ & _). split.
  - split; [done|]. exact C.
  - apply as_double_id; [|done]. by apply wf_storage, reachable_wf_aux.
Qed.

Lemma sends_serialized sent calls :
  Forall2 (sends (J:=J)) sent calls -> Forall (fun p => exists m, serialize (J:=J) p = Ok m) sent.
Proof. induction 1 as [|p c sent calls (m & E & _) _ IH]; constructor; eauto. Qed.

Lemma Forall_sublist {A} (P : A -> Prop) (l k : list A) :
  l `sublist_of` k -> Forall P k -> Forall P l.
Proof.
  induction 1 as [|x l k _ IH|x l k _ IH]; [done| |]; intros [? ?]%Forall_cons; auto.
Qed.

(** What arrives over a wire is a part of what was sent, as doubles. *)
Lemma hop (sent : list DataPacketImpl) (calls s0 : socket) (ms : list (list string)) :
  Forall2 (sends (J:=J)) sent calls -> Forall sound sent ->
  ms `sublist_of` messagesSince s0 (s0 ++ calls) ->
  omap (decoded (J:=J)) ms `sublist_of` (as_double <$> sent).
Proof.
  intros F S M. apply (sublist_omap (decoded (J:=J))) in M. etrans; [exact M|].
  unfold messagesSince. rewrite drop_app_length. clear M.
  induction F as [|p c sent calls (m & Em & ->) F IH]; [done|].
  apply Forall_cons in S as [[R C] S]. simpl.
  destruct (serialize_deserialize_aux (J:=J) p R C) as (m' & Em' & Ed & _).
  rewrite Em in Em'. injection Em' as <-.
  rewrite bool_decide_eq_true_2 by set_solver. rewrite Ed. simpl.
  apply sublist_skip. by apply IH.
Qed.
End hop.

(** ** The whole way *)
Section pipeline.
Local Open Scope list_scope.
Context (envB envS : ZmqEnv) {J V : Type} `{JsonLaws J V}.
Context {C : Type} `{CircularBuffer C DataPacketHeader}.
Context {Q : Type} `{ReaderWriterQueueLaws Q DataPacketImpl}.

(** Whatever the server sends, the packets the broadcaster unpacks from it can
    be built by the setters, and their samples counted in 32 bits. *)
Lemma unpacked_reachable ndB MINRECLEN record_ {LK : BroadcasterThreads.Link} lB
    (w : BroadcasterThreads.system Q) :
  Forall (fun x => reachable x /\ in_i32 (Z.of_nat (length (doubles x))) = true)
    (BroadcasterThreads.unpacked envB ndB MINRECLEN (J:=J) record_ lB w).
Proof.
  revert w. induction lB as [|a lB IH]; intros w; cbn [BroadcasterThreads.unpacked]; [constructor|].
  apply Forall_app. split.
  - unfold BroadcasterThreads.unpackedBy.
    destruct a as [t|e|b]; try constructor. destruct (BroadcasterThreads.theReader w); try constructor.
    destruct (miniSEEDToDataPackets _ _ _) as [[ps|e'|]|] eqn:E; try constructor.
    apply unpackRecords_packets in E. eapply Forall_impl; [exact E|].
    intros x [r Er]. split; [by eapply recordToPacket_sound|].
    by eapply carries_doubles, recordToPacket_carries.
  - destruct (BroadcasterThreads.act _ _ _ _ _ _) as [w'|e|]; [apply IH|constructor..].
Qed.

(** The packets a broadcaster has sent, as sound packets. *)
Lemma broadcaster_sends sl ndB MINRECLEN record_ {LK : BroadcasterThreads.Link} oB
    (b0 b : SeedLinkPublisher.Process Q) now lB w :
  SeedLinkPublisher.newProcess (Q:=Q) envB sl ndB oB = Ok b0 ->
  SeedLinkPublisher.start b0 = Ok b ->
  (forall g z, record_ g z = Ok tt) ->
  actions (BroadcasterThreads.act envB ndB MINRECLEN (J:=J) record_) lB
    (BroadcasterThreads.begin now b) = Ok w ->
  exists sent calls,
    BroadcasterThreads.socketOf (BroadcasterThreads.theProcess w) =
      BroadcasterThreads.socketOf b0 ++ calls /\
    Forall2 (sends (J:=J)) sent calls /\ Forall sound sent /\
    sent `sublist_of` BroadcasterThreads.unpacked envB ndB MINRECLEN (J:=J) record_ lB
                        (BroadcasterThreads.begin now b).
Proof.
  intros Eb Es Hr Ew.
  pose proof (BroadcasterThreads.start_relays _ _ _ _ _ _ _ Es
                (BroadcasterThreads.begin_relays (J:=J) envB ndB sl oB b0 now Eb)) as R0.
  destruct (BroadcasterThreads.relaysB_run envB ndB MINRECLEN record_ Hr _ _ _ _ lB _ _ R0 Ew)
    as (ρ & M & [_ _ _ (calls & S & F) _ _] & Er).
  destruct (relay_run_ok _ _ _ M) as [Ord Good]; [by split; simpl|].
  assert (Sub : sent ρ `sublist_of` BroadcasterThreads.unpacked envB ndB MINRECLEN (J:=J) record_
                  lB (BroadcasterThreads.begin now b)).
  { simpl in Er. rewrite <- Er. etrans; [|exact Ord]. by apply sublist_inserts_r. }
  exists (sent ρ), calls. split; [done|]. split; [done|]. split; [|done].
  apply Forall_app in Good as [Good _].
  pose proof (unpacked_reachable ndB MINRECLEN record_ lB (BroadcasterThreads.begin now b)) as Off.
  apply Forall_forall. intros x Hx. rewrite Forall_forall in Off, Good.
  destruct (Off x) as [Rx I]; [by eapply sublist_subseteq|]. split; [done|].
  pose proof (sends_serialized _ _ F) as Ser. rewrite Forall_forall in Ser.
  destruct (Ser x Hx) as [m Em]. eapply serialize_complete; [exact Em| |done].
  specialize (Good x Hx). unfold publishable in Good. apply andb_true_iff in Good as [_ N]. lia.
Qed.

Lemma newProcess_started o (p : Process C Q) k1 k2 :
  newProcess envS o = Ok p ->
  started (mkThreads p CWhile k1 PWhile k2) /\
  SubscriberOptions.mCallback (Subscriber.mOptions (mPacketSubscriber p)) =
    inputPacketsToQueueCallback.
Proof.
  intros (ts & _ & (sub & Es & (pub & _ & [= <-])%bind_ok)%bind_ok)%bind_ok. split.
  - unfold started, toCheck, toPublish. simpl. by rewrite rq_new_elems.
  - unfold Publisher.rethrow in Es. simpl.
    destruct (mbind _ _) as [s|e|] eqn:E; simpl in Es; [|done|done]. injection Es as <-.
    apply bind_ok in E as (o1 & (ep & _ & [= <-])%bind_ok & E).
    apply bind_ok in E as (o2 & (? & _ & [= <-])%bind_ok & E).
    by apply bind_ok in E as (s1 & _ & [= <-]).
Qed.

(** C38: from end to end: let a new broadcaster be started and run on whatever
    the SEEDLink server sends, a new sanitizer on messages of the broadcaster
    that reached it, and a client on messages of the sanitizer that reached
    it.  The threads of the broadcaster and those of the sanitizer interleave
    in any way, one access at a time; the subscribers take a message at a
    time.  Then the packets delivered to the client are, in order and each at
    most once, packets that the broadcaster unpacked, as doubles; all of them
    are complete, and each was within the limits of the sanitizer at one of
    its checks.  Recording a metric is assumed not to throw. *)
Theorem end_to_end sl ndB MINRECLEN {LK : BroadcasterThreads.Link} oB b0 b record_ now lB w
    oS (p : Process C Q) k1 k2 ndS l lis s
    (client : Subscriber.SubscriberImpl (list DataPacketImpl)) ndC input lC lC' delivered :
  SeedLinkPublisher.newProcess (Q:=Q) envB sl ndB oB = Ok b0 ->
  SeedLinkPublisher.start b0 = Ok b ->
  (forall g z, record_ g z = Ok tt) ->
  actions (BroadcasterThreads.act envB ndB MINRECLEN (J:=J) record_) lB
    (BroadcasterThreads.begin now b) = Ok w ->
  Sanitizer.newProcess envS oS = Ok p ->
  sanitizerRun envS ndS (J:=J) l (mkSanitizer (mkThreads p CWhile k1 PWhile k2) lis) = Ok s ->
  messagesIn l `sublist_of`
    messagesSince (BroadcasterThreads.socketOf b0)
      (BroadcasterThreads.socketOf (BroadcasterThreads.theProcess w)) ->
  SubscriberOptions.mCallback (Subscriber.mOptions client) = collect ->
  listenRun (J:=J) ndC client input lC [] = Ok (lC', delivered) ->
  input.*2 `sublist_of`
    messagesSince (Publisher.mPublisherSocket (mPacketPublisher p))
      (SanitizerThreads.socketOf (tProcess (sThreads s))) ->
  delivered `sublist_of`
    (as_double <$> BroadcasterThreads.unpacked envB ndB MINRECLEN (J:=J) record_ lB
                     (BroadcasterThreads.begin now b)) /\
  Forall (fun x => complete x = true) delivered /\
  Forall (within (limits (mTesters p)) (checksIn l)) delivered.
Proof.
  intros Eb Sb Hr Ew Ep Es M1 Hc Ec M2.
  destruct (broadcaster_sends sl ndB MINRECLEN record_ oB b0 b now lB w Eb Sb Hr Ew)
    as (sent1 & calls1 & S1 & F1 & Sd1 & Sub1).
  destruct (newProcess_started oS p k1 k2 Ep) as [St Cb].
  destruct (sanitizer_acts envS ndS l
               (mkSanitizer (mkThreads p CWhile k1 PWhile k2) lis) s Cb Es) as (acts & Ea & Ar & Ck). simpl in Ea.
  destruct (threads_refine_relay_aux envS acts _ _ St Ea) as (ρ & _ & R & Rv & [Ord Good]).
  simpl in R, Good. rewrite Ck in Good. destruct R as [_ _ _ _ (calls2 & S2 & F2)].
  apply Forall_app in Good as [Good _].
  assert (A1 : arrivals acts `sublist_of` (as_double <$> sent1)).
  { rewrite Ar. rewrite S1 in M1. exact (hop sent1 calls1 _ _ F1 Sd1 M1). }
  assert (A2 : sent ρ `sublist_of` (as_double <$> sent1)).
  { etrans; [|exact A1]. rewrite <- Rv. etrans; [|exact Ord]. by apply sublist_inserts_r. }
  assert (Sd2 : Forall (fun x => sound x /\ as_double x = x) (sent ρ)).
  { apply Forall_forall. intros x Hx. apply (sublist_subseteq _ _ A2) in Hx.
    apply list_elem_of_fmap in Hx as (y & -> & Hy). rewrite Forall_forall in Sd1.
    apply (as_double_sound (J:=J)), Sd1, Hy. }
  assert (A3 : delivered `sublist_of` sent ρ).
  { rewrite (listenRun_collects client ndC input lC [] lC' delivered Hc Ec). simpl.
    replace (sent ρ) with (as_double <$> sent ρ).
    2: { clear -Sd2. induction Sd2 as [|x k [_ E] _ IH]; [done|]. by rewrite fmap_cons, E, IH. }
    eapply hop; [exact F2| |rewrite S2 in M2; exact M2].
    eapply Forall_impl; [exact Sd2|]. by intros x [? _]. }
  split; [|split].
  - etrans; [exact A3|]. etrans; [exact A2|]. by apply fmap_sublist.
  - eapply Forall_sublist; [exact A3|]. eapply Forall_impl; [exact Sd2|]. by intros x [[_ ?] _].
  - by eapply Forall_sublist.
Qed.
End pipeline.

(** ** A packet on its way *)

(** A payload of two records comes in; the publishing thread looks at its queue
    when the first packet has been handed over, and sends both; the second
    message is lost before the sanitizer. *)
Definition slowRecord : MS3Record :=
  mkRecord (mkNslc 0 "UU" "FORK" "01" "HHZ") (d_of_Z 1) 1700000000000000000 3 "i"%char
    (Some (Int32s [1; -2; 3])) 512.
Definition slowParse (offset n : Z) : parsed :=
  if 512 <=? n then (MS_NOERROR, Some slowRecord) else (-1, None).
#[local] Instance demoLink : BroadcasterThreads.Link := 3.
Definition demoRunB : list BroadcasterThreads.action :=
  (BroadcasterThreads.readerTicks (Client.SLPACKET true 1024 slowParse) 6
   ++ BroadcasterThreads.senderTicks 4 ++ BroadcasterThreads.readerTicks Client.SLNOPACKET 4
   ++ BroadcasterThreads.senderTicks 12)%list.
Definition demoStarted : SeedLinkPublisher.Process DemoQueue := BroadcasterThreads.demoStarted.
Definition demoBroadcast : BroadcasterThreads.system DemoQueue :=
  match actions (BroadcasterThreads.act willing true 40 (J:=TinyJson.doc) demoGauges) demoRunB
          (BroadcasterThreads.begin 0 demoStarted) with
  | Ok w => w
  | _ => BroadcasterThreads.begin 0 demoStarted
  end.
Definition demoSanitizer : sanitizer DemoBuffer Sanitizer.DemoQueue :=
  mkSanitizer (mkThreads demoProcess CWhile (countersAt 0) PWhile (countersAt 0))
    (Subscriber.listenStart 0).
Definition demoFirst (l : list (list string)) : list string :=
  match l with parts :: _ => parts | [] => [] end.
Definition demoInputs : list input :=
  ([IMessage 1700000060000000
      (demoFirst (messagesSince (BroadcasterThreads.socketOf demoBroadcaster)
                    (BroadcasterThreads.socketOf (BroadcasterThreads.theProcess demoBroadcast))))]
   ++ replicate 6 (IChecker demoClocks) ++ replicate 5 (IPublisher 1700000061000000))%list.
Definition demoSanitized : sanitizer DemoBuffer Sanitizer.DemoQueue :=
  match sanitizerRun willing true (J:=TinyJson.doc) demoInputs demoSanitizer with
  | Ok s => s
  | _ => demoSanitizer
  end.
Definition demoArrived : list (Z * list string) :=
  (fun parts => (1700000062000000, parts)) <$>
    messagesSince (Publisher.mPublisherSocket (mPacketPublisher demoProcess))
      (SanitizerThreads.socketOf (tProcess (sThreads demoSanitized))).

Lemma end_to_end_witness :
  length (messagesSince (BroadcasterThreads.socketOf demoBroadcaster)
            (BroadcasterThreads.socketOf (BroadcasterThreads.theProcess demoBroadcast))) = 2%nat /\
  exists l', listenRun (J:=TinyJson.doc) true demoQuiet demoArrived (Subscriber.listenStart 0) [] =
               Ok (l', [as_double slowPacket]) /\
    [as_double slowPacket] `sublist_of`
      (as_double <$> BroadcasterThreads.unpacked willing true 40 (J:=TinyJson.doc) demoGauges
                       demoRunB (BroadcasterThreads.begin 0 demoStarted)) /\
    Forall (within (limits (mTesters demoProcess)) (checksIn demoInputs)) [as_double slowPacket].
Proof.
  split; [vm_compute; reflexivity|].
  assert (Eb : SeedLinkPublisher.newProcess willing demoSL true SeedLinkPublisher.defaultOptions =
               Ok demoBroadcaster) by (vm_compute; reflexivity).
  assert (Sb : SeedLinkPublisher.start demoBroadcaster = Ok demoStarted) by (vm_compute; reflexivity).
  assert (Ew : actions (BroadcasterThreads.act willing true 40 (J:=TinyJson.doc) demoGauges) demoRunB
                 (BroadcasterThreads.begin 0 demoStarted) = Ok demoBroadcast)
    by (vm_compute; reflexivity).
  assert (Ep : newProcess willing defaultOptions = Ok demoProcess) by (vm_compute; reflexivity).
  assert (Es : sanitizerRun willing true (J:=TinyJson.doc) demoInputs demoSanitizer =
               Ok demoSanitized) by (vm_compute; reflexivity).
  assert (M1 : messagesIn demoInputs `sublist_of`
    messagesSince (BroadcasterThreads.socketOf demoBroadcaster)
      (BroadcasterThreads.socketOf (BroadcasterThreads.theProcess demoBroadcast))).
  { vm_compute. apply sublist_skip, sublist_cons, sublist_nil. }
  assert (Ec : exists l', listenRun (J:=TinyJson.doc) true demoQuiet demoArrived
                 (Subscriber.listenStart 0) [] = Ok (l', [as_double slowPacket])).
  { eexists. vm_compute. reflexivity. }
  destruct Ec as [l' Ec]. exists l'. split; [exact Ec|].
  assert (M2 : demoArrived.*2 `sublist_of`
    messagesSince (Publisher.mPublisherSocket (mPacketPublisher demoProcess))
      (SanitizerThreads.socketOf (tProcess (sThreads demoSanitized)))).
  { unfold demoArrived. rewrite <- list_fmap_compose, list_fmap_id. done. }
  destruct (end_to_end willing willing demoSL true 40 SeedLinkPublisher.defaultOptions
              demoBroadcaster demoStarted demoGauges 0 demoRunB demoBroadcast defaultOptions
              demoProcess (countersAt 0) (countersAt 0) true demoInputs (Subscriber.listenStart 0)
              demoSanitized demoQuiet true demoArrived (Subscriber.listenStart 0) l'
              [as_double slowPacket] Eb Sb (fun _ _ => eq_refl) Ew Ep Es M1 eq_refl Ec M2)
    as (A & _ & B).
  split; [exact A | exact B].
Defined.
