(* ===== verification/OatServer.v ===== *)
(** * The web server prototype

    src/webServer: the WebSocket listener that puts the frames of a message
    together and answers it (webSocket/listener.cpp), the counter of
    connections (webSocket/instanceListener.hpp), the authorization and the
    end points of the controller (controller/controller.hpp), and the program
    (dataBroadcast.cpp).  oatpp is
    not part of the repository: its output buffer is an interface with laws,
    its object mapper and its sockets are parameters. *)
From Stdlib Require Import ZArith Ascii String Lia.
From stdpp Require Import base tactics list strings pretty.
From S2P Require Import Prelude Interfaces.

Open Scope string_scope.
Open Scope Z_scope.

(** ** oatpp::data::stream::BufferOutputStream *)
Class OutputBuffer (B : Type) := {
  ob_new : B;
  ob_write : string -> B -> B;                (* writeSimple *)
  ob_setCurrentPosition : Z -> B -> B;
  ob_toString : B -> string
}.
Class OutputBufferLaws (B : Type) `{OutputBuffer B} := {
  ob_toString_new : ob_toString ob_new = "";
  ob_toString_write s b : ob_toString (ob_write s b) = ob_toString b +:+ s;
  ob_toString_reset b : ob_toString (ob_setCurrentPosition 0 b) = ""
}.

(** A buffer that is the bytes before its position. *)
Module TextBuffer.
#[global] Instance text : OutputBuffer string :=
  {| ob_new := ""; ob_write s b := b +:+ s;
     ob_setCurrentPosition n b := String.substring 0 (Z.to_nat n) b; ob_toString b := b |}.
#[global] Instance text_laws : OutputBufferLaws string.
Proof. split; [done|done|]. intros b. by destruct b. Qed.
End TextBuffer.

(** ** The data transfer objects *)
Inductive dto :=
  | ResponseMessage (statusCode : Z) (message payload : string)
  | ErrorMessage (statusCode : Z) (reason : string).

(** What a listener does with its socket. *)
Inductive frame := SendPong (message : string) | SendOneFrameText (text : string).

Record OatEnv := mkOat {
  oat_writeToString : dto -> outcome string;           (* the object mapper *)
  oat_send : list frame -> frame -> outcome unit       (* given what was sent before *)
}.

(** ** The listener *)
Section listener.
Context (env : OatEnv) {B : Type} `{OutputBuffer B}.

Record Listener := mkListener {
  mMessageBuffer : B;
  mSent : list frame
}.

Definition newListener : Listener := mkListener ob_new [].

Definition send (f : frame) (l : Listener) : outcome Listener :=
  oat_send env (mSent l) f;; Ok (mkListener (mMessageBuffer l) (mSent l ++ [f])%list).

Definition onPing (message : string) (l : Listener) : outcome Listener :=
  send (SendPong message) l.
Definition onPong (message : string) (l : Listener) : Listener := l.
Definition onClose (code : Z) (l : Listener) : Listener := l.

(** [data] is what the pointer goes to, of which [size] bytes are read. *)
Definition readMessage (data : string) (size : Z) (l : Listener) : outcome (Listener * list line) :=
  if size =? 0 then
    let entireMessage := ob_toString (mMessageBuffer l) in
    let l := mkListener (ob_setCurrentPosition 0 (mMessageBuffer l)) (mSent l) in
    l' ← TRY responseMessageString ← oat_writeToString env
               (ResponseMessage 200 "Success" entireMessage);
             send (SendOneFrameText responseMessageString) l
         CATCH e =>
           errorMessageString ← oat_writeToString env (ErrorMessage 400 "Server error");
           send (SendOneFrameText "stuff") l;
    Ok (l', [Info ("Request: " +:+ entireMessage)])
  else if 0 <? size then
    Ok (mkListener (ob_write (String.substring 0 (Z.to_nat size) data) (mMessageBuffer l)) (mSent l), [])
  else Ok (l, [Warn "Negative size in WebSocket::Listener::readMessage"]).

(** A message as oatpp delivers it: a call for each frame, and one of size 0. *)
Fixpoint readFrames (frames : list string) (l : Listener) : outcome (Listener * list line) :=
  match frames with
  | [] => readMessage "" 0 l
  | f :: frames' =>
      '(l, w) ← readMessage f (Z.of_nat (String.length f)) l;
      '(l, w') ← readFrames frames' l; Ok (l, w ++ w')%list
  end.

Fixpoint readMessages (messages : list (list string)) (l : Listener) : outcome (Listener * list line) :=
  match messages with
  | [] => Ok (l, [])
  | m :: messages' =>
      '(l, w) ← readFrames m l; '(l, w') ← readMessages messages' l; Ok (l, w ++ w')%list
  end.
End listener.
Arguments Listener : clear implicits.

(** ** The connections *)
Definition wrap_add (n : Z) (z : Z) : Z := wrap_i32 (z + n).
(** [++mSocketCounter] on an [std::atomic<int32_t>] wraps. *)
Definition onAfterCreate (mSocketCounter : Z) : Z * list line :=
  let n := wrap_add 1 mSocketCounter in
  (n, [Info ("ServerWebSocketInstanceListener receiving incoming connection.  Number of connections is "
             +:+ pretty n)]).
Definition onBeforeDestroy (mSocketCounter : Z) : Z * list line :=
  let n := wrap_add (-1) mSocketCounter in
  (n, [Info ("ServerWebSocketInstanceListener closing connection.  Number of connections is "
             +:+ pretty n)]).

(** ** The controller *)
Record AuthorizationObject := mkAuthorization { userId : string; password : string }.

(** A null user name is dereferenced. *)
Definition authorize (userName passwordGiven : option string)
    : outcome (option AuthorizationObject * list line) :=
  user ← of_option userName;
  Ok (if negb (str_empty user)
      then (Some (mkAuthorization ("uid-" +:+ user) "abc123"), [Info ("Allowing " +:+ user)])
      else (None, [])).

Inductive answer := Page (status : Z) (body : string) | Upgrade (userName : string).

Definition pageTemplate : string :=
  "<html lang='en'><head><meta charset=utf-8/></head><body>" +:+
  "<p>Hello Multithreaded WebSocket Server!</p>" +:+
  "<p><code>websocket endpoint is: localhost:8000/ws</code></p></body></html>".

(** [GET /] and [GET ws]; the handshake itself is oatpp's. *)
Definition root : answer := Page 200 pageTemplate.
Definition ws (authObject : AuthorizationObject) : answer * list line :=
  if negb (str_empty (userId authObject))
  then (Upgrade (userId authObject),
        [Info ("Upgrading " +:+ userId authObject +:+ " to websocket connection")])
  else (Page 401 "Unauthorized", []).

(** ** What the listener and the controller do *)
Section answers.
Local Open Scope list_scope.
Context (env : OatEnv) {B : Type} `{OutputBufferLaws B}.

(** The answer to a message: the response with the whole message as its
    payload, or, when that cannot be written or sent, the text of the catch
    block. *)
Definition answers_to (message : list string) (f : frame) : Prop :=
  (exists text, oat_writeToString env (ResponseMessage 200 "Success" (String.concat "" message)) =
                Ok text /\ f = SendOneFrameText text) \/
  f = SendOneFrameText "stuff".

Lemma str_append_nil s : s +:+ "" = s.
Proof. induction s as [|c s IH]; [done|]. change (String c (s +:+ "") = String c s). by rewrite IH. Qed.
Lemma substring_all s : String.substring 0 (String.length s) s = s.
Proof. induction s as [|c s IH]; [done|]. simpl. by rewrite IH. Qed.
Lemma concat_cons s l : String.concat "" (s :: l) = s +:+ String.concat "" l.
Proof. destruct l; simpl; [by rewrite str_append_nil|done]. Qed.
Lemma str_append_assoc a b c : (a +:+ b) +:+ c = a +:+ (b +:+ c).
Proof. induction a as [|x a IH]; [done|].
  change (String x ((a +:+ b) +:+ c) = String x (a +:+ (b +:+ c))). by rewrite IH.
Qed.

Lemma readFrames_answer frames l l' w :
  Forall (fun f => f <> "") frames ->
  readFrames env frames l = Ok (l', w) ->
  ob_toString (mMessageBuffer l') = "" /\
  exists f, mSent l' = mSent l ++ [f] /\
    answers_to (ob_toString (mMessageBuffer l) :: frames) f.
Proof.
  intros F. revert l w. induction F as [|x frames Hx F IH]; intros l w; cbn [readFrames].
  - unfold readMessage. simpl (0 =? 0). cbn iota. intros (l1 & E & [= <- <-])%bind_ok.
    assert (Sent : forall t (l0 l2 : Listener B), send env (SendOneFrameText t) l0 = Ok l2 ->
              mMessageBuffer l2 = mMessageBuffer l0 /\ mSent l2 = mSent l0 ++ [SendOneFrameText t]).
    { intros t l0 l2 ([] & _ & [= <-])%bind_ok. done. }
    unfold try_catch in E.
    destruct (oat_writeToString env (ResponseMessage 200 "Success" (ob_toString (mMessageBuffer l))))
      as [t|e|] eqn:Et; simpl in E.
    + destruct (send _ (SendOneFrameText t) _) as [l2|e|] eqn:Es; [| |done].
      * injection E as <-. apply Sent in Es as [Eb Es]. rewrite Eb, Es. simpl.
        split; [apply ob_toString_reset|]. eexists. split; [done|]. left. exists t.
        by rewrite concat_cons, str_append_nil.
      * apply bind_ok in E as (t' & _ & Es'). apply Sent in Es' as [Eb Es']. rewrite Eb, Es'.
        split; [apply ob_toString_reset|]. eexists. split; [done|by right].
    + apply bind_ok in E as (t' & _ & Es'). apply Sent in Es' as [Eb Es']. rewrite Eb, Es'.
      split; [apply ob_toString_reset|]. eexists. split; [done|by right].
    + done.
  - intros ([l1 w1] & E1 & ([l2 w2] & E2 & [= <- <-])%bind_ok)%bind_ok.
    apply IH in E2 as (Eb & f & Es & A). split; [done|]. exists f.
    unfold readMessage in E1. destruct x as [|c x]; [done|].
    assert (L : (0 < Z.of_nat (String.length (String c x)))%Z) by (cbn [String.length]; lia).
    rewrite (proj2 (Z.eqb_neq _ 0)), (proj2 (Z.ltb_lt 0 _)) in E1 by lia.
    injection E1 as <- _. simpl in Es. split; [done|].
    cbn [mMessageBuffer] in A. rewrite ob_toString_write, Nat2Z.id, substring_all in A.
    unfold answers_to in *. rewrite concat_cons, str_append_assoc in A.
    by rewrite concat_cons, concat_cons.
Qed.

(** Every message gets one answer, to all its frames and only to those, in
    the order of the messages. *)
Lemma readMessages_answered messages l l' w :
  Forall (Forall (fun f => f <> "")) messages ->
  ob_toString (mMessageBuffer l) = "" ->
  readMessages env messages l = Ok (l', w) ->
  ob_toString (mMessageBuffer l') = "" /\
  exists fs, mSent l' = mSent l ++ fs /\ Forall2 answers_to messages fs.
Proof.
  intros F. revert l w. induction F as [|m messages Fm F IH]; intros l w Eb; cbn [readMessages].
  - intros [= <- <-]. split; [done|]. exists []. by rewrite app_nil_r.
  - intros ([l1 w1] & E1 & ([l2 w2] & E2 & [= <- <-])%bind_ok)%bind_ok.
    apply readFrames_answer in E1 as (Eb1 & f & Es1 & A1); [|done]. rewrite Eb in A1.
    apply IH in E2 as (Eb2 & fs & Es2 & A2); [|done]. split; [done|].
    exists (f :: fs). rewrite Es2, Es1, <- (assoc_L app). split; [done|]. constructor; [|done].
    unfold answers_to in *. by rewrite concat_cons in A1.
Qed.
End answers.

(** The password does not matter: whoever gives a name is let in, and the
    end point never answers 401. *)
Lemma authorize_spec user given :
  authorize (Some user) given = authorize (Some user) None /\
  forall o w, authorize (Some user) given = Ok (o, w) ->
    (is_Some o <-> user <> "") /\
    forall a, o = Some a -> (ws a).1 = Upgrade ("uid-" +:+ user).
Proof.
  split; [done|]. unfold authorize. simpl. intros o w. destruct user as [|c user]; simpl.
  - intros [= <- <-]. split; [split; [by intros []|done]|done].
  - intros [= <- <-]. split; [split; [done|eauto]|]. by intros a [= <-].
Qed.

Lemma wrap_add_iter d n z :
  exists k, Nat.iter n (wrap_add d) z = z + d * Z.of_nat n + k * 2 ^ 32.
Proof.
  induction n as [|n [k IH]]; [exists 0; simpl; lia|].
  rewrite Nat.iter_succ, IH. unfold wrap_add, wrap_i32.
  set (a := z + d * Z.of_nat n + k * 2 ^ 32 + d + 2 ^ 31).
  exists (k - a / 2 ^ 32). pose proof (Z.div_mod a (2 ^ 32) ltac:(lia)). subst a. lia.
Qed.

(** The counter is the number of connections that are open, modulo 2^32. *)
Lemma counter_counts created destroyed :
  exists k,
    Nat.iter destroyed (fun z => (onBeforeDestroy z).1)
      (Nat.iter created (fun z => (onAfterCreate z).1) 0) =
    Z.of_nat created - Z.of_nat destroyed + k * 2 ^ 32.
Proof.
  destruct (wrap_add_iter 1 created 0) as [k E].
  destruct (wrap_add_iter (-1) destroyed (Nat.iter created (wrap_add 1) 0)) as [k' E'].
  exists (k + k'). change (fun z => (onAfterCreate z).1) with (wrap_add 1).
  change (fun z => (onBeforeDestroy z).1) with (wrap_add (-1)). rewrite E', E. lia.
Qed.

(** ** The program

    [run] and [main] of dataBroadcast.cpp.  What they ask of oatpp is a list
    of calls, in order; each may throw, as the library decides from the calls
    before it.  The class [US8::WebServer::Controller] that [run] makes is
    declared nowhere in the repository: to make one is a call like the
    others. *)
Inductive family := IP_4 | IP_6.
Record Address := mkAddress { host : string; port : Z; addressFamily : family }.

Inductive oatCall :=
  | EnvironmentInit
  | MakeObjectMapper
  | MakeConnectionProvider (address : Address)
  | MakeHttpRouter
  | MakeHttpConnectionHandler        (* on the router *)
  | MakeWebSocketConnectionHandler
  | SetSocketInstanceListener        (* a new InstanceListener with the mapper *)
  | MakeController                   (* with the mapper and the WebSocket handler *)
  | AddController                    (* to the router *)
  | MakeServer                       (* on the provider and the HTTP handler *)
  | RunServer
  | EnvironmentDestroy.

#[export] Instance family_eq_dec : EqDecision family.
Proof. solve_decision. Defined.
#[export] Instance address_eq_dec : EqDecision Address.
Proof. solve_decision. Defined.
#[export] Instance oatCall_eq_dec : EqDecision oatCall.
Proof. solve_decision. Defined.

Section program.
Local Open Scope list_scope.
Context (library : list oatCall -> oatCall -> outcome unit).

(** One call after the other, until one throws, which is the last made. *)
Fixpoint callAll (calls made : list oatCall) : list oatCall * outcome unit :=
  match calls with
  | [] => (made, Ok tt)
  | c :: calls' =>
      match library made c with
      | Ok _ => callAll calls' (made ++ [c])
      | r => (made ++ [c], r)
      end
  end.

Definition address (host : string) (port : Z) (useIPV4 : bool) : Address :=
  mkAddress host port (if useIPV4 then IP_4 else IP_6).

(** The constructor of [ApplicationComponents]. *)
Definition applicationComponents (host : string) (port : Z) (useIPV4 : bool) : list oatCall :=
  [MakeObjectMapper; MakeConnectionProvider (address host port useIPV4); MakeHttpRouter;
   MakeHttpConnectionHandler; MakeWebSocketConnectionHandler; SetSocketInstanceListener].

Definition runCalls : list oatCall :=
  applicationComponents "0.0.0.0" 9030 true ++ [MakeController; AddController; MakeServer; RunServer].

Definition run (made : list oatCall) : list oatCall * outcome unit := callAll runCalls made.

(** [main]: the calls made and the exit status.  The first call is outside
    the [try]; the last is in it, so that one that throws is made again. *)
Definition main : list oatCall * outcome Z :=
  match callAll [EnvironmentInit] [] with
  | (made, Ok _) =>
      let '(made, r) := run made in
      let '(made, r) := match r with Ok _ => callAll [EnvironmentDestroy] made | _ => (made, r) end in
      match r with
      | Ok _ => (made, Ok 0)
      | Throw _ =>
          match callAll [EnvironmentDestroy] made with
          | (made, Ok _) => (made, Ok 1)
          | (made, Throw e) => (made, Throw e)
          | (made, Undef) => (made, Undef)
          end
      | Undef => (made, Undef)
      end
  | (made, Throw e) => (made, Throw e)
  | (made, Undef) => (made, Undef)
  end.

Lemma callAll_made calls made made' r :
  callAll calls made = (made', r) ->
  (r = Ok tt -> made' = made ++ calls) /\
  (forall e, r = Throw e -> exists done c rest, calls = done ++ c :: rest /\
     made' = made ++ done ++ [c] /\ library (made ++ done) c = Throw e).
Proof.
  revert made. induction calls as [|c calls IH]; intros made; cbn [callAll].
  - intros [= <- <-]. rewrite app_nil_r. by split.
  - destruct (library made c) as [[]|e|] eqn:E.
    + intros [R T]%IH. rewrite <- (assoc_L app) in R. split; [exact R|]. intros e Er.
      destruct (T e Er) as (d & x & rest & -> & -> & Ex). exists (c :: d), x, rest.
      rewrite <- (assoc_L app) in *. by split_and!.
    + intros [= <- <-]. split; [done|]. intros e' [= <-]. exists [], c, calls.
      by rewrite (app_nil_r made).
    + by intros [= <- <-].
Qed.

(** A program that ends with a status has set oatpp up first and torn it down
    last.  With status 0 it made every call of [run] in between, and no
    other; with status 1 it made them up to one that threw - the last being
    the tear-down itself, which is then called a second time. *)
Lemma main_balanced made status :
  main = (made, Ok status) ->
  exists calls, made = [EnvironmentInit] ++ calls ++ [EnvironmentDestroy] /\
    (status = 0 /\ calls = runCalls \/
     status = 1 /\ exists done c rest e, runCalls ++ [EnvironmentDestroy] = done ++ c :: rest /\
                     calls = done ++ [c] /\ library ([EnvironmentInit] ++ done) c = Throw e).
Proof.
  unfold main. simpl (callAll [EnvironmentInit] []).
  destruct (library [] EnvironmentInit) as [[]|e|]; [|done..].
  unfold run. destruct (callAll runCalls [EnvironmentInit]) as [made1 r1] eqn:E1.
  apply callAll_made in E1 as [R T]. cbn [callAll].
  destruct r1 as [[]|e|]; [| |done].
  - rewrite (R eq_refl). destruct (library _ EnvironmentDestroy) as [[]|e|] eqn:Ed; [| |done].
    + intros [= <- <-]. exists runCalls. by split; [|left].
    + destruct (library (([EnvironmentInit] ++ runCalls) ++ [EnvironmentDestroy])
                  EnvironmentDestroy) as [[]| |]; [|done..]. intros [= <- <-].
      exists (runCalls ++ [EnvironmentDestroy]). split; [done|]. right. split; [done|].
      exists runCalls, EnvironmentDestroy, [], e. by split_and!.
  - destruct (library made1 EnvironmentDestroy) as [[]|e'|] eqn:Ed; [|done..].
    intros [= <- <-]. destruct (T e eq_refl) as (d & c & rest & Er & -> & Ec).
    exists (d ++ [c]). split; [by rewrite <- !(assoc_L app)|]. right. split; [done|].
    exists d, c, (rest ++ [EnvironmentDestroy]), e. split; [|done].
    transitivity (runCalls ++ [EnvironmentDestroy]); [done|]. by rewrite Er, <- (assoc_L app).
Qed.
End program.

(** A port that is taken. *)
Example demo_port_taken :
  main (fun _ c => match c with MakeConnectionProvider _ => Throw (LibraryError "in use") | _ => Ok tt end) =
  ([EnvironmentInit; MakeObjectMapper; MakeConnectionProvider (address "0.0.0.0" 9030 true);
    EnvironmentDestroy], Ok 1).
Proof. vm_compute. reflexivity. Qed.

(** Two messages, the first of two frames; the mapper is the payload, and
    it refuses the second. *)
Definition demoOat : OatEnv :=
  mkOat (fun d => match d with
                  | ResponseMessage _ _ p =>
                      if decide (p = "bad") then Throw (LibraryError "mapper") else Ok p
                  | ErrorMessage _ r => Ok r
                  end) (fun _ _ => Ok tt).
Example demo_answers :
  (fun r => mSent r.1) <$>
    readMessages demoOat [["go"; "od"]; ["bad"]; ["x"]] (newListener (B:=string)) =
  Ok [SendOneFrameText "good"; SendOneFrameText "stuff"; SendOneFrameText "x"].
Proof. vm_compute. reflexivity. Qed.
